(** * radiod (ka9q-radio, main.c): startup, channel creation and signal handling

    A shallow embedding of the orchestration code of [main.c]:
    [loadconfig], [process_section], [setup_hardware], [closedown] and
    [verbosity].  C globals become the fields of one state record that is
    threaded through a small result monad; [exit], a failed [assert] and
    undefined behaviour are separate results.  C [int]/[uint32_t] values are
    [Z] with the wrap-around written out, [float]/[double] values are IEEE-754
    binary32/binary64 numbers ([spec_float]), configuration dictionaries are
    finite maps keyed by strings. *)

From Stdlib Require Import ZArith List Ascii String Bool Lia.
From Stdlib Require Import Floats.SpecFloat.
From stdpp Require Import gmap strings list sorting pretty.

Open Scope string_scope.
Open Scope Z_scope.

(* ================================================================= *)
(** ** C integer types *)

Definition INT_MAX : Z := 2147483647.
Definition INT_MIN : Z := -2147483648.
Definition LONG_MAX : Z := 9223372036854775807.
Definition LONG_MIN : Z := -9223372036854775808.
Definition UINT32_MOD : Z := 4294967296.

Definition in_int (z : Z) : bool := (INT_MIN <=? z) && (z <=? INT_MAX).
Definition in_long (z : Z) : bool := (LONG_MIN <=? z) && (z <=? LONG_MAX).

(** Conversion to [uint32_t]: reduction modulo 2^32. *)
Definition to_uint32 (z : Z) : Z := z mod UINT32_MOD.

(** Conversion of an out-of-range value to [int]: the two's-complement
    wrap-around that gcc and clang implement. *)
Definition to_int (z : Z) : Z := (z + 2147483648) mod UINT32_MOD - 2147483648.

(** <sysexits.h> *)
Definition EX_OK : Z := 0.
Definition EX_USAGE : Z := 64.
Definition EX_NOINPUT : Z := 66.
Definition EX_NOHOST : Z := 68.
Definition EX_UNAVAILABLE : Z := 69.
Definition EX_SOFTWARE : Z := 70.

(* ================================================================= *)
(** ** C strings *)

Definition char_code (c : ascii) : Z := Z.of_nat (nat_of_ascii c).

Definition isdigit (c : ascii) : bool := (48 <=? char_code c) && (char_code c <=? 57).

Definition tolower (c : ascii) : ascii :=
  if (65 <=? char_code c) && (char_code c <=? 90)
  then ascii_of_nat (nat_of_ascii c + 32) else c.

Fixpoint lowercase (s : string) : string :=
  match s with
  | EmptyString => EmptyString
  | String c r => String (tolower c) (lowercase r)
  end.

(** [strcasecmp]: difference of the first pair of characters that differ
    after lower-casing, 0 when there is none. *)
Fixpoint strcasecmp (a b : string) : Z :=
  match a, b with
  | EmptyString, EmptyString => 0
  | EmptyString, String d _ => - char_code (tolower d)
  | String c _, EmptyString => char_code (tolower c)
  | String c a', String d b' =>
      if Ascii.eqb (tolower c) (tolower d) then strcasecmp a' b'
      else char_code (tolower c) - char_code (tolower d)
  end.

(** [strcmp(a,b) == 0] *)
Definition streq (a b : string) : bool := String.eqb a b.

Fixpoint string_rev_aux (s acc : string) : string :=
  match s with
  | EmptyString => acc
  | String c r => string_rev_aux r (String c acc)
  end.

Definition has_suffix (str suffix : string) : bool :=
  String.prefix (string_rev_aux suffix EmptyString) (string_rev_aux str EmptyString).

(** [ensure_suffix] (misc.c; here from its use in main.c: "Add .local if not
    present"). *)
Definition ensure_suffix (str suffix : string) : string :=
  if has_suffix str suffix then str else String.append str suffix.

(** [strchr(Hostname,'.')] followed by [*cp = '\0']: cut at the first dot. *)
Fixpoint cut_at_dot (s : string) : string :=
  match s with
  | EmptyString => EmptyString
  | String c r => if Ascii.eqb c "."%char then EmptyString else String c (cut_at_dot r)
  end.

(** [strtok_r(s," \t",...)] called until it returns NULL: the maximal runs of
    characters other than space and tab. *)
Definition is_delim (c : ascii) : bool := Ascii.eqb c " "%char || Ascii.eqb c "009"%char.

Fixpoint strtok_all (s : string) (cur : string) : list string :=
  match s with
  | EmptyString => if streq cur "" then [] else [string_rev_aux cur ""]
  | String c r =>
      if is_delim c
      then (if streq cur "" then strtok_all r "" else string_rev_aux cur "" :: strtok_all r "")
      else strtok_all r (String c cur)
  end.

(* ================================================================= *)
(** ** C floating point: binary32 ([float]) and binary64 ([double]) *)

Definition float_of_Z (z : Z) : spec_float := binary_normalize 24 128 z 0 false.
Definition double_of_Z (z : Z) : spec_float := binary_normalize 53 1024 z 0 false.

(** [double] to [float]: round to nearest even. *)
Definition float_of_double (x : spec_float) : spec_float :=
  match x with
  | S754_finite s m e => binary_round 24 128 s m e
  | _ => x
  end.

(** [float] to [double] is exact: every binary32 number is a binary64 number. *)
Definition double_of_float (x : spec_float) : spec_float := x.

Definition fmul32 : spec_float -> spec_float -> spec_float := SFmul 24 128.
Definition fdiv32 : spec_float -> spec_float -> spec_float := SFdiv 24 128.
Definition fdiv64 : spec_float -> spec_float -> spec_float := SFdiv 53 1024.

(** The integer part and the doubled fractional remainder, compared with the
    unit, of a positive finite number [m * 2^e]. *)
Definition SF_floor_pos (m : positive) (e : Z) : Z :=
  if 0 <=? e then Z.pos m * 2 ^ e else Z.pos m / 2 ^ (- e).

Definition SF_frac_ge_half (m : positive) (e : Z) : bool :=
  if 0 <=? e then false else 2 ^ (- e) <=? 2 * (Z.pos m mod 2 ^ (- e)).

(** Conversion of a floating value to an integer type truncates toward zero;
    no result for infinities and NaN. *)
Definition SF_trunc (x : spec_float) : option Z :=
  match x with
  | S754_zero _ => Some 0
  | S754_finite s m e => Some (cond_Zopp s (SF_floor_pos m e))
  | _ => None
  end.

(** [lround]: to the nearest integer, halfway cases away from zero;
    unspecified (here: no result) when the value is not a [long]. *)
Definition lround (x : spec_float) : option Z :=
  match x with
  | S754_zero _ => Some 0
  | S754_finite s m e =>
      let r := SF_floor_pos m e + (if SF_frac_ge_half m e then 1 else 0) in
      if in_long r then Some (cond_Zopp s r) else None
  | _ => None
  end.

(** [x < 0] and [x == y] on doubles. *)
Definition SF_is_negative (x : spec_float) : bool := SFltb x (S754_zero false).

(* ================================================================= *)
(** ** Configuration dictionaries (iniparser) *)

(** An iniparser dictionary: the sections in file order, each a finite map
    from key to value.  iniparser stores section names and keys in lower
    case and lower-cases the key it is asked for. *)
Definition dictionary : Type := list (string * gmap string string).

Fixpoint find_section (d : dictionary) (sname : string) : option (gmap string string) :=
  match d with
  | [] => None
  | (n, kv) :: rest => if streq n (lowercase sname) then Some kv else find_section rest sname
  end.

Definition config_lookup (d : dictionary) (sname key : string) : option string :=
  match find_section d sname with
  | Some kv => kv !! lowercase key
  | None => None
  end.

(** [config_getstring]: the value, or the default (which may be NULL). *)
Definition config_getstring (d : dictionary) (sname key : string) (def : option string)
  : option string :=
  match config_lookup d sname key with
  | Some v => Some v
  | None => def
  end.

(** [config2_getstring(d1,d2,sec1,sec2,key,def)]: "fall back to setting in
    [global] if parameter not specified in individual section": [sec2] of
    [d2] first, then [sec1] of [d1], then the default. *)
Definition config2_getstring (d1 d2 : dictionary) (sec1 sec2 key : string)
  (def : option string) : option string :=
  match config_lookup d2 sec2 key with
  | Some v => Some v
  | None => config_getstring d1 sec1 key def
  end.

(** iniparser_getboolean: decided by the first character of the value. *)
Definition bool_of_value (v : string) (def : bool) : bool :=
  match v with
  | String c _ =>
      if existsb (Ascii.eqb c) ["y"; "Y"; "1"; "t"; "T"]%char then true
      else if existsb (Ascii.eqb c) ["n"; "N"; "0"; "f"; "F"]%char then false
      else def
  | EmptyString => def
  end.

Definition config_getboolean (d : dictionary) (sname key : string) (def : bool) : bool :=
  match config_lookup d sname key with
  | Some v => bool_of_value v def
  | None => def
  end.

(* ================================================================= *)
(** ** Data model: notches, front end, channels *)

(** [struct notch_state]: one spur notch of the filter input. *)
Module notch_state.
Record t : Type := mk { state : spec_float; bin : Z; alpha : spec_float }.
(** An element of zeroed ([calloc]) memory. *)
Definition zero : t := mk (S754_zero false) 0 (S754_zero false).
End notch_state.

(** The members of [struct frontend] that main.c reads or writes. *)
Module frontend.
Record t : Type := mk {
  samprate : Z;                       (* int, filled by the driver's setup *)
  isreal : bool;
  L : Z;                              (* input data block size *)
  M : Z;                              (* filter impulse response duration *)
  spurs : list spec_float;            (* double spurs[NSPURS] *)
  notches : list notch_state.t;       (* Frontend.in.notches *)
  description : string;
  started : bool                      (* the start routine has run *)
}.
Definition zero : t := mk 0 false 0 0 [] [] "" false.
Definition set_setup (sr : Z) (re : bool) (sp : list spec_float) (d : string) (f : t) : t :=
  mk sr re (L f) (M f) sp (notches f) d (started f).
Definition set_L (v : Z) (f : t) : t :=
  mk (samprate f) (isreal f) v (M f) (spurs f) (notches f) (description f) (started f).
Definition set_M (v : Z) (f : t) : t :=
  mk (samprate f) (isreal f) (L f) v (spurs f) (notches f) (description f) (started f).
Definition set_notches (v : list notch_state.t) (f : t) : t :=
  mk (samprate f) (isreal f) (L f) (M f) (spurs f) v (description f) (started f).
Definition set_description (v : string) (f : t) : t :=
  mk (samprate f) (isreal f) (L f) (M f) (spurs f) (notches f) v (started f).
Definition set_started (v : bool) (f : t) : t :=
  mk (samprate f) (isreal f) (L f) (M f) (spurs f) (notches f) (description f) v.
End frontend.

(** The members of [struct channel] that main.c reads or writes.  The fields
    that a preset or a configuration section can set are kept by their
    configuration key in [params], except the TTL, which main.c uses as an
    [int]. *)
Module channel.
Record t : Type := mk {
  lifetime : Z;
  preset : string;
  params : gmap string string;
  output_ttl : Z;                     (* output.ttl *)
  output_dest_string : string;        (* output.dest_string *)
  output_rtp_ssrc : Z;                (* output.rtp.ssrc *)
  tune_freq : spec_float;             (* set by set_freq *)
  demod_running : bool;               (* set by start_demod *)
  sap_running : bool;                 (* sap.thread created *)
  rtcp_running : bool                 (* rtcp.thread created *)
}.
(** [struct channel chan_template = {0}] *)
Definition zero : t := mk 0 "" ∅ 0 "" 0 (S754_zero false) false false false.
Definition set_lifetime (v : Z) (c : t) : t :=
  mk v (preset c) (params c) (output_ttl c) (output_dest_string c) (output_rtp_ssrc c)
     (tune_freq c) (demod_running c) (sap_running c) (rtcp_running c).
Definition set_preset (v : string) (c : t) : t :=
  mk (lifetime c) v (params c) (output_ttl c) (output_dest_string c) (output_rtp_ssrc c)
     (tune_freq c) (demod_running c) (sap_running c) (rtcp_running c).
Definition set_params (v : gmap string string) (c : t) : t :=
  mk (lifetime c) (preset c) v (output_ttl c) (output_dest_string c) (output_rtp_ssrc c)
     (tune_freq c) (demod_running c) (sap_running c) (rtcp_running c).
Definition set_output_ttl (v : Z) (c : t) : t :=
  mk (lifetime c) (preset c) (params c) v (output_dest_string c) (output_rtp_ssrc c)
     (tune_freq c) (demod_running c) (sap_running c) (rtcp_running c).
Definition set_output_dest_string (v : string) (c : t) : t :=
  mk (lifetime c) (preset c) (params c) (output_ttl c) v (output_rtp_ssrc c)
     (tune_freq c) (demod_running c) (sap_running c) (rtcp_running c).
Definition set_output_rtp_ssrc (v : Z) (c : t) : t :=
  mk (lifetime c) (preset c) (params c) (output_ttl c) (output_dest_string c) v
     (tune_freq c) (demod_running c) (sap_running c) (rtcp_running c).
Definition set_tune_freq (v : spec_float) (c : t) : t :=
  mk (lifetime c) (preset c) (params c) (output_ttl c) (output_dest_string c) (output_rtp_ssrc c)
     v (demod_running c) (sap_running c) (rtcp_running c).
Definition set_demod_running (v : bool) (c : t) : t :=
  mk (lifetime c) (preset c) (params c) (output_ttl c) (output_dest_string c) (output_rtp_ssrc c)
     (tune_freq c) v (sap_running c) (rtcp_running c).
Definition set_sap_running (v : bool) (c : t) : t :=
  mk (lifetime c) (preset c) (params c) (output_ttl c) (output_dest_string c) (output_rtp_ssrc c)
     (tune_freq c) (demod_running c) v (rtcp_running c).
Definition set_rtcp_running (v : bool) (c : t) : t :=
  mk (lifetime c) (preset c) (params c) (output_ttl c) (output_dest_string c) (output_rtp_ssrc c)
     (tune_freq c) (demod_running c) (sap_running c) v.
End channel.

(** FFTW planner rigor levels (fftw3.h). *)
Inductive fftw_level : Type :=
| FFTW_ESTIMATE | FFTW_MEASURE | FFTW_PATIENT | FFTW_EXHAUSTIVE | FFTW_WISDOM_ONLY.

(* ================================================================= *)
(** ** Observable events *)

(** What the program writes to stderr, one constructor per [fprintf] site,
    with the values it formats. *)
Inductive message : Type :=
| Msg_validate (line : string)                         (* config_validate*: its report *)
| Msg_loading_presets (file : string)
| Msg_cant_load_preset (file : string)
| Msg_hardware_required
| Msg_no_hardware_section (hardware : string)
| Msg_template_loadpreset (file mode : string)         (* warning: loadpreset in [global] *)
| Msg_no_default_mode
| Msg_output_socket (ttl : Z)
| Msg_duplicate_names (data status : string)
| Msg_cant_listen (status : string)
| Msg_preset_not_specified (sname : string)
| Msg_loadpreset_failed (sname file mode : string)
| Msg_cant_parse_frequency (sname tok : string)
| Msg_cant_allocate_ssrc (lo hi : Z)
| Msg_channels_started (sname : string) (n : Z)
| Msg_driver_load (device : string)                    (* dynamic loading failed *)
| Msg_device_setup_returned (r : Z)
| Msg_nonintegral (blocktime : spec_float) (samprate : Z) (eL : spec_float) (l : Z)
| Msg_frontend_start_returned (r : Z)
| Msg_no_frontend_start.

Inductive event : Type :=
| Ev_stderr (m : message)
| Ev_write (fd : Z) (text : string)                    (* write(2) *)
| Ev_sleep (seconds : Z) (stop_visible : bool).        (* sleep(3), and the value of
                                                          Stop_transfers the other
                                                          threads see meanwhile *)

(* ================================================================= *)
(** ** Program state: the globals of main.c *)

Record radiod : Type := mk_radiod {
  Verbose : Z;
  Stop_transfers : bool;
  Blocktime : spec_float;             (* float, milliseconds *)
  Overlap : Z;
  Channel_idle_timeout : Z;
  FFTW_planning_level : fftw_level;   (* owned by filter.c *)
  RTCP_enable : bool;
  SAP_enable : bool;
  Global_use_dns : bool;
  Preset_file : string;
  Preset_table : option dictionary;
  Metadata_dest_string : string;
  Data : string;
  Template : channel.t;
  Frontend : frontend.t;
  Channel_list : gmap Z channel.t;    (* the channel registry, by SSRC *)
  Nchans : Z;
  Output_fd : Z;
  Output_fd0 : Z;
  Ctl_fd : Z;
  Status_thread : bool;               (* radio_status has been started *)
  trace : list event
}.

Definition set_Verbose (v : Z) (s : radiod) : radiod :=
  mk_radiod v (Stop_transfers s) (Blocktime s) (Overlap s) (Channel_idle_timeout s)
    (FFTW_planning_level s) (RTCP_enable s) (SAP_enable s) (Global_use_dns s) (Preset_file s)
    (Preset_table s) (Metadata_dest_string s) (Data s) (Template s) (Frontend s)
    (Channel_list s) (Nchans s) (Output_fd s) (Output_fd0 s) (Ctl_fd s) (Status_thread s) (trace s).
Definition set_Stop_transfers (v : bool) (s : radiod) : radiod :=
  mk_radiod (Verbose s) v (Blocktime s) (Overlap s) (Channel_idle_timeout s)
    (FFTW_planning_level s) (RTCP_enable s) (SAP_enable s) (Global_use_dns s) (Preset_file s)
    (Preset_table s) (Metadata_dest_string s) (Data s) (Template s) (Frontend s)
    (Channel_list s) (Nchans s) (Output_fd s) (Output_fd0 s) (Ctl_fd s) (Status_thread s) (trace s).
Definition set_Blocktime (v : spec_float) (s : radiod) : radiod :=
  mk_radiod (Verbose s) (Stop_transfers s) v (Overlap s) (Channel_idle_timeout s)
    (FFTW_planning_level s) (RTCP_enable s) (SAP_enable s) (Global_use_dns s) (Preset_file s)
    (Preset_table s) (Metadata_dest_string s) (Data s) (Template s) (Frontend s)
    (Channel_list s) (Nchans s) (Output_fd s) (Output_fd0 s) (Ctl_fd s) (Status_thread s) (trace s).
Definition set_Overlap (v : Z) (s : radiod) : radiod :=
  mk_radiod (Verbose s) (Stop_transfers s) (Blocktime s) v (Channel_idle_timeout s)
    (FFTW_planning_level s) (RTCP_enable s) (SAP_enable s) (Global_use_dns s) (Preset_file s)
    (Preset_table s) (Metadata_dest_string s) (Data s) (Template s) (Frontend s)
    (Channel_list s) (Nchans s) (Output_fd s) (Output_fd0 s) (Ctl_fd s) (Status_thread s) (trace s).
Definition set_Channel_idle_timeout (v : Z) (s : radiod) : radiod :=
  mk_radiod (Verbose s) (Stop_transfers s) (Blocktime s) (Overlap s) v
    (FFTW_planning_level s) (RTCP_enable s) (SAP_enable s) (Global_use_dns s) (Preset_file s)
    (Preset_table s) (Metadata_dest_string s) (Data s) (Template s) (Frontend s)
    (Channel_list s) (Nchans s) (Output_fd s) (Output_fd0 s) (Ctl_fd s) (Status_thread s) (trace s).
Definition set_FFTW_planning_level (v : fftw_level) (s : radiod) : radiod :=
  mk_radiod (Verbose s) (Stop_transfers s) (Blocktime s) (Overlap s) (Channel_idle_timeout s)
    v (RTCP_enable s) (SAP_enable s) (Global_use_dns s) (Preset_file s)
    (Preset_table s) (Metadata_dest_string s) (Data s) (Template s) (Frontend s)
    (Channel_list s) (Nchans s) (Output_fd s) (Output_fd0 s) (Ctl_fd s) (Status_thread s) (trace s).
Definition set_enables (rtcp sap dns : bool) (s : radiod) : radiod :=
  mk_radiod (Verbose s) (Stop_transfers s) (Blocktime s) (Overlap s) (Channel_idle_timeout s)
    (FFTW_planning_level s) rtcp sap dns (Preset_file s)
    (Preset_table s) (Metadata_dest_string s) (Data s) (Template s) (Frontend s)
    (Channel_list s) (Nchans s) (Output_fd s) (Output_fd0 s) (Ctl_fd s) (Status_thread s) (trace s).
Definition set_Preset_file (v : string) (s : radiod) : radiod :=
  mk_radiod (Verbose s) (Stop_transfers s) (Blocktime s) (Overlap s) (Channel_idle_timeout s)
    (FFTW_planning_level s) (RTCP_enable s) (SAP_enable s) (Global_use_dns s) v
    (Preset_table s) (Metadata_dest_string s) (Data s) (Template s) (Frontend s)
    (Channel_list s) (Nchans s) (Output_fd s) (Output_fd0 s) (Ctl_fd s) (Status_thread s) (trace s).
Definition set_Preset_table (v : option dictionary) (s : radiod) : radiod :=
  mk_radiod (Verbose s) (Stop_transfers s) (Blocktime s) (Overlap s) (Channel_idle_timeout s)
    (FFTW_planning_level s) (RTCP_enable s) (SAP_enable s) (Global_use_dns s) (Preset_file s)
    v (Metadata_dest_string s) (Data s) (Template s) (Frontend s)
    (Channel_list s) (Nchans s) (Output_fd s) (Output_fd0 s) (Ctl_fd s) (Status_thread s) (trace s).
Definition set_Metadata_dest_string (v : string) (s : radiod) : radiod :=
  mk_radiod (Verbose s) (Stop_transfers s) (Blocktime s) (Overlap s) (Channel_idle_timeout s)
    (FFTW_planning_level s) (RTCP_enable s) (SAP_enable s) (Global_use_dns s) (Preset_file s)
    (Preset_table s) v (Data s) (Template s) (Frontend s)
    (Channel_list s) (Nchans s) (Output_fd s) (Output_fd0 s) (Ctl_fd s) (Status_thread s) (trace s).
Definition set_Data (v : string) (s : radiod) : radiod :=
  mk_radiod (Verbose s) (Stop_transfers s) (Blocktime s) (Overlap s) (Channel_idle_timeout s)
    (FFTW_planning_level s) (RTCP_enable s) (SAP_enable s) (Global_use_dns s) (Preset_file s)
    (Preset_table s) (Metadata_dest_string s) v (Template s) (Frontend s)
    (Channel_list s) (Nchans s) (Output_fd s) (Output_fd0 s) (Ctl_fd s) (Status_thread s) (trace s).
Definition set_Template (v : channel.t) (s : radiod) : radiod :=
  mk_radiod (Verbose s) (Stop_transfers s) (Blocktime s) (Overlap s) (Channel_idle_timeout s)
    (FFTW_planning_level s) (RTCP_enable s) (SAP_enable s) (Global_use_dns s) (Preset_file s)
    (Preset_table s) (Metadata_dest_string s) (Data s) v (Frontend s)
    (Channel_list s) (Nchans s) (Output_fd s) (Output_fd0 s) (Ctl_fd s) (Status_thread s) (trace s).
Definition set_Frontend (v : frontend.t) (s : radiod) : radiod :=
  mk_radiod (Verbose s) (Stop_transfers s) (Blocktime s) (Overlap s) (Channel_idle_timeout s)
    (FFTW_planning_level s) (RTCP_enable s) (SAP_enable s) (Global_use_dns s) (Preset_file s)
    (Preset_table s) (Metadata_dest_string s) (Data s) (Template s) v
    (Channel_list s) (Nchans s) (Output_fd s) (Output_fd0 s) (Ctl_fd s) (Status_thread s) (trace s).
Definition set_Channel_list (v : gmap Z channel.t) (s : radiod) : radiod :=
  mk_radiod (Verbose s) (Stop_transfers s) (Blocktime s) (Overlap s) (Channel_idle_timeout s)
    (FFTW_planning_level s) (RTCP_enable s) (SAP_enable s) (Global_use_dns s) (Preset_file s)
    (Preset_table s) (Metadata_dest_string s) (Data s) (Template s) (Frontend s)
    v (Nchans s) (Output_fd s) (Output_fd0 s) (Ctl_fd s) (Status_thread s) (trace s).
Definition set_Nchans (v : Z) (s : radiod) : radiod :=
  mk_radiod (Verbose s) (Stop_transfers s) (Blocktime s) (Overlap s) (Channel_idle_timeout s)
    (FFTW_planning_level s) (RTCP_enable s) (SAP_enable s) (Global_use_dns s) (Preset_file s)
    (Preset_table s) (Metadata_dest_string s) (Data s) (Template s) (Frontend s)
    (Channel_list s) v (Output_fd s) (Output_fd0 s) (Ctl_fd s) (Status_thread s) (trace s).
Definition set_fds (out out0 ctl : Z) (st : bool) (s : radiod) : radiod :=
  mk_radiod (Verbose s) (Stop_transfers s) (Blocktime s) (Overlap s) (Channel_idle_timeout s)
    (FFTW_planning_level s) (RTCP_enable s) (SAP_enable s) (Global_use_dns s) (Preset_file s)
    (Preset_table s) (Metadata_dest_string s) (Data s) (Template s) (Frontend s)
    (Channel_list s) (Nchans s) out out0 ctl st (trace s).
Definition set_trace (v : list event) (s : radiod) : radiod :=
  mk_radiod (Verbose s) (Stop_transfers s) (Blocktime s) (Overlap s) (Channel_idle_timeout s)
    (FFTW_planning_level s) (RTCP_enable s) (SAP_enable s) (Global_use_dns s) (Preset_file s)
    (Preset_table s) (Metadata_dest_string s) (Data s) (Template s) (Frontend s)
    (Channel_list s) (Nchans s) (Output_fd s) (Output_fd0 s) (Ctl_fd s) (Status_thread s) v.

(* ================================================================= *)
(** ** The result monad *)

(** How a piece of the program ends: it returns a value, it calls [exit] (or
    [_exit]) with a code, an [assert] fails, or its behaviour is undefined. *)
Inductive result (A : Type) : Type :=
| Ret (a : A) (s : radiod)
| Exit (code : Z) (s : radiod)
| Abort (s : radiod)
| Undefined.
Arguments Ret {A} a s.
Arguments Exit {A} code s.
Arguments Abort {A} s.
Arguments Undefined {A}.

Definition prog (A : Type) : Type := radiod -> result A.

#[global] Instance prog_ret : MRet prog := fun A a s => Ret a s.
#[global] Instance prog_bind : MBind prog := fun A B f m s =>
  match m s with
  | Ret a s' => f a s'
  | Exit c s' => Exit c s'
  | Abort s' => Abort s'
  | Undefined => Undefined
  end.

Definition get {A : Type} (f : radiod -> A) : prog A := fun s => Ret (f s) s.
Definition modify (f : radiod -> radiod) : prog unit := fun s => Ret tt (f s).
Definition emit (e : event) : prog unit := modify (fun s => set_trace (trace s ++ [e]) s).
Definition fprintf_stderr (m : message) : prog unit := emit (Ev_stderr m).
Definition exit {A : Type} (code : Z) : prog A := fun s => Exit code s.
Definition assert (b : bool) : prog unit := fun s => if b then Ret tt s else Abort s.
Definition undefined {A : Type} : prog A := fun _ => Undefined.

(** A value of type [int] computed without overflow; signed overflow is
    undefined. *)
Definition int_checked (z : Z) : prog Z := if in_int z then mret z else undefined.

(** Conversion of a floating value to [int]: undefined unless the truncated
    value is an [int]. *)
Definition int_of_floating (x : spec_float) : prog Z :=
  match SF_trunc x with
  | Some z => int_checked z
  | None => undefined
  end.

Definition when (b : bool) (p : prog unit) : prog unit := if b then p else mret tt.

Fixpoint for_each {A : Type} (f : A -> prog unit) (l : list A) : prog unit :=
  match l with
  | [] => mret tt
  | x :: r => f x ;; for_each f r
  end.

(** The values the globals have before [main] runs; [level] is the initial
    value of [FFTW_planning_level], which filter.c owns, and [verbose] the
    number of [-v] options. *)
Definition DEFAULT_BLOCKTIME : spec_float := float_of_Z 20.
Definition DEFAULT_OVERLAP : Z := 5.
Definition DEFAULT_LIFETIME : Z := 20.

Definition radiod_init (level : fftw_level) (verbose : Z) : radiod :=
  mk_radiod verbose false DEFAULT_BLOCKTIME DEFAULT_OVERLAP 0 level false false false ""
    None "" "" channel.zero frontend.zero ∅ 0 (-1) (-1) (-1) false [].

(* ================================================================= *)
(** ** Signal handling (main.c 231-237, 1050-1067) *)

Inductive signal : Type :=
| SIGINT | SIGQUIT | SIGTERM | SIGPIPE | SIGUSR1 | SIGUSR2 | SIGOTHER (number : Z).

#[global] Instance signal_eq_dec : EqDecision signal.
Proof. solve_decision. Defined.

Definition newline : string := String "010"%char EmptyString.

Definition closedown (a : signal) : prog unit :=
  emit (Ev_write 1 (String.append "Received signal, shutting down" newline)) ;;
  modify (set_Stop_transfers true) ;;
  stop ← get Stop_transfers;
  emit (Ev_sleep 1 stop) ;;                       (* pause for threads to see it *)
  exit (if decide (a = SIGTERM) then EX_OK else EX_SOFTWARE).

Definition verbosity (a : signal) : prog unit :=
  if decide (a = SIGUSR1) then
    v ← get Verbose;
    v' ← int_checked (v + 1);
    modify (set_Verbose v')
  else if decide (a = SIGUSR2) then
    v ← get Verbose;
    modify (set_Verbose (if v <=? 0 then 0 else v - 1))
  else
    mret tt.

Inductive disposition : Type :=
| SIG_DFL
| SIG_IGN
| Handler (h : signal -> prog unit).

(** The dispositions [main] installs with [signal()]. *)
Definition main_signals (sig : signal) : disposition :=
  match sig with
  | SIGINT => Handler closedown
  | SIGQUIT => Handler closedown
  | SIGTERM => Handler closedown
  | SIGPIPE => SIG_IGN
  | SIGUSR1 => Handler verbosity
  | SIGUSR2 => Handler verbosity
  | SIGOTHER _ => SIG_DFL
  end.

(** Delivery of a signal; the default action of the other signals is the
    operating system's and has no model here. *)
Definition deliver (sig : signal) (s : radiod) : option (result unit) :=
  match main_signals sig with
  | Handler h => Some (h sig s)
  | SIG_IGN => Some (Ret tt s)
  | SIG_DFL => None
  end.

(* ================================================================= *)
(** ** The environment of the program *)

(** What a front-end driver's [setup] leaves in [Frontend], and its status. *)
Record setup_result : Type := mk_setup_result {
  sr_status : Z;
  sr_samprate : Z;
  sr_isreal : bool;
  sr_spurs : list spec_float;
  sr_description : string
}.

(** The function pointers of a driver: [setup], and [start] (NULL, or the
    routine with the status it returns). *)
Record driver : Type := mk_driver {
  drv_setup : dictionary -> string -> setup_result;
  drv_start : option Z
}.

(** Everything main.c calls but does not define: libc, iniparser's file
    access, the network, the drivers, and the tables and functions of the
    other translation units. *)
Record world : Type := mk_world {
  Name : string;                                       (* instance name, -N or the config path *)
  gethostname : string;
  strtol : string -> Z;                                (* integer value of a config string *)
  strtod : string -> spec_float;                       (* double value of a config string *)
  dist_path : string -> string;                        (* full path of a distribution file *)
  iniparser_load : string -> option dictionary;        (* NULL when the file cannot be loaded *)
  config_validate : option dictionary -> list string;  (* report lines for the preset table *)
  config_validate_section : dictionary -> string -> list string;
  Channel_keys : string -> bool;                       (* the keys a channel section may hold *)
  default_params : gmap string string;                 (* compiled-in channel defaults *)
  default_ttl : Z;
  find_driver : dictionary -> string -> option driver; (* static table or dlopen/dlsym *)
  compute_tuning : Z -> Z -> Z -> spec_float -> Z * Z * spec_float;
                                                       (* N M samprate freq: status, shift, remainder *)
  parse_frequency : string -> bool -> spec_float;
  output_mcast : Z -> Z;                               (* ttl: descriptor, negative on failure *)
  listen_mcast : Z;
  schedule : list nat                                  (* the start-up threads in the order in
                                                          which the system lets them take
                                                          their steps *)
}.

Definition GLOBAL : string := "global".

Definition config_getint (w : world) (d : dictionary) (sname key : string) (def : Z) : Z :=
  match config_lookup d sname key with
  | Some v => to_int (strtol w v)
  | None => def
  end.

Definition config_getdouble (w : world) (d : dictionary) (sname key : string)
  (def : spec_float) : spec_float :=
  match config_lookup d sname key with
  | Some v => strtod w v
  | None => def
  end.

(* ================================================================= *)
(** ** Channel defaults, presets and the channel registry *)

(** Modelled from the spec: [set_defaults] (radio.c is not among the sources)
    installs the compiled-in defaults, the lowest of the four parameter
    layers. *)
Definition set_defaults (w : world) (c : channel.t) : channel.t :=
  channel.set_output_ttl (default_ttl w)
    (channel.set_params (default_params w ∪ channel.params c) c).

(** The keys of a section that [loadpreset] stores in [params]. *)
Definition is_param_key (w : world) (k : string) : bool :=
  Channel_keys w k && negb (streq k "ttl").

Definition section_params (w : world) (kv : gmap string string) : gmap string string :=
  filter (fun p => is_param_key w p.1 = true) kv.

(** Modelled from the spec: [loadpreset(chan,table,sname)] (radio.c is not
    among the sources) overwrites the parameters of [chan] with the entries
    of section [sname] of [table]; entries the section lacks keep their
    value.  It returns nonzero, leaving the channel as it is, when the table
    has no such section. *)
Definition loadpreset (w : world) (c : channel.t) (table : option dictionary)
  (sname : string) : Z * channel.t :=
  match table with
  | None => (-1, c)
  | Some d =>
      match find_section d sname with
      | None => (-1, c)
      | Some kv =>
          let c1 := channel.set_params (section_params w kv ∪ channel.params c) c in
          let c2 := match kv !! "ttl" with
                    | Some v => channel.set_output_ttl (to_int (strtol w v)) c1
                    | None => c1
                    end in
          (0, c2)
      end
  end.

(** Modelled from the spec: [create_chan(ssrc)] (radio.c is not among the
    sources) "inserts a new channel with the given SSRC if free, else returns
    nil".  A channel pointer is the key of the channel in the registry. *)
Definition create_chan (ssrc : Z) : prog (option Z) := fun s =>
  match Channel_list s !! ssrc with
  | Some _ => Ret None s
  | None =>
      Ret (Some ssrc)
          (set_Channel_list (<[ssrc := channel.set_output_rtp_ssrc ssrc channel.zero]> (Channel_list s)) s)
  end.

(** Assignment through a channel pointer. *)
Definition update_chan (chan : Z) (f : channel.t -> channel.t) : prog unit :=
  modify (fun s => set_Channel_list (alter f chan (Channel_list s)) s).

(** Modelled from the spec: [set_freq] records the target frequency and
    [start_demod] moves the channel from Created to Running (radio.c is not
    among the sources). *)
Definition set_freq (chan : Z) (f : spec_float) : prog unit :=
  update_chan chan (channel.set_tune_freq f).

Definition start_demod (chan : Z) : prog unit :=
  update_chan chan (channel.set_demod_running true).

(* ================================================================= *)
(** ** setup_hardware (main.c 829-976) *)

(** [Frontend.samprate * Blocktime / 1000.0]: the product of an [int] and a
    [float] is a [float]; the quotient by the [double] constant is a
    [double]. *)
Definition eL_of (samprate : Z) (blocktime : spec_float) : spec_float :=
  fdiv64 (double_of_float (fmul32 (float_of_Z samprate) blocktime)) (double_of_Z 1000).

(** The constant [.01]. *)
Definition alpha_01 : spec_float := fdiv64 (double_of_Z 1) (double_of_Z 100).

Definition NOTCH_SLOTS : nat := 100.

(** The loop over [Frontend.spurs] (main.c 951-963); [idx] is the position of
    the pointer [notch] in the array.  No result when the loop would write
    past the array or take [abs(INT_MIN)]. *)
Fixpoint build_notches (w : world) (N M samprate : Z) (spurs : list spec_float)
  (idx : nat) (notches : list notch_state.t) : option (list notch_state.t) :=
  match spurs with
  | [] => Some notches
  | f :: rest =>
      let '(r, shift, _) := compute_tuning w N M samprate f in
      if negb (r =? 0) then Some notches
      else if shift =? INT_MIN then None
      else if (length notches <=? idx)%nat then None
      else
        let notches' := <[idx := notch_state.mk (S754_zero false) (Z.abs shift) alpha_01]> notches in
        if shift =? 0 then Some notches'                (* DC is implicitly last *)
        else build_notches w N M samprate rest (S idx) notches'
  end.

(** The sizes of the filter input (main.c 934-948): L and M as stored in
    [Frontend], and the local N. *)
Definition filter_sizes (samprate : Z) (blocktime : spec_float) (overlap : Z)
  : prog (Z * Z * Z) :=
  assert (negb (samprate =? 0)) ;;
  let eL := eL_of samprate blocktime in
  match lround eL with
  | None => undefined
  | Some l =>
      let vL := to_int l in
      modify (fun s => set_Frontend (frontend.set_L vL (Frontend s)) s) ;;
      when (negb (SFeqb (double_of_Z vL) eL))
        (fprintf_stderr (Msg_nonintegral blocktime samprate eL vL)) ;;
      d ← int_checked (overlap - 1);
      when (d =? 0) undefined ;;
      q ← int_checked (Z.quot vL d);
      vM ← int_checked (q + 1);
      modify (fun s => set_Frontend (frontend.set_M vM (Frontend s)) s) ;;
      assert (negb (vM =? 0)) ;;
      assert (negb (vL =? 0)) ;;
      (* create_filter_input(&Frontend.in,L,M,...) allocates the filter input *)
      modify (fun s => set_Frontend
                (frontend.set_notches (replicate NOTCH_SLOTS notch_state.zero) (Frontend s)) s) ;;
      ml ← int_checked (vM + vL);
      vN ← int_checked (ml - 1);
      mret (vL, vM, vN)
  end.

(** The choice of the driver, by the compiled-in table or by [dlopen] and
    [dlsym], is [find_driver] of the environment; a driver that cannot be
    loaded makes [setup_hardware] return -1. *)
Definition setup_hardware (w : world) (Configtable : dictionary) (sname : string) : prog Z :=
  let device := default sname (config_getstring Configtable sname "device" (Some sname)) in
  match find_driver w Configtable device with
  | None => fprintf_stderr (Msg_driver_load device) ;; mret (-1)
  | Some drv =>
      let sr := drv_setup drv Configtable sname in
      modify (fun s => set_Frontend
                (frontend.set_setup (sr_samprate sr) (sr_isreal sr) (sr_spurs sr)
                   (sr_description sr) (Frontend s)) s) ;;
      if negb (sr_status sr =? 0) then
        fprintf_stderr (Msg_device_setup_returned (sr_status sr)) ;; mret (sr_status sr)
      else
        samprate ← get (fun s => frontend.samprate (Frontend s));
        blocktime ← get Blocktime;
        overlap ← get Overlap;
        '(vL, vM, vN) ← filter_sizes samprate blocktime overlap;
        fe ← get Frontend;
        match build_notches w vN vM samprate (frontend.spurs fe) 0 (frontend.notches fe) with
        | None => undefined
        | Some n =>
            modify (fun s => set_Frontend (frontend.set_notches n (Frontend s)) s) ;;
            match drv_start drv with
            | Some r =>
                modify (fun s => set_Frontend (frontend.set_started true (Frontend s)) s) ;;
                when (negb (r =? 0)) (fprintf_stderr (Msg_frontend_start_returned r)) ;;
                mret r
            | None => fprintf_stderr Msg_no_frontend_start ;; mret (-1)
            end
        end
  end.

(* ================================================================= *)
(** ** process_section (main.c 655-825) *)

(** The default SSRC of a frequency token (main.c 768-775): the loop over the
    characters, in [uint32_t] arithmetic. *)
Fixpoint ssrc_of_digits (tok : string) (ssrc : Z) : Z :=
  match tok with
  | EmptyString => ssrc
  | String c rest =>
      ssrc_of_digits rest
        (if isdigit c
         then to_uint32 (to_uint32 (ssrc * 10) + (char_code c - char_code "0"%char))
         else ssrc)
  end.

Definition default_ssrc (tok : string) : Z := ssrc_of_digits tok 0.

(** The SSRC requested for a token (main.c 768-776): the default, unless
    the section sets [ssrc]; [config_getint] passes and returns an [int]. *)
Definition requested_ssrc (w : world) (Configtable : dictionary) (sname tok : string) : Z :=
  to_uint32 (config_getint w Configtable sname "ssrc" (to_int (default_ssrc tok))).

Definition max_collisions : nat := 100.

(** The collision loop (main.c 783-787): [n] probes are left; the result is
    the channel (NULL when every probe collided) and the value of [ssrc]
    when the loop ends. *)
Fixpoint probe_ssrc (n : nat) (ssrc : Z) : prog (option Z * Z) :=
  match n with
  | O => mret (None, ssrc)
  | S n' =>
      chan ← create_chan ssrc;
      match chan with
      | Some c => mret (Some c, ssrc)
      | None => probe_ssrc n' (to_uint32 (ssrc + 1))
      end
  end.

(** The body of the loop over the tokens of a frequency list (main.c
    763-818); [nchans] is the count of channels the section has started.
    Of the SAP and RTCP senders only the fact that their threads are
    started is kept. *)
Definition process_token (w : world) (Configtable : dictionary) (sname : string)
  (chan_template : channel.t) (nchans : Z) (tok : string) : prog Z :=
  let f := parse_frequency w tok true in
  if SF_is_negative f then
    fprintf_stderr (Msg_cant_parse_frequency sname tok) ;; mret nchans
  else
    let ssrc := requested_ssrc w Configtable sname tok in
    if ssrc =? 0 then mret nchans                         (* reserved ssrc *)
    else
      '(chan, ssrc') ← probe_ssrc max_collisions ssrc;
      match chan with
      | None =>
          fprintf_stderr
            (Msg_cant_allocate_ssrc (to_uint32 (ssrc' - Z.of_nat max_collisions)) ssrc') ;;
          mret nchans
      | Some c =>
          update_chan c (fun _ => chan_template) ;;        (* *chan = chan_template *)
          update_chan c (channel.set_output_rtp_ssrc ssrc') ;;
          set_freq c f ;;
          start_demod c ;;
          nchans' ← int_checked (nchans + 1);
          n ← get Nchans;
          n' ← int_checked (n + 1);
          modify (set_Nchans n') ;;
          sap ← get SAP_enable;
          when sap (update_chan c (channel.set_sap_running true)) ;;
          rtcp ← get RTCP_enable;
          when rtcp (update_chan c (channel.set_rtcp_running true)) ;;
          mret nchans'
      end.

Fixpoint process_tokens (w : world) (Configtable : dictionary) (sname : string)
  (chan_template : channel.t) (nchans : Z) (toks : list string) : prog Z :=
  match toks with
  | [] => mret nchans
  | tok :: rest =>
      n ← process_token w Configtable sname chan_template nchans tok;
      process_tokens w Configtable sname chan_template n rest
  end.

(** "freq", "freq0", ..., "freq9" *)
Definition freq_keys : list string :=
  ["freq"; "freq0"; "freq1"; "freq2"; "freq3"; "freq4"; "freq5"; "freq6"; "freq7";
   "freq8"; "freq9"].

Fixpoint process_freq_lists (w : world) (Configtable : dictionary) (sname : string)
  (chan_template : channel.t) (nchans : Z) (keys : list string) : prog Z :=
  match keys with
  | [] => mret nchans
  | fname :: rest =>
      match config_getstring Configtable sname fname None with
      | None => process_freq_lists w Configtable sname chan_template nchans rest
      | Some frequencies =>
          n ← process_tokens w Configtable sname chan_template nchans
                (strtok_all frequencies "");
          process_freq_lists w Configtable sname chan_template n rest
      end
  end.

(** The preset a section names (main.c 664-665). *)
Definition section_preset (Configtable : dictionary) (sname : string) : option string :=
  config2_getstring Configtable Configtable GLOBAL sname "preset"
    (config2_getstring Configtable Configtable GLOBAL sname "mode" None).

(** The four layers of the section template (main.c 683-691).  [strlcpy]
    from a NULL [preset] is undefined. *)
Definition build_template (w : world) (Configtable : dictionary) (sname : string)
  (preset : option string) : prog channel.t :=
  let t0 := set_defaults w channel.zero in                      (* #4 *)
  let t1 := (loadpreset w t0 (Some Configtable) GLOBAL).2 in    (* #3 *)
  table ← get Preset_table;
  file ← get Preset_file;
  t2 ← match preset with                                        (* #2 *)
       | Some p =>
           let '(r, t) := loadpreset w t1 table p in
           when (negb (r =? 0)) (fprintf_stderr (Msg_loadpreset_failed sname file p)) ;;
           mret t
       | None => mret t1
       end;
  match preset with
  | None => undefined
  | Some p =>
      let t3 := channel.set_preset p t2 in
      mret (loadpreset w t3 (Some Configtable) sname).2         (* #1 *)
  end.

(** Main.c 693-694: "use global ttl when both are non-zero". *)
Definition adjust_ttl (global_ttl : Z) (t : channel.t) : channel.t :=
  if negb (channel.output_ttl t =? 0) && negb (global_ttl =? 0)
  then channel.set_output_ttl global_ttl t else t.

(** The template of the channels of a section (main.c 664-729).  Name
    resolution, service advertisement and the sockets are left out: they
    change no field that this development looks at. *)
Definition section_template (w : world) (Configtable : dictionary) (sname : string)
  : prog channel.t :=
  for_each (fun l => fprintf_stderr (Msg_validate l))
    (config_validate_section w Configtable sname) ;;
  let preset := section_preset Configtable sname in
  when match preset with None => true | Some p => (String.length p =? 0)%nat end
    (fprintf_stderr (Msg_preset_not_specified sname)) ;;
  d ← get Data;
  let data := ensure_suffix (default d (config_getstring Configtable sname "data" (Some d)))
                ".local" in
  t ← build_template w Configtable sname preset;
  g ← get Template;
  let t' := adjust_ttl (channel.output_ttl g) t in
  mret (channel.set_output_dest_string data t').

Definition process_section (w : world) (Configtable : dictionary) (sname : string)
  : prog unit :=
  chan_template ← section_template w Configtable sname;
  nchans ← process_freq_lists w Configtable sname chan_template 0 freq_keys;
  fprintf_stderr (Msg_channels_started sname nchans).

(* ================================================================= *)
(** ** The start-up threads (main.c 626-650) *)

(** [loadconfig] runs [process_section] in one thread for each channel
    section, "in parallel for speed", and waits for all of them.  A thread
    is kept as the steps it still has to take: it has returned, or it has a
    next step.  A step is at most one access to what the threads share (a
    read or a write of a global, a call of [create_chan], an assignment
    through a channel pointer, a line written to stderr); it runs without
    interruption and leaves the rest of the thread. *)
#[warnings="-register-all"]
Inductive thread (A : Type) : Type :=
| Done (a : A)
| Step (m : prog (thread A)).
Arguments Done {A} a.
Arguments Step {A} m.

Fixpoint thread_bind {A B : Type} (k : A -> thread B) (t : thread A) : thread B :=
  match t with
  | Done a => k a
  | Step m => Step (fun s => match m s with
                             | Ret t' s' => Ret (thread_bind k t') s'
                             | Exit c s' => Exit c s'
                             | Abort s' => Abort s'
                             | Undefined => Undefined
                             end)
  end.

#[global] Instance thread_ret : MRet thread := @Done.
#[global] Instance thread_mbind : MBind thread := @thread_bind.

(** A piece of the program that is one step. *)
Definition atomic {A : Type} (m : prog A) : thread A := Step (a ← m; mret (Done a)).

(** A thread that runs to its end with no step of another thread between
    its own. *)
Fixpoint run {A : Type} (t : thread A) : prog A :=
  match t with
  | Done a => mret a
  | Step m => fun s => match m s with
                       | Ret t' s' => run t' s'
                       | Exit c s' => Exit c s'
                       | Abort s' => Abort s'
                       | Undefined => Undefined
                       end
  end.

(** The threads of a list under a schedule.  Each entry of the schedule
    names the thread that takes the next step; an entry that names a thread
    that has returned, or none, is passed over.  Where the schedule ends
    the threads that have not returned run to their end one after the
    other: [pthread_join] waits for every one of them.  An [exit], a failed
    [assert] or undefined behaviour in one thread ends them all. *)
Fixpoint run_threads (sched : list nat) (threads : list (thread unit)) : prog unit :=
  match sched with
  | [] => for_each run threads
  | i :: rest =>
      match threads !! i with
      | Some (Step m) => t' ← m; run_threads rest (<[i := t']> threads)
      | _ => run_threads rest threads
      end
  end.

(** [process_section] as the steps of a thread.  The definitions follow
    those above line by line; every access to a global is a step of its own.
    In particular [Nchans++], for which main.c takes no lock, is a load and
    a store, and steps of other threads can come between the two. *)
Fixpoint each_step {A : Type} (f : A -> prog unit) (l : list A) : thread unit :=
  match l with
  | [] => mret tt
  | x :: r => atomic (f x) ;; each_step f r
  end.

Fixpoint probe_ssrc_thread (n : nat) (ssrc : Z) : thread (option Z * Z) :=
  match n with
  | O => mret (None, ssrc)
  | S n' =>
      chan ← atomic (create_chan ssrc);
      match chan with
      | Some c => mret (Some c, ssrc)
      | None => probe_ssrc_thread n' (to_uint32 (ssrc + 1))
      end
  end.

Definition process_token_thread (w : world) (Configtable : dictionary) (sname : string)
  (chan_template : channel.t) (nchans : Z) (tok : string) : thread Z :=
  let f := parse_frequency w tok true in
  if SF_is_negative f then
    atomic (fprintf_stderr (Msg_cant_parse_frequency sname tok)) ;; mret nchans
  else
    let ssrc := requested_ssrc w Configtable sname tok in
    if ssrc =? 0 then mret nchans
    else
      '(chan, ssrc') ← probe_ssrc_thread max_collisions ssrc;
      match chan with
      | None =>
          atomic (fprintf_stderr
                    (Msg_cant_allocate_ssrc (to_uint32 (ssrc' - Z.of_nat max_collisions)) ssrc')) ;;
          mret nchans
      | Some c =>
          atomic (update_chan c (fun _ => chan_template)) ;;
          atomic (update_chan c (channel.set_output_rtp_ssrc ssrc')) ;;
          atomic (set_freq c f) ;;
          atomic (start_demod c) ;;
          nchans' ← atomic (int_checked (nchans + 1));
          n ← atomic (get Nchans);                          (* Nchans++: the load *)
          n' ← atomic (int_checked (n + 1));
          atomic (modify (set_Nchans n')) ;;                (* Nchans++: the store *)
          sap ← atomic (get SAP_enable);
          atomic (when sap (update_chan c (channel.set_sap_running true))) ;;
          rtcp ← atomic (get RTCP_enable);
          atomic (when rtcp (update_chan c (channel.set_rtcp_running true))) ;;
          mret nchans'
      end.

Fixpoint process_tokens_thread (w : world) (Configtable : dictionary) (sname : string)
  (chan_template : channel.t) (nchans : Z) (toks : list string) : thread Z :=
  match toks with
  | [] => mret nchans
  | tok :: rest =>
      n ← process_token_thread w Configtable sname chan_template nchans tok;
      process_tokens_thread w Configtable sname chan_template n rest
  end.

Fixpoint process_freq_lists_thread (w : world) (Configtable : dictionary) (sname : string)
  (chan_template : channel.t) (nchans : Z) (keys : list string) : thread Z :=
  match keys with
  | [] => mret nchans
  | fname :: rest =>
      match config_getstring Configtable sname fname None with
      | None => process_freq_lists_thread w Configtable sname chan_template nchans rest
      | Some frequencies =>
          n ← process_tokens_thread w Configtable sname chan_template nchans
                (strtok_all frequencies "");
          process_freq_lists_thread w Configtable sname chan_template n rest
      end
  end.

Definition build_template_thread (w : world) (Configtable : dictionary) (sname : string)
  (preset : option string) : thread channel.t :=
  let t0 := set_defaults w channel.zero in
  let t1 := (loadpreset w t0 (Some Configtable) GLOBAL).2 in
  table ← atomic (get Preset_table);
  file ← atomic (get Preset_file);
  t2 ← match preset with
       | Some p =>
           let '(r, t) := loadpreset w t1 table p in
           atomic (when (negb (r =? 0)) (fprintf_stderr (Msg_loadpreset_failed sname file p))) ;;
           mret t
       | None => mret t1
       end;
  match preset with
  | None => atomic undefined
  | Some p =>
      let t3 := channel.set_preset p t2 in
      mret (loadpreset w t3 (Some Configtable) sname).2
  end.

Definition section_template_thread (w : world) (Configtable : dictionary) (sname : string)
  : thread channel.t :=
  each_step (fun l => fprintf_stderr (Msg_validate l))
    (config_validate_section w Configtable sname) ;;
  let preset := section_preset Configtable sname in
  atomic (when match preset with None => true | Some p => (String.length p =? 0)%nat end
            (fprintf_stderr (Msg_preset_not_specified sname))) ;;
  d ← atomic (get Data);
  let data := ensure_suffix (default d (config_getstring Configtable sname "data" (Some d)))
                ".local" in
  t ← build_template_thread w Configtable sname preset;
  g ← atomic (get Template);
  let t' := adjust_ttl (channel.output_ttl g) t in
  mret (channel.set_output_dest_string data t').

Definition process_section_thread (w : world) (Configtable : dictionary) (sname : string)
  : thread unit :=
  chan_template ← section_template_thread w Configtable sname;
  nchans ← process_freq_lists_thread w Configtable sname chan_template 0 freq_keys;
  atomic (fprintf_stderr (Msg_channels_started sname nchans)).

(* ================================================================= *)
(** ** loadconfig (main.c 295-654), from the point where the configuration
    file has been read into [Configtable] (line 412) *)

(** The scalars of the [global] section (main.c 412-423).  [Description],
    [N_worker_threads] and [FFTW_plan_timelimit] are read here too; no
    other line of main.c looks at them and the state has no field for
    them. *)
Definition load_globals (w : world) (Configtable : dictionary) : prog unit :=
  for_each (fun l => fprintf_stderr (Msg_validate l))
    (config_validate_section w Configtable GLOBAL) ;;
  v ← get Verbose;
  modify (set_Verbose (config_getint w Configtable GLOBAL "verbose" v)) ;;
  bt ← get Blocktime;
  let bt' := float_of_double
               (SFabs (config_getdouble w Configtable GLOBAL "blocktime" (double_of_float bt))) in
  modify (set_Blocktime bt') ;;
  idle ← int_of_floating (fdiv32 (float_of_Z (20 * 1000)) bt');
  modify (set_Channel_idle_timeout idle) ;;
  ov ← get Overlap;
  let o := config_getint w Configtable GLOBAL "overlap" ov in
  when (o =? INT_MIN) undefined ;;                       (* abs(INT_MIN) *)
  modify (set_Overlap (Z.abs o)) ;;
  modify (fun s => set_enables
            (config_getboolean Configtable GLOBAL "rtcp" (RTCP_enable s))
            (config_getboolean Configtable GLOBAL "sap" (SAP_enable s))
            (Global_use_dns s) s).

(** The planning level (main.c 424-437). *)
Definition load_fft_plan_level (Configtable : dictionary) : prog unit :=
  let cp := default "patient"
              (config_getstring Configtable GLOBAL "fft-plan-level" (Some "patient")) in
  if strcasecmp cp "estimate" =? 0 then modify (set_FFTW_planning_level FFTW_ESTIMATE)
  else if strcasecmp cp "measure" =? 0 then modify (set_FFTW_planning_level FFTW_MEASURE)
  else if strcasecmp cp "patient" =? 0 then modify (set_FFTW_planning_level FFTW_PATIENT)
  else if strcasecmp cp "exhaustive" =? 0 then modify (set_FFTW_planning_level FFTW_EXHAUSTIVE)
  else if strcasecmp cp "wisdom-only" =? 0 then modify (set_FFTW_planning_level FFTW_WISDOM_ONLY)
  else mret tt.

(** The preset table (main.c 438-459).  [Update], [IP_tos], [Static_avahi],
    [Affinity] and [Wisdom_file] are read here too and have no field in the
    state. *)
Definition load_presets (w : world) (Configtable : dictionary) : prog unit :=
  modify (fun s => set_enables (RTCP_enable s) (SAP_enable s)
            (config_getboolean Configtable GLOBAL "dns" false) s) ;;
  let p := config_getstring Configtable GLOBAL "mode-file" (Some "presets.conf") in
  let p := config_getstring Configtable GLOBAL "presets-file" p in
  let file := dist_path w (default "presets.conf" p) in
  modify (set_Preset_file file) ;;
  fprintf_stderr (Msg_loading_presets file) ;;
  let table := iniparser_load w file in
  modify (set_Preset_table table) ;;
  for_each (fun l => fprintf_stderr (Msg_validate l)) (config_validate w table) ;;
  match table with
  | None => fprintf_stderr (Msg_cant_load_preset file) ;; exit EX_UNAVAILABLE
  | Some _ => mret tt
  end.

(** The status/command stream name (main.c 461-476). *)
Definition default_status (w : world) : string :=
  String.append (cut_at_dot (gethostname w))
    (String.append "-" (String.append (Name w) ".local")).

Definition status_name (w : world) (Configtable : dictionary) : string :=
  ensure_suffix
    (default (default_status w)
       (config_getstring Configtable GLOBAL "status" (Some (default_status w))))
    ".local".

(** The data stream name (main.c 515-521); [data_default] is a buffer of 256
    characters. *)
Definition data_default (w : world) : string :=
  String.substring 0 255 (String.append (Name w) "-pcm.local").

Definition data_name (w : world) (Configtable : dictionary) : string :=
  ensure_suffix
    (default (data_default w)
       (config_getstring Configtable GLOBAL "data" (Some (data_default w))))
    ".local".

(** The search for the hardware section (main.c 486-496): the first section
    whose name matches. *)
Fixpoint find_hardware (names : list string) (hardware : string) : option string :=
  match names with
  | [] => None
  | sname :: rest =>
      if strcasecmp sname hardware =? 0 then Some sname else find_hardware rest hardware
  end.

(** Main.c 477-503. *)
Definition load_hardware (w : world) (Configtable : dictionary) : prog unit :=
  match config_getstring Configtable GLOBAL "hardware" None with
  | None => fprintf_stderr Msg_hardware_required ;; exit EX_USAGE
  | Some hardware =>
      match find_hardware (map fst Configtable) hardware with
      | Some sname =>
          r ← setup_hardware w Configtable sname;
          if negb (r =? 0) then exit EX_NOINPUT
          else
            modify (fun s =>
              if (String.length (frontend.description (Frontend s)) =? 0)%nat
              then set_Frontend (frontend.set_description (Name w) (Frontend s)) s
              else s)
      | None => fprintf_stderr (Msg_no_hardware_section hardware) ;; exit EX_USAGE
      end
  end.

(** The template of the dynamically created channels (main.c 522-542).
    [preset] cannot be NULL here, the default being "am"; the branch for
    NULL is kept as the source has it. *)
Definition setup_template (w : world) (Configtable : dictionary) : prog unit :=
  t ← get Template;
  let t0 := set_defaults w t in
  bt ← get Blocktime;
  life ← int_of_floating (fdiv32 (float_of_Z (DEFAULT_LIFETIME * 1000)) bt);
  d ← get Data;
  let t1 := channel.set_output_dest_string d (channel.set_lifetime life t0) in
  modify (set_Template t1) ;;
  let p := config_getstring Configtable GLOBAL "preset" (Some "am") in
  match config_getstring Configtable GLOBAL "mode" p with
  | Some preset =>
      table ← get Preset_table;
      file ← get Preset_file;
      let '(r, t2) := loadpreset w t1 table preset in
      when (negb (r =? 0)) (fprintf_stderr (Msg_template_loadpreset file preset)) ;;
      modify (set_Template
                (loadpreset w (channel.set_preset preset t2) (Some Configtable) GLOBAL).2)
  | None => fprintf_stderr Msg_no_default_mode
  end.

(** The two output sockets (main.c 576-592).  The name resolution and the
    service advertisement of lines 553-575 and 599-614 touch socket
    addresses only and are left out. *)
Definition open_output_sockets (w : world) : prog unit :=
  t ← get Template;
  let ttl := if 1 <? channel.output_ttl t then channel.output_ttl t else 1 in
  modify (fun s => set_fds (output_mcast w ttl) (Output_fd0 s) (Ctl_fd s) (Status_thread s) s) ;;
  if output_mcast w ttl <? 0 then
    fprintf_stderr (Msg_output_socket ttl) ;; exit EX_NOHOST
  else
    modify (fun s => set_fds (Output_fd s) (output_mcast w 0) (Ctl_fd s) (Status_thread s) s) ;;
    if output_mcast w 0 <? 0 then
      fprintf_stderr (Msg_output_socket 0) ;; exit EX_NOHOST
    else mret tt.

(** The check of the two stream names (main.c 594-598). *)
Definition check_stream_names : prog unit :=
  status ← get Metadata_dest_string;
  data ← get Data;
  if streq status data then
    fprintf_stderr (Msg_duplicate_names data status) ;; exit EX_USAGE
  else mret tt.

(** The control socket and the status thread (main.c 615-624). *)
Definition open_control (w : world) : prog unit :=
  modify (fun s => set_fds (Output_fd s) (Output_fd0 s) (listen_mcast w) (Status_thread s) s) ;;
  if listen_mcast w <? 0 then
    status ← get Metadata_dest_string;
    fprintf_stderr (Msg_cant_listen status)
  else
    when (3 <=? listen_mcast w)
      (modify (fun s => set_fds (Output_fd s) (Output_fd0 s) (Ctl_fd s) true s)).

(** The sections that define channels (main.c 630-643). *)
Definition is_channel_section (Configtable : dictionary) (hardware sname : string) : bool :=
  negb (strcasecmp sname GLOBAL =? 0)
  && negb (strcasecmp sname hardware =? 0)
  && negb (bool_decide (is_Some (config_getstring Configtable sname "device" None)))
  && negb (config_getboolean Configtable sname "disable" false).

(** The start-up threads (main.c 626-650): one for each channel section,
    created in the order of the sections and all waited for.  Their steps
    are taken in the order that the schedule of the environment gives. *)
Definition section_threads (w : world) (Configtable : dictionary) : list (thread unit) :=
  let hardware := default "" (config_getstring Configtable GLOBAL "hardware" None) in
  map (process_section_thread w Configtable)
    (filter (fun sname => is_channel_section Configtable hardware sname = true)
       (map fst Configtable)).

Definition start_sections (w : world) (Configtable : dictionary) : prog unit :=
  run_threads (schedule w) (section_threads w Configtable).

Definition loadconfig (w : world) (Configtable : dictionary) : prog Z :=
  load_globals w Configtable ;;
  load_fft_plan_level Configtable ;;
  load_presets w Configtable ;;
  modify (set_Metadata_dest_string (status_name w Configtable)) ;;
  load_hardware w Configtable ;;
  modify (set_Data (data_name w Configtable)) ;;
  setup_template w Configtable ;;
  open_output_sockets w ;;
  check_stream_names ;;
  open_control w ;;
  start_sections w Configtable ;;
  get Nchans.

(* ================================================================= *)
(** ** Parts of the other translation units, from the specification *)

(** The value [num/den] ([den > 0]) rounded to the nearest integer, halfway
    cases to the even one. *)
Definition round_half_even (num den : Z) : Z :=
  let q := num / den in
  let r := num mod den in
  if 2 * r <? den then q
  else if den <? 2 * r then q + 1
  else if Z.even q then q else q + 1.

(** A finite double as a fraction [num/den] with [den > 0]. *)
Definition SF_fraction (x : spec_float) : option (Z * Z) :=
  match x with
  | S754_zero _ => Some (0, 1)
  | S754_finite s m e =>
      Some (if 0 <=? e then (cond_Zopp s (Z.pos m * 2 ^ e), 1)
            else (cond_Zopp s (Z.pos m), 2 ^ (- e)))
  | _ => None
  end.

(** Modelled from the spec: [compute_tuning] (radio.c is not among the
    sources).  With bin_width = samprate / N the shift is
    round(freq / bin_width), halfway cases to even, and the remainder is
    freq - shift * bin_width; the call fails with OutOfRange "when
    |freq| > samprate/2 (complex) or freq ∉ [0, samprate/2] (real)".  The
    status is 0 on success and -1 on failure. *)
Definition compute_tuning_spec (real : bool) (N M samprate : Z) (freq : spec_float)
  : Z * Z * spec_float :=
  match SF_fraction freq with
  | None => (-1, 0, freq)
  | Some (num, den) =>
      let shift := round_half_even (num * N) (den * samprate) in
      let bin_width := fdiv64 (double_of_Z samprate) (double_of_Z N) in
      let remainder := SFsub 53 1024 freq (SFmul 53 1024 (double_of_Z shift) bin_width) in
      let out_of_range :=
        if real then (num <? 0) || (den * samprate <? 2 * num)
        else den * samprate <? 2 * Z.abs num in
      (if out_of_range then -1 else 0, shift, remainder)
  end.

(** Modelled from the spec: the idle countdown of a channel (radio.c is not
    among the sources).  "[lifetime] (countdown in blocks; when freq == 0 and
    no command received for [lifetime] blocks, the channel is destroyed)".
    [idle_block chan] is one block during which no command arrives for the
    channel. *)
Definition is_zero_freq (f : spec_float) : bool :=
  match f with S754_zero _ => true | _ => false end.

Definition idle_block (chan : Z) : prog unit := fun s =>
  match Channel_list s !! chan with
  | None => Ret tt s
  | Some c =>
      if is_zero_freq (channel.tune_freq c) then
        if channel.lifetime c <=? 1
        then Ret tt (set_Channel_list (delete chan (Channel_list s)) s)
        else Ret tt (set_Channel_list
                       (<[chan := channel.set_lifetime (channel.lifetime c - 1) c]>
                          (Channel_list s)) s)
      else Ret tt s
  end.

Fixpoint idle_blocks (n : nat) (chan : Z) : prog unit :=
  match n with
  | O => mret tt
  | S n' => idle_block chan ;; idle_blocks n' chan
  end.

(** Modelled from the spec: a status command that creates a channel
    dynamically (status.c is not among the sources): the new channel is a
    copy of [Template], tuned to the frequency of the command. *)
Definition create_dynamic (ssrc : Z) (f : spec_float) : prog bool :=
  chan ← create_chan ssrc;
  match chan with
  | None => mret false
  | Some c =>
      t ← get Template;
      update_chan c (fun _ => channel.set_output_rtp_ssrc ssrc t) ;;
      set_freq c f ;;
      start_demod c ;;
      mret true
  end.

(* ================================================================= *)
(** ** Notions the properties are stated with *)

(** In the words of the specification: the number formed by the decimal
    digits of a token, in order, the other characters ignored. *)
Fixpoint digits_value (tok : string) (acc : Z) : Z :=
  match tok with
  | EmptyString => acc
  | String c rest =>
      digits_value rest (if isdigit c then acc * 10 + (char_code c - 48) else acc)
  end.

Definition concatenated_digits (tok : string) : Z := digits_value tok 0.

(** The channel [process_token] leaves in the registry: the section template
    with the SSRC restored, tuned and started. *)
Definition started_channel (chan_template : channel.t) (ssrc : Z) (f : spec_float)
  (sap rtcp : bool) : channel.t :=
  let c := channel.set_demod_running true
             (channel.set_tune_freq f (channel.set_output_rtp_ssrc ssrc chan_template)) in
  let c := if sap then channel.set_sap_running true c else c in
  if rtcp then channel.set_rtcp_running true c else c.

(** [k] is the first of the SSRCs [ssrc], [ssrc+1], ... (modulo 2^32) that
    the registry does not hold. *)
Definition first_free (s : radiod) (ssrc : Z) (k : nat) : Prop :=
  Channel_list s !! to_uint32 (ssrc + Z.of_nat k) = None
  /\ forall i : nat, (i < k)%nat -> is_Some (Channel_list s !! to_uint32 (ssrc + Z.of_nat i)).

(** The values of [fft-plan-level] that [loadconfig] compares with. *)
Definition plan_levels : list string :=
  ["estimate"; "measure"; "patient"; "exhaustive"; "wisdom-only"].

Definition recognized_plan_level (v : string) : bool :=
  existsb (fun k => strcasecmp v k =? 0) plan_levels.

(** In the words of the specification: a bad enum value is "reported to the
    operator, fatal during startup". *)
Definition bad_plan_level_is_fatal (w : world) (Configtable : dictionary) (s : radiod) : Prop :=
  forall v,
    config_lookup Configtable GLOBAL "fft-plan-level" = Some v ->
    recognized_plan_level v = false ->
    exists code s', loadconfig w Configtable s = Exit code s' /\ trace s' <> trace s.

(** [loadconfig] without the step that reads [fft-plan-level]. *)
Definition loadconfig_without_plan_level (w : world) (Configtable : dictionary) : prog Z :=
  load_globals w Configtable ;;
  load_presets w Configtable ;;
  modify (set_Metadata_dest_string (status_name w Configtable)) ;;
  load_hardware w Configtable ;;
  modify (set_Data (data_name w Configtable)) ;;
  setup_template w Configtable ;;
  open_output_sockets w ;;
  check_stream_names ;;
  open_control w ;;
  start_sections w Configtable ;;
  get Nchans.

(** The part of [loadconfig] that runs before the stream names are compared
    (main.c 412-592). *)
Definition startup_before_check (w : world) (Configtable : dictionary) : prog unit :=
  load_globals w Configtable ;;
  load_fft_plan_level Configtable ;;
  load_presets w Configtable ;;
  modify (set_Metadata_dest_string (status_name w Configtable)) ;;
  load_hardware w Configtable ;;
  modify (set_Data (data_name w Configtable)) ;;
  setup_template w Configtable ;;
  open_output_sockets w.

(** The channels and their count. *)
Definition channels_view (s : radiod) : gmap Z channel.t * Z := (Channel_list s, Nchans s).

(** What a section of a table contributes to a template: its parameters
    (none when the table has no such section) and its TTL, if it has one. *)
Definition layer (w : world) (table : option dictionary) (sname : string)
  : gmap string string :=
  match table with
  | Some d => match find_section d sname with
              | Some kv => section_params w kv
              | None => ∅
              end
  | None => ∅
  end.

Definition layer_ttl (w : world) (table : option dictionary) (sname : string) : option Z :=
  match table with
  | Some d => match find_section d sname with
              | Some kv => (fun v => to_int (strtol w v)) <$> kv !! "ttl"
              | None => None
              end
  | None => None
  end.

(** In the words of the specification: "Parameters resolve with strict
    priority, highest first: (1) the channel's own section, (2) the preset
    database entry, (3) the [global] section, (4) compiled-in defaults". *)
Definition strict_priority (w : world) (Configtable : dictionary) (presets : option dictionary)
  (sname preset key : string) : option string :=
  match layer w (Some Configtable) sname !! key with
  | Some v => Some v
  | None =>
      match layer w presets preset !! key with
      | Some v => Some v
      | None =>
          match layer w (Some Configtable) GLOBAL !! key with
          | Some v => Some v
          | None => default_params w !! key
          end
      end
  end.

Definition strict_priority_ttl (w : world) (Configtable : dictionary)
  (presets : option dictionary) (sname preset : string) : Z :=
  match layer_ttl w (Some Configtable) sname with
  | Some z => z
  | None =>
      match layer_ttl w presets preset with
      | Some z => z
      | None =>
          match layer_ttl w (Some Configtable) GLOBAL with
          | Some z => z
          | None => default_ttl w
          end
      end
  end.

(** The claim that every parameter of the section template, the TTL
    included, resolves by strict priority. *)
Definition resolves_by_strict_priority (w : world) (Configtable : dictionary)
  (sname : string) (s : radiod) : Prop :=
  forall p t s',
    section_preset Configtable sname = Some p ->
    section_template w Configtable sname s = Ret t s' ->
    (forall key, channel.params t !! key
                 = strict_priority w Configtable (Preset_table s) sname p key)
    /\ channel.output_ttl t = strict_priority_ttl w Configtable (Preset_table s) sname p.

(** The four layers, one over the other (main.c 683-691). *)
Definition layered_template (w : world) (Configtable : dictionary)
  (presets : option dictionary) (sname preset : string) : channel.t :=
  let t1 := (loadpreset w (set_defaults w channel.zero) (Some Configtable) GLOBAL).2 in
  let t2 := (loadpreset w t1 presets preset).2 in
  (loadpreset w (channel.set_preset preset t2) (Some Configtable) sname).2.

(** What [section_template] writes for a section that names [preset]. *)
Definition section_messages (w : world) (Configtable : dictionary)
  (presets : option dictionary) (file sname preset : string) : list event :=
  map (fun l => Ev_stderr (Msg_validate l)) (config_validate_section w Configtable sname)
  ++ (if (String.length preset =? 0)%nat then [Ev_stderr (Msg_preset_not_specified sname)]
      else [])
  ++ (if negb ((loadpreset w
                  (loadpreset w (set_defaults w channel.zero) (Some Configtable) GLOBAL).2
                  presets preset).1 =? 0)
      then [Ev_stderr (Msg_loadpreset_failed sname file preset)] else []).

(** The path of the presets file (main.c 449-451). *)
Definition presets_path (w : world) (Configtable : dictionary) : string :=
  dist_path w
    (default "presets.conf"
       (config_getstring Configtable GLOBAL "presets-file"
          (config_getstring Configtable GLOBAL "mode-file" (Some "presets.conf")))).

(** The notch the loop writes for a spur that tunes to [shift], and the DC
    suppressor, the notch at bin 0. *)
Definition spur_notch (shift : Z) : notch_state.t :=
  notch_state.mk (S754_zero false) (Z.abs shift) alpha_01.

Definition dc_notch : notch_state.t := spur_notch 0.

(** Why the loop over the spurs stops: at a spur in bin 0, at a spur that
    [compute_tuning] rejects, or at the end of the table. *)
Inductive scan_end : Type := End_DC | End_rejected | End_of_spurs.

(** The shifts of the spurs before the one the loop stops at, and why it
    stops. *)
Fixpoint scan_spurs (w : world) (N M samprate : Z) (spurs : list spec_float)
  : list Z * scan_end :=
  match spurs with
  | [] => ([], End_of_spurs)
  | f :: rest =>
      let '(r, shift, _) := compute_tuning w N M samprate f in
      if negb (r =? 0) then ([], End_rejected)
      else if shift =? 0 then ([], End_DC)
      else let '(l, e) := scan_spurs w N M samprate rest in (shift :: l, e)
  end.

(** The entries the loop has written. *)
Definition written_notches (shifts : list Z) (e : scan_end) : list notch_state.t :=
  map spur_notch shifts ++ match e with End_DC => [dc_notch] | _ => [] end.

(** The array after the loop: the written entries, then zeroed ones. *)
Definition notch_array (shifts : list Z) (e : scan_end) : list notch_state.t :=
  written_notches shifts e
  ++ replicate (NOTCH_SLOTS - length (written_notches shifts e)) notch_state.zero.

#[global] Instance spec_float_eq_dec : EqDecision spec_float.
Proof. solve_decision. Defined.

#[global] Instance notch_state_eq_dec : EqDecision notch_state.t.
Proof. solve_decision. Defined.

(** The entries of the array that are not zeroed memory. *)
Definition populated (notches : list notch_state.t) : list notch_state.t :=
  filter (fun n => n <> notch_state.zero) notches.

(** The claim that whatever the spurs are, the array ends with a zeroed
    entry, its last populated entry is the DC suppressor, and every spur in
    another bin that [compute_tuning] accepts is stored before it. *)
Definition notches_end_with_dc (w : world) (N M samprate : Z) (spurs : list spec_float)
  : Prop :=
  forall notches,
    build_notches w N M samprate spurs 0 (replicate NOTCH_SLOTS notch_state.zero)
    = Some notches ->
    last notches = Some notch_state.zero
    /\ last (populated notches) = Some dc_notch
    /\ forall f shift rem,
         f ∈ spurs -> compute_tuning w N M samprate f = (0, shift, rem) -> shift <> 0 ->
         spur_notch shift ∈ populated notches.

(* ----------------------------------------------------------------- *)
(** Observations of the state, and what it is for a piece of the program
    to leave one alone. *)

(** [preserves f m]: however [m] ends, the observation [f] of the state is
    what it was. *)
Definition preserves {A X : Type} (f : radiod -> X) (m : prog A) : Prop :=
  forall s, match m s with
            | Ret _ s' | Exit _ s' | Abort s' => f s' = f s
            | Undefined => True
            end.

(** Observations of the configuration: they look neither at the trace, nor
    at the registry, nor at the channel count. *)
Definition config_view {X : Type} (f : radiod -> X) : Prop :=
  (forall t s, f (set_trace t s) = f s)
  /\ (forall m s, f (set_Channel_list m s) = f s)
  /\ (forall n s, f (set_Nchans n s) = f s).

(** The two observations the idle lifetime depends on. *)
Definition timing (s : radiod) : spec_float * Z := (Blocktime s, Channel_idle_timeout s).

(** The same with the lifetime of the template. *)
Definition lifetime_view (s : radiod) : spec_float * Z * Z :=
  (Blocktime s, Channel_idle_timeout s, channel.lifetime (Template s)).

(* ================================================================= *)
(** ** A concrete environment and configuration, for evaluation *)

(** Decimal integers with an optional sign, as [strtol] reads them. *)
Fixpoint decimal_value (s : string) (acc : Z) : Z :=
  match s with
  | String c r => if isdigit c then decimal_value r (acc * 10 + (char_code c - 48)) else acc
  | EmptyString => acc
  end.

Definition strtol_decimal (s : string) : Z :=
  match s with
  | String "-"%char r => - decimal_value r 0
  | _ => decimal_value s 0
  end.

Definition gm (l : list (string * string)) : gmap string string := list_to_map l.

Definition example_presets : dictionary :=
  [("am", gm [("demod", "linear"); ("samprate", "12000"); ("low", "-5000"); ("high", "5000")]);
   ("usb", gm [("demod", "linear"); ("samprate", "12000"); ("low", "50"); ("high", "3000")])].

Definition example_preset_keys : list string :=
  ["demod"; "samprate"; "low"; "high"; "squelch-open"; "ttl"].

Definition example_driver : driver :=
  mk_driver (fun _ _ => mk_setup_result 0 1200000 true
                          [double_of_Z 5000; S754_zero false; S754_zero false] "")
            (Some 0).

Definition example_world : world :=
  mk_world "hf" "radio.example.org" strtol_decimal (fun s => double_of_Z (strtol_decimal s))
    (fun p => p)
    (fun file => if streq file "presets.conf" then Some example_presets else None)
    (fun _ => []) (fun _ _ => [])
    (fun k => bool_decide (k ∈ example_preset_keys))
    (gm [("demod", "linear"); ("samprate", "24000"); ("squelch-open", "8")]) 1
    (fun _ device => if strcasecmp device "sig_gen" =? 0 then Some example_driver else None)
    (compute_tuning_spec true)
    (fun tok _ => double_of_Z (default_ssrc tok))
    (fun ttl => if ttl =? 0 then 5 else 4)
    6 [].

(** Scenario "single static channel" of the specification. *)
Definition example_config : dictionary :=
  [("global", gm [("hardware", "sig_gen"); ("status", "hf-status.local")]);
   ("sig_gen", gm [("device", "sig_gen")]);
   ("forty", gm [("freq", "7,040,000"); ("preset", "am")])].

(** The same with a planning level that is none of the five. *)
Definition example_config_bad_level : dictionary :=
  [("global", gm [("hardware", "sig_gen"); ("status", "hf-status.local");
                  ("fft-plan-level", "fast")]);
   ("sig_gen", gm [("device", "sig_gen")]);
   ("forty", gm [("freq", "7,040,000"); ("preset", "am")])].

(** A configuration whose status and data streams get the same name: the
    suffix ".local" is added to the data name. *)
Definition example_config_same_names : dictionary :=
  [("global", gm [("hardware", "sig_gen"); ("status", "hf.local"); ("data", "hf")]);
   ("sig_gen", gm [("device", "sig_gen")]);
   ("forty", gm [("freq", "7,040,000"); ("preset", "am")])].

(** The state in which the start-up reaches the comparison of the names on
    that configuration. *)
Definition example_same_names_state : radiod :=
  match startup_before_check example_world example_config_same_names
          (radiod_init FFTW_PATIENT 0) with
  | Ret _ s => s
  | _ => radiod_init FFTW_PATIENT 0
  end.

(** A section TTL of 5 under a global TTL of 2. *)
Definition example_config_ttl : dictionary :=
  [("global", gm [("hardware", "sig_gen"); ("status", "hf-status.local"); ("ttl", "2")]);
   ("sig_gen", gm [("device", "sig_gen")]);
   ("forty", gm [("freq", "7,040,000"); ("preset", "am"); ("ttl", "5")])].

(** The state in which the sections of that configuration are processed. *)
Definition example_ttl_state : radiod :=
  match startup_before_check example_world example_config_ttl (radiod_init FFTW_PATIENT 0) with
  | Ret _ s => s
  | _ => radiod_init FFTW_PATIENT 0
  end.

(** Scenario "missing preset" of the specification. *)
Definition example_config_missing_preset : dictionary :=
  [("global", gm [("hardware", "sig_gen"); ("status", "hf-status.local");
                  ("squelch-open", "10")]);
   ("sig_gen", gm [("device", "sig_gen")]);
   ("forty", gm [("freq", "7,040,000"); ("preset", "xyz"); ("low", "-3000")])].

Definition example_missing_preset_state : radiod :=
  match startup_before_check example_world example_config_missing_preset
          (radiod_init FFTW_PATIENT 0) with
  | Ret _ s => s
  | _ => radiod_init FFTW_PATIENT 0
  end.

(** An environment whose presets file cannot be loaded. *)
Definition example_world_no_presets : world :=
  mk_world "hf" "radio.example.org" strtol_decimal (fun s => double_of_Z (strtol_decimal s))
    (fun p => p)
    (fun _ => None)
    (fun _ => []) (fun _ _ => [])
    (fun k => bool_decide (k ∈ example_preset_keys))
    (gm [("demod", "linear"); ("samprate", "24000"); ("squelch-open", "8")]) 1
    (fun _ device => if strcasecmp device "sig_gen" =? 0 then Some example_driver else None)
    (compute_tuning_spec true)
    (fun tok _ => double_of_Z (default_ssrc tok))
    (fun ttl => if ttl =? 0 then 5 else 4)
    6 [].

(** A spur table with a spur above half the sample rate before the first
    zero entry. *)
Definition example_spurs_rejected : list spec_float :=
  [double_of_Z 5000; double_of_Z 700000; S754_zero false].

(** The state in which [loadconfig] leaves the program on that
    configuration. *)
Definition example_final : radiod :=
  match loadconfig example_world example_config (radiod_init FFTW_PATIENT 0) with
  | Ret _ s => s
  | _ => radiod_init FFTW_PATIENT 0
  end.

(** The same machine when the control socket cannot be opened, the state
    in which the start-up comes to the control socket there, and the one in
    which [loadconfig] ends. *)
Definition example_world_no_control : world :=
  mk_world "hf" "radio.example.org" strtol_decimal (fun s => double_of_Z (strtol_decimal s))
    (fun p => p)
    (fun file => if streq file "presets.conf" then Some example_presets else None)
    (fun _ => []) (fun _ _ => [])
    (fun k => bool_decide (k ∈ example_preset_keys))
    (gm [("demod", "linear"); ("samprate", "24000"); ("squelch-open", "8")]) 1
    (fun _ device => if strcasecmp device "sig_gen" =? 0 then Some example_driver else None)
    (compute_tuning_spec true)
    (fun tok _ => double_of_Z (default_ssrc tok))
    (fun ttl => if ttl =? 0 then 5 else 4)
    (-1) [].

Definition example_before_control : radiod :=
  match (startup_before_check example_world_no_control example_config ;; check_stream_names)
          (radiod_init FFTW_PATIENT 0) with
  | Ret _ s => s
  | _ => radiod_init FFTW_PATIENT 0
  end.

Definition example_no_control_final : radiod :=
  match loadconfig example_world_no_control example_config (radiod_init FFTW_PATIENT 0) with
  | Ret _ s => s
  | _ => radiod_init FFTW_PATIENT 0
  end.

(* ================================================================= *)
(** ** Further notions: sequences of signals, the growth of the registry *)

(** The signals of a list delivered one after the other, for as long as
    the handlers return. *)
Fixpoint deliver_all (sigs : list signal) (s : radiod) : option (result unit) :=
  match sigs with
  | [] => Some (Ret tt s)
  | sig :: rest =>
      match deliver sig s with
      | Some (Ret _ s') => deliver_all rest s'
      | r => r
      end
  end.

(** The signals whose handler returns: the ignored one and the two of
    [verbosity]. *)
Definition returning_signal (sig : signal) : bool :=
  bool_decide (sig = SIGPIPE \/ sig = SIGUSR1 \/ sig = SIGUSR2).

(** What holds of a channel that [process_section] has registered under the
    SSRC [k]: it carries that SSRC, its demodulator runs, and the frequency
    it is tuned to was accepted. *)
Definition started_under (k : Z) (c : channel.t) : Prop :=
  channel.output_rtp_ssrc c = k /\ channel.demod_running c = true
  /\ SF_is_negative (channel.tune_freq c) = false /\ 0 <= k < UINT32_MOD.

(** What holds of a channel that [process_token] has registered under [k]
    for the template [t]: it is the template with the SSRC [k], tuned to a
    frequency that was accepted and started, with the SAP and RTCP senders
    as [sap] and [rtcp] say. *)
Definition from_template (t : channel.t) (sap rtcp : bool) (k : Z) (c : channel.t) : Prop :=
  exists f, SF_is_negative f = false /\ 0 <= k < UINT32_MOD
            /\ c = started_channel t k f sap rtcp.

(** The tokens of the frequency lists of a section, in the order in which
    [process_section] comes to them. *)
Definition section_tokens (cfg : dictionary) (sname : string) : list string :=
  flat_map (fun fname => match config_getstring cfg sname fname None with
                         | Some frequencies => strtok_all frequencies ""
                         | None => []
                         end) freq_keys.

(** [registry_grows_by P s s' d]: the registry of [s'] holds the channels of
    [s] as they were and [d] more, each with the property [P], and the
    count [Nchans] has grown by [d]. *)
Definition registry_grows_by (P : Z -> channel.t -> Prop) (s s' : radiod) (d : Z) : Prop :=
  0 <= d
  /\ Channel_list s ⊆ Channel_list s'
  /\ Z.of_nat (size (Channel_list s')) = Z.of_nat (size (Channel_list s)) + d
  /\ Nchans s' = Nchans s + d
  /\ forall k c, Channel_list s' !! k = Some c -> Channel_list s !! k = None -> P k c.

Definition registry_grows : radiod -> radiod -> Z -> Prop := registry_grows_by started_under.

(** [m] ends neither in [exit] nor in a failed [assert]. *)
Definition never_exits {A : Type} (m : prog A) : Prop :=
  forall s, match m s with
            | Exit _ _ | Abort _ => False
            | _ => True
            end.

(** A state in which a channel already runs at the SSRC that the section of
    [example_config] asks for. *)
Definition example_busy : radiod :=
  set_Channel_list {[ 7040000 := channel.set_output_rtp_ssrc 7040000 channel.zero ]}
    (set_Nchans 1 (radiod_init FFTW_PATIENT 0)).

Definition example_busy_final : radiod :=
  match loadconfig example_world example_config example_busy with
  | Ret _ s => s
  | _ => example_busy
  end.

(** Two sections of one channel each, and a schedule under which each of
    their threads loads [Nchans] before the other stores it: the thirteenth
    step of a section with one frequency is the load of [Nchans++]. *)
Definition example_config_two : dictionary :=
  [("global", gm [("hardware", "sig_gen"); ("status", "hf-status.local")]);
   ("sig_gen", gm [("device", "sig_gen")]);
   ("forty", gm [("freq", "7,040,000"); ("preset", "am")]);
   ("twenty", gm [("freq", "14,070,000"); ("preset", "usb")])].

Definition example_world_race : world :=
  mk_world "hf" "radio.example.org" strtol_decimal (fun s => double_of_Z (strtol_decimal s))
    (fun p => p)
    (fun file => if streq file "presets.conf" then Some example_presets else None)
    (fun _ => []) (fun _ _ => [])
    (fun k => bool_decide (k ∈ example_preset_keys))
    (gm [("demod", "linear"); ("samprate", "24000"); ("squelch-open", "8")]) 1
    (fun _ device => if strcasecmp device "sig_gen" =? 0 then Some example_driver else None)
    (compute_tuning_spec true)
    (fun tok _ => double_of_Z (default_ssrc tok))
    (fun ttl => if ttl =? 0 then 5 else 4)
    6 (replicate 13 0%nat ++ replicate 13 1%nat).

Definition example_race_final : radiod :=
  match loadconfig example_world_race example_config_two (radiod_init FFTW_PATIENT 0) with
  | Ret _ s => s
  | _ => radiod_init FFTW_PATIENT 0
  end.

(** The output sockets and the template they were opened for. *)
Definition sockets_view (s : radiod) : Z * Z * channel.t :=
  (Output_fd s, Output_fd0 s, Template s).

(** The control socket and whether the status thread runs. *)
Definition control_view (s : radiod) : Z * bool := (Ctl_fd s, Status_thread s).

(** The part of [loadconfig] that runs before the hardware section is
    looked for (main.c 412-476). *)
Definition startup_before_hardware (w : world) (Configtable : dictionary) : prog unit :=
  load_globals w Configtable ;;
  load_fft_plan_level Configtable ;;
  load_presets w Configtable ;;
  modify (set_Metadata_dest_string (status_name w Configtable)).

(** What [loadconfig] reports when [global] names no hardware section, or
    one that the file does not have (main.c 478-500). *)
Definition hardware_error (Configtable : dictionary) : option message :=
  match config_getstring Configtable GLOBAL "hardware" None with
  | None => Some Msg_hardware_required
  | Some hardware =>
      match find_hardware (map fst Configtable) hardware with
      | None => Some (Msg_no_hardware_section hardware)
      | Some _ => None
      end
  end.

(** A configuration whose [global] section names a hardware section that
    the file does not have. *)
Definition example_config_no_hardware : dictionary :=
  [("global", gm [("hardware", "rx888"); ("status", "hf-status.local")]);
   ("sig_gen", gm [("device", "sig_gen")]);
   ("forty", gm [("freq", "7,040,000"); ("preset", "am")])].

Definition example_no_hardware_state : radiod :=
  match startup_before_hardware example_world example_config_no_hardware
          (radiod_init FFTW_PATIENT 0) with
  | Ret _ s => s
  | _ => radiod_init FFTW_PATIENT 0
  end.

(** The first value that is set, of a list of optional ones. *)
Fixpoint first_set (l : list (option string)) : option string :=
  match l with
  | [] => None
  | Some v :: _ => Some v
  | None :: rest => first_set rest
  end.

(** A [global] section with both the old keyword [mode] and the new one,
    [preset]. *)
Definition example_config_mode_preset : dictionary :=
  [("global", gm [("hardware", "sig_gen"); ("status", "hf-status.local");
                  ("mode", "usb"); ("preset", "am")]);
   ("sig_gen", gm [("device", "sig_gen")]);
   ("forty", gm [("freq", "7,040,000")])].

Definition example_mode_preset_final : radiod :=
  match loadconfig example_world example_config_mode_preset (radiod_init FFTW_PATIENT 0) with
  | Ret _ s => s
  | _ => radiod_init FFTW_PATIENT 0
  end.

(** A token: not empty, and without space or tab. *)
Definition delimiter_free (tok : string) : bool :=
  forallb (fun c => negb (is_delim c)) (list_ascii_of_string tok).

Definition is_token (tok : string) : bool := negb (streq tok "") && delimiter_free tok.

(** The block time and the overlap factor. *)
Definition block_view (s : radiod) : spec_float * Z := (Blocktime s, Overlap s).

(** The state in which the sections of [example_config] are processed, and
    the one its section leaves. *)
Definition example_before_sections : radiod :=
  match (startup_before_check example_world example_config ;; check_stream_names ;;
         open_control example_world) (radiod_init FFTW_PATIENT 0) with
  | Ret _ s => s
  | _ => radiod_init FFTW_PATIENT 0
  end.

Definition example_after_section : radiod :=
  match process_section example_world example_config "forty" example_before_sections with
  | Ret _ s => s
  | _ => example_before_sections
  end.

(** A file in which neither the channel section nor [global] names a
    preset. *)
Definition example_config_no_preset : dictionary :=
  [("global", gm [("hardware", "sig_gen"); ("status", "hf-status.local")]);
   ("sig_gen", gm [("device", "sig_gen")]);
   ("forty", gm [("freq", "7,040,000")])].

(* ================================================================= *)
(** ** The configuration file or directory (main.c 295-411) *)

(** The messages of [main] and of the first part of [loadconfig] are kept
    as the text that [fprintf] writes to the standard error stream,
    descriptor 2. *)
Definition fprintf_text (text : string) : prog unit := emit (Ev_write 2 text).

(** [st_mode & S_IFMT], as far as [loadconfig] tells the values apart. *)
Inductive file_type : Type := S_IFREG | S_IFDIR | S_IFOTHER.

(** What [openat], [fdopen] and [getline] give for a component of the
    configuration directory: a failure with the text of [strerror], or the
    lines of the file, each with its newline. *)
Inductive component : Type :=
| Cant_open (error : string)
| Cant_fdopen (fd : Z) (error : string)
| Lines (lines : list string).

(** The file system as [loadconfig] uses it. *)
Record filesystem : Type := mk_filesystem {
  stat : string -> option file_type;                  (* None: stat fails *)
  opendir : string -> option (list string);           (* the names readdir gives, in its
                                                         order; None: opendir fails *)
  fstatat : string -> string -> option file_type;     (* directory, name *)
  short_name_conf : string -> string -> bool;         (* directory, name: see ends_in_conf *)
  strdup : nat -> string -> Z;                        (* the address of the copy of a name, for
                                                         the number of copies made before *)
  mkstemp : string + string * string;                 (* the name of the file created, or
                                                         the template as it is left and
                                                         the text of the error *)
  fdopen_temp : option string;                        (* fdopen(tfd,...): the text of the
                                                         error, if it fails *)
  open_component : string -> string -> component;     (* directory, name *)
  temp_write : string -> string -> option string * string;
                                                      (* what the temporary file holds, the
                                                         text to add: the error of the
                                                         write, if any, and what the file
                                                         holds afterwards *)
  iniparser_load_temp : string -> option dictionary   (* iniparser_load on the temporary
                                                         file, by what it holds *)
}.

Definition PATH_MAX : nat := 4096.
Definition n_subfiles : nat := 100.

(** [snprintf(buf,size,...)] of a text: its first [size - 1] characters. *)
Definition snprintf (size : nat) (text : string) : string := String.substring 0 (size - 1) text.

(** [strcmp(".conf",dp->d_name + strlen(dp->d_name) - 5) == 0].  For a name
    of five characters or more these are its last five characters.  For a
    shorter name the comparison starts before [d_name], in the bytes of the
    [dirent] that precede it; what it finds there is the C library's. *)
Definition ends_in_conf (fs : filesystem) (dir name : string) : bool :=
  if (5 <=? String.length name)%nat
  then streq ".conf" (String.substring (String.length name - 5) 5 name)
  else short_name_conf fs dir name.

(** "only consider regular files ending in .conf" *)
Definition is_conf_file (fs : filesystem) (dir name : string) : bool :=
  ends_in_conf fs dir name
  && match fstatat fs dir name with
     | Some S_IFREG => true
     | _ => false
     end.

(** The loop over [readdir] (main.c 341-347): it ends with the directory or
    when [n_subfiles] names have been kept. *)
Fixpoint collect_subfiles (fs : filesystem) (dir : string) (entries subfiles : list string)
  : list string :=
  match entries with
  | [] => subfiles
  | name :: rest =>
      if (length subfiles <? n_subfiles)%nat
      then collect_subfiles fs dir rest
             (if is_conf_file fs dir name then subfiles ++ [name] else subfiles)
      else subfiles
  end.

(** The array [subfiles] holds the pointers that [strdup] returned, and
    [qsort] is given [strcmp] itself as the comparison (main.c 355).  [qsort]
    calls its comparison with the addresses of two elements of the array,
    so what [strcmp] compares is the bytes of the two pointers, each up to
    its first byte that is 0, and not the names they point to.  The bytes
    of a pointer are taken as on x86-64 and AArch64 Linux: eight, the
    lowest first, and the two highest 0, the addresses of a process lying
    below 2^48. *)
Definition pointer_bytes (p : Z) : list Z :=
  map (fun i => Z.land (Z.shiftr p (8 * Z.of_nat i)) 255) (seq 0 6) ++ [0; 0].

(** The string that [strcmp] reads at bytes: those before the first 0. *)
Fixpoint c_string (bytes : list Z) : list Z :=
  match bytes with
  | [] => []
  | b :: rest => if b =? 0 then [] else b :: c_string rest
  end.

(** [strcmp(a,b) <= 0] on two such strings, the bytes compared as
    [unsigned char]. *)
Fixpoint bytes_le (a b : list Z) : bool :=
  match a, b with
  | [], _ => true
  | _ :: _, [] => false
  | x :: a', y :: b' => (x <? y) || ((x =? y) && bytes_le a' b')
  end.

Definition pointer_le (p q : Z * string) : Prop :=
  bytes_le (c_string (pointer_bytes p.1)) (c_string (pointer_bytes q.1)) = true.

#[global] Instance pointer_le_dec (p q : Z * string) : Decision (pointer_le p q).
Proof. unfold pointer_le. apply _. Defined.

(** Each element of [subfiles]: the pointer, and the name it points to. *)
Definition subfile_pointers (fs : filesystem) (subfiles : list string) : list (Z * string) :=
  imap (fun i name => (strdup fs i name, name)) subfiles.

(** The array as [qsort] leaves it.  Elements that compare equal are left
    in the order they had; [qsort] itself promises no order for them. *)
Definition qsort_strcmp (subfiles : list (Z * string)) : list (Z * string) :=
  merge_sort pointer_le subfiles.

(** The loop over [getline] (main.c 390-395); [content] is what the
    temporary file holds. *)
Fixpoint copy_lines (fs : filesystem) (tempfilename : string) (lines : list string)
  (content : string) : prog string :=
  match lines with
  | [] => mret content
  | linep :: rest =>
      match temp_write fs content linep with
      | (Some error, content') =>
          fprintf_text ("fputs(" +:+ linep +:+ "," +:+ tempfilename +:+ "): " +:+ error
                        +:+ newline) ;;
          mret content'                                   (* break *)
      | (None, content') => copy_lines fs tempfilename rest content'
      end
  end.

(** The body of the loop over the sorted names (main.c 374-398). *)
Definition copy_component (fs : filesystem) (dir tempfilename : string) (content name : string)
  : prog string :=
  match open_component fs dir name with
  | Cant_open error =>
      fprintf_text ("Can't read config component " +:+ name +:+ ": " +:+ error +:+ newline) ;;
      mret content
  | Cant_fdopen fd error =>
      fprintf_text ("fdopen(" +:+ pretty fd +:+ ",r) of " +:+ name +:+ " failed: " +:+ error
                    +:+ newline) ;;
      mret content
  | Lines lines =>
      (* fprintf(tfp,"# %s\n",subfiles[i]), its result not looked at *)
      copy_lines fs tempfilename lines
        (temp_write fs content ("# " +:+ name +:+ newline)).2
  end.

Fixpoint copy_components (fs : filesystem) (dir tempfilename : string) (names : list string)
  (content : string) : prog string :=
  match names with
  | [] => mret content
  | name :: rest =>
      content' ← copy_component fs dir tempfilename content name;
      copy_components fs dir tempfilename rest content'
  end.

(** The directory read, sorted and merged (main.c 335-407); [dname] is the
    buffer of that name, empty unless ".d" was appended.  No table is a
    return of -1. *)
Definition load_directory (fs : filesystem) (file dname dir : string) (entries : list string)
  : prog (option dictionary) :=
  let subfiles := collect_subfiles fs dir entries [] in
  if (length subfiles =? 0)%nat then
    fprintf_text ((if (0 <? String.length dname)%nat then dname else file)
                  +:+ ": empty config directory" +:+ newline) ;;
    mret None
  else
    let sorted := map snd (qsort_strcmp (subfile_pointers fs subfiles)) in
    match mkstemp fs with
    | inr (tempfilename, error) =>
        fprintf_text ("mkstemp(" +:+ tempfilename +:+ ") failed: " +:+ error +:+ newline) ;;
        mret None
    | inl tempfilename =>
        match fdopen_temp fs with
        | Some error =>
            fprintf_text ("Can't create temporary file " +:+ tempfilename +:+ ": " +:+ error
                          +:+ newline) ;;
            mret None
        | None =>
            content ← copy_components fs dir tempfilename sorted "";
            mret (iniparser_load_temp fs content)
        end
    end.

(** Main.c 299-411: the table read from the file, from the directory of
    that name, or from the directory of that name with ".d" appended; no
    table is a return of -1. *)
Definition read_config (w : world) (fs : filesystem) (file : string)
  : prog (option dictionary) :=
  match stat fs file with
  | Some S_IFREG =>
      fprintf_text ("Loading config file " +:+ file +:+ newline) ;;
      mret (iniparser_load w file)
  | Some S_IFDIR =>
      fprintf_text ("Loading config directory " +:+ file +:+ newline) ;;
      match opendir fs file with
      | None => mret None
      | Some entries => load_directory fs file "" file entries
      end
  | Some S_IFOTHER =>
      fprintf_text ("Config file " +:+ file
                    +:+ " exists but is not a regular file or directory" +:+ newline) ;;
      mret None
  | None =>
      let dname := snprintf PATH_MAX (file +:+ ".d") in
      dirp ← match stat fs dname with
             | Some S_IFDIR =>
                 fprintf_text ("Loading config directory " +:+ dname +:+ newline) ;;
                 mret (opendir fs dname)
             | _ => mret None
             end;
      match dirp with
      | None =>
          fprintf_text (file +:+ " Not a valid config file/directory" +:+ newline) ;;
          mret None
      | Some entries => load_directory fs file dname dname entries
      end
  end.

(** [loadconfig(file)] as a whole: main.c 295-654. *)
Definition loadconfig_file (w : world) (fs : filesystem) (file : string) : prog Z :=
  if (String.length file =? 0)%nat then mret (-1)
  else
    table ← read_config w fs file;
    match table with
    | None => mret (-1)
    | Some Configtable => loadconfig w Configtable
    end.

(* ================================================================= *)
(** ** main (main.c 184-292) *)

(** The instance name is [Name], set by [-N] or else the path of the
    configuration file. *)
Definition set_Name (name : string) (w : world) : world :=
  mk_world name (gethostname w) (strtol w) (strtod w) (dist_path w) (iniparser_load w)
    (config_validate w) (config_validate_section w) (Channel_keys w) (default_params w)
    (default_ttl w) (find_driver w) (compute_tuning w) (parse_frequency w) (output_mcast w)
    (listen_mcast w) (schedule w).

(** What the options leave outside the globals of [radiod]: [Name], and
    [FFTW_plan_timelimit], which filter.c owns. *)
Record options : Type := mk_options {
  opt_Name : option string;
  opt_timelimit : option spec_float
}.

Definition usage (argv0 : string) : string :=
  "Usage: " +:+ argv0
  +:+ " [-I] [-N name] [-h] [-p fftw_plan_time_limit] [-v [-v] ...] <CONFIG_FILE>" +:+ newline.

(** The loop over [getopt(argc,argv,"N:hvp:V")]; [opts] are the option
    characters that the successive calls return, each with [optarg]. *)
Fixpoint getopt_loop (w : world) (argv0 : string) (opts : list (ascii * string)) (o : options)
  : prog options :=
  match opts with
  | [] => mret o
  | (c, optarg) :: rest =>
      if Ascii.eqb c "V" then exit EX_OK
      else if Ascii.eqb c "p" then
        getopt_loop w argv0 rest (mk_options (opt_Name o) (Some (strtod w optarg)))
      else if Ascii.eqb c "v" then
        v ← get Verbose;
        v' ← int_checked (v + 1);
        modify (set_Verbose v') ;;
        getopt_loop w argv0 rest o
      else if Ascii.eqb c "N" then
        getopt_loop w argv0 rest (mk_options (Some optarg) (opt_timelimit o))
      else
        fprintf_text ("Unknown command line option " +:+ String c "" +:+ newline) ;;
        fprintf_text (usage argv0) ;;
        exit EX_USAGE
  end.

(** [main] up to its last loop (main.c 184-257), in a build with assertions
    ([NDEBUG] not defined); [operands] are the arguments from [optind] on.
    The signal handlers it installs are [main_signals].  The version
    banner, the line buffering of stderr, the start time and the locale
    (main.c 187-208) write nothing that a later step of the model reads, and
    are not followed. *)
Definition main_startup (w : world) (fs : filesystem) (argv0 : string)
  (opts : list (ascii * string)) (operands : list string) : prog Z :=
  fprintf_text ("Assertion checking enabled, execution will be slower" +:+ newline) ;;
  o ← getopt_loop w argv0 opts (mk_options None None);
  match operands with
  | [] => fprintf_text ("Configtable file missing" +:+ newline) ;; exit EX_NOINPUT
  | Config_file :: _ =>
      let name := default Config_file (opt_Name o) in
      n ← loadconfig_file (set_Name name w) fs Config_file;
      if n <? 0 then
        fprintf_text ("Can't load config file " +:+ Config_file +:+ newline) ;;
        exit EX_NOINPUT
      else
        fprintf_text (pretty n +:+ " total demodulators started" +:+ newline) ;;
        ctl ← get Ctl_fd;
        when ((ctl =? -1) && (n =? 0))
          (fprintf_text
             ("Warning: no control channel and no static demodulators, radiod won't do anything"
              +:+ newline)) ;;
        mret n
  end.

(* ----------------------------------------------------------------- *)
(** Notions for the configuration directory. *)

(** The text that the components [names] of [dir] make when each can be
    read: for each a comment line with its name, then its lines. *)
Definition component_text (fs : filesystem) (dir name : string) : string :=
  match open_component fs dir name with
  | Lines lines => "# " +:+ name +:+ newline +:+ String.concat "" lines
  | _ => ""
  end.

Definition merged_text (fs : filesystem) (dir : string) (names : list string) : string :=
  String.concat "" (map (component_text fs dir) names).

(** Every write to the temporary file succeeds and appends. *)
Definition reliable_temp (fs : filesystem) : Prop :=
  forall content text, temp_write fs content text = (None, content +:+ text).

(** Every one of [names] can be opened and read. *)
Definition readable (fs : filesystem) (dir : string) (names : list string) : Prop :=
  Forall (fun name => exists lines, open_component fs dir name = Lines lines) names.

(** The table that iniparser reads from the two files of the example
    directory when the channel section is merged first. *)
Definition example_config_merged : dictionary :=
  [("forty", gm [("freq", "7,040,000"); ("preset", "am")]);
   ("global", gm [("hardware", "sig_gen"); ("status", "hf-status.local")]);
   ("sig_gen", gm [("device", "sig_gen")])].

(** A directory [/etc/radio/radiod@hf.conf.d] with two components, a file
    that is not one and the two dot entries; there is no file
    [/etc/radio/radiod@hf.conf]. *)
Definition example_dir : string := "/etc/radio/radiod@hf.conf.d".

Definition example_fs : filesystem :=
  mk_filesystem
    (fun path => if streq path example_dir then Some S_IFDIR else None)
    (fun path => if streq path example_dir
                 then Some ["."; "20-channels.conf"; "README"; ".."; "10-global.conf"]
                 else None)
    (fun _ name => if streq name "." || streq name ".." then Some S_IFDIR else Some S_IFREG)
    (fun _ _ => false)
    (fun i _ => 94364509246112 + 32 * Z.of_nat i)
    (inl "/tmp/radiod-configAb3dE9xQ")
    None
    (fun _ name =>
       if streq name "10-global.conf"
       then Lines ["[global]" +:+ newline; "hardware = sig_gen" +:+ newline;
                   "status = hf-status.local" +:+ newline;
                   "[sig_gen]" +:+ newline; "device = sig_gen" +:+ newline]
       else if streq name "20-channels.conf"
       then Lines ["[forty]" +:+ newline; "freq = 7,040,000" +:+ newline;
                   "preset = am" +:+ newline]
       else Cant_open "No such file or directory")
    (fun content text => (None, content +:+ text))
    (fun content =>
       if streq content
            (String.concat ""
               ["# 20-channels.conf" +:+ newline;
                "[forty]" +:+ newline; "freq = 7,040,000" +:+ newline;
                "preset = am" +:+ newline;
                "# 10-global.conf" +:+ newline;
                "[global]" +:+ newline; "hardware = sig_gen" +:+ newline;
                "status = hf-status.local" +:+ newline;
                "[sig_gen]" +:+ newline; "device = sig_gen" +:+ newline])
       then Some example_config_merged else None).

(** [m] returns, whatever the state, and changes nothing but the trace. *)
Definition only_writes {A : Type} (m : prog A) : Prop :=
  forall s, exists a s', m s = Ret a s' /\ s' = set_trace (trace s') s.

(** The last loop of [main] (main.c 259-290), which measures the use of the
    processor.  [tv_sec] and [tv_nsec] are [long]. *)
Record timespec : Type := mk_timespec { tv_sec : Z; tv_nsec : Z }.

(** What [clock_gettime] gives in one turn of the loop, for CLOCK_MONOTONIC
    and for CLOCK_PROCESS_CPUTIME_ID. *)
Record reading : Type := mk_reading { realtime : timespec; cputime : timespec }.

Definition long_checked (z : Z) : prog Z := if in_long z then mret z else undefined.

(** The constants [1e-9] and [100.] *)
Definition d1e_9 : spec_float := fdiv64 (double_of_Z 1) (double_of_Z 1000000000).
Definition d100 : spec_float := double_of_Z 100.

(** [a.tv_sec - b.tv_sec + 1e-9 * (a.tv_nsec - b.tv_nsec)] *)
Definition elapsed (a b : timespec) : prog spec_float :=
  sec ← long_checked (tv_sec a - tv_sec b);
  nsec ← long_checked (tv_nsec a - tv_nsec b);
  mret (SFadd 53 1024 (double_of_Z sec) (SFmul 53 1024 d1e_9 (double_of_Z nsec))).

(** The report of one turn; [format] is [printf]'s conversion "%.1lf".  The
    result is the new [last_realtime] and [last_cputime]. *)
Definition cpu_usage (format : spec_float -> string) (start_realtime : timespec)
  (last : timespec * timespec) (now : reading) : prog (timespec * timespec) :=
  total_real ← elapsed (realtime now) start_realtime;
  let total_cpu := SFadd 53 1024 (double_of_Z (tv_sec (cputime now)))
                     (SFmul 53 1024 d1e_9 (double_of_Z (tv_nsec (cputime now)))) in
  let total_percent := fdiv64 (SFmul 53 1024 d100 total_cpu) total_real in
  period_real ← elapsed (realtime now) last.1;
  period_cpu ← elapsed (cputime now) last.2;
  let period_percent := fdiv64 (SFmul 53 1024 d100 period_cpu) period_real in
  fprintf_text ("CPU usage: " +:+ format total_percent +:+ "% since start, "
                +:+ format period_percent +:+ "% in last " +:+ format period_real
                +:+ " sec" +:+ newline) ;;
  mret (realtime now, cputime now).

(** The turns of the loop for the clock readings [readings], one for each
    turn; the loop itself has no end. *)
Fixpoint main_loop (format : spec_float -> string) (start_realtime : timespec)
  (last : timespec * timespec) (readings : list reading) : prog unit :=
  match readings with
  | [] => mret tt
  | now :: rest =>
      stop ← get Stop_transfers;
      emit (Ev_sleep 60 stop) ;;
      v ← get Verbose;
      if negb (v =? 0) then
        last' ← cpu_usage format start_realtime last now;
        main_loop format start_realtime last' rest
      else main_loop format start_realtime last rest
  end.

(* ----------------------------------------------------------------- *)
(** Notions for the command line. *)

(** The options after which [main] goes on: [-p], [-v] and [-N]. *)
Definition plain_option (opt : ascii * string) : bool :=
  Ascii.eqb opt.1 "p" || Ascii.eqb opt.1 "v" || Ascii.eqb opt.1 "N".

(** The number of [-v] among the options. *)
Definition count_v (opts : list (ascii * string)) : Z :=
  Z.of_nat (length (filter (fun opt => Ascii.eqb opt.1 "v" = true) opts)).

(** What the options leave in [options], from left to right. *)
Definition apply_option (w : world) (o : options) (opt : ascii * string) : options :=
  if Ascii.eqb opt.1 "p" then mk_options (opt_Name o) (Some (strtod w opt.2))
  else if Ascii.eqb opt.1 "N" then mk_options (Some opt.2) (opt_timelimit o)
  else o.

(** The state in which the options leave the program: [Verbose] counted
    up, and the notice that [main] writes first. *)
Definition after_options (opts : list (ascii * string)) (s : radiod) : radiod :=
  set_Verbose (Verbose s + count_v opts)
    (set_trace (trace s ++ [Ev_write 2 ("Assertion checking enabled, execution will be slower"
                                        +:+ newline)]) s).

(** The run of the example: the directory [example_dir] read for the file
    name without ".d", with the options [-v -N hf -v]. *)
Definition example_file : string := "/etc/radio/radiod@hf.conf".

Definition example_opts : list (ascii * string) :=
  [("v"%char, ""); ("N"%char, "hf"); ("v"%char, "")].

Definition example_main_final : radiod :=
  match main_startup example_world example_fs "radiod" example_opts [example_file]
          (radiod_init FFTW_PATIENT 0) with
  | Ret _ s => s
  | _ => radiod_init FFTW_PATIENT 0
  end.

Definition example_file_final : radiod :=
  match loadconfig_file example_world example_fs example_file (radiod_init FFTW_PATIENT 0) with
  | Ret _ s => s
  | _ => radiod_init FFTW_PATIENT 0
  end.


(* ----------------------------------------------------------------- *)
(** Notions for a section with an [ssrc] entry. *)

(** The [i]-th of the SSRCs that the collision loop tries from [r]. *)
Definition probe_key (r : Z) (i : nat) : Z := to_uint32 (r + Z.of_nat i).

(** A section with an [ssrc] entry and three frequencies. *)
Definition example_config_ssrc : dictionary :=
  [("global", gm [("hardware", "sig_gen"); ("status", "hf-status.local")]);
   ("sig_gen", gm [("device", "sig_gen")]);
   ("wspr", gm [("freq", "7038600 10138700 14095600"); ("preset", "usb"); ("ssrc", "500")])].

(** A file with no section that defines channels: the second front end is
    not the one in use, and the channel section is disabled. *)
Definition example_config_silent : dictionary :=
  [("global", gm [("hardware", "sig_gen"); ("status", "hf-status.local")]);
   ("sig_gen", gm [("device", "sig_gen")]);
   ("spare", gm [("device", "rx888")]);
   ("forty", gm [("freq", "7,040,000"); ("preset", "am"); ("disable", "yes")])].

Definition example_silent_final : radiod :=
  match loadconfig example_world example_config_silent (radiod_init FFTW_PATIENT 0) with
  | Ret _ s => s
  | _ => radiod_init FFTW_PATIENT 0
  end.

(* ================================================================= *)
(** ** Notions for the start-up threads *)

(** [s'] differs from [s] in the trace, the registry and the count of
    channels at most. *)
Definition same_config (s s' : radiod) : Prop :=
  exists tr m n, s' = set_trace tr (set_Channel_list m (set_Nchans n s)).

(** What a thread knows of the channels while it runs among the others:
    the channels it has created, as it has left them; those of them for
    which it has not stored [Nchans] yet; and a number of stores to
    [Nchans] that have been made. *)
Record local : Type := mk_local {
  own : gmap Z channel.t;
  pending : gset Z;
  seen : Z
}.

Definition local_init : local := mk_local ∅ ∅ 0.

Section Thread_notions.

(** The count of channels when the threads start, and what is to be shown
    of every channel that a thread has created when the thread returns. *)
Variable N0 : Z.
Variable P : Z -> channel.t -> Prop.

(** The state as a thread with the knowledge [l] can find it; [counted] are
    the channels for which [Nchans] has been stored. *)
Definition compat (l : local) (counted : gset Z) (s : radiod) : Prop :=
  own l ⊆ Channel_list s
  /\ pending l ⊆ dom (own l)
  /\ pending l ## counted
  /\ counted ⊆ dom (Channel_list s)
  /\ seen l <= Z.of_nat (size counted)
  /\ N0 <= Nchans s <= N0 + Z.of_nat (size counted).

(** One step of the thread: it leaves the configuration alone; it changes
    no channel but one of its own, or creates one; and it counts no
    channel but one of its own that was pending. *)
Definition step_ok (l l' : local) (counted counted' : gset Z) (s s' : radiod) : Prop :=
  same_config s s'
  /\ ((Channel_list s' = Channel_list s /\ own l' = own l)
      \/ exists k c, Channel_list s !! k = own l !! k
                     /\ Channel_list s' = <[k := c]> (Channel_list s)
                     /\ own l' = <[k := c]> (own l))
  /\ (counted' = counted \/ exists k, k ∈ pending l /\ counted' = {[k]} ∪ counted)
  /\ compat l' counted' s'.

(** [triple t l Q]: run among threads that keep to [step_ok], the thread
    [t] that knows [l] keeps to it too, never ends the program, and returns
    with [Q]. *)
Fixpoint triple {A : Type} (t : thread A) (l : local) (Q : A -> local -> Prop) : Prop :=
  match t with
  | Done a => Q a l
  | Step m =>
      forall s counted, compat l counted s ->
        match m s with
        | Ret t' s' => exists l' counted', step_ok l l' counted counted' s s' /\ triple t' l' Q
        | Exit _ _ | Abort _ => False
        | Undefined => True
        end
  end.

(** The thread has finished with the channels it has created: each has
    the property [P], and [Nchans] has been stored for each. *)
Definition settled (l : local) : Prop := map_Forall P (own l) /\ pending l = ∅.

(** The threads with what each knows; [who] names, for every channel that
    a thread has created, the thread; [s0] is the state in which the
    threads were started. *)
Record pool_inv (s0 : radiod) (pl : list (thread unit * local)) (who : gmap Z nat)
  (counted : gset Z) (s : radiod) : Prop := mk_pool_inv {
  pool_threads : forall i t l, pl !! i = Some (t, l) ->
    triple t l (fun _ l' => settled l')
    /\ pending l ⊆ dom (own l) /\ pending l ## counted
    /\ seen l <= Z.of_nat (size counted)
    /\ forall k c, own l !! k = Some c <-> who !! k = Some i /\ Channel_list s !! k = Some c;
  pool_base : forall k c, Channel_list s0 !! k = Some c ->
    Channel_list s !! k = Some c /\ who !! k = None;
  pool_dom : forall k, is_Some (Channel_list s !! k) ->
    is_Some (Channel_list s0 !! k) \/ is_Some (who !! k);
  pool_who : forall k i, who !! k = Some i ->
    is_Some (Channel_list s !! k) /\ is_Some (pl !! i);
  pool_counted : counted ⊆ dom who;
  pool_Nchans : N0 <= Nchans s <= N0 + Z.of_nat (size counted);
  pool_config : same_config s0 s
}.

End Thread_notions.

Arguments pool_threads {N0 P s0 pl who counted s}.
Arguments pool_base {N0 P s0 pl who counted s}.
Arguments pool_dom {N0 P s0 pl who counted s}.
Arguments pool_who {N0 P s0 pl who counted s}.
Arguments pool_counted {N0 P s0 pl who counted s}.
Arguments pool_Nchans {N0 P s0 pl who counted s}.
Arguments pool_config {N0 P s0 pl who counted s}.

(** A channel as [create_chan] leaves it. *)
Definition blank_channel (ssrc : Z) : channel.t := channel.set_output_rtp_ssrc ssrc channel.zero.

(** A thread that cannot return: whatever the other threads do between
    its steps, it has a next step, until one of its steps ends the
    program or has no defined result. *)
Fixpoint never_returns {A : Type} (t : thread A) : Prop :=
  match t with
  | Done _ => False
  | Step m => forall s, match m s with
                        | Ret t' _ => never_returns t'
                        | _ => True
                        end
  end.

(* ================================================================= *)
(** * Properties *)

(* ================================================================= *)
(** ** Signals *)

Lemma closedown_result (a : signal) (s : radiod) :
  closedown a s =
  Exit (if decide (a = SIGTERM) then EX_OK else EX_SOFTWARE)
       (set_trace (trace s ++ [Ev_write 1 (String.append "Received signal, shutting down" newline);
                               Ev_sleep 1 true])
                  (set_Stop_transfers true s)).
Proof.
  destruct s. unfold closedown, mbind, prog_bind, emit, modify, get, exit. simpl.
  unfold set_trace, set_Stop_transfers. simpl. by rewrite <- app_assoc.
Qed.

Lemma verbosity_up (s : radiod) :
  INT_MIN <= Verbose s < INT_MAX ->
  verbosity SIGUSR1 s = Ret tt (set_Verbose (Verbose s + 1) s).
Proof.
  intros [Hlo Hhi]. unfold verbosity, mbind, prog_bind, get, int_checked, in_int. simpl.
  replace ((INT_MIN <=? Verbose s + 1) && (Verbose s + 1 <=? INT_MAX)) with true; [done|].
  symmetry. apply andb_true_iff. split; apply Z.leb_le; unfold INT_MIN, INT_MAX in *; lia.
Qed.

Lemma verbosity_down (s : radiod) :
  verbosity SIGUSR2 s = Ret tt (set_Verbose (Z.max 0 (Verbose s - 1)) s).
Proof.
  unfold verbosity, mbind, prog_bind, get, modify. simpl.
  destruct (Z.leb_spec (Verbose s) 0).
  - by rewrite Z.max_l by lia.
  - by rewrite Z.max_r by lia.
Qed.

(** C8.  The signals [main] catches: SIGINT, SIGQUIT and SIGTERM run
    [closedown], which writes its message, sets [Stop_transfers], sleeps one
    second with the flag visible and exits with 0 for SIGTERM and 70
    (EX_SOFTWARE) otherwise; SIGPIPE is ignored and leaves the state as it
    is; SIGUSR1 adds one to [Verbose] (an [int] below INT_MAX); SIGUSR2
    subtracts one but never goes below 0. *)
Theorem signals_dispatch (s : radiod) :
  (forall sig, sig = SIGINT \/ sig = SIGQUIT \/ sig = SIGTERM ->
     deliver sig s =
     Some (Exit (if decide (sig = SIGTERM) then 0 else 70)
             (set_trace (trace s ++
                           [Ev_write 1 (String.append "Received signal, shutting down" newline);
                            Ev_sleep 1 true])
                (set_Stop_transfers true s))))
  /\ deliver SIGPIPE s = Some (Ret tt s)
  /\ (INT_MIN <= Verbose s < INT_MAX ->
      deliver SIGUSR1 s = Some (Ret tt (set_Verbose (Verbose s + 1) s)))
  /\ deliver SIGUSR2 s = Some (Ret tt (set_Verbose (Z.max 0 (Verbose s - 1)) s))
  /\ 0 <= Z.max 0 (Verbose s - 1).
Proof.
  repeat split.
  - intros sig [-> | [-> | ->]]; unfold deliver; simpl; by rewrite closedown_result.
  - intros H. unfold deliver. simpl. by rewrite verbosity_up.
  - unfold deliver. simpl. by rewrite verbosity_down.
  - lia.
Qed.

Lemma signals_dispatch_witness :
  INT_MIN <= Verbose (radiod_init FFTW_PATIENT 0) < INT_MAX
  /\ deliver SIGUSR1 (radiod_init FFTW_PATIENT 0)
     = Some (Ret tt (set_Verbose (Verbose (radiod_init FFTW_PATIENT 0) + 1)
                       (radiod_init FFTW_PATIENT 0))).
Proof.
  split.
  - cbv [radiod_init Verbose INT_MIN INT_MAX]. lia.
  - apply (proj1 (proj2 (proj2 (signals_dispatch (radiod_init FFTW_PATIENT 0))))).
    cbv [radiod_init Verbose INT_MIN INT_MAX]. lia.
Defined.

(* ================================================================= *)
(** ** The result monad *)

Lemma bind_inv {A B : Type} (m : prog A) (f : A -> prog B) (s : radiod) (b : B) (s' : radiod) :
  (m ≫= f) s = Ret b s' -> exists a s1, m s = Ret a s1 /\ f a s1 = Ret b s'.
Proof.
  unfold mbind, prog_bind. destruct (m s) as [a s1| | |]; try discriminate. eauto.
Qed.

Lemma bind_Ret {A B : Type} (m : prog A) (f : A -> prog B) (s : radiod) (a : A) (s1 : radiod) :
  m s = Ret a s1 -> (m ≫= f) s = f a s1.
Proof. unfold mbind, prog_bind. by intros ->. Qed.

Lemma in_int_between (z : Z) : INT_MIN <= z <= INT_MAX -> in_int z = true.
Proof.
  intros [H1 H2]. unfold in_int. apply andb_true_iff. split; by apply Z.leb_le.
Qed.

Lemma int_checked_inv (z v : Z) (s s' : radiod) :
  int_checked z s = Ret v s' -> v = z /\ s' = s /\ INT_MIN <= z <= INT_MAX.
Proof.
  unfold int_checked, in_int. destruct (Z.leb_spec INT_MIN z), (Z.leb_spec z INT_MAX);
    simpl; try discriminate.
  intros [= <- <-]. auto.
Qed.

Lemma int_checked_Ret (z : Z) (s : radiod) :
  INT_MIN <= z <= INT_MAX -> int_checked z s = Ret z s.
Proof.
  intros [H1 H2]. unfold int_checked, in_int.
  apply Z.leb_le in H1, H2. by rewrite H1, H2.
Qed.

Lemma assert_inv (b : bool) (s s' : radiod) (u : unit) :
  assert b s = Ret u s' -> b = true /\ s' = s.
Proof. unfold assert. destruct b; [intros [= _ <-]; auto | discriminate]. Qed.

Lemma when_inv (b : bool) (p : prog unit) (s s' : radiod) (u : unit) :
  when b p s = Ret u s' -> (b = true /\ p s = Ret u s') \/ (b = false /\ s' = s).
Proof. unfold when. destruct b; [auto | intros [= _ <-]; auto]. Qed.


Lemma to_uint32_to_int (z : Z) : to_uint32 (to_int z) = to_uint32 z.
Proof.
  unfold to_uint32, to_int, UINT32_MOD.
  rewrite Zminus_mod, Zmod_mod, <- Zminus_mod.
  replace (z + 2147483648 - 2147483648) with z by lia. done.
Qed.

(* ================================================================= *)
(** ** The sizes of the filter input *)

(** What [filter_sizes] has done when it returns. *)
Lemma filter_sizes_inv (samprate : Z) (bt : spec_float) (ov : Z) (s s' : radiod) (vL vM vN : Z) :
  filter_sizes samprate bt ov s = Ret (vL, vM, vN) s' ->
  exists l, lround (eL_of samprate bt) = Some l
    /\ vL = to_int l
    /\ samprate <> 0 /\ ov <> 1 /\ vL <> 0 /\ vM <> 0
    /\ vM = Z.quot vL (ov - 1) + 1
    /\ vN = vL + vM - 1
    /\ frontend.L (Frontend s') = vL
    /\ frontend.M (Frontend s') = vM
    /\ frontend.notches (Frontend s') = replicate NOTCH_SLOTS notch_state.zero.
Proof.
  unfold filter_sizes. intros H.
  apply bind_inv in H as (u & s1 & Ha & H). apply assert_inv in Ha as [Hs ->].
  destruct (lround (eL_of samprate bt)) as [l|] eqn:El; [|discriminate].
  exists l.
  apply bind_inv in H as (u1 & s2 & Hm & H).
  apply bind_inv in H as (u2 & s3 & Hw & H).
  apply bind_inv in H as (d & s4 & Hd & H). apply int_checked_inv in Hd as (-> & -> & Hdr).
  apply bind_inv in H as (u3 & s5 & Hz & H).
  apply bind_inv in H as (q & s6 & Hq & H). apply int_checked_inv in Hq as (-> & -> & Hqr).
  apply bind_inv in H as (m & s7 & HM & H). apply int_checked_inv in HM as (-> & -> & HMr).
  apply bind_inv in H as (u4 & s8 & Hs8 & H).
  apply bind_inv in H as (u5 & s9 & Ha1 & H). apply assert_inv in Ha1 as [HM0 ->].
  apply bind_inv in H as (u6 & s10 & Ha2 & H). apply assert_inv in Ha2 as [HL0 ->].
  apply bind_inv in H as (u7 & s11 & Hn & H).
  apply bind_inv in H as (ml & s12 & Hml & H). apply int_checked_inv in Hml as (-> & -> & Hmlr).
  apply bind_inv in H as (n & s13 & HN & H). apply int_checked_inv in HN as (-> & -> & HNr).
  injection H as <- <- <- <-.
  assert (ov - 1 <> 0) as Hov.
  { apply when_inv in Hz as [[_ Hu] | [Hf _]]; [discriminate|]. by apply Z.eqb_neq in Hf. }
  assert (s5 = s3) as ->.
  { apply when_inv in Hz as [[_ Hu] | [_ ->]]; [discriminate | done]. }
  assert (Frontend s3 = Frontend s2) as Hfe.
  { apply when_inv in Hw as [[_ Hp] | [_ ->]]; [by injection Hp as _ <- | done]. }
  injection Hm as _ <-.
  injection Hn as _ <-. injection Hs8 as _ <-.
  apply negb_true_iff in Hs, HM0, HL0. apply Z.eqb_neq in Hs, HM0, HL0.
  cbn [Frontend set_Frontend frontend.L frontend.M frontend.notches
       frontend.set_notches frontend.set_M].
  rewrite Hfe. cbn [Frontend set_Frontend frontend.L frontend.set_L].
  repeat split; try done; lia.
Qed.


Lemma example_eL : lround (eL_of 1200000 DEFAULT_BLOCKTIME) = Some 24000.
Proof. vm_compute. reflexivity. Qed.

(** The product [samprate * Blocktime] is a [float], rounded to 24 bits
    before the division: at 100 000 022 Hz the quotient is 2000000.512
    (2000000.44 in exact arithmetic). *)
Example eL_product_is_single_precision :
  eL_of 100000022 DEFAULT_BLOCKTIME = S754_finite false 8589936791023256 (-32)
  /\ lround (eL_of 100000022 DEFAULT_BLOCKTIME) = Some 2000001.
Proof. split; vm_compute; reflexivity. Qed.



(* ================================================================= *)
(** ** Frame properties: what a piece of the program leaves alone *)


Section Frame.
Context {X : Type} (f : radiod -> X).

Lemma preserves_ret {A : Type} (a : A) : preserves f (mret a).
Proof. by intros s. Qed.

Lemma preserves_get {A : Type} (g : radiod -> A) : preserves f (get g).
Proof. by intros s. Qed.

Lemma preserves_exit {A : Type} (c : Z) : preserves f (@exit A c).
Proof. by intros s. Qed.

Lemma preserves_undefined {A : Type} : preserves f (@undefined A).
Proof. by intros s. Qed.

Lemma preserves_assert (b : bool) : preserves f (assert b).
Proof. intros s. unfold assert. by destruct b. Qed.

Lemma preserves_modify (g : radiod -> radiod) :
  (forall s, f (g s) = f s) -> preserves f (modify g).
Proof. intros H s. apply H. Qed.

Lemma preserves_bind {A B : Type} (m : prog A) (k : A -> prog B) :
  preserves f m -> (forall a, preserves f (k a)) -> preserves f (m ≫= k).
Proof.
  intros Hm Hk s. unfold mbind, prog_bind. specialize (Hm s).
  destruct (m s) as [a s1| | |]; try done.
  specialize (Hk a s1). destruct (k a s1); congruence.
Qed.

Lemma preserves_when (b : bool) (p : prog unit) :
  preserves f p -> preserves f (when b p).
Proof. intros H. unfold when. destruct b; [done | apply preserves_ret]. Qed.

Lemma preserves_int_checked (z : Z) : preserves f (int_checked z).
Proof. unfold int_checked. destruct (in_int z); [apply preserves_ret | apply preserves_undefined]. Qed.

Lemma preserves_int_of_floating (x : spec_float) : preserves f (int_of_floating x).
Proof.
  unfold int_of_floating. destruct (SF_trunc x);
    [apply preserves_int_checked | apply preserves_undefined].
Qed.

Lemma preserves_for_each {A : Type} (g : A -> prog unit) (l : list A) :
  (forall a, preserves f (g a)) -> preserves f (for_each g l).
Proof.
  intros H. induction l as [|a l IH]; [apply preserves_ret|].
  simpl. apply preserves_bind; auto.
Qed.

Lemma preserves_Ret {A : Type} (m : prog A) (s s' : radiod) (a : A) :
  preserves f m -> m s = Ret a s' -> f s' = f s.
Proof. intros H E. specialize (H s). by rewrite E in H. Qed.

Lemma preserves_Exit {A : Type} (m : prog A) (s s' : radiod) (c : Z) :
  preserves f m -> m s = Exit c s' -> f s' = f s.
Proof. intros H E. specialize (H s). by rewrite E in H. Qed.

End Frame.

(** The observation [f] does not look at the fields a setter changes. *)
Ltac frame_setter :=
  let s := fresh "s" in
  intros s;
  repeat match goal with |- context [if ?b then _ else _] => destruct b end;
  try destruct s; reflexivity.

Ltac frame_step :=
  first
    [ apply preserves_ret | apply preserves_get | apply preserves_exit
    | apply preserves_undefined | apply preserves_assert
    | apply preserves_int_checked | apply preserves_int_of_floating
    | apply preserves_when
    | apply preserves_for_each; intros ?
    | apply preserves_bind; [|intros ?]
    | apply preserves_modify; frame_setter
    | match goal with
      | |- preserves _ (if ?b then _ else _) => destruct b
      | |- preserves _ (match ?x with _ => _ end) => destruct x
      | |- preserves _ (let '(_, _) := ?x in _) => destruct x
      end ].

Ltac frame := repeat frame_step.

Lemma emit_preserves {X : Type} (f : radiod -> X) (e : event) :
  (forall t s, f (set_trace t s) = f s) -> preserves f (emit e).
Proof. intros H. unfold emit. apply preserves_modify. intros s. apply H. Qed.

Lemma create_chan_preserves {X : Type} (f : radiod -> X) (ssrc : Z) :
  (forall m s, f (set_Channel_list m s) = f s) -> preserves f (create_chan ssrc).
Proof.
  intros H s. unfold create_chan. destruct (Channel_list s !! ssrc); [done | apply H].
Qed.

Lemma update_chan_preserves {X : Type} (f : radiod -> X) (c : Z) (g : channel.t -> channel.t) :
  (forall m s, f (set_Channel_list m s) = f s) -> preserves f (update_chan c g).
Proof. intros H. unfold update_chan. apply preserves_modify. intros s. apply H. Qed.


Lemma probe_ssrc_preserves {X : Type} (f : radiod -> X) (n : nat) (ssrc : Z) :
  (forall m s, f (set_Channel_list m s) = f s) -> preserves f (probe_ssrc n ssrc).
Proof.
  intros H. revert ssrc. induction n as [|n IH]; intros ssrc; simpl.
  - apply preserves_ret.
  - apply preserves_bind; [by apply create_chan_preserves|].
    intros [c|]; [apply preserves_ret | apply IH].
Qed.

Lemma process_token_preserves {X : Type} (f : radiod -> X) w cfg sname t n tok :
  config_view f -> preserves f (process_token w cfg sname t n tok).
Proof.
  intros (Ht & Hc & Hn). unfold process_token, fprintf_stderr, set_freq, start_demod.
  destruct (SF_is_negative _).
  { apply preserves_bind; [by apply emit_preserves | intros; apply preserves_ret]. }
  destruct (_ =? 0); [apply preserves_ret|].
  apply preserves_bind; [by apply probe_ssrc_preserves|].
  intros [[c|] ssrc'].
  - repeat first [ apply update_chan_preserves; assumption
                 | apply preserves_modify; intros ?; apply Hn
                 | frame_step ].
  - apply preserves_bind; [by apply emit_preserves | intros; apply preserves_ret].
Qed.

Lemma process_tokens_preserves {X : Type} (f : radiod -> X) w cfg sname t n toks :
  config_view f -> preserves f (process_tokens w cfg sname t n toks).
Proof.
  intros H. revert n. induction toks as [|tok toks IH]; intros n; simpl.
  - apply preserves_ret.
  - apply preserves_bind; [by apply process_token_preserves | intros; apply IH].
Qed.

Lemma process_freq_lists_preserves {X : Type} (f : radiod -> X) w cfg sname t n keys :
  config_view f -> preserves f (process_freq_lists w cfg sname t n keys).
Proof.
  intros H. revert n. induction keys as [|k keys IH]; intros n; simpl.
  - apply preserves_ret.
  - destruct (config_getstring cfg sname k None); [|apply IH].
    apply preserves_bind; [by apply process_tokens_preserves | intros; apply IH].
Qed.

Lemma section_template_preserves {X : Type} (f : radiod -> X) w cfg sname :
  config_view f -> preserves f (section_template w cfg sname).
Proof.
  intros (Ht & Hc & Hn). unfold section_template, build_template, fprintf_stderr.
  repeat first [ apply emit_preserves; assumption | frame_step ].
Qed.

Lemma process_section_preserves {X : Type} (f : radiod -> X) w cfg sname :
  config_view f -> preserves f (process_section w cfg sname).
Proof.
  intros H. unfold process_section.
  apply preserves_bind; [by apply section_template_preserves|]. intros t.
  apply preserves_bind; [by apply process_freq_lists_preserves|]. intros n.
  destruct H as (Ht & _). by apply emit_preserves.
Qed.

(* ================================================================= *)
(** ** The start-up threads *)

#[local] Set Warnings "-clear-no-such-hyp".

(** Induction on the steps that a thread has left. *)
Lemma thread_steps_ind {A : Type} (P : thread A -> Prop) :
  (forall a, P (Done a)) ->
  (forall m, (forall s t' s', m s = Ret t' s' -> P t') -> P (Step m)) ->
  forall t, P t.
Proof.
  intros HD HS. fix IH 1. intros [a|m]; [apply HD|].
  apply HS. intros s t' s' E.
  assert (match m s with Ret t0 _ => P t0 | _ => True end) as H.
  { destruct (m s) as [t0 s0| | |]; [apply IH | exact I..]. }
  by rewrite E in H.
Qed.

Lemma run_atomic {A : Type} (m : prog A) (s : radiod) : run (atomic m) s = m s.
Proof. cbn. unfold mbind, prog_bind. by destruct (m s). Qed.

Lemma run_bind {A B : Type} (t : thread A) (k : A -> thread B) (s : radiod) :
  run (t ≫= k) s = (run t ≫= fun a => run (k a)) s.
Proof.
  revert s. induction t as [a|m IH] using thread_steps_ind; intros s; [done|].
  cbn. unfold mbind at 2. unfold prog_bind. cbn.
  destruct (m s) as [t' s'| | |] eqn:E; try done.
  apply (IH _ _ _ E).
Qed.

(** Two programs that are equal step by step. *)
Lemma bind_cong {A B : Type} (m m' : prog A) (k k' : A -> prog B) (s : radiod) :
  m s = m' s -> (forall a s1, k a s1 = k' a s1) -> (m ≫= k) s = (m' ≫= k') s.
Proof. intros Hm Hk. unfold mbind, prog_bind. rewrite Hm. destruct (m' s); auto. Qed.

Ltac run_thread :=
  repeat first
    [ rewrite run_atomic
    | rewrite run_bind
    | apply bind_cong; [|intros ? ?]
    | reflexivity
    | match goal with
      | |- context [match ?x with _ => _ end] => destruct x
      | |- context [if ?b then _ else _] => destruct b
      end ].

Lemma run_each_step {A : Type} (f : A -> prog unit) (l : list A) (s : radiod) :
  run (each_step f l) s = for_each f l s.
Proof.
  revert s. induction l as [|x l IH]; intros s; [done|].
  cbn [each_step for_each]. rewrite run_bind. apply bind_cong; [apply run_atomic | auto].
Qed.

Lemma run_probe_ssrc (n : nat) (ssrc : Z) (s : radiod) :
  run (probe_ssrc_thread n ssrc) s = probe_ssrc n ssrc s.
Proof.
  revert ssrc s. induction n as [|n IH]; intros ssrc s; [done|].
  cbn [probe_ssrc_thread probe_ssrc]. rewrite run_bind.
  apply bind_cong; [apply run_atomic|]. intros [c|] s1; [done | apply IH].
Qed.

Lemma run_process_token w cfg sname t n tok (s : radiod) :
  run (process_token_thread w cfg sname t n tok) s = process_token w cfg sname t n tok s.
Proof.
  unfold process_token_thread, process_token.
  destruct (SF_is_negative _); [run_thread|].
  destruct (_ =? 0); [done|].
  rewrite run_bind. apply bind_cong; [apply run_probe_ssrc|].
  intros [[c|] ssrc'] s1; run_thread.
Qed.

Lemma run_process_tokens w cfg sname t n toks (s : radiod) :
  run (process_tokens_thread w cfg sname t n toks) s = process_tokens w cfg sname t n toks s.
Proof.
  revert n s. induction toks as [|tok toks IH]; intros n s; [done|].
  cbn [process_tokens_thread process_tokens]. rewrite run_bind.
  apply bind_cong; [apply run_process_token | auto].
Qed.

Lemma run_process_freq_lists w cfg sname t n keys (s : radiod) :
  run (process_freq_lists_thread w cfg sname t n keys) s
  = process_freq_lists w cfg sname t n keys s.
Proof.
  revert n s. induction keys as [|key keys IH]; intros n s; [done|].
  cbn [process_freq_lists_thread process_freq_lists].
  destruct (config_getstring cfg sname key None); [|apply IH].
  rewrite run_bind. apply bind_cong; [apply run_process_tokens | auto].
Qed.

Lemma run_section_template w cfg sname (s : radiod) :
  run (section_template_thread w cfg sname) s = section_template w cfg sname s.
Proof.
  unfold section_template_thread, section_template, build_template_thread, build_template.
  rewrite run_bind. apply bind_cong; [apply run_each_step|]. intros [] s1.
  run_thread.
Qed.

(** A thread that no other thread interrupts does what [process_section]
    does. *)
Lemma run_process_section w cfg sname (s : radiod) :
  run (process_section_thread w cfg sname) s = process_section w cfg sname s.
Proof.
  unfold process_section_thread, process_section.
  rewrite run_bind. apply bind_cong; [apply run_section_template|]. intros t s1.
  rewrite run_bind. apply bind_cong; [apply run_process_freq_lists|]. intros n s2.
  apply run_atomic.
Qed.

Lemma run_threads_nil (sched : list nat) (s : radiod) : run_threads sched [] s = Ret tt s.
Proof. induction sched as [|i sched IH]; [done | exact IH]. Qed.

(** With the empty schedule the sections are processed one after the
    other, in the order of the file. *)
Lemma run_threads_in_order w cfg (l : list string) (s : radiod) :
  run_threads [] (map (process_section_thread w cfg) l) s
  = for_each (process_section w cfg) l s.
Proof.
  cbn [run_threads]. revert s. induction l as [|x l IH]; intros s; [done|].
  cbn [map for_each]. apply bind_cong; [apply run_process_section | auto].
Qed.

(* ----------------------------------------------------------------- *)
(** *** What a thread may rely on while the others run *)


Lemma same_config_refl (s : radiod) : same_config s s.
Proof. exists (trace s), (Channel_list s), (Nchans s). by destruct s. Qed.

Lemma same_config_trans (s1 s2 s3 : radiod) :
  same_config s1 s2 -> same_config s2 s3 -> same_config s1 s3.
Proof.
  intros (tr & m & n & ->) (tr' & m' & n' & ->). exists tr', m', n'. by destruct s1.
Qed.

Lemma same_config_trace (tr : list event) (s : radiod) : same_config s (set_trace tr s).
Proof. exists tr, (Channel_list s), (Nchans s). by destruct s. Qed.

Lemma same_config_Channel_list (m : gmap Z channel.t) (s : radiod) :
  same_config s (set_Channel_list m s).
Proof. exists (trace s), m, (Nchans s). by destruct s. Qed.

Lemma same_config_Nchans (n : Z) (s : radiod) : same_config s (set_Nchans n s).
Proof. exists (trace s), (Channel_list s), n. by destruct s. Qed.

Lemma same_config_view {X : Type} (f : radiod -> X) (s s' : radiod) :
  config_view f -> same_config s s' -> f s' = f s.
Proof. intros (Ht & Hc & Hn) (tr & m & n & ->). by rewrite Ht, Hc, Hn. Qed.


Section Triples.

Variable N0 : Z.
Variable P : Z -> channel.t -> Prop.

Lemma triple_ret {A : Type} (a : A) (l : local) (Q : A -> local -> Prop) :
  Q a l -> triple N0 (mret a) l Q.
Proof. done. Qed.

Lemma triple_bind {A B : Type} (t : thread A) (k : A -> thread B) (l : local)
  (Q1 : A -> local -> Prop) (Q2 : B -> local -> Prop) :
  triple N0 t l Q1 -> (forall a l', Q1 a l' -> triple N0 (k a) l' Q2) -> triple N0 (t ≫= k) l Q2.
Proof.
  intros Ht Hk. revert l Ht.
  induction t as [a|m IH] using thread_steps_ind; intros l Ht; [by apply Hk|].
  cbn. intros s counted Hc. specialize (Ht s counted Hc).
  destruct (m s) as [t' s'| | |] eqn:E; try done.
  destruct Ht as (l' & counted' & Hstep & Ht). exists l', counted'. split; [done|].
  by apply (IH _ _ _ E).
Qed.

Lemma triple_weaken {A : Type} (t : thread A) (l : local) (Q Q' : A -> local -> Prop) :
  (forall a l', Q a l' -> Q' a l') -> triple N0 t l Q -> triple N0 t l Q'.
Proof.
  intros HQ. revert l.
  induction t as [a|m IH] using thread_steps_ind; intros l Ht; [by apply HQ|].
  cbn. intros s counted Hc. specialize (Ht s counted Hc).
  destruct (m s) as [t' s'| | |] eqn:E; try done.
  destruct Ht as (l' & counted' & Hstep & Ht). exists l', counted'. split; [done|].
  by apply (IH _ _ _ E).
Qed.

Lemma triple_atomic {A : Type} (m : prog A) (l : local) (Q : A -> local -> Prop) :
  (forall s counted, compat N0 l counted s ->
     match m s with
     | Ret a s' => exists l' counted', step_ok N0 l l' counted counted' s s' /\ Q a l'
     | Exit _ _ | Abort _ => False
     | Undefined => True
     end) ->
  triple N0 (atomic m) l Q.
Proof.
  intros H. cbn. intros s counted Hc. specialize (H s counted Hc).
  unfold mbind, prog_bind. destruct (m s); try done.
Qed.

(** A step that writes to stderr at most, or reads what the threads do not
    change. *)
Lemma compat_trace (l : local) (counted : gset Z) (tr : list event) (s : radiod) :
  compat N0 l counted s -> compat N0 l counted (set_trace tr s).
Proof. by destruct s. Qed.

Lemma step_ok_trace (l : local) (counted : gset Z) (tr : list event) (s : radiod) :
  compat N0 l counted s -> step_ok N0 l l counted counted s (set_trace tr s).
Proof.
  intros Hc. split; [apply same_config_trace|]. split; [left; by destruct s|].
  split; [by left | by apply compat_trace].
Qed.

Lemma step_ok_same (l : local) (counted : gset Z) (s : radiod) :
  compat N0 l counted s -> step_ok N0 l l counted counted s s.
Proof.
  intros Hc. split; [apply same_config_refl|]. split; [by left|]. split; [by left | done].
Qed.

Lemma triple_quiet {A : Type} (m : prog A) (l : local) (Q : A -> local -> Prop) :
  (forall s, match m s with
             | Ret a s' => (exists tr, s' = set_trace tr s) /\ Q a l
             | Exit _ _ | Abort _ => False
             | Undefined => True
             end) ->
  triple N0 (atomic m) l Q.
Proof.
  intros H. apply triple_atomic. intros s counted Hc. specialize (H s).
  destruct (m s) as [a s'| | |]; try done. destruct H as [[tr ->] HQ].
  exists l, counted. split; [by apply step_ok_trace | done].
Qed.

Lemma triple_fprintf (msg : message) (l : local) :
  triple N0 (atomic (fprintf_stderr msg)) l (fun _ l' => l' = l).
Proof. apply triple_quiet. intros s. cbn. eauto. Qed.

Lemma triple_get {A : Type} (g : radiod -> A) (l : local) :
  triple N0 (atomic (get g)) l (fun _ l' => l' = l).
Proof.
  apply triple_quiet. intros s. cbn. split; [|done]. exists (trace s). by destruct s.
Qed.

Lemma triple_int_checked (z : Z) (l : local) :
  triple N0 (atomic (int_checked z)) l (fun v l' => l' = l /\ v = z).
Proof.
  apply triple_quiet. intros s. unfold int_checked. destruct (in_int z); [|done].
  cbn. split; [|done]. exists (trace s). by destruct s.
Qed.

Lemma triple_when_fprintf (b : bool) (msg : message) (l : local) :
  triple N0 (atomic (when b (fprintf_stderr msg))) l (fun _ l' => l' = l).
Proof.
  apply triple_quiet. intros s. destruct b; cbn; [eauto|].
  split; [|done]. exists (trace s). by destruct s.
Qed.

Lemma triple_each_step {A : Type} (f : A -> message) (xs : list A) (l : local) :
  triple N0 (each_step (fun x => fprintf_stderr (f x)) xs) l (fun _ l' => l' = l).
Proof.
  induction xs as [|x xs IH]; [done|]. cbn [each_step].
  eapply triple_bind; [apply triple_fprintf|]. by intros _ l' ->.
Qed.


Lemma triple_create (ssrc : Z) (l : local) :
  triple N0 (atomic (create_chan ssrc)) l
    (fun chan l' =>
       match chan with
       | None => l' = l
       | Some c => c = ssrc /\ own l !! ssrc = None
                   /\ l' = mk_local (<[ssrc := blank_channel ssrc]> (own l))
                                    ({[ssrc]} ∪ pending l) (seen l)
       end).
Proof.
  apply triple_atomic. intros s counted Hc. unfold create_chan.
  destruct (Channel_list s !! ssrc) as [x|] eqn:E.
  - exists l, counted. split; [by apply step_ok_same | done].
  - destruct Hc as (Hown & Hpend & Hdis & Hcnt & Hseen & HN).
    assert (own l !! ssrc = None) as Hfree by (by apply (lookup_weaken_None _ _ _ E)).
    eexists (mk_local _ _ _), counted. split; [|by eauto].
    split; [apply same_config_Channel_list|].
    split; [right; exists ssrc, (blank_channel ssrc); cbn; by rewrite E, Hfree|].
    split; [by left|].
    unfold compat. cbn. split; [by apply insert_mono|].
    split; [rewrite dom_insert_L; set_solver|].
    split; [apply not_elem_of_dom in E; set_solver|].
    split; [rewrite dom_insert_L; set_solver|].
    split; [done | by destruct s].
Qed.

Lemma alter_own (f : channel.t -> channel.t) (c : Z) (x : channel.t) (m : gmap Z channel.t) :
  m !! c = Some x -> alter f c m = <[c := f x]> m.
Proof.
  intros H. apply map_eq. intros k. destruct (decide (k = c)) as [->|Hne].
  - by rewrite lookup_alter_eq, lookup_insert_eq, H.
  - by rewrite lookup_alter_ne, lookup_insert_ne.
Qed.

Lemma compat_update (l : local) (counted : gset Z) (s : radiod) (c : Z) (x y : channel.t) :
  own l !! c = Some x -> compat N0 l counted s ->
  compat N0 (mk_local (<[c := y]> (own l)) (pending l) (seen l)) counted
    (set_Channel_list (<[c := y]> (Channel_list s)) s).
Proof.
  intros Hx (Hown & Hpend & Hdis & Hcnt & Hseen & HN). unfold compat. cbn.
  split; [by apply insert_mono|].
  split; [rewrite dom_insert_L; set_solver|].
  split; [done|].
  split; [rewrite dom_insert_L; set_solver|].
  split; [done | by destruct s].
Qed.

Lemma triple_update (c : Z) (f : channel.t -> channel.t) (x : channel.t) (l : local) :
  own l !! c = Some x ->
  triple N0 (atomic (update_chan c f)) l
    (fun _ l' => l' = mk_local (<[c := f x]> (own l)) (pending l) (seen l)).
Proof.
  intros Hx. apply triple_atomic. intros s counted Hc. unfold update_chan, modify.
  pose proof Hc as (Hown & _).
  pose proof (lookup_weaken _ _ _ _ Hx Hown) as Hs.
  rewrite (alter_own f c x _ Hs).
  eexists (mk_local _ _ _), counted. split; [|reflexivity].
  split; [apply same_config_Channel_list|].
  split; [right; exists c, (f x); cbn; by rewrite Hs, Hx|].
  split; [by left | by apply (compat_update _ _ _ _ x)].
Qed.

Lemma triple_when_update (b : bool) (c : Z) (f : channel.t -> channel.t) (x : channel.t)
  (l : local) :
  own l !! c = Some x ->
  triple N0 (atomic (when b (update_chan c f))) l
    (fun _ l' => l' = mk_local (<[c := if b then f x else x]> (own l)) (pending l) (seen l)).
Proof.
  intros Hx. destruct b; [by apply triple_update|].
  apply triple_quiet. intros s. cbn. split; [exists (trace s); by destruct s|].
  rewrite insert_id by done. by destruct l.
Qed.

(** [Nchans++], the load: the value is that of an earlier moment when the
    store comes. *)
Lemma triple_load (l : local) :
  triple N0 (atomic (get Nchans)) l
    (fun n l' => exists sn, l' = mk_local (own l) (pending l) sn /\ N0 <= n <= N0 + sn).
Proof.
  apply triple_atomic. intros s counted Hc. cbn.
  destruct Hc as (Hown & Hpend & Hdis & Hcnt & Hseen & HN).
  exists (mk_local (own l) (pending l) (Z.of_nat (size counted))), counted.
  split; [|by eauto].
  split; [apply same_config_refl|]. split; [by left|]. split; [by left|].
  unfold compat. cbn. repeat split; try done; lia.
Qed.

(** [Nchans++], the store, for the channel [k] that the thread has
    created. *)
Lemma triple_store (n' k : Z) (l : local) :
  k ∈ pending l -> N0 <= n' <= N0 + seen l + 1 ->
  triple N0 (atomic (modify (set_Nchans n'))) l
    (fun _ l' => l' = mk_local (own l) (pending l ∖ {[k]}) (seen l)).
Proof.
  intros Hk Hn. apply triple_atomic. intros s counted Hc. cbn.
  destruct Hc as (Hown & Hpend & Hdis & Hcnt & Hseen & HN).
  assert (k ∉ counted) as Hnew by set_solver.
  assert (size ({[k]} ∪ counted) = S (size counted)) as Hsz.
  { rewrite size_union by set_solver. by rewrite size_singleton. }
  exists (mk_local (own l) (pending l ∖ {[k]}) (seen l)), ({[k]} ∪ counted).
  split; [|done].
  split; [apply same_config_Nchans|]. split; [left; by destruct s|].
  split; [right; by exists k|].
  unfold compat. cbn. split; [by destruct s|]. split; [set_solver|]. split; [set_solver|].
  split.
  { assert (k ∈ dom (Channel_list s)).
    { apply Hpend in Hk. apply elem_of_dom in Hk as [x Hx].
      apply elem_of_dom. exists x. by apply (lookup_weaken _ _ _ _ Hx). }
    destruct s; cbn in *. set_solver. }
  rewrite Hsz. split; [lia|]. destruct s; cbn in *. lia.
Qed.


Lemma triple_probe_ssrc (n : nat) (ssrc : Z) (l : local) :
  0 <= ssrc < UINT32_MOD ->
  triple N0 (probe_ssrc_thread n ssrc) l
    (fun r l' =>
       match r.1 with
       | None => l' = l
       | Some c => r.2 = c /\ 0 <= c < UINT32_MOD /\ own l !! c = None
                   /\ l' = mk_local (<[c := blank_channel c]> (own l))
                                    ({[c]} ∪ pending l) (seen l)
       end).
Proof.
  revert ssrc. induction n as [|n IH]; intros ssrc Hr; [done|].
  cbn [probe_ssrc_thread]. eapply triple_bind; [apply triple_create|].
  intros [c|] l' H.
  - destruct H as (-> & Hfree & ->). cbn. auto.
  - subst l'. apply IH. apply Z.mod_pos_bound. done.
Qed.

Section Section_thread.

Variables (w : world) (Configtable : dictionary) (sname : string) (chan_template : channel.t).

(** Every channel made from the template and started has the property. *)
Hypothesis P_started : forall k f sap rtcp,
  0 <= k < UINT32_MOD -> SF_is_negative f = false ->
  P k (started_channel chan_template k f sap rtcp).

Lemma triple_process_token (nchans : Z) (tok : string) (l : local) :
  settled P l ->
  triple N0 (process_token_thread w Configtable sname chan_template nchans tok) l
    (fun _ l' => settled P l').
Proof.
  intros [HP Hpend]. unfold process_token_thread.
  destruct (SF_is_negative (parse_frequency w tok true)) eqn:Hf.
  { eapply triple_bind; [apply triple_fprintf|]. by intros _ l' ->. }
  destruct (requested_ssrc w Configtable sname tok =? 0); [done|].
  eapply triple_bind.
  { apply triple_probe_ssrc. apply Z.mod_pos_bound. done. }
  intros [[c|] ssrc'] l1 H; cbn in H.
  2:{ subst l1. eapply triple_bind; [apply triple_fprintf|]. by intros _ l' ->. }
  destruct H as (-> & Hc & Hfree & ->).
  eapply triple_bind; [apply (triple_update _ _ (blank_channel c)); apply lookup_insert_eq|].
  intros _ l2 ->. cbn [own pending seen]. rewrite insert_insert_eq.
  eapply triple_bind; [eapply triple_update; apply lookup_insert_eq|].
  intros _ l3 ->. cbn [own pending seen]. rewrite insert_insert_eq.
  eapply triple_bind; [eapply triple_update; apply lookup_insert_eq|].
  intros _ l4 ->. cbn [own pending seen]. rewrite insert_insert_eq.
  eapply triple_bind; [eapply triple_update; apply lookup_insert_eq|].
  intros _ l5 ->. cbn [own pending seen]. rewrite insert_insert_eq.
  eapply triple_bind; [apply triple_int_checked|]. intros nchans' l6 [-> ->].
  eapply triple_bind; [apply triple_load|]. intros n l7 (sn & -> & Hn).
  cbn [own pending seen].
  eapply triple_bind; [apply triple_int_checked|]. intros n' l8 [-> ->].
  eapply triple_bind.
  { apply (triple_store _ c); cbn [pending seen]; [set_solver | lia]. }
  intros _ l9 ->. cbn [own pending seen].
  eapply triple_bind; [apply triple_get|]. intros sap l10 ->.
  eapply triple_bind; [eapply triple_when_update; apply lookup_insert_eq|].
  intros _ l11 ->. cbn [own pending seen]. rewrite insert_insert_eq.
  eapply triple_bind; [apply triple_get|]. intros rtcp l12 ->.
  eapply triple_bind; [eapply triple_when_update; apply lookup_insert_eq|].
  intros _ l13 ->. cbn [own pending seen]. rewrite insert_insert_eq.
  apply triple_ret. split; cbn [own pending].
  - apply map_Forall_insert; [done|]. split; [|done].
    pose proof (P_started c (parse_frequency w tok true) sap rtcp Hc Hf) as HPc.
    unfold started_channel in HPc. by destruct sap, rtcp.
  - rewrite Hpend. set_solver.
Qed.

Lemma triple_process_tokens (toks : list string) (nchans : Z) (l : local) :
  settled P l ->
  triple N0 (process_tokens_thread w Configtable sname chan_template nchans toks) l
    (fun _ l' => settled P l').
Proof.
  revert nchans l. induction toks as [|tok toks IH]; intros nchans l Hl; [done|].
  cbn [process_tokens_thread].
  eapply triple_bind; [by apply triple_process_token|]. intros n l'. apply IH.
Qed.

Lemma triple_process_freq_lists (keys : list string) (nchans : Z) (l : local) :
  settled P l ->
  triple N0 (process_freq_lists_thread w Configtable sname chan_template nchans keys) l
    (fun _ l' => settled P l').
Proof.
  revert nchans l. induction keys as [|key keys IH]; intros nchans l Hl; [done|].
  cbn [process_freq_lists_thread].
  destruct (config_getstring Configtable sname key None); [|by apply IH].
  eapply triple_bind; [by apply triple_process_tokens|]. intros n l'. apply IH.
Qed.

End Section_thread.

Lemma triple_section_template (w : world) (Configtable : dictionary) (sname : string)
  (l : local) :
  triple N0 (section_template_thread w Configtable sname) l (fun _ l' => l' = l).
Proof.
  unfold section_template_thread, build_template_thread.
  eapply triple_bind; [apply (triple_each_step Msg_validate)|]. intros _ l1 ->.
  eapply triple_bind; [apply triple_when_fprintf|]. intros _ l2 ->.
  eapply triple_bind; [apply triple_get|]. intros d l3 ->.
  eapply triple_bind; [|intros t l4 H; eapply triple_bind; [apply triple_get|];
                        intros g l5 ->; apply triple_ret; exact H].
  eapply triple_bind; [apply triple_get|]. intros table l4 ->.
  eapply triple_bind; [apply triple_get|]. intros file l5 ->.
  destruct (section_preset Configtable sname) as [p|].
  - destruct (loadpreset w _ table p) as [r t].
    eapply triple_bind; [|intros t2 l6 H; apply triple_ret; exact H].
    eapply triple_bind; [apply triple_when_fprintf|]. by intros _ l6 ->.
  - eapply (triple_bind _ _ _ (fun _ l' => l' = l)); [by apply triple_ret|].
    intros t2 l6 ->. by apply triple_quiet.
Qed.

(* ----------------------------------------------------------------- *)
(** *** The threads together *)


Lemma pool_compat s0 pl who counted s i t l :
  pool_inv N0 P s0 pl who counted s -> pl !! i = Some (t, l) -> compat N0 l counted s.
Proof.
  intros Hinv Hi. destruct (pool_threads Hinv i t l Hi) as (_ & H1 & H2 & H3 & H4).
  split.
  { apply map_subseteq_spec. intros k c Hk. by apply H4 in Hk as [_ Hk]. }
  split; [done|]. split; [done|]. split.
  { intros k Hk. apply (pool_counted Hinv) in Hk.
    apply elem_of_dom in Hk as [j Hj].
    apply elem_of_dom. by apply (pool_who Hinv k j). }
  split; [done | apply (pool_Nchans Hinv)].
Qed.

(** The threads when they are started. *)
Lemma pool_inv_init (s0 : radiod) (ts : list (thread unit)) :
  N0 = Nchans s0 ->
  Forall (fun t => triple N0 t local_init (fun _ l' => settled P l')) ts ->
  pool_inv N0 P s0 ((fun t => (t, local_init)) <$> ts) ∅ ∅ s0.
Proof.
  intros HN Hts. split.
  - intros i t l Hi. apply list_lookup_fmap_Some in Hi as (t0 & [= -> ->] & Ht0).
    rewrite Forall_forall in Hts. split; [by apply Hts, (list_elem_of_lookup_2 _ i)|].
    cbn. split; [done|]. split; [done|]. split; [by rewrite size_empty|].
    intros k c. rewrite !lookup_empty. naive_solver.
  - intros k c Hk. by rewrite lookup_empty.
  - intros k Hk. by left.
  - intros k i. by rewrite lookup_empty.
  - done.
  - rewrite size_empty. lia.
  - apply same_config_refl.
Qed.

(** One step of one thread. *)
Lemma pool_step s0 pl who counted s i t l t' l' counted' s' :
  pool_inv N0 P s0 pl who counted s ->
  pl !! i = Some (t, l) ->
  step_ok N0 l l' counted counted' s s' ->
  triple N0 t' l' (fun _ l'' => settled P l'') ->
  exists who', pool_inv N0 P s0 (<[i := (t', l')]> pl) who' counted' s'.
Proof.
  intros Hinv Hi (Hcfg & Hch & Hcnt & Hcompat) Ht'.
  destruct (pool_threads Hinv i t l Hi) as (_ & Hpi & _ & _ & Howni).
  pose proof (lookup_lt_Some _ _ _ Hi) as Hlen.
  assert (forall j tj lj, j <> i -> pl !! j = Some (tj, lj) -> forall k, k ∈ pending l ->
            k ∉ pending lj) as Hother.
  { intros j tj lj Hne Hj k Hk Hkj.
    destruct (pool_threads Hinv j tj lj Hj) as (_ & Hpj & _ & _ & Hownj).
    apply Hpi, elem_of_dom in Hk as [c Hc]. apply Hpj, elem_of_dom in Hkj as [cj Hcj].
    apply Howni in Hc as [Hc _]. apply Hownj in Hcj as [Hcj _]. congruence. }
  assert (counted ⊆ counted') as Hsub by (destruct Hcnt as [->|(k & _ & ->)]; set_solver).
  assert (forall k, k ∈ counted' -> k ∈ counted \/ k ∈ pending l) as Hnew
    by (destruct Hcnt as [->|(k & Hk & ->)]; set_solver).
  destruct Hcompat as (Hown' & Hpend' & Hdis' & Hcd' & Hseen' & HN').
  assert (forall j tj lj, j <> i -> pl !! j = Some (tj, lj) ->
            pending lj ## counted' /\ seen lj <= Z.of_nat (size counted')) as Hrest.
  { intros j tj lj Hne Hj.
    destruct (pool_threads Hinv j tj lj Hj) as (_ & _ & Hdj & Hsj & _).
    split.
    - intros k Hkj Hk. apply Hnew in Hk as [Hk|Hk]; [by apply (Hdj k)|].
      by apply (Hother j tj lj Hne Hj k Hk).
    - apply subseteq_size in Hsub. lia. }
  assert (forall k, k ∈ counted' -> is_Some (who !! k)) as Hcw.
  { intros k Hk. apply Hnew in Hk as [Hk|Hk].
    - by apply (pool_counted Hinv), elem_of_dom in Hk.
    - apply Hpi, elem_of_dom in Hk as [c Hc]. apply Howni in Hc as [Hc _]. eauto. }
  destruct Hch as [[E1 E2] | (k & c & E0 & E1 & E2)].
  - exists who. split.
    + intros j tj lj Hj. destruct (decide (j = i)) as [->|Hne].
      * rewrite list_lookup_insert_eq in Hj by done. injection Hj as <- <-.
        split; [done|]. split; [done|]. split; [done|]. split; [done|].
        intros k c. rewrite E1, E2. apply Howni.
      * rewrite list_lookup_insert_ne in Hj by done.
        destruct (pool_threads Hinv j tj lj Hj) as (Htj & Hpj & _ & _ & Hownj).
        destruct (Hrest j tj lj Hne Hj) as [Hd Hs].
        split; [done|]. split; [done|]. split; [done|]. split; [done|].
        intros k c. rewrite E1. apply Hownj.
    + intros k c Hk. rewrite E1. by apply (pool_base Hinv).
    + intros k Hk. rewrite E1 in Hk. by apply (pool_dom Hinv).
    + intros k j Hk. rewrite E1. destruct (pool_who Hinv k j Hk) as [H1 H2].
      split; [done|]. apply lookup_lt_is_Some. rewrite length_insert.
      by apply lookup_lt_is_Some.
    + intros k Hk. by apply elem_of_dom, Hcw.
    + done.
    + apply (same_config_trans _ s); [apply (pool_config Hinv) | done].
  - assert (forall j tj lj, j <> i -> pl !! j = Some (tj, lj) -> own lj !! k = None) as Hfree.
    { intros j tj lj Hne Hj. destruct (own lj !! k) as [cj|] eqn:Ej; [|done].
      destruct (pool_threads Hinv j tj lj Hj) as (_ & _ & _ & _ & Hownj).
      apply Hownj in Ej as [Ew Es]. rewrite E0 in Es. apply Howni in Es as [Es _].
      congruence. }
    exists (<[k := i]> who). split.
    + intros j tj lj Hj. destruct (decide (j = i)) as [->|Hne].
      * rewrite list_lookup_insert_eq in Hj by done. injection Hj as <- <-.
        split; [done|]. split; [done|]. split; [done|]. split; [done|].
        intros k' c'. rewrite E1, E2. destruct (decide (k' = k)) as [->|Hk].
        -- rewrite !lookup_insert_eq. naive_solver.
        -- rewrite !lookup_insert_ne by done. apply Howni.
      * rewrite list_lookup_insert_ne in Hj by done.
        destruct (pool_threads Hinv j tj lj Hj) as (Htj & Hpj & _ & _ & Hownj).
        destruct (Hrest j tj lj Hne Hj) as [Hd Hs].
        split; [done|]. split; [done|]. split; [done|]. split; [done|].
        intros k' c'. rewrite E1. destruct (decide (k' = k)) as [->|Hk].
        -- rewrite (Hfree j tj lj Hne Hj), !lookup_insert_eq. naive_solver.
        -- rewrite !lookup_insert_ne by done. apply Hownj.
    + intros k' c' Hk'. destruct (pool_base Hinv k' c' Hk') as [H1 H2].
      assert (k' <> k) as Hne.
      { intros ->. rewrite E0 in H1. apply Howni in H1 as [H1 _]. congruence. }
      by rewrite E1, !lookup_insert_ne.
    + intros k' Hk'. rewrite E1 in Hk'. destruct (decide (k' = k)) as [->|Hne].
      * right. rewrite lookup_insert_eq. eauto.
      * rewrite lookup_insert_ne in Hk' by done. rewrite lookup_insert_ne by done.
        by apply (pool_dom Hinv).
    + intros k' j Hk'. rewrite E1. destruct (decide (k' = k)) as [->|Hne].
      * rewrite lookup_insert_eq in Hk'. injection Hk' as <-. rewrite lookup_insert_eq.
        split; [eauto|]. apply lookup_lt_is_Some. by rewrite length_insert.
      * rewrite lookup_insert_ne in Hk' by done. rewrite lookup_insert_ne by done.
        destruct (pool_who Hinv k' j Hk') as [H1 H2].
        split; [done|]. apply lookup_lt_is_Some. rewrite length_insert.
        by apply lookup_lt_is_Some.
    + intros k' Hk'. apply elem_of_dom. apply Hcw in Hk'.
      destruct (decide (k' = k)) as [->|Hne];
        [rewrite lookup_insert_eq; eauto | by rewrite lookup_insert_ne].
    + done.
    + apply (same_config_trans _ s); [apply (pool_config Hinv) | done].
Qed.

(** A thread of the pool run to its end. *)
Lemma pool_run (t : thread unit) :
  forall s0 pl who counted s i l,
    pool_inv N0 P s0 pl who counted s ->
    pl !! i = Some (t, l) ->
    match run t s with
    | Ret _ s' => exists l' who' counted', pool_inv N0 P s0 (<[i := (Done tt, l')]> pl) who' counted' s'
    | Exit _ _ | Abort _ => False
    | Undefined => True
    end.
Proof.
  induction t as [[]|m IH] using thread_steps_ind; intros s0 pl who counted s i l Hinv Hi.
  - cbn. exists l, who, counted. by rewrite list_insert_id.
  - cbn. pose proof (pool_compat _ _ _ _ _ _ _ _ Hinv Hi) as Hc.
    destruct (pool_threads Hinv i _ l Hi) as (Ht & _).
    specialize (Ht s counted Hc).
    destruct (m s) as [t' s'| | |] eqn:E; try done.
    destruct Ht as (l' & counted' & Hstep & Ht').
    destruct (pool_step _ _ _ _ _ _ _ _ _ _ _ _ Hinv Hi Hstep Ht') as (who' & Hinv').
    pose proof (lookup_lt_Some _ _ _ Hi) as Hlen.
    specialize (IH s t' s' E s0 _ who' counted' s' i l' Hinv'
                  (list_lookup_insert_eq _ _ _ Hlen)).
    destruct (run t' s') as [u s''| | |]; try done.
    destruct IH as (l'' & who'' & counted'' & IH). rewrite list_insert_insert_eq in IH.
    eauto.
Qed.

(** The threads that are left, run one after the other. *)
Lemma pool_run_rest (post : list (thread unit * local)) :
  forall s0 pre who counted s,
    pool_inv N0 P s0 (pre ++ post) who counted s ->
    match for_each run (post.*1) s with
    | Ret _ s' => exists post' who' counted',
        pool_inv N0 P s0 (pre ++ post') who' counted' s'
        /\ Forall (fun tl => tl.1 = Done tt) post'
    | Exit _ _ | Abort _ => False
    | Undefined => True
    end.
Proof.
  induction post as [|[t l] post IH]; intros s0 pre who counted s Hinv.
  - cbn. exists [], who, counted. by split.
  - rewrite fmap_cons. cbn [for_each fst]. unfold mbind, prog_bind.
    pose proof (pool_run t s0 _ who counted s (length pre) l Hinv
                  (list_lookup_middle _ _ _ _ eq_refl)) as Hrun.
    destruct (run t s) as [u s1| | |]; try done.
    destruct Hrun as (l1 & who1 & counted1 & Hinv1).
    replace (length pre) with (length pre + 0)%nat in Hinv1 by lia.
    rewrite insert_app_r in Hinv1. cbn in Hinv1.
    rewrite (cons_middle _ pre post), app_assoc in Hinv1.
    specialize (IH s0 _ who1 counted1 s1 Hinv1).
    destruct (for_each run (post.*1) s1) as [u' s2| | |]; try done.
    destruct IH as (post' & who2 & counted2 & Hinv2 & Hdone).
    exists ((Done tt, l1) :: post'), who2, counted2.
    rewrite (cons_middle _ pre post'), app_assoc. split; [done|]. by constructor.
Qed.

(** The threads under a schedule. *)
Lemma pool_run_threads (sched : list nat) :
  forall s0 pl who counted s,
    pool_inv N0 P s0 pl who counted s ->
    match run_threads sched (pl.*1) s with
    | Ret _ s' => exists pl' who' counted',
        pool_inv N0 P s0 pl' who' counted' s' /\ Forall (fun tl => tl.1 = Done tt) pl'
    | Exit _ _ | Abort _ => False
    | Undefined => True
    end.
Proof.
  induction sched as [|i sched IH]; intros s0 pl who counted s Hinv.
  - cbn [run_threads]. apply (pool_run_rest pl s0 [] who counted s Hinv).
  - cbn [run_threads]. rewrite list_lookup_fmap.
    destruct (pl !! i) as [[[[]|m] l]|] eqn:Hi; cbn [fmap option_fmap option_map fst];
      [by apply (IH s0 pl who counted) | | by apply (IH s0 pl who counted)].
    unfold mbind, prog_bind.
    pose proof (pool_compat _ _ _ _ _ _ _ _ Hinv Hi) as Hc.
    destruct (pool_threads Hinv i _ l Hi) as (Ht & _).
    specialize (Ht s counted Hc).
    destruct (m s) as [t' s'| | |] eqn:E; try done.
    destruct Ht as (l' & counted' & Hstep & Ht').
    destruct (pool_step _ _ _ _ _ _ _ _ _ _ _ _ Hinv Hi Hstep Ht') as (who' & Hinv').
    specialize (IH s0 _ who' counted' s' Hinv').
    by rewrite list_fmap_insert in IH.
Qed.

(** What the threads leave when all have returned. *)
Lemma pool_inv_done s0 pl who counted s :
  pool_inv N0 P s0 pl who counted s ->
  Forall (fun tl => tl.1 = Done tt) pl ->
  same_config s0 s
  /\ Channel_list s0 ⊆ Channel_list s
  /\ (forall k c, Channel_list s !! k = Some c -> Channel_list s0 !! k = None -> P k c)
  /\ N0 <= Nchans s
  /\ Nchans s - N0
     <= Z.of_nat (size (Channel_list s)) - Z.of_nat (size (Channel_list s0)).
Proof.
  intros Hinv Hdone. split; [apply (pool_config Hinv)|]. split.
  { apply map_subseteq_spec. intros k c Hk. by apply (pool_base Hinv). }
  split.
  { intros k c Hk Hnone.
    destruct (pool_dom Hinv k) as [[c0 H0]|[i Hi]]; [eauto | congruence |].
    destruct (pool_who Hinv k i Hi) as [_ [[t l] Hl]].
    destruct (pool_threads Hinv i t l Hl) as (Ht & _ & _ & _ & Hown).
    rewrite Forall_forall in Hdone.
    pose proof (Hdone _ (list_elem_of_lookup_2 _ _ _ Hl)) as Ed. cbn in Ed. subst t.
    destruct Ht as [HP _]. apply (HP k c). apply Hown. auto. }
  pose proof (pool_Nchans Hinv) as HN. split; [lia|].
  assert (dom (Channel_list s) = dom (Channel_list s0) ∪ dom who) as Hd.
  { apply set_eq. intros k. rewrite elem_of_union, !elem_of_dom. split.
    - apply (pool_dom Hinv).
    - intros [[c Hc]|[i Hi]].
      + exists c. by apply (pool_base Hinv).
      + by apply (pool_who Hinv k i). }
  assert (dom (Channel_list s0) ## dom who) as Hdis.
  { intros k Hk Hw. apply elem_of_dom in Hk as [c Hc].
    apply (pool_base Hinv) in Hc as [_ Hc].
    apply elem_of_dom in Hw as [i Hi]. congruence. }
  pose proof (subseteq_size _ _ (pool_counted Hinv)) as Hsz.
  rewrite <- !size_dom, Hd, size_union by done. lia.
Qed.

(** Every channel that is made from a template and started has the
    property. *)
Hypothesis P_started : forall t k f sap rtcp,
  0 <= k < UINT32_MOD -> SF_is_negative f = false -> P k (started_channel t k f sap rtcp).

Lemma triple_process_section (w : world) (Configtable : dictionary) (sname : string)
  (l : local) :
  settled P l ->
  triple N0 (process_section_thread w Configtable sname) l (fun _ l' => settled P l').
Proof.
  intros Hl. unfold process_section_thread.
  eapply triple_bind; [apply triple_section_template|]. intros t l1 ->.
  eapply triple_bind.
  { apply triple_process_freq_lists; [intros; by apply P_started | done]. }
  intros n l2 Hl2.
  eapply triple_weaken; [|apply triple_fprintf]. by intros _ l3 ->.
Qed.

End Triples.

Lemma started_channel_started_under (t : channel.t) (k : Z) (f : spec_float) (sap rtcp : bool) :
  0 <= k < UINT32_MOD -> SF_is_negative f = false ->
  started_under k (started_channel t k f sap rtcp).
Proof. intros Hk Hf. unfold started_under, started_channel. by destruct sap, rtcp, t. Qed.

(** The start-up threads under any schedule: they never end the program;
    when all have returned, the configuration is what it was, the channels
    that the registry held are as they were, every other channel that it
    holds has been started by one of the threads, and the count [Nchans]
    has not gone down and has grown by the number of new channels at
    most. *)
Lemma start_sections_threads (w : world) (cfg : dictionary) (s : radiod) :
  match start_sections w cfg s with
  | Ret _ s' =>
      same_config s s'
      /\ Channel_list s ⊆ Channel_list s'
      /\ (forall k c, Channel_list s' !! k = Some c -> Channel_list s !! k = None ->
            started_under k c)
      /\ Nchans s <= Nchans s'
      /\ Nchans s' - Nchans s
         <= Z.of_nat (size (Channel_list s')) - Z.of_nat (size (Channel_list s))
  | Exit _ _ | Abort _ => False
  | Undefined => True
  end.
Proof.
  unfold start_sections.
  assert (Forall (fun t => triple (Nchans s) t local_init
                             (fun _ l' => settled started_under l'))
            (section_threads w cfg)) as Hts.
  { unfold section_threads. apply Forall_forall. intros t Ht.
    apply list_elem_of_fmap in Ht as (sname & -> & _).
    apply triple_process_section; [apply started_channel_started_under|].
    split; [apply map_Forall_empty | done]. }
  pose proof (pool_inv_init (Nchans s) started_under s _ eq_refl Hts) as Hinv.
  pose proof (pool_run_threads (Nchans s) started_under (schedule w) s _ ∅ ∅ s Hinv) as Hrun.
  rewrite <- list_fmap_compose, list_fmap_id in Hrun.
  destruct (run_threads (schedule w) (section_threads w cfg) s) as [u s'| | |]; try done.
  destruct Hrun as (pl' & who' & counted' & Hinv' & Hdone).
  by apply (pool_inv_done _ _ _ _ _ _ _ Hinv').
Qed.

Lemma start_sections_preserves {X : Type} (f : radiod -> X) w cfg :
  config_view f -> preserves f (start_sections w cfg).
Proof.
  intros H s. pose proof (start_sections_threads w cfg s) as Ht.
  destruct (start_sections w cfg s) as [u s'| | |]; try done.
  destruct Ht as (Hc & _). by apply same_config_view.
Qed.

(* ----------------------------------------------------------------- *)
(** *** Threads that cannot return *)

Lemma never_returns_bind_l {A B : Type} (t : thread A) (k : A -> thread B) :
  never_returns t -> never_returns (t ≫= k).
Proof.
  induction t as [a|m IH] using thread_steps_ind; intros H; [done|].
  cbn. intros s. specialize (H s). destruct (m s) as [t' s'| | |] eqn:E; try done.
  by apply (IH _ _ _ E).
Qed.

Lemma never_returns_bind_r {A B : Type} (t : thread A) (k : A -> thread B) :
  (forall a, never_returns (k a)) -> never_returns (t ≫= k).
Proof.
  intros H. induction t as [a|m IH] using thread_steps_ind; [apply H|].
  cbn. intros s. destruct (m s) as [t' s'| | |] eqn:E; try done.
  by apply (IH _ _ _ E).
Qed.

Lemma never_returns_undefined {A : Type} : never_returns (atomic (@undefined A)).
Proof. by intros s. Qed.

Lemma run_never_returns {A : Type} (t : thread A) (s : radiod) (a : A) (s' : radiod) :
  never_returns t -> run t s <> Ret a s'.
Proof.
  revert s. induction t as [x|m IH] using thread_steps_ind; intros s H; [done|].
  cbn. specialize (H s). destruct (m s) as [t' s1| | |] eqn:E; try done.
  by apply (IH _ _ _ E).
Qed.

(** When one of the threads cannot return, the threads together do not
    either, whatever the schedule. *)
Lemma run_threads_never_returns (sched : list nat) (ts : list (thread unit)) (s : radiod)
  (u : unit) (s' : radiod) :
  Exists never_returns ts -> run_threads sched ts s <> Ret u s'.
Proof.
  revert ts s. induction sched as [|i sched IH]; intros ts s Hex.
  - cbn [run_threads]. revert s. induction Hex as [t ts Ht|t ts Hts IHts]; intros s.
    + cbn [for_each]. intros H. apply bind_inv in H as ([] & s1 & H & _).
      by apply run_never_returns in H.
    + cbn [for_each]. intros H. apply bind_inv in H as ([] & s1 & _ & H).
      by apply IHts in H.
  - cbn [run_threads]. destruct (ts !! i) as [[[]|m]|] eqn:Hi; [by apply IH | | by apply IH].
    intros H. apply bind_inv in H as (t' & s1 & Hm & H). revert H. apply IH.
    apply Exists_exists in Hex as (t & Hin & Ht).
    apply list_elem_of_lookup in Hin as [j Hj].
    apply Exists_exists. destruct (decide (j = i)) as [->|Hne].
    + exists t'. split.
      * apply (list_elem_of_lookup_2 _ i). apply list_lookup_insert_eq.
        by apply lookup_lt_Some in Hi.
      * assert (t = Step m) as -> by congruence. specialize (Ht s). by rewrite Hm in Ht.
    + exists t. split; [|done]. apply (list_elem_of_lookup_2 _ j).
      by rewrite list_lookup_insert_ne.
Qed.

(** The thread of a section for which no preset is named cannot return. *)
Lemma process_section_thread_no_preset (w : world) (cfg : dictionary) (sname : string) :
  section_preset cfg sname = None -> never_returns (process_section_thread w cfg sname).
Proof.
  intros Hp. unfold process_section_thread. apply never_returns_bind_l.
  unfold section_template_thread. rewrite Hp.
  do 3 (apply never_returns_bind_r; intros ?).
  apply never_returns_bind_l. unfold build_template_thread.
  do 3 (apply never_returns_bind_r; intros ?).
  apply never_returns_undefined.
Qed.

(* ================================================================= *)
(** ** The idle lifetime *)

Lemma int_of_floating_inv (x : spec_float) (z : Z) (s s' : radiod) :
  int_of_floating x s = Ret z s' -> SF_trunc x = Some z /\ s' = s /\ INT_MIN <= z <= INT_MAX.
Proof.
  unfold int_of_floating. destruct (SF_trunc x) as [t|]; [|discriminate].
  intros H. apply int_checked_inv in H as (-> & -> & Hr). auto.
Qed.


Lemma load_globals_timing (w : world) (cfg : dictionary) (s s' : radiod) (u : unit) :
  load_globals w cfg s = Ret u s' ->
  SF_trunc (fdiv32 (float_of_Z (20 * 1000)) (Blocktime s')) = Some (Channel_idle_timeout s').
Proof.
  unfold load_globals. intros H.
  apply bind_inv in H as (u0 & s0 & _ & H).
  apply bind_inv in H as (v & s1 & _ & H).
  apply bind_inv in H as (u1 & s2 & _ & H).
  apply bind_inv in H as (bt & s3 & _ & H).
  apply bind_inv in H as (u2 & s4 & Hb & H). injection Hb as _ <-.
  apply bind_inv in H as (idle & s5 & Hi & H).
  apply int_of_floating_inv in Hi as (Hi & -> & _).
  apply bind_inv in H as (u3 & s6 & Hc & H). injection Hc as _ <-.
  match type of H with (?m ≫= _) _ = _ =>
    assert (preserves timing m) as Hp by (unfold timing; frame) end.
  apply bind_inv in H as (ov & s7 & Hg & H). injection Hg as _ <-.
  match type of H with (?m ≫= ?k) _ = _ =>
    assert (preserves timing (m ≫= k)) as Hp2 by (unfold timing; frame) end.
  apply (preserves_Ret timing) in H; [|done].
  unfold timing in H. cbn [Blocktime Channel_idle_timeout set_Channel_idle_timeout set_Blocktime] in H.
  injection H as -> ->. done.
Qed.

Lemma loadpreset_lifetime (w : world) (c : channel.t) (table : option dictionary) (sname : string) :
  channel.lifetime (loadpreset w c table sname).2 = channel.lifetime c.
Proof.
  unfold loadpreset. destruct table as [d|]; [|done].
  destruct (find_section d sname) as [kv|]; [|done].
  destruct (kv !! "ttl"); done.
Qed.

Lemma setup_template_lifetime (w : world) (cfg : dictionary) (s s' : radiod) (u : unit) :
  setup_template w cfg s = Ret u s' ->
  SF_trunc (fdiv32 (float_of_Z (20 * 1000)) (Blocktime s)) = Some (channel.lifetime (Template s')).
Proof.
  unfold setup_template. intros H.
  apply bind_inv in H as (t & s0 & Hg & H). injection Hg as <- <-.
  apply bind_inv in H as (bt & s1 & Hg & H). injection Hg as <- <-.
  apply bind_inv in H as (life & s2 & Hi & H).
  apply int_of_floating_inv in Hi as (Hi & -> & _).
  apply bind_inv in H as (d & s3 & Hg & H). injection Hg as <- <-.
  apply bind_inv in H as (u1 & s4 & Hm & H). injection Hm as _ <-.
  unfold DEFAULT_LIFETIME in Hi. rewrite Hi. f_equal.
  destruct (config_getstring cfg GLOBAL "mode" _) as [preset|].
  - apply bind_inv in H as (table & s5 & Hg & H). injection Hg as <- <-.
    apply bind_inv in H as (file & s6 & Hg & H). injection Hg as <- <-.
    destruct (loadpreset w _ _ preset) as [r t2] eqn:E.
    apply bind_inv in H as (u2 & s7 & Hw & H).
    pose proof (loadpreset_lifetime w
                  (channel.set_output_dest_string (Data s)
                     (channel.set_lifetime life (set_defaults w (Template s))))
                  (Preset_table s) preset) as HL.
    rewrite E in HL. cbn in HL.
    pose proof (loadpreset_lifetime w (channel.set_preset preset t2) (Some cfg) GLOBAL) as HL2.
    injection H as _ <-. cbn [Template set_Template].
    etrans; [|symmetry; exact HL2]. done.
  - injection H as _ <-. done.
Qed.

Ltac view :=
  repeat split; let st := fresh "st" in intros ? st; destruct st; reflexivity.

Lemma setup_hardware_timing (w : world) (cfg : dictionary) (sname : string) :
  preserves timing (setup_hardware w cfg sname).
Proof.
  unfold setup_hardware, filter_sizes, fprintf_stderr, emit, timing. frame.
Qed.

Lemma before_template_timing (w : world) (cfg : dictionary) :
  preserves timing
    (load_fft_plan_level cfg ;; load_presets w cfg ;;
     modify (set_Metadata_dest_string (status_name w cfg)) ;;
     load_hardware w cfg ;; modify (set_Data (data_name w cfg))).
Proof.
  unfold load_fft_plan_level, load_presets, load_hardware, fprintf_stderr, emit.
  repeat first [ apply setup_hardware_timing | frame_step ].
Qed.


Lemma after_template_lifetime (w : world) (cfg : dictionary) :
  preserves lifetime_view
    (open_output_sockets w ;; check_stream_names ;; open_control w ;;
     start_sections w cfg ;; get Nchans).
Proof.
  unfold open_output_sockets, check_stream_names, open_control, fprintf_stderr, emit.
  repeat first [ apply start_sections_preserves; unfold lifetime_view; view | frame_step ].
Qed.

Lemma setup_template_timing (w : world) (cfg : dictionary) :
  preserves timing (setup_template w cfg).
Proof. unfold setup_template, fprintf_stderr, emit. frame. Qed.

(** The timing a completed [loadconfig] leaves behind. *)
Lemma loadconfig_lifetime (w : world) (cfg : dictionary) (s s' : radiod) (n : Z) :
  loadconfig w cfg s = Ret n s' ->
  SF_trunc (fdiv32 (float_of_Z (20 * 1000)) (Blocktime s')) = Some (channel.lifetime (Template s'))
  /\ Channel_idle_timeout s' = channel.lifetime (Template s').
Proof.
  unfold loadconfig. intros H.
  apply bind_inv in H as (u1 & s1 & Hg & H).
  apply load_globals_timing in Hg.
  apply bind_inv in H as (u2 & s2 & H2 & H).
  apply bind_inv in H as (u3 & s3 & H3 & H).
  apply bind_inv in H as (u4 & s4 & H4 & H).
  apply bind_inv in H as (u5 & s5 & H5 & H).
  apply bind_inv in H as (u6 & s6 & H6 & H).
  apply bind_inv in H as (u7 & s7 & H7 & H).
  assert (timing s6 = timing s1) as Ht.
  { apply (preserves_Ret timing
             (load_fft_plan_level cfg ;; load_presets w cfg ;;
              modify (set_Metadata_dest_string (status_name w cfg)) ;;
              load_hardware w cfg ;; modify (set_Data (data_name w cfg))) s1 s6 u6
             (before_template_timing w cfg)).
    rewrite (bind_Ret _ _ _ _ _ H2), (bind_Ret _ _ _ _ _ H3), (bind_Ret _ _ _ _ _ H4).
    by rewrite (bind_Ret _ _ _ _ _ H5). }
  pose proof (preserves_Ret timing _ _ _ _ (setup_template_timing w cfg) H7) as Ht7.
  apply setup_template_lifetime in H7.
  apply (preserves_Ret lifetime_view _ _ _ _ (after_template_lifetime w cfg)) in H.
  unfold timing, lifetime_view in *.
  injection H as -> -> ->. injection Ht7 as Hb7 Hc7. injection Ht as Hb Hc.
  rewrite Hb7, Hc7, Hb, Hc. rewrite Hb in H7. rewrite H7 in Hg. injection Hg as <-. done.
Qed.

Lemma set_lifetime_twice (a b : Z) (c : channel.t) :
  channel.set_lifetime a (channel.set_lifetime b c) = channel.set_lifetime a c.
Proof. by destruct c. Qed.

Lemma set_lifetime_same (c : channel.t) : channel.set_lifetime (channel.lifetime c) c = c.
Proof. by destruct c. Qed.

Lemma idle_blocks_absent (k : nat) (chan : Z) (s : radiod) :
  Channel_list s !! chan = None -> idle_blocks k chan s = Ret tt s.
Proof.
  intros H. induction k as [|k IH]; [done|].
  simpl. unfold mbind, prog_bind, idle_block. by rewrite H.
Qed.

(** The countdown: a channel at 0 Hz with [lifetime] at least 1 is there,
    with the remaining count, as long as fewer than [lifetime] idle blocks
    have passed, and gone from then on. *)
Lemma idle_blocks_count (k : nat) (chan : Z) (c : channel.t) (s : radiod) :
  Channel_list s !! chan = Some c ->
  is_zero_freq (channel.tune_freq c) = true ->
  1 <= channel.lifetime c ->
  exists s', idle_blocks k chan s = Ret tt s'
    /\ Channel_list s' !! chan =
       if Z.of_nat k <? channel.lifetime c
       then Some (channel.set_lifetime (channel.lifetime c - Z.of_nat k) c)
       else None.
Proof.
  revert c s. induction k as [|k IH]; intros c s Hc Hz Hl.
  - exists s. split; [done|].
    destruct (Z.ltb_spec (Z.of_nat 0) (channel.lifetime c)); [|lia].
    by rewrite Z.sub_0_r, set_lifetime_same.
  - simpl. unfold mbind, prog_bind, idle_block. rewrite Hc, Hz.
    destruct (Z.leb_spec (channel.lifetime c) 1) as [Hle|Hgt].
    + rewrite idle_blocks_absent by (cbn; apply lookup_delete_eq).
      eexists. split; [done|]. cbn. rewrite lookup_delete_eq.
      destruct (Z.ltb_spec (Z.of_nat (S k)) (channel.lifetime c)); [lia | done].
    + set (c' := channel.set_lifetime (channel.lifetime c - 1) c).
      destruct (IH c' (set_Channel_list (<[chan := c']> (Channel_list s)) s))
        as (s' & Hrun & Hlook).
      * cbn. apply lookup_insert_eq.
      * by destruct c.
      * subst c'. destruct c. cbn in *. lia.
      * exists s'. split; [done|]. rewrite Hlook.
        assert (channel.lifetime c' = channel.lifetime c - 1) as -> by (by destruct c).
        subst c'. rewrite set_lifetime_twice.
        destruct (Z.ltb_spec (Z.of_nat k) (channel.lifetime c - 1)),
                 (Z.ltb_spec (Z.of_nat (S k)) (channel.lifetime c)); try lia; [|done].
        do 2 f_equal. lia.
Qed.

Lemma create_dynamic_fresh (ssrc : Z) (f : spec_float) (s : radiod) :
  Channel_list s !! ssrc = None ->
  exists s', create_dynamic ssrc f s = Ret true s'
    /\ Channel_list s' !! ssrc =
       Some (channel.set_demod_running true
               (channel.set_tune_freq f (channel.set_output_rtp_ssrc ssrc (Template s)))).
Proof.
  intros H. unfold create_dynamic, mbind, prog_bind, create_chan. rewrite H.
  eexists. split; [reflexivity|].
  cbn. rewrite !lookup_alter_eq, lookup_insert_eq. done.
Qed.

(** C4.  After [loadconfig], the idle lifetime in the channel template (and
    [Channel_idle_timeout]) is 20 * 1000 / Blocktime, the quotient taken in
    single precision and truncated to an [int]: 20 seconds' worth of blocks,
    1000 for the default block time of 20 ms.  A channel created from the
    template at 0 Hz, with a lifetime of n >= 1 blocks, is in the registry
    after fewer than n blocks without a command and is gone after n. *)
Theorem idle_lifetime :
  (forall w cfg s n s',
     loadconfig w cfg s = Ret n s' ->
     SF_trunc (fdiv32 (float_of_Z (20 * 1000)) (Blocktime s'))
       = Some (channel.lifetime (Template s'))
     /\ Channel_idle_timeout s' = channel.lifetime (Template s'))
  /\ SF_trunc (fdiv32 (float_of_Z (20 * 1000)) DEFAULT_BLOCKTIME) = Some 1000
  /\ (forall s ssrc (n : nat),
        Channel_list s !! ssrc = None ->
        channel.lifetime (Template s) = Z.of_nat n -> (1 <= n)%nat ->
        exists s1, create_dynamic ssrc (S754_zero false) s = Ret true s1
          /\ forall k : nat, exists s2, idle_blocks k ssrc s1 = Ret tt s2
               /\ ((k < n)%nat -> is_Some (Channel_list s2 !! ssrc))
               /\ ((n <= k)%nat -> Channel_list s2 !! ssrc = None)).
Proof.
  split; [|split].
  - intros w cfg s n s'. apply loadconfig_lifetime.
  - vm_compute. reflexivity.
  - intros s ssrc n Hfree Hlife Hn.
    destruct (create_dynamic_fresh ssrc (S754_zero false) s Hfree) as (s1 & Hrun & Hc).
    exists s1. split; [done|]. intros k.
    destruct (idle_blocks_count k ssrc _ s1 Hc) as (s2 & Hk & Hlook).
    { done. }
    { destruct (Template s). cbn in *. lia. }
    exists s2. split; [done|]. rewrite Hlook.
    assert (channel.lifetime
              (channel.set_demod_running true
                 (channel.set_tune_freq (S754_zero false)
                    (channel.set_output_rtp_ssrc ssrc (Template s)))) = Z.of_nat n) as ->.
    { by destruct (Template s). }
    split; intros Hkn.
    + destruct (Z.ltb_spec (Z.of_nat k) (Z.of_nat n)); [eauto | lia].
    + destruct (Z.ltb_spec (Z.of_nat k) (Z.of_nat n)); [lia | done].
Qed.

Lemma example_run :
  loadconfig example_world example_config (radiod_init FFTW_PATIENT 0) = Ret 1 example_final.
Proof. vm_compute. reflexivity. Qed.

Lemma idle_lifetime_witness :
  loadconfig example_world example_config (radiod_init FFTW_PATIENT 0) = Ret 1 example_final
  /\ SF_trunc (fdiv32 (float_of_Z (20 * 1000)) (Blocktime example_final))
     = Some (channel.lifetime (Template example_final))
  /\ Channel_idle_timeout example_final = channel.lifetime (Template example_final)
  /\ channel.lifetime (Template example_final) = 1000.
Proof.
  assert (loadconfig example_world example_config (radiod_init FFTW_PATIENT 0)
          = Ret 1 example_final) as H by (vm_compute; reflexivity).
  split; [exact H|].
  split; [|split].
  - apply (proj1 idle_lifetime example_world example_config _ 1 example_final H).
  - apply (proj1 idle_lifetime example_world example_config _ 1 example_final H).
  - vm_compute. reflexivity.
Defined.

(* ================================================================= *)
(** ** The default SSRC *)

Lemma to_uint32_range (z : Z) : 0 <= to_uint32 z < UINT32_MOD.
Proof. unfold to_uint32, UINT32_MOD. apply Z.mod_pos_bound. lia. Qed.

Lemma to_uint32_small (z : Z) : 0 <= z < UINT32_MOD -> to_uint32 z = z.
Proof. unfold to_uint32. apply Z.mod_small. Qed.

Lemma to_uint32_add_l (a b : Z) : to_uint32 (to_uint32 a + b) = to_uint32 (a + b).
Proof. unfold to_uint32. apply Zplus_mod_idemp_l. Qed.

Lemma to_uint32_mul_l (a b : Z) : to_uint32 (to_uint32 a * b) = to_uint32 (a * b).
Proof. unfold to_uint32. apply Zmult_mod_idemp_l. Qed.

Lemma ssrc_of_digits_mod (tok : string) (a : Z) :
  ssrc_of_digits tok (to_uint32 a) = to_uint32 (digits_value tok a).
Proof.
  revert a. induction tok as [|c tok IH]; intros a; simpl; [done|].
  destruct (isdigit c); [|apply IH].
  rewrite <- IH. f_equal.
  change (char_code "0") with 48.
  by rewrite to_uint32_mul_l, to_uint32_add_l.
Qed.

Lemma default_ssrc_mod (tok : string) :
  default_ssrc tok = to_uint32 (concatenated_digits tok).
Proof.
  unfold default_ssrc, concatenated_digits.
  change 0 with (to_uint32 0) at 1. apply ssrc_of_digits_mod.
Qed.

Lemma requested_ssrc_default (w : world) (cfg : dictionary) (sname tok : string) :
  config_lookup cfg sname "ssrc" = None ->
  requested_ssrc w cfg sname tok = default_ssrc tok.
Proof.
  intros H. unfold requested_ssrc, config_getint. rewrite H.
  rewrite to_uint32_to_int, default_ssrc_mod. unfold to_uint32. apply Zmod_mod.
Qed.

Lemma requested_ssrc_explicit (w : world) (cfg : dictionary) (sname tok v : string) :
  config_lookup cfg sname "ssrc" = Some v ->
  requested_ssrc w cfg sname tok = to_uint32 (strtol w v).
Proof.
  intros H. unfold requested_ssrc, config_getint. rewrite H. apply to_uint32_to_int.
Qed.

Lemma process_token_reserved (w : world) (cfg : dictionary) (sname : string)
  (t : channel.t) (n : Z) (tok : string) (s : radiod) :
  requested_ssrc w cfg sname tok = 0 ->
  exists s', process_token w cfg sname t n tok s = Ret n s'
    /\ Channel_list s' = Channel_list s /\ Nchans s' = Nchans s
    /\ (SF_is_negative (parse_frequency w tok true) = false -> s' = s).
Proof.
  intros H. unfold process_token. rewrite H.
  destruct (SF_is_negative _).
  - eexists. split; [reflexivity|]. by destruct s.
  - exists s. auto.
Qed.

(** C3.  The default SSRC of a frequency token is the number formed by its
    decimal digits, in order and with the other characters ignored, as a
    [uint32_t] (modulo 2^32, so the number itself when it is below 2^32);
    the SSRC requested for the token is this default unless the section has
    an [ssrc] entry, whose value then replaces it; when the requested SSRC
    is 0, the reserved value, the token creates no channel.  The token
    "7,040,000" has the default SSRC 7040000. *)
Theorem default_ssrc_spec (w : world) (cfg : dictionary) (sname tok : string) :
  default_ssrc tok = concatenated_digits tok mod 2 ^ 32
  /\ (0 <= concatenated_digits tok < 2 ^ 32 -> default_ssrc tok = concatenated_digits tok)
  /\ (config_lookup cfg sname "ssrc" = None ->
      requested_ssrc w cfg sname tok = default_ssrc tok)
  /\ (forall v, config_lookup cfg sname "ssrc" = Some v ->
      requested_ssrc w cfg sname tok = strtol w v mod 2 ^ 32)
  /\ (requested_ssrc w cfg sname tok = 0 ->
      forall t n s, exists s',
        process_token w cfg sname t n tok s = Ret n s'
        /\ Channel_list s' = Channel_list s /\ Nchans s' = Nchans s)
  /\ default_ssrc "7,040,000" = 7040000.
Proof.
  repeat split.
  - apply default_ssrc_mod.
  - intros H. rewrite default_ssrc_mod. by apply to_uint32_small.
  - apply requested_ssrc_default.
  - intros v. apply requested_ssrc_explicit.
  - intros H t n s.
    destruct (process_token_reserved w cfg sname t n tok s H) as (s' & ? & ? & ? & _).
    eauto.
Qed.

Lemma default_ssrc_spec_witness :
  0 <= concatenated_digits "7,040,000" < 2 ^ 32
  /\ default_ssrc "7,040,000" = concatenated_digits "7,040,000"
  /\ concatenated_digits "7,040,000" = 7040000.
Proof.
  assert (0 <= concatenated_digits "7,040,000" < 2 ^ 32) as H by (vm_compute; split; [discriminate | reflexivity]).
  split; [exact H|]. split.
  - apply (proj1 (proj2 (default_ssrc_spec example_world example_config "forty" "7,040,000")) H).
  - reflexivity.
Defined.

(* ================================================================= *)
(** ** The collision loop *)

Lemma bind_modify {B : Type} (g : radiod -> radiod) (k : unit -> prog B) (s : radiod) :
  (modify g ≫= k) s = k tt (g s).
Proof. done. Qed.

Lemma bind_get {A B : Type} (g : radiod -> A) (k : A -> prog B) (s : radiod) :
  (get g ≫= k) s = k (g s) s.
Proof. done. Qed.

Lemma bind_mret {A B : Type} (a : A) (k : A -> prog B) (s : radiod) :
  (mret a ≫= k) s = k a s.
Proof. done. Qed.

Lemma Channel_list_set_Channel_list (m : gmap Z channel.t) (s : radiod) :
  Channel_list (set_Channel_list m s) = m.
Proof. done. Qed.

Lemma set_Channel_list_twice (a b : gmap Z channel.t) (s : radiod) :
  set_Channel_list a (set_Channel_list b s) = set_Channel_list a s.
Proof. done. Qed.

Lemma Nchans_set_Channel_list (m : gmap Z channel.t) (s : radiod) :
  Nchans (set_Channel_list m s) = Nchans s.
Proof. done. Qed.

Lemma SAP_enable_set_Channel_list (m : gmap Z channel.t) (s : radiod) :
  SAP_enable (set_Channel_list m s) = SAP_enable s.
Proof. done. Qed.

Lemma RTCP_enable_set_Channel_list (m : gmap Z channel.t) (s : radiod) :
  RTCP_enable (set_Channel_list m s) = RTCP_enable s.
Proof. done. Qed.

Lemma trace_set_Channel_list (m : gmap Z channel.t) (s : radiod) :
  trace (set_Channel_list m s) = trace s.
Proof. done. Qed.

Lemma Channel_list_set_Nchans (n : Z) (s : radiod) :
  Channel_list (set_Nchans n s) = Channel_list s.
Proof. done. Qed.

Lemma Nchans_set_Nchans (n : Z) (s : radiod) : Nchans (set_Nchans n s) = n.
Proof. done. Qed.

Lemma SAP_enable_set_Nchans (n : Z) (s : radiod) : SAP_enable (set_Nchans n s) = SAP_enable s.
Proof. done. Qed.

Lemma RTCP_enable_set_Nchans (n : Z) (s : radiod) : RTCP_enable (set_Nchans n s) = RTCP_enable s.
Proof. done. Qed.

Lemma trace_set_Nchans (n : Z) (s : radiod) : trace (set_Nchans n s) = trace s.
Proof. done. Qed.

Lemma set_Channel_list_set_Nchans (m : gmap Z channel.t) (n : Z) (s : radiod) :
  set_Channel_list m (set_Nchans n s) = set_Nchans n (set_Channel_list m s).
Proof. done. Qed.

Create Rewrite HintDb state.
#[global] Hint Rewrite Channel_list_set_Channel_list set_Channel_list_twice
  Nchans_set_Channel_list SAP_enable_set_Channel_list RTCP_enable_set_Channel_list
  trace_set_Channel_list Channel_list_set_Nchans Nchans_set_Nchans SAP_enable_set_Nchans
  RTCP_enable_set_Nchans trace_set_Nchans set_Channel_list_set_Nchans : state.

Lemma when_true (p : prog unit) : when true p = p.
Proof. done. Qed.

Lemma when_false (p : prog unit) : when false p = mret tt.
Proof. done. Qed.

Ltac run :=
  repeat first [ rewrite bind_modify | rewrite bind_get | rewrite bind_mret
               | rewrite when_true | rewrite when_false
               | progress autorewrite with state ].

Lemma bind_int_checked {B : Type} (z : Z) (k : Z -> prog B) (s : radiod) :
  in_int z = true -> (int_checked z ≫= k) s = k z s.
Proof. intros H. unfold int_checked. by rewrite H. Qed.

Lemma probe_ssrc_exhausted (n : nat) (ssrc : Z) (s : radiod) :
  (forall i : nat, (i < n)%nat -> is_Some (Channel_list s !! to_uint32 (ssrc + Z.of_nat i))) ->
  0 <= ssrc < UINT32_MOD ->
  probe_ssrc n ssrc s = Ret (None, to_uint32 (ssrc + Z.of_nat n)) s.
Proof.
  revert ssrc. induction n as [|n IH]; intros ssrc Htaken Hr.
  - simpl. by rewrite Z.add_0_r, to_uint32_small.
  - simpl. unfold mbind, prog_bind, create_chan.
    destruct (Htaken 0%nat) as [c Hc]; [lia|].
    rewrite Z.add_0_r, to_uint32_small in Hc by done. rewrite Hc.
    rewrite IH.
    + rewrite to_uint32_add_l. do 3 f_equal. lia.
    + intros i Hi. rewrite to_uint32_add_l.
      replace (ssrc + 1 + Z.of_nat i) with (ssrc + Z.of_nat (S i)) by lia.
      apply Htaken. lia.
    + apply to_uint32_range.
Qed.

Lemma probe_ssrc_first_free (n k : nat) (ssrc : Z) (s : radiod) :
  (k < n)%nat -> first_free s ssrc k -> 0 <= ssrc < UINT32_MOD ->
  probe_ssrc n ssrc s =
  Ret (Some (to_uint32 (ssrc + Z.of_nat k)), to_uint32 (ssrc + Z.of_nat k))
      (set_Channel_list
         (<[to_uint32 (ssrc + Z.of_nat k) :=
              channel.set_output_rtp_ssrc (to_uint32 (ssrc + Z.of_nat k)) channel.zero]>
            (Channel_list s)) s).
Proof.
  revert k ssrc. induction n as [|n IH]; intros k ssrc Hk [Hfree Htaken] Hr; [lia|].
  simpl. unfold mbind, prog_bind, create_chan.
  destruct k as [|k].
  - change (Z.of_nat 0) with 0 in *. rewrite Z.add_0_r in Hfree |- *.
    rewrite (to_uint32_small ssrc Hr) in Hfree |- *. by rewrite Hfree.
  - destruct (Htaken 0%nat) as [c Hc]; [lia|].
    rewrite Z.add_0_r, to_uint32_small in Hc by done. rewrite Hc.
    rewrite (IH k).
    + rewrite to_uint32_add_l.
      by replace (ssrc + 1 + Z.of_nat k) with (ssrc + Z.of_nat (S k)) by lia.
    + lia.
    + split.
      * rewrite to_uint32_add_l.
        by replace (ssrc + 1 + Z.of_nat k) with (ssrc + Z.of_nat (S k)) by lia.
      * intros i Hi. rewrite to_uint32_add_l.
        replace (ssrc + 1 + Z.of_nat i) with (ssrc + Z.of_nat (S i)) by lia.
        apply Htaken. lia.
    + apply to_uint32_range.
Qed.

Lemma requested_ssrc_range (w : world) (cfg : dictionary) (sname tok : string) :
  0 <= requested_ssrc w cfg sname tok < UINT32_MOD.
Proof. apply to_uint32_range. Qed.

(** A token whose requested SSRC is not 0, when one of the 100 SSRCs is
    free: the channel is registered at the first free one. *)
Lemma process_token_creates (w : world) (cfg : dictionary) (sname : string)
  (t : channel.t) (n : Z) (tok : string) (s : radiod) (k : nat) :
  let f := parse_frequency w tok true in
  let r := requested_ssrc w cfg sname tok in
  SF_is_negative f = false -> r <> 0 ->
  (k < max_collisions)%nat -> first_free s r k ->
  in_int (n + 1) = true -> in_int (Nchans s + 1) = true ->
  exists s', process_token w cfg sname t n tok s = Ret (n + 1) s'
    /\ Channel_list s' =
       <[to_uint32 (r + Z.of_nat k) :=
           started_channel t (to_uint32 (r + Z.of_nat k)) f (SAP_enable s) (RTCP_enable s)]>
         (Channel_list s)
    /\ Nchans s' = Nchans s + 1
    /\ trace s' = trace s.
Proof.
  intros f r Hf Hr Hk Hfree Hn HN. unfold process_token. fold f r. rewrite Hf.
  apply Z.eqb_neq in Hr. rewrite Hr.
  erewrite bind_Ret by (apply (probe_ssrc_first_free _ k); done || apply requested_ssrc_range).
  set (x := to_uint32 (r + Z.of_nat k)).
  unfold set_freq, start_demod, update_chan. run.
  rewrite (bind_int_checked _ _ _ Hn). run.
  rewrite (bind_int_checked _ _ _ HN). run.
  unfold started_channel.
  destruct (SAP_enable s); run; destruct (RTCP_enable s); run;
    (eexists; split; [reflexivity|]); run;
    rewrite ?alter_alter_eq, alter_insert_eq; done.
Qed.

(** The same token when all 100 SSRCs are taken. *)
Lemma process_token_exhausted (w : world) (cfg : dictionary) (sname : string)
  (t : channel.t) (n : Z) (tok : string) (s : radiod) :
  let r := requested_ssrc w cfg sname tok in
  SF_is_negative (parse_frequency w tok true) = false -> r <> 0 ->
  (forall i : nat, (i < max_collisions)%nat ->
     is_Some (Channel_list s !! to_uint32 (r + Z.of_nat i))) ->
  process_token w cfg sname t n tok s =
  Ret n (set_trace (trace s ++ [Ev_stderr (Msg_cant_allocate_ssrc r (to_uint32 (r + 100)))]) s).
Proof.
  intros r Hf Hr Htaken. unfold process_token. fold r. rewrite Hf.
  apply Z.eqb_neq in Hr. rewrite Hr.
  unfold mbind at 1. unfold prog_bind at 1.
  rewrite probe_ssrc_exhausted by (done || apply requested_ssrc_range).
  unfold fprintf_stderr, emit. run.
  change (Z.of_nat max_collisions) with 100.
  replace (to_uint32 (to_uint32 (r + 100) - 100)) with r; [done|].
  unfold to_uint32 at 1 2. rewrite Zminus_mod_idemp_l.
  replace (r + 100 - 100) with r by lia. symmetry. apply Z.mod_small, requested_ssrc_range.
Qed.

Lemma to_uint32_succ_ne (r : Z) : 0 <= r < UINT32_MOD -> to_uint32 (r + 1) <> r.
Proof.
  intros Hr. unfold to_uint32, UINT32_MOD in *.
  destruct (Z.eq_dec r 4294967295) as [->|Hne]; [done|].
  rewrite Z.mod_small; lia.
Qed.

(** Two tokens of a section that ask for the same SSRC. *)
Lemma same_ssrc_twice (w : world) (cfg : dictionary) (sname : string) (t : channel.t)
  (n : Z) (tok1 tok2 : string) (s : radiod) :
  let r := requested_ssrc w cfg sname tok1 in
  let f1 := parse_frequency w tok1 true in
  let f2 := parse_frequency w tok2 true in
  requested_ssrc w cfg sname tok2 = r -> r <> 0 ->
  SF_is_negative f1 = false -> SF_is_negative f2 = false ->
  Channel_list s !! r = None -> Channel_list s !! to_uint32 (r + 1) = None ->
  0 <= n <= INT_MAX - 2 -> 0 <= Nchans s <= INT_MAX - 2 ->
  exists s', process_tokens w cfg sname t n [tok1; tok2] s = Ret (n + 2) s'
    /\ Channel_list s' =
       <[to_uint32 (r + 1) :=
           started_channel t (to_uint32 (r + 1)) f2 (SAP_enable s) (RTCP_enable s)]>
         (<[r := started_channel t r f1 (SAP_enable s) (RTCP_enable s)]> (Channel_list s))
    /\ Nchans s' = Nchans s + 2.
Proof.
  intros r f1 f2 Hsame Hr Hf1 Hf2 Hfree0 Hfree1 Hn HN.
  assert (0 <= r < UINT32_MOD) as Hrange by apply requested_ssrc_range.
  assert (forall z, 0 <= z <= INT_MAX -> in_int z = true) as Hin.
  { intros z Hz. unfold in_int. apply andb_true_iff.
    split; apply Z.leb_le; unfold INT_MIN, INT_MAX in *; lia. }
  assert (first_free s r 0) as Hff0.
  { split; [|intros i Hi; lia]. by rewrite Z.add_0_r, to_uint32_small. }
  destruct (process_token_creates w cfg sname t n tok1 s 0 Hf1 Hr ltac:(unfold max_collisions; lia)
              Hff0 ltac:(apply Hin; lia) ltac:(apply Hin; lia))
    as (s1 & Hrun1 & Hc1 & HN1 & _).
  fold r f1 in Hc1. rewrite Z.add_0_r, to_uint32_small in Hc1 by done.
  assert ((SAP_enable s1, RTCP_enable s1) = (SAP_enable s, RTCP_enable s)) as Hen.
  { apply (preserves_Ret (fun s => (SAP_enable s, RTCP_enable s)) _ _ _ _
             (process_token_preserves (fun s => (SAP_enable s, RTCP_enable s))
                w cfg sname t n tok1 ltac:(view)) Hrun1). }
  injection Hen as Hsap Hrtcp.
  assert (first_free s1 (requested_ssrc w cfg sname tok2) 1) as Hff1.
  { rewrite Hsame. split.
    - rewrite Hc1. change (Z.of_nat 1) with 1.
      rewrite lookup_insert_ne; [done|]. intros E. by apply (to_uint32_succ_ne r).
    - intros i Hi. assert (i = 0%nat) as -> by lia.
      rewrite Hc1, Z.add_0_r, to_uint32_small, lookup_insert_eq by done. eauto. }
  assert (requested_ssrc w cfg sname tok2 <> 0) as Hr2 by (by rewrite Hsame).
  destruct (process_token_creates w cfg sname t (n + 1) tok2 s1 1 Hf2 Hr2
              ltac:(unfold max_collisions; lia) Hff1
              ltac:(apply Hin; lia) ltac:(apply Hin; lia))
    as (s2 & Hrun2 & Hc2 & HN2 & _).
  exists s2. simpl. rewrite (bind_Ret _ _ _ _ _ Hrun1), (bind_Ret _ _ _ _ _ Hrun2).
  split; [unfold mret, prog_ret; f_equal; lia|].
  rewrite Hc2, HN2, HN1, Hc1, Hsame, Hsap, Hrtcp. fold r f2.
  split; [done | lia].
Qed.

(** C2.  The collision loop for a requested SSRC [r] (not 0): when the
    first SSRC the registry does not hold among r, r+1, ..., r+99 (modulo
    2^32) is r+k, the channel is created there and only there; when all 100
    are held, nothing is created and the token only writes the warning
    about the range r .. r+100.  Hence two tokens of a section that ask for
    the same SSRC r, with r and r+1 free, are registered at r and r+1. *)
Theorem ssrc_collision_probing (w : world) (cfg : dictionary) (sname : string) (t : channel.t) :
  (forall s r (k : nat),
     0 <= r < 2 ^ 32 -> (k < 100)%nat -> first_free s r k ->
     probe_ssrc max_collisions r s =
     Ret (Some (to_uint32 (r + Z.of_nat k)), to_uint32 (r + Z.of_nat k))
       (set_Channel_list
          (<[to_uint32 (r + Z.of_nat k) :=
               channel.set_output_rtp_ssrc (to_uint32 (r + Z.of_nat k)) channel.zero]>
             (Channel_list s)) s))
  /\ (forall s r,
        0 <= r < 2 ^ 32 ->
        (forall i : nat, (i < 100)%nat -> is_Some (Channel_list s !! to_uint32 (r + Z.of_nat i))) ->
        probe_ssrc max_collisions r s = Ret (None, to_uint32 (r + 100)) s)
  /\ (forall n tok s (k : nat),
        let r := requested_ssrc w cfg sname tok in
        SF_is_negative (parse_frequency w tok true) = false -> r <> 0 ->
        (k < 100)%nat -> first_free s r k ->
        in_int (n + 1) = true -> in_int (Nchans s + 1) = true ->
        exists s', process_token w cfg sname t n tok s = Ret (n + 1) s'
          /\ Channel_list s' =
             <[to_uint32 (r + Z.of_nat k) :=
                 started_channel t (to_uint32 (r + Z.of_nat k)) (parse_frequency w tok true)
                   (SAP_enable s) (RTCP_enable s)]> (Channel_list s)
          /\ Nchans s' = Nchans s + 1)
  /\ (forall n tok s,
        let r := requested_ssrc w cfg sname tok in
        SF_is_negative (parse_frequency w tok true) = false -> r <> 0 ->
        (forall i : nat, (i < 100)%nat -> is_Some (Channel_list s !! to_uint32 (r + Z.of_nat i))) ->
        process_token w cfg sname t n tok s =
        Ret n (set_trace
                 (trace s ++ [Ev_stderr (Msg_cant_allocate_ssrc r (to_uint32 (r + 100)))]) s))
  /\ (forall n tok1 tok2 s,
        let r := requested_ssrc w cfg sname tok1 in
        requested_ssrc w cfg sname tok2 = r -> r <> 0 ->
        SF_is_negative (parse_frequency w tok1 true) = false ->
        SF_is_negative (parse_frequency w tok2 true) = false ->
        Channel_list s !! r = None -> Channel_list s !! to_uint32 (r + 1) = None ->
        0 <= n <= INT_MAX - 2 -> 0 <= Nchans s <= INT_MAX - 2 ->
        exists s', process_tokens w cfg sname t n [tok1; tok2] s = Ret (n + 2) s'
          /\ Channel_list s' =
             <[to_uint32 (r + 1) :=
                 started_channel t (to_uint32 (r + 1)) (parse_frequency w tok2 true)
                   (SAP_enable s) (RTCP_enable s)]>
               (<[r := started_channel t r (parse_frequency w tok1 true)
                         (SAP_enable s) (RTCP_enable s)]> (Channel_list s))
          /\ Nchans s' = Nchans s + 2).
Proof.
  split; [|split; [|split; [|split]]].
  - intros s r k Hr Hk Hfree. by apply probe_ssrc_first_free.
  - intros s r Hr Htaken. by apply (probe_ssrc_exhausted max_collisions).
  - intros n tok s k r Hf Hr Hk Hfree Hn HN.
    destruct (process_token_creates w cfg sname t n tok s k Hf Hr Hk Hfree Hn HN)
      as (s' & ? & ? & ? & _).
    eauto.
  - intros n tok s r Hf Hr Htaken. by apply process_token_exhausted.
  - intros n tok1 tok2 s. apply same_ssrc_twice.
Qed.

Lemma ssrc_collision_probing_witness :
  let w := example_world in
  let s := radiod_init FFTW_PATIENT 0 in
  let f := parse_frequency w "7040000" true in
  requested_ssrc w example_config "forty" "7040000" = 7040000
  /\ SF_is_negative f = false
  /\ Channel_list s !! 7040000 = None /\ Channel_list s !! 7040001 = None
  /\ exists s', process_tokens w example_config "forty" channel.zero 0 ["7040000"; "7040000"] s
                = Ret 2 s'
       /\ Channel_list s' =
          <[7040001 := started_channel channel.zero 7040001 f false false]>
            (<[7040000 := started_channel channel.zero 7040000 f false false]> ∅)
       /\ Nchans s' = 2.
Proof.
  intros w s f.
  assert (requested_ssrc w example_config "forty" "7040000" = 7040000) as Hr
    by (vm_compute; reflexivity).
  assert (SF_is_negative f = false) as Hf by (vm_compute; reflexivity).
  assert (Channel_list s !! 7040000 = None) as H0 by (vm_compute; reflexivity).
  assert (Channel_list s !! 7040001 = None) as H1 by (vm_compute; reflexivity).
  repeat split; try assumption.
  pose proof (proj2 (proj2 (proj2 (proj2
                (ssrc_collision_probing w example_config "forty" channel.zero))))
                0 "7040000" "7040000" s) as H.
  cbv zeta in H. rewrite Hr in H.
  apply H; try done; cbv [INT_MAX Nchans s radiod_init]; lia.
Defined.

(* ================================================================= *)
(** ** The planning level *)

Lemma load_fft_plan_level_unrecognized (cfg : dictionary) (v : string) (s : radiod) :
  config_lookup cfg GLOBAL "fft-plan-level" = Some v ->
  recognized_plan_level v = false ->
  load_fft_plan_level cfg s = Ret tt s.
Proof.
  intros Hv Hbad. unfold load_fft_plan_level, config_getstring. rewrite Hv.
  unfold recognized_plan_level, plan_levels in Hbad. cbn [existsb] in Hbad.
  unfold default, from_option, id.
  repeat (apply orb_false_iff in Hbad as [-> Hbad]). done.
Qed.

(** C6 as the specification states it fails: with [fft-plan-level = fast]
    the program starts its channel and [loadconfig] returns. *)
Lemma bad_plan_level_not_fatal :
  ~ bad_plan_level_is_fatal example_world example_config_bad_level (radiod_init FFTW_PATIENT 0).
Proof.
  intros H. destruct (H "fast") as (code & s' & Hrun & _).
  - vm_compute. reflexivity.
  - vm_compute. reflexivity.
  - revert Hrun. vm_compute. discriminate.
Qed.

(** C6, amended.  A value of [fft-plan-level] that is none of estimate,
    measure, patient, exhaustive and wisdom-only (compared without regard to
    case) is ignored: the step that reads it leaves the whole state as it
    is, so the planning level keeps its value, nothing is written and
    nothing exits, and [loadconfig] goes on as if the step were not there. *)
Theorem unrecognized_plan_level_ignored (w : world) (cfg : dictionary) (v : string) (s : radiod) :
  config_lookup cfg GLOBAL "fft-plan-level" = Some v ->
  recognized_plan_level v = false ->
  load_fft_plan_level cfg s = Ret tt s
  /\ loadconfig w cfg s = loadconfig_without_plan_level w cfg s
  /\ forall n s', loadconfig w cfg s = Ret n s' ->
       FFTW_planning_level s' = FFTW_planning_level s.
Proof.
  intros Hv Hbad.
  assert (forall s0, load_fft_plan_level cfg s0 = Ret tt s0) as Hstep
    by (intros s0; by apply (load_fft_plan_level_unrecognized cfg v)).
  split; [apply Hstep|].
  assert (loadconfig w cfg s = loadconfig_without_plan_level w cfg s) as Heq.
  { unfold loadconfig, loadconfig_without_plan_level.
    unfold mbind at 1 12. unfold prog_bind at 1 12.
    destruct (load_globals w cfg s) as [u s1| | |]; try done.
    by rewrite (bind_Ret _ _ _ _ _ (Hstep s1)). }
  split; [exact Heq|].
  intros n s' Hrun. rewrite Heq in Hrun.
  assert (preserves FFTW_planning_level (loadconfig_without_plan_level w cfg)) as Hp.
  { unfold loadconfig_without_plan_level, load_globals, load_presets, load_hardware,
      setup_hardware, filter_sizes, setup_template, open_output_sockets, check_stream_names,
      open_control, fprintf_stderr, emit.
    repeat first [ apply start_sections_preserves; view | frame_step ]. }
  apply (preserves_Ret _ _ _ _ _ Hp Hrun).
Qed.

Lemma unrecognized_plan_level_ignored_witness :
  let s := radiod_init FFTW_EXHAUSTIVE 0 in
  config_lookup example_config_bad_level GLOBAL "fft-plan-level" = Some "fast"
  /\ recognized_plan_level "fast" = false
  /\ load_fft_plan_level example_config_bad_level s = Ret tt s
  /\ loadconfig example_world example_config_bad_level s
     = loadconfig_without_plan_level example_world example_config_bad_level s.
Proof.
  intros s.
  assert (config_lookup example_config_bad_level GLOBAL "fft-plan-level" = Some "fast") as H1
    by (vm_compute; reflexivity).
  assert (recognized_plan_level "fast" = false) as H2 by (vm_compute; reflexivity).
  pose proof (unrecognized_plan_level_ignored example_world example_config_bad_level "fast" s
                H1 H2) as (Ha & Hb & _).
  exact (conj H1 (conj H2 (conj Ha Hb))).
Defined.

(* ================================================================= *)
(** ** The names of the status and data streams *)

Lemma setup_hardware_channels (w : world) (cfg : dictionary) (sname : string) :
  preserves channels_view (setup_hardware w cfg sname).
Proof. unfold setup_hardware, filter_sizes, fprintf_stderr, emit, channels_view. frame. Qed.

Lemma startup_before_check_channels (w : world) (cfg : dictionary) :
  preserves channels_view (startup_before_check w cfg ;; check_stream_names).
Proof.
  unfold startup_before_check, load_globals, load_fft_plan_level, load_presets, load_hardware,
    setup_template, open_output_sockets, check_stream_names, fprintf_stderr, emit.
  repeat first [ apply setup_hardware_channels | frame_step ].
Qed.

Lemma setup_hardware_status (w : world) (cfg : dictionary) (sname : string) :
  preserves Metadata_dest_string (setup_hardware w cfg sname).
Proof. unfold setup_hardware, filter_sizes, fprintf_stderr, emit. frame. Qed.

Lemma status_name_kept (w : world) (cfg : dictionary) :
  preserves Metadata_dest_string
    (load_hardware w cfg ;; modify (set_Data (data_name w cfg)) ;;
     setup_template w cfg ;; open_output_sockets w).
Proof.
  unfold load_hardware, setup_template, open_output_sockets, fprintf_stderr, emit.
  repeat first [ apply setup_hardware_status | frame_step ].
Qed.

Lemma data_name_kept (w : world) (cfg : dictionary) :
  preserves Data (setup_template w cfg ;; open_output_sockets w).
Proof. unfold setup_template, open_output_sockets, fprintf_stderr, emit. frame. Qed.

(** Associativity of the sequencing, at a state. *)
Lemma bind_assoc {A B C : Type} (m : prog A) (f : A -> prog B) (g : B -> prog C) (s : radiod) :
  ((m ≫= f) ≫= g) s = (m ≫= (fun a => f a ≫= g)) s.
Proof. unfold mbind, prog_bind. by destruct (m s). Qed.

(** The names the first part of [loadconfig] leaves in the state. *)
Lemma startup_before_check_names (w : world) (cfg : dictionary) (s s1 : radiod) (u : unit) :
  startup_before_check w cfg s = Ret u s1 ->
  Metadata_dest_string s1 = status_name w cfg /\ Data s1 = data_name w cfg.
Proof.
  unfold startup_before_check. intros H.
  apply bind_inv in H as (u1 & a1 & _ & H).
  apply bind_inv in H as (u2 & a2 & _ & H).
  apply bind_inv in H as (u3 & a3 & _ & H).
  apply bind_inv in H as (u4 & a4 & H4 & H). injection H4 as _ <-.
  split.
  - by rewrite (preserves_Ret _ _ _ _ _ (status_name_kept w cfg) H).
  - apply bind_inv in H as (u5 & a5 & _ & H).
    apply bind_inv in H as (u6 & a6 & H6 & H). injection H6 as _ <-.
    by rewrite (preserves_Ret _ _ _ _ _ (data_name_kept w cfg) H).
Qed.

Lemma bind_Exit {A B : Type} (m : prog A) (k : A -> prog B) (s s' : radiod) (c : Z) :
  m s = Exit c s' -> (m ≫= k) s = Exit c s'.
Proof. unfold mbind, prog_bind. by intros ->. Qed.

Lemma bind_Abort {A B : Type} (m : prog A) (k : A -> prog B) (s s' : radiod) :
  m s = Abort s' -> (m ≫= k) s = Abort s'.
Proof. unfold mbind, prog_bind. by intros ->. Qed.

Lemma bind_Undefined {A B : Type} (m : prog A) (k : A -> prog B) (s : radiod) :
  m s = Undefined -> (m ≫= k) s = Undefined.
Proof. unfold mbind, prog_bind. by intros ->. Qed.

Lemma bind_ext {A B : Type} (m : prog A) (f g : A -> prog B) (s : radiod) :
  (forall a s', f a s' = g a s') -> (m ≫= f) s = (m ≫= g) s.
Proof. intros H. unfold mbind, prog_bind. destruct (m s); auto. Qed.

Lemma loadconfig_split (w : world) (cfg : dictionary) (s : radiod) :
  loadconfig w cfg s =
  ((startup_before_check w cfg ;; check_stream_names) ;;
   open_control w ;; start_sections w cfg ;; get Nchans) s.
Proof.
  unfold loadconfig, startup_before_check. symmetry.
  rewrite bind_assoc.
  do 7 (rewrite bind_assoc; apply bind_ext; intros ? ?).
  reflexivity.
Qed.

(** A run of [loadconfig] on equal stream names ends at the comparison or
    before it. *)
Lemma loadconfig_same_names (w : world) (cfg : dictionary) (s : radiod) :
  status_name w cfg = data_name w cfg ->
  match (startup_before_check w cfg ;; check_stream_names) s with
  | Ret _ _ => False
  | Exit c s' => loadconfig w cfg s = Exit c s'
  | Abort s' => loadconfig w cfg s = Abort s'
  | Undefined => loadconfig w cfg s = Undefined
  end.
Proof.
  intros Hsame. rewrite loadconfig_split.
  destruct ((startup_before_check w cfg ;; check_stream_names) s) as [u s2| | |] eqn:E;
    [| by apply bind_Exit | by apply bind_Abort | by apply bind_Undefined].
  apply bind_inv in E as (u1 & s1 & Hpre & Hchk).
  apply startup_before_check_names in Hpre as [Hm Hd].
  unfold check_stream_names in Hchk. rewrite !bind_get in Hchk.
  rewrite Hm, Hd, Hsame in Hchk. unfold streq in Hchk. rewrite String.eqb_refl in Hchk.
  discriminate.
Qed.

(** C10.  When the resolved name of the status/command stream equals that of
    the data stream, [loadconfig] does not return: it ends without a channel
    created or counted, and as soon as the start-up reaches the comparison
    (no earlier step has ended the program) it reports the duplicate names
    and exits with EX_USAGE, 64. *)
Theorem duplicate_stream_names (w : world) (cfg : dictionary) (s : radiod) :
  status_name w cfg = data_name w cfg ->
  (forall s1, startup_before_check w cfg s = Ret tt s1 ->
     loadconfig w cfg s =
     Exit 64
       (set_trace (trace s1 ++
                     [Ev_stderr (Msg_duplicate_names (data_name w cfg) (status_name w cfg))]) s1)
     /\ Channel_list s1 = Channel_list s /\ Nchans s1 = Nchans s)
  /\ (forall n s', loadconfig w cfg s <> Ret n s')
  /\ (forall c s', loadconfig w cfg s = Exit c s' ->
        Channel_list s' = Channel_list s /\ Nchans s' = Nchans s)
  /\ (forall s', loadconfig w cfg s = Abort s' ->
        Channel_list s' = Channel_list s /\ Nchans s' = Nchans s).
Proof.
  intros Hsame. pose proof (loadconfig_same_names w cfg s Hsame) as Hrun.
  pose proof (startup_before_check_channels w cfg s) as Hch.
  split; [|split; [|split]].
  - intros s1 Hpre.
    pose proof (startup_before_check_names _ _ _ _ _ Hpre) as [Hm Hd].
    rewrite (bind_Ret _ _ _ _ _ Hpre) in Hrun, Hch.
    unfold check_stream_names in Hrun, Hch. rewrite !bind_get in Hrun, Hch.
    rewrite Hm, Hd, Hsame in Hrun, Hch. unfold streq in Hrun, Hch.
    rewrite String.eqb_refl in Hrun, Hch.
    unfold fprintf_stderr, emit in Hrun, Hch. rewrite bind_modify in Hrun, Hch.
    unfold exit in Hrun, Hch. rewrite Hsame.
    split; [exact Hrun|]. unfold channels_view in Hch. by injection Hch.
  - intros n s' E.
    destruct ((startup_before_check w cfg ;; check_stream_names) s);
      cbv beta iota in Hrun; [done | congruence..].
  - intros c s' E.
    destruct ((startup_before_check w cfg ;; check_stream_names) s);
      cbv beta iota in Hrun; [done | | congruence..].
    rewrite Hrun in E. injection E as <- <-. unfold channels_view in Hch. by injection Hch.
  - intros s' E.
    destruct ((startup_before_check w cfg ;; check_stream_names) s);
      cbv beta iota in Hrun; [done | congruence | | congruence].
    rewrite Hrun in E. injection E as <-. unfold channels_view in Hch. by injection Hch.
Qed.

Lemma duplicate_stream_names_witness :
  let s := radiod_init FFTW_PATIENT 0 in
  let s1 := example_same_names_state in
  status_name example_world example_config_same_names
  = data_name example_world example_config_same_names
  /\ startup_before_check example_world example_config_same_names s = Ret tt s1
  /\ loadconfig example_world example_config_same_names s =
     Exit 64 (set_trace (trace s1 ++ [Ev_stderr (Msg_duplicate_names "hf.local" "hf.local")]) s1)
  /\ Channel_list s1 = Channel_list s /\ Nchans s1 = Nchans s.
Proof.
  intros s s1.
  assert (status_name example_world example_config_same_names
          = data_name example_world example_config_same_names) as H by (vm_compute; reflexivity).
  assert (startup_before_check example_world example_config_same_names s = Ret tt s1) as H1
    by (vm_compute; reflexivity).
  pose proof (proj1 (duplicate_stream_names example_world example_config_same_names s H) s1 H1)
    as HT.
  exact (conj H (conj H1 HT)).
Defined.

(* ================================================================= *)
(** ** The section template *)

Lemma set_trace_twice (a b : list event) (s : radiod) :
  set_trace a (set_trace b s) = set_trace a s.
Proof. done. Qed.

Lemma trace_set_trace (a : list event) (s : radiod) : trace (set_trace a s) = a.
Proof. done. Qed.

Lemma set_trace_same (s : radiod) : set_trace (trace s) s = s.
Proof. by destruct s. Qed.

Lemma bind_fprintf {B : Type} (m : message) (k : unit -> prog B) (s : radiod) :
  (fprintf_stderr m ≫= k) s = k tt (set_trace (trace s ++ [Ev_stderr m]) s).
Proof. done. Qed.

Ltac run_all :=
  repeat first [ rewrite bind_assoc | rewrite bind_fprintf | rewrite bind_modify
               | rewrite bind_get | rewrite bind_mret | rewrite when_true
               | rewrite when_false
               | progress autorewrite with state ].

Lemma for_each_fprintf {A : Type} (f : A -> message) (l : list A) (s : radiod) :
  for_each (fun a => fprintf_stderr (f a)) l s
  = Ret tt (set_trace (trace s ++ map (fun a => Ev_stderr (f a)) l) s).
Proof.
  revert s. induction l as [|a l IH]; intros s.
  - cbn [for_each map]. by rewrite app_nil_r, set_trace_same.
  - cbn [for_each map]. rewrite bind_fprintf, IH.
    by rewrite trace_set_trace, set_trace_twice, <- app_assoc.
Qed.

(** [section_template] on a section that names a preset: the template and
    the messages. *)
Lemma section_template_run (w : world) (cfg : dictionary) (sname p : string) (s : radiod) :
  section_preset cfg sname = Some p ->
  section_template w cfg sname s =
  Ret (channel.set_output_dest_string
         (ensure_suffix (default (Data s) (config_getstring cfg sname "data" (Some (Data s))))
            ".local")
         (adjust_ttl (channel.output_ttl (Template s))
            (layered_template w cfg (Preset_table s) sname p)))
      (set_trace (trace s ++ section_messages w cfg (Preset_table s) (Preset_file s) sname p) s).
Proof.
  intros Hp. unfold section_template. rewrite Hp.
  rewrite (bind_Ret _ _ _ _ _ (for_each_fprintf _ _ s)).
  set (s1 := set_trace _ s).
  unfold section_messages, layered_template, build_template.
  destruct (loadpreset w (loadpreset w (set_defaults w channel.zero) (Some cfg) GLOBAL).2
              (Preset_table s) p) as [r t2] eqn:E.
  assert (Preset_table s1 = Preset_table s /\ Preset_file s1 = Preset_file s
          /\ Data s1 = Data s /\ Template s1 = Template s) as (Ht & Hf & Hd & HT) by done.
  destruct (String.length p =? 0)%nat; run_all;
    cbn [Preset_table set_trace Preset_file Data Template trace];
    rewrite ?Ht, ?Hf, ?Hd, ?HT, E; cbn [fst snd];
    destruct (negb (r =? 0)); run_all;
    subst s1; rewrite ?set_trace_twice, ?trace_set_trace, <- ?app_assoc, ?app_nil_r; done.
Qed.

Lemma lookup_union_priority (m1 m2 : gmap string string) (k : string) :
  (m1 ∪ m2) !! k = match m1 !! k with Some v => Some v | None => m2 !! k end.
Proof. rewrite lookup_union. destruct (m1 !! k), (m2 !! k); done. Qed.

Lemma loadpreset_params (w : world) (c : channel.t) (table : option dictionary) (sname : string) :
  channel.params (loadpreset w c table sname).2 = layer w table sname ∪ channel.params c.
Proof.
  unfold loadpreset, layer. destruct table as [d|]; [|by rewrite (left_id_L ∅ (∪))].
  destruct (find_section d sname) as [kv|]; [|by rewrite (left_id_L ∅ (∪))].
  destruct (kv !! "ttl"); done.
Qed.

Lemma loadpreset_ttl (w : world) (c : channel.t) (table : option dictionary) (sname : string) :
  channel.output_ttl (loadpreset w c table sname).2
  = default (channel.output_ttl c) (layer_ttl w table sname).
Proof.
  unfold loadpreset, layer_ttl. destruct table as [d|]; [|done].
  destruct (find_section d sname) as [kv|]; [|done].
  destruct (kv !! "ttl"); done.
Qed.

Lemma loadpreset_preset (w : world) (c : channel.t) (table : option dictionary) (sname : string) :
  channel.preset (loadpreset w c table sname).2 = channel.preset c.
Proof.
  unfold loadpreset. destruct table as [d|]; [|done].
  destruct (find_section d sname) as [kv|]; [|done].
  destruct (kv !! "ttl"); done.
Qed.

Lemma loadpreset_missing (w : world) (c : channel.t) (d : dictionary) (sname : string) :
  find_section d sname = None -> loadpreset w c (Some d) sname = (-1, c).
Proof. intros H. unfold loadpreset. by rewrite H. Qed.

Lemma layered_template_params (w : world) (cfg : dictionary) (presets : option dictionary)
  (sname p key : string) :
  channel.params (layered_template w cfg presets sname p) !! key
  = strict_priority w cfg presets sname p key.
Proof.
  unfold layered_template, strict_priority.
  rewrite loadpreset_params. cbn [channel.params channel.set_preset].
  rewrite !loadpreset_params. unfold set_defaults. cbn [channel.params channel.set_params
    channel.set_output_ttl channel.zero].
  rewrite !lookup_union_priority, lookup_empty.
  destruct (layer w (Some cfg) sname !! key), (layer w presets p !! key),
    (layer w (Some cfg) GLOBAL !! key), (default_params w !! key); done.
Qed.

Lemma layered_template_ttl (w : world) (cfg : dictionary) (presets : option dictionary)
  (sname p : string) :
  channel.output_ttl (layered_template w cfg presets sname p)
  = strict_priority_ttl w cfg presets sname p.
Proof.
  unfold layered_template, strict_priority_ttl.
  rewrite loadpreset_ttl. cbn [channel.output_ttl channel.set_preset].
  rewrite !loadpreset_ttl. unfold set_defaults. cbn [channel.output_ttl channel.set_output_ttl].
  destruct (layer_ttl w (Some cfg) sname), (layer_ttl w presets p),
    (layer_ttl w (Some cfg) GLOBAL); done.
Qed.

Lemma layered_template_preset (w : world) (cfg : dictionary) (presets : option dictionary)
  (sname p : string) :
  channel.preset (layered_template w cfg presets sname p) = p.
Proof. unfold layered_template. by rewrite loadpreset_preset. Qed.

Lemma adjust_ttl_params (g : Z) (t : channel.t) :
  channel.params (adjust_ttl g t) = channel.params t
  /\ channel.preset (adjust_ttl g t) = channel.preset t.
Proof. unfold adjust_ttl. destruct (_ && _); done. Qed.

Lemma adjust_ttl_ttl (g : Z) (t : channel.t) :
  channel.output_ttl (adjust_ttl g t)
  = if negb (channel.output_ttl t =? 0) && negb (g =? 0) then g else channel.output_ttl t.
Proof. unfold adjust_ttl. destruct (_ && _); done. Qed.

(** C5 as the specification states it fails: a section TTL of 5 under a
    global TTL of 2 gives the template the TTL 2. *)
Lemma section_ttl_not_by_priority :
  ~ resolves_by_strict_priority example_world example_config_ttl "forty" example_ttl_state.
Proof.
  intros H.
  assert (section_preset example_config_ttl "forty" = Some "am") as Hp
    by (vm_compute; reflexivity).
  destruct (H "am" _ _ Hp (section_template_run example_world example_config_ttl "forty" "am"
                             example_ttl_state Hp)) as [_ Httl].
  revert Httl. vm_compute. discriminate.
Qed.

(** C5, amended.  For a section that names a preset, every parameter of the
    section template other than the TTL resolves by strict priority: the
    section's own entry, else the entry of the preset, else that of
    [global], else the compiled-in default (the template is [set_defaults],
    then [global], then the preset, then the section).  The TTL resolves in
    the same way, except that when it and the TTL of the global [Template]
    are both nonzero the template takes the TTL of the global [Template]. *)
Theorem template_priority (w : world) (cfg : dictionary) (sname p : string) (s : radiod) :
  section_preset cfg sname = Some p ->
  exists t s',
    section_template w cfg sname s = Ret t s'
    /\ (forall key, channel.params t !! key
                    = strict_priority w cfg (Preset_table s) sname p key)
    /\ channel.output_ttl t =
       (let z := strict_priority_ttl w cfg (Preset_table s) sname p in
        if negb (z =? 0) && negb (channel.output_ttl (Template s) =? 0)
        then channel.output_ttl (Template s) else z)
    /\ channel.preset t = p
    /\ channel.params t = channel.params (layered_template w cfg (Preset_table s) sname p).
Proof.
  intros Hp. eexists _, _. split; [by apply section_template_run|].
  cbn [channel.params channel.output_ttl channel.preset channel.set_output_dest_string].
  destruct (adjust_ttl_params (channel.output_ttl (Template s))
              (layered_template w cfg (Preset_table s) sname p)) as [-> ->].
  rewrite adjust_ttl_ttl, layered_template_ttl, layered_template_preset.
  repeat split. intros key. apply layered_template_params.
Qed.

Lemma template_priority_witness :
  section_preset example_config_ttl "forty" = Some "am"
  /\ exists t s',
       section_template example_world example_config_ttl "forty" example_ttl_state = Ret t s'
       /\ (forall key, channel.params t !! key
                       = strict_priority example_world example_config_ttl
                           (Preset_table example_ttl_state) "forty" "am" key)
       /\ channel.output_ttl t =
          (let z := strict_priority_ttl example_world example_config_ttl
                      (Preset_table example_ttl_state) "forty" "am" in
           if negb (z =? 0) && negb (channel.output_ttl (Template example_ttl_state) =? 0)
           then channel.output_ttl (Template example_ttl_state) else z)
       /\ channel.preset t = "am"
       /\ channel.params t
          = channel.params (layered_template example_world example_config_ttl
                              (Preset_table example_ttl_state) "forty" "am").
Proof.
  assert (section_preset example_config_ttl "forty" = Some "am") as Hp
    by (vm_compute; reflexivity).
  exact (conj Hp (template_priority example_world example_config_ttl "forty" "am"
                    example_ttl_state Hp)).
Defined.

(* ================================================================= *)
(** ** The notch list *)

Lemma alpha_01_nonzero : alpha_01 <> S754_zero false.
Proof. vm_compute. discriminate. Qed.

Lemma spur_notch_nonzero (shift : Z) : spur_notch shift <> notch_state.zero.
Proof. intros H. apply (f_equal notch_state.alpha) in H. by apply alpha_01_nonzero. Qed.

(** The loop, started at position [idx] of an array with room for the
    entries it writes: the entries before [idx] and after the written ones
    are what they were. *)
Lemma build_notches_from (w : world) (N M samprate : Z) (spurs : list spec_float)
  (idx : nat) (notches : list notch_state.t) (shifts : list Z) (e : scan_end) :
  scan_spurs w N M samprate spurs = (shifts, e) ->
  Forall (fun z => z <> INT_MIN) shifts ->
  (idx + length (written_notches shifts e) <= length notches)%nat ->
  build_notches w N M samprate spurs idx notches
  = Some (take idx notches ++ written_notches shifts e
          ++ drop (idx + length (written_notches shifts e)) notches)%list
  /\ Forall (fun z => z <> 0) shifts.
Proof.
  revert idx notches shifts e.
  induction spurs as [|f rest IH]; intros idx notches shifts e Hscan Hmin Hroom.
  - injection Hscan as <- <-. cbn. rewrite Nat.add_0_r, take_drop. auto.
  - cbn [scan_spurs build_notches] in *.
    destruct (compute_tuning w N M samprate f) as [[r shift] rem].
    destruct (negb (r =? 0)).
    { injection Hscan as <- <-. cbn. rewrite Nat.add_0_r, take_drop.
      split; [done | constructor]. }
    destruct (Z.eqb_spec shift 0) as [->|Hne].
    { injection Hscan as <- <-. change (0 =? INT_MIN) with false. cbv iota.
      cbn [written_notches map app length] in Hroom |- *.
      assert ((length notches <=? idx)%nat = false) as -> by (apply Nat.leb_gt; lia).
      rewrite insert_take_drop by lia.
      replace (idx + 1)%nat with (S idx) by lia.
      split; [done | constructor]. }
    destruct (scan_spurs w N M samprate rest) as [l e'] eqn:Hrest.
    injection Hscan as <- <-.
    apply Forall_cons in Hmin as [Hs Hmin].
    apply Z.eqb_neq in Hs. rewrite Hs.
    assert (length (written_notches (shift :: l) e') = S (length (written_notches l e')))
      as Hw by (unfold written_notches; by cbn [map app length]).
    rewrite Hw in Hroom |- *.
    assert ((length notches <=? idx)%nat = false) as -> by (apply Nat.leb_gt; lia).
    set (x := notch_state.mk (S754_zero false) (Z.abs shift) alpha_01).
    destruct (IH (S idx) (<[idx := x]> notches) l e' eq_refl Hmin) as (Hrun & Hnz).
    { rewrite length_insert. lia. }
    rewrite Hrun. split; [|by constructor].
    f_equal. rewrite (take_S_r _ _ x) by (apply list_lookup_insert_eq; lia).
    rewrite take_insert_ge by lia.
    rewrite drop_insert_lt by lia.
    unfold written_notches. cbn [map app length]. rewrite <- !app_assoc. cbn [app].
    do 5 f_equal. lia.
Qed.

(** The loop that goes on when the array is full writes past it. *)
Lemma build_notches_past (w : world) (N M samprate : Z) (spurs : list spec_float)
  (idx : nat) (notches : list notch_state.t) (shifts : list Z) (e : scan_end) :
  scan_spurs w N M samprate spurs = (shifts, e) ->
  (length notches < idx + length (written_notches shifts e))%nat ->
  (idx <= length notches)%nat ->
  build_notches w N M samprate spurs idx notches = None.
Proof.
  revert idx notches shifts e.
  induction spurs as [|f rest IH]; intros idx notches shifts e Hscan Hpast Hidx.
  - injection Hscan as <- <-. cbn in Hpast. lia.
  - cbn [scan_spurs build_notches] in *.
    destruct (compute_tuning w N M samprate f) as [[r shift] rem].
    destruct (negb (r =? 0)).
    { injection Hscan as <- <-. cbn in Hpast. lia. }
    destruct (shift =? INT_MIN); [done|].
    destruct (Nat.leb_spec (length notches) idx) as [|Hlt]; [done|].
    destruct (Z.eqb_spec shift 0) as [->|Hne].
    { injection Hscan as <- <-. cbn in Hpast. lia. }
    destruct (scan_spurs w N M samprate rest) as [l e'] eqn:Hrest.
    injection Hscan as <- <-.
    apply (IH _ _ l e' eq_refl).
    + rewrite length_insert. unfold written_notches in *.
      cbn [map app length] in Hpast. lia.
    + rewrite length_insert. lia.
Qed.

Lemma populated_notch_array (shifts : list Z) (e : scan_end) :
  populated (notch_array shifts e) = written_notches shifts e.
Proof.
  unfold populated, notch_array. rewrite filter_app.
  assert (forall n, filter (fun n => n <> notch_state.zero) (replicate n notch_state.zero) = [])
    as Hz.
  { intros n. induction n as [|n IH]; [done|]. cbn [replicate].
    rewrite filter_cons_False; [done | by intros H]. }
  rewrite Hz, app_nil_r.
  assert (forall l, Forall (fun n => n <> notch_state.zero) l ->
                    filter (fun n => n <> notch_state.zero) l = l) as Hall.
  { intros l H. induction H as [|n l Hn _ IH]; [done|]. by rewrite filter_cons_True, IH. }
  apply Hall. unfold written_notches. apply Forall_app. split.
  - apply Forall_forall. intros n Hn. apply list_elem_of_fmap in Hn as (z & -> & _).
    apply spur_notch_nonzero.
  - destruct e; repeat constructor. apply spur_notch_nonzero.
Qed.

(** The shifts [scan_spurs] returns belong, position by position, to the
    spurs at the head of the table, each accepted by [compute_tuning]. *)
Lemma scan_spurs_prefix (w : world) (N M samprate : Z) (spurs : list spec_float)
  (shifts : list Z) (e : scan_end) (i : nat) (z : Z) :
  scan_spurs w N M samprate spurs = (shifts, e) ->
  shifts !! i = Some z ->
  exists f rem, spurs !! i = Some f /\ compute_tuning w N M samprate f = (0, z, rem).
Proof.
  revert shifts i. induction spurs as [|f rest IH]; intros shifts i Hscan Hi.
  - injection Hscan as <- <-. done.
  - cbn [scan_spurs] in Hscan.
    destruct (compute_tuning w N M samprate f) as [[r shift] rem] eqn:Hct.
    destruct (Z.eqb_spec r 0) as [->|Hr]; cbn [negb] in Hscan;
      [|injection Hscan as <- <-; done].
    destruct (shift =? 0); [injection Hscan as <- <-; done|].
    destruct (scan_spurs w N M samprate rest) as [l e'].
    injection Hscan as <- <-.
    destruct i as [|i]; cbn in Hi.
    + injection Hi as <-. eauto.
    + apply (IH l i eq_refl Hi).
Qed.

(** The spur the loop stops at. *)
Lemma scan_spurs_end (w : world) (N M samprate : Z) (spurs : list spec_float)
  (shifts : list Z) (e : scan_end) :
  scan_spurs w N M samprate spurs = (shifts, e) ->
  match e with
  | End_DC => exists f rem, spurs !! length shifts = Some f
                /\ compute_tuning w N M samprate f = (0, 0, rem)
  | End_rejected => exists f r shift rem, spurs !! length shifts = Some f
                /\ compute_tuning w N M samprate f = (r, shift, rem) /\ r <> 0
  | End_of_spurs => length shifts = length spurs
  end.
Proof.
  revert shifts. induction spurs as [|f rest IH]; intros shifts Hscan.
  - by injection Hscan as <- <-.
  - cbn [scan_spurs] in Hscan.
    destruct (compute_tuning w N M samprate f) as [[r shift] rem] eqn:Hct.
    destruct (Z.eqb_spec r 0) as [->|Hr]; cbn [negb] in Hscan.
    + destruct (Z.eqb_spec shift 0) as [->|Hs].
      * injection Hscan as <- <-. cbn. eauto.
      * destruct (scan_spurs w N M samprate rest) as [l e'].
        injection Hscan as <- <-. specialize (IH l eq_refl).
        destruct e'; cbn [length lookup]; [done | done | by f_equal].
    + injection Hscan as <- <-. cbn. eauto 10.
Qed.

Lemma notch_array_length (shifts : list Z) (e : scan_end) :
  (length (written_notches shifts e) <= NOTCH_SLOTS)%nat ->
  length (notch_array shifts e) = NOTCH_SLOTS.
Proof. intros H. unfold notch_array. rewrite length_app, length_replicate. lia. Qed.

Lemma notch_array_last (shifts : list Z) (e : scan_end) :
  (length (written_notches shifts e) < NOTCH_SLOTS)%nat ->
  last (notch_array shifts e) = Some notch_state.zero.
Proof.
  intros H. unfold notch_array.
  destruct (NOTCH_SLOTS - length (written_notches shifts e))%nat as [|n] eqn:E; [lia|].
  by rewrite replicate_S_end, app_assoc, last_snoc.
Qed.

Lemma notch_array_no_dc (shifts : list Z) (e : scan_end) :
  Forall (fun z => z <> 0) shifts -> e <> End_DC -> dc_notch ∉ notch_array shifts e.
Proof.
  intros Hnz He Hin. unfold notch_array, written_notches in Hin.
  rewrite !elem_of_app in Hin. destruct Hin as [[Hin | Hin] | Hin].
  - apply list_elem_of_fmap in Hin as (z & Hz & Hin).
    apply (f_equal notch_state.bin) in Hz. cbn in Hz.
    rewrite Forall_forall in Hnz. specialize (Hnz z Hin). lia.
  - destruct e; [done | by apply elem_of_nil in Hin..].
  - apply elem_of_replicate_inv in Hin. by apply (spur_notch_nonzero 0).
Qed.

(** C7.  The notch list for a spur table whose second spur, 700 kHz at a
    sample rate of 1.2 MHz, [compute_tuning] rejects: the loop stores the
    spur at 5 kHz (bin 125) and stops at the rejected one before it has
    written anything for it, so the array holds no DC suppressor, and the
    last populated entry is that of the spur; the zero entry that follows
    in the table is not looked at. *)
Theorem rejected_spur_leaves_no_dc :
  build_notches example_world 30000 6001 1200000 example_spurs_rejected 0
    (replicate NOTCH_SLOTS notch_state.zero)
  = Some (notch_array [125] End_rejected)
  /\ populated (notch_array [125] End_rejected) = [spur_notch 125]
  /\ (dc_notch ∉ notch_array [125] End_rejected)
  /\ ~ notches_end_with_dc example_world 30000 6001 1200000 example_spurs_rejected.
Proof.
  assert (build_notches example_world 30000 6001 1200000 example_spurs_rejected 0
            (replicate NOTCH_SLOTS notch_state.zero)
          = Some (notch_array [125] End_rejected)) as Hrun by (vm_compute; reflexivity).
  split; [exact Hrun|]. split; [by rewrite populated_notch_array|]. split.
  - apply notch_array_no_dc; [repeat constructor; discriminate | discriminate].
  - intros H. destruct (H _ Hrun) as (_ & Hdc & _).
    rewrite populated_notch_array in Hdc. revert Hdc. vm_compute. discriminate.
Qed.

(** X29.  What the loop over the spurs does in general.  It stores, in
    order, the spurs that come before the first one that [compute_tuning]
    rejects or that falls in bin 0, each with bin = |shift|, alpha = .01 and
    state 0; when it stops at a spur in bin 0 it stores the DC suppressor
    (bin 0, alpha .01) after them, and this is then the last populated
    entry; when it stops at a rejected spur or at the end of the table the
    array has no DC suppressor.  With at most 100 entries to store, the
    rest of the 100 entries stays zeroed, and with fewer than 100 the array
    ends with a zeroed entry; with more than 100 the loop writes past the
    array. *)
Theorem notch_list_built (w : world) (N M samprate : Z) (spurs : list spec_float)
  (shifts : list Z) (e : scan_end) :
  scan_spurs w N M samprate spurs = (shifts, e) ->
  Forall (fun z => z <> INT_MIN) shifts ->
  ((length (written_notches shifts e) <= NOTCH_SLOTS)%nat ->
   build_notches w N M samprate spurs 0 (replicate NOTCH_SLOTS notch_state.zero)
   = Some (notch_array shifts e)
   /\ length (notch_array shifts e) = NOTCH_SLOTS
   /\ ((length (written_notches shifts e) < NOTCH_SLOTS)%nat ->
       last (notch_array shifts e) = Some notch_state.zero)
   /\ populated (notch_array shifts e) = written_notches shifts e
   /\ (forall i z, shifts !! i = Some z ->
         z <> 0 /\ notch_array shifts e !! i = Some (spur_notch z)
         /\ exists f rem, spurs !! i = Some f
                          /\ compute_tuning w N M samprate f = (0, z, rem))
   /\ (e = End_DC -> last (populated (notch_array shifts e)) = Some dc_notch)
   /\ (e <> End_DC -> dc_notch ∉ notch_array shifts e))
  /\ ((NOTCH_SLOTS < length (written_notches shifts e))%nat ->
      build_notches w N M samprate spurs 0 (replicate NOTCH_SLOTS notch_state.zero) = None).
Proof.
  intros Hscan Hmin. split.
  - intros Hlen.
    destruct (build_notches_from w N M samprate spurs 0
                (replicate NOTCH_SLOTS notch_state.zero) shifts e Hscan Hmin)
      as (Hrun & Hnz).
    { rewrite length_replicate. lia. }
    split; [|split; [|split; [|split; [|split; [|split]]]]].
    + rewrite Hrun. unfold notch_array. by rewrite take_0, drop_replicate.
    + by apply notch_array_length.
    + apply notch_array_last.
    + apply populated_notch_array.
    + intros i z Hi. split; [|split].
      * rewrite Forall_forall in Hnz. apply Hnz. by apply list_elem_of_lookup_2 in Hi.
      * unfold notch_array, written_notches. rewrite <- app_assoc.
        apply lookup_app_l_Some. by rewrite list_lookup_fmap, Hi.
      * by apply (scan_spurs_prefix w N M samprate spurs shifts e).
    + intros ->. rewrite populated_notch_array. unfold written_notches. apply last_snoc.
    + by apply notch_array_no_dc.
  - intros Hpast. apply (build_notches_past w N M samprate spurs 0 _ shifts e Hscan).
    + rewrite length_replicate. lia.
    + lia.
Qed.

Lemma notch_list_built_witness :
  let spurs := [double_of_Z 5000; S754_zero false; S754_zero false] in
  scan_spurs example_world 30000 6001 1200000 spurs = ([125], End_DC)
  /\ Forall (fun z => z <> INT_MIN) [125]
  /\ (length (written_notches [125%Z] End_DC) <= NOTCH_SLOTS)%nat
  /\ build_notches example_world 30000 6001 1200000 spurs 0
       (replicate NOTCH_SLOTS notch_state.zero)
     = Some (notch_array [125] End_DC)
  /\ populated (notch_array [125] End_DC) = [spur_notch 125; dc_notch]
  /\ last (notch_array [125] End_DC) = Some notch_state.zero.
Proof.
  intros spurs.
  assert (scan_spurs example_world 30000 6001 1200000 spurs = ([125], End_DC)) as H1
    by (vm_compute; reflexivity).
  assert (Forall (fun z => z <> INT_MIN) [125]) as H2 by (repeat constructor; discriminate).
  assert (length (written_notches [125%Z] End_DC) <= NOTCH_SLOTS)%nat as H3
    by (cbv [written_notches map app length NOTCH_SLOTS]; lia).
  assert (length (written_notches [125%Z] End_DC) < NOTCH_SLOTS)%nat as H4
    by (cbv [written_notches map app length NOTCH_SLOTS]; lia).
  pose proof (proj1 (notch_list_built example_world 30000 6001 1200000 spurs [125] End_DC
                       H1 H2) H3) as (Ha & _ & Hb & Hc & _).
  exact (conj H1 (conj H2 (conj H3 (conj Ha (conj Hc (Hb H4)))))).
Defined.

(* ================================================================= *)
(** ** The sizes and the notch list in [setup_hardware] *)

(** What [setup_hardware] leaves in [Frontend] when the driver is found and
    its setup succeeds: the sizes of [filter_sizes] for the sample rate of
    the driver, and the notch list built with N = L + M - 1. *)
Lemma setup_hardware_frontend (w : world) (cfg : dictionary) (sname : string)
  (drv : driver) (s s' : radiod) (r : Z) :
  let sr := drv_setup drv cfg sname in
  find_driver w cfg (default sname (config_getstring cfg sname "device" (Some sname)))
  = Some drv ->
  sr_status sr = 0 ->
  setup_hardware w cfg sname s = Ret r s' ->
  let fe := Frontend s' in
  frontend.samprate fe = sr_samprate sr
  /\ (exists l, lround (eL_of (sr_samprate sr) (Blocktime s)) = Some l
                /\ frontend.L fe = to_int l)
  /\ frontend.M fe = Z.quot (frontend.L fe) (Overlap s - 1) + 1
  /\ build_notches w (frontend.L fe + frontend.M fe - 1) (frontend.M fe) (sr_samprate sr)
       (sr_spurs sr) 0 (replicate NOTCH_SLOTS notch_state.zero)
     = Some (frontend.notches fe).
Proof.
  intros sr Hdrv Hst H fe. unfold setup_hardware in H. rewrite Hdrv in H. fold sr in H.
  rewrite bind_modify, Hst in H. cbn [Z.eqb negb] in H.
  rewrite !bind_get in H.
  cbn [Frontend set_Frontend frontend.samprate frontend.set_setup Blocktime Overlap] in H.
  apply bind_inv in H as ([[vL vM] vN] & s1 & Hfs & H).
  assert (frontend.samprate (Frontend s1) = sr_samprate sr
          /\ frontend.spurs (Frontend s1) = sr_spurs sr) as [Hsr Hsp].
  { assert (preserves (fun s => (frontend.samprate (Frontend s), frontend.spurs (Frontend s)))
              (filter_sizes (sr_samprate sr) (Blocktime s) (Overlap s))) as Hp.
    { unfold filter_sizes, fprintf_stderr, emit. frame. }
    apply (preserves_Ret _ _ _ _ _ Hp) in Hfs. by injection Hfs. }
  apply filter_sizes_inv in Hfs as (l & El & -> & _ & _ & _ & _ & -> & -> & HL & HM & Hn).
  rewrite bind_get in H. rewrite Hsp, Hn in H.
  destruct (build_notches w _ _ _ _ 0 _) as [n|] eqn:Hb; [|discriminate].
  rewrite bind_modify in H.
  assert (Frontend s' = frontend.set_notches n (Frontend s1)
          \/ Frontend s' = frontend.set_started true (frontend.set_notches n (Frontend s1)))
    as Hfe.
  { destruct (drv_start drv) as [r0|].
    - rewrite bind_modify in H. apply bind_inv in H as (u & s2 & Hw & H).
      injection H as _ <-. right.
      apply when_inv in Hw as [[_ Hw] | [_ ->]]; [by injection Hw as _ <- | done].
    - rewrite bind_fprintf in H. injection H as _ <-. by left. }
  assert (frontend.samprate fe = frontend.samprate (Frontend s1)
          /\ frontend.L fe = frontend.L (Frontend s1)
          /\ frontend.M fe = frontend.M (Frontend s1)
          /\ frontend.notches fe = n) as (E1 & E2 & E3 & E4).
  { subst fe. destruct Hfe as [-> | ->]; by destruct (Frontend s1). }
  rewrite E1, E2, E3, E4, HL, HM, Hsr.
  split; [done|]. split; [eauto|]. split; [done|].
  rewrite <- Hb. f_equal; lia.
Qed.

(* ================================================================= *)
(** * Further properties *)

(* ================================================================= *)
(** ** The verbosity signals *)

Lemma set_Verbose_same (s : radiod) : set_Verbose (Verbose s) s = s.
Proof. by destruct s. Qed.

Lemma set_Verbose_twice (a b : Z) (s : radiod) :
  set_Verbose a (set_Verbose b s) = set_Verbose a s.
Proof. done. Qed.

Lemma Verbose_set_Verbose (a : Z) (s : radiod) : Verbose (set_Verbose a s) = a.
Proof. done. Qed.

(** X1.  SIGUSR1 followed by SIGUSR2 leaves the state as it was, whenever
    [Verbose] is at least 0 and below INT_MAX; in the other order the pair
    does not cancel at the floor: from a [Verbose] of 0 or less, SIGUSR2
    followed by SIGUSR1 leaves [Verbose] at 1. *)
Theorem verbosity_round_trip (s : radiod) :
  (0 <= Verbose s < INT_MAX ->
   (verbosity SIGUSR1 ;; verbosity SIGUSR2) s = Ret tt s)
  /\ (Verbose s <= 0 ->
      (verbosity SIGUSR2 ;; verbosity SIGUSR1) s = Ret tt (set_Verbose 1 s)).
Proof.
  split.
  - intros H.
    rewrite (bind_Ret _ _ _ _ _ (verbosity_up s ltac:(unfold INT_MIN; lia))).
    rewrite verbosity_down, Verbose_set_Verbose, set_Verbose_twice.
    replace (Z.max 0 (Verbose s + 1 - 1)) with (Verbose s) by lia.
    by rewrite set_Verbose_same.
  - intros H.
    rewrite (bind_Ret _ _ _ _ _ (verbosity_down s)).
    rewrite verbosity_up; rewrite Verbose_set_Verbose, ?set_Verbose_twice.
    + by replace (Z.max 0 (Verbose s - 1)) with 0 by lia.
    + unfold INT_MIN, INT_MAX. lia.
Qed.

Lemma verbosity_round_trip_witness :
  let s := radiod_init FFTW_PATIENT 0 in
  0 <= Verbose s < INT_MAX /\ Verbose s <= 0
  /\ (verbosity SIGUSR1 ;; verbosity SIGUSR2) s = Ret tt s
  /\ (verbosity SIGUSR2 ;; verbosity SIGUSR1) s = Ret tt (set_Verbose 1 s).
Proof.
  intros s.
  assert (0 <= Verbose s < INT_MAX) as H1 by (cbv [s radiod_init Verbose INT_MAX]; lia).
  assert (Verbose s <= 0) as H2 by (cbv [s radiod_init Verbose]; lia).
  exact (conj H1 (conj H2 (conj (proj1 (verbosity_round_trip s) H1)
                                (proj2 (verbosity_round_trip s) H2)))).
Defined.

Lemma deliver_returns (sig : signal) (s s' : radiod) (u : unit) :
  deliver sig s = Some (Ret u s') ->
  returning_signal sig = true
  /\ s' = set_Verbose (Verbose s') s
  /\ (0 <= Verbose s -> 0 <= Verbose s' /\ Verbose s - 1 <= Verbose s' <= Verbose s + 1).
Proof.
  destruct sig; unfold deliver; cbn [main_signals]; intros H; try discriminate.
  - injection H as _ <-. rewrite set_Verbose_same. repeat split; try done; lia.
  - assert (verbosity SIGUSR1 s = Ret u s') as H1 by congruence. clear H.
    unfold verbosity, mbind, prog_bind, get, int_checked, modify in H1. simpl in H1.
    destruct (in_int (Verbose s + 1)); [|discriminate].
    injection H1 as _ <-. rewrite Verbose_set_Verbose. repeat split; try done; lia.
  - assert (verbosity SIGUSR2 s = Ret u s') as H1 by congruence. clear H.
    rewrite verbosity_down in H1. injection H1 as _ <-.
    rewrite Verbose_set_Verbose. repeat split; try done; lia.
Qed.

(** X2.  Whatever signals arrive, if every handler returns then the signals
    were SIGPIPE, SIGUSR1 or SIGUSR2 only and the state differs from the
    first one in [Verbose] at most; a [Verbose] that was not negative is not
    negative afterwards and has moved by no more than the number of
    signals. *)
Theorem handlers_change_only_verbose (sigs : list signal) (s s' : radiod) :
  deliver_all sigs s = Some (Ret tt s') ->
  forallb returning_signal sigs = true
  /\ s' = set_Verbose (Verbose s') s
  /\ (0 <= Verbose s ->
      0 <= Verbose s' /\ Z.abs (Verbose s' - Verbose s) <= Z.of_nat (length sigs)).
Proof.
  revert s. induction sigs as [|sig sigs IH]; intros s H.
  - injection H as <-. rewrite set_Verbose_same. cbn. repeat split; try done; lia.
  - cbn [deliver_all] in H.
    destruct (deliver sig s) as [[[] s1| | |]|] eqn:E; try discriminate.
    apply deliver_returns in E as (Hs & E1 & E2).
    apply IH in H as (Hr & H1 & H2).
    split.
    { change (returning_signal sig && forallb returning_signal sigs = true).
      by rewrite Hs, Hr. }
    split.
    + rewrite H1, E1. by rewrite set_Verbose_twice, Verbose_set_Verbose.
    + intros H0. destruct (E2 H0) as [E3 E4]. destruct (H2 E3) as [H3 H4].
      rewrite length_cons. lia.
Qed.

Lemma handlers_change_only_verbose_witness :
  let s := radiod_init FFTW_PATIENT 0 in
  let s' := set_Verbose 1 s in
  deliver_all [SIGUSR1; SIGPIPE; SIGUSR2; SIGUSR2; SIGUSR1] s = Some (Ret tt s')
  /\ s' = set_Verbose (Verbose s') s
  /\ Z.abs (Verbose s' - Verbose s) <= 5.
Proof.
  intros s s'.
  assert (deliver_all [SIGUSR1; SIGPIPE; SIGUSR2; SIGUSR2; SIGUSR1] s = Some (Ret tt s')) as H
    by (vm_compute; reflexivity).
  pose proof (handlers_change_only_verbose _ _ _ H) as (_ & H1 & H2).
  assert (0 <= Verbose s) as H0 by (cbv [s radiod_init Verbose]; lia).
  exact (conj H (conj H1 (proj2 (H2 H0)))).
Defined.

(* ================================================================= *)
(** ** The registry and the count of channels *)

Lemma registry_grows_same (P : Z -> channel.t -> Prop) (s s' : radiod) :
  Channel_list s' = Channel_list s -> Nchans s' = Nchans s -> registry_grows_by P s s' 0.
Proof.
  intros Hc Hn. unfold registry_grows_by. rewrite Hc, Hn.
  split; [lia|]. split; [done|]. split; [lia|]. split; [lia|].
  intros k c H1 H2. congruence.
Qed.

Lemma registry_grows_trans (P : Z -> channel.t -> Prop) (s s1 s2 : radiod) (d1 d2 : Z) :
  registry_grows_by P s s1 d1 -> registry_grows_by P s1 s2 d2 ->
  registry_grows_by P s s2 (d1 + d2).
Proof.
  intros (H0 & Hsub & Hsz & Hn & Hnew) (H0' & Hsub' & Hsz' & Hn' & Hnew').
  split; [lia|]. split; [by trans (Channel_list s1)|]. split; [lia|]. split; [lia|].
  intros k c Hk Hnone.
  destruct (Channel_list s1 !! k) as [c1|] eqn:E1.
  - pose proof (lookup_weaken _ _ _ _ E1 Hsub') as E2.
    assert (c = c1) as -> by congruence. by apply Hnew.
  - by apply Hnew'.
Qed.

Lemma registry_grows_weaken (P Q : Z -> channel.t -> Prop) (s s' : radiod) (d : Z) :
  (forall k c, P k c -> Q k c) -> registry_grows_by P s s' d -> registry_grows_by Q s s' d.
Proof.
  intros HPQ (H0 & Hsub & Hsz & Hn & Hnew).
  split; [done|]. split; [done|]. split; [done|]. split; [done|].
  intros k c H1 H2. by apply HPQ, Hnew.
Qed.

Lemma from_template_started (t : channel.t) (sap rtcp : bool) (k : Z) (c : channel.t) :
  from_template t sap rtcp k c -> started_under k c.
Proof.
  intros (f & Hf & Hk & ->). unfold started_under, started_channel.
  destruct sap, rtcp, t; cbn; auto.
Qed.

Lemma registry_grows_insert (P : Z -> channel.t -> Prop) (s s' : radiod) (k : Z)
  (c : channel.t) :
  Channel_list s !! k = None ->
  Channel_list s' = <[k := c]> (Channel_list s) ->
  Nchans s' = Nchans s + 1 ->
  P k c ->
  registry_grows_by P s s' 1.
Proof.
  intros Hfree Hc Hn Hst. unfold registry_grows_by. rewrite Hc, Hn.
  split; [lia|]. split; [by apply insert_subseteq|].
  split; [rewrite map_size_insert_None by done; lia|]. split; [done|].
  intros k' c' H1 H2. destruct (decide (k' = k)) as [->|Hne].
  - rewrite lookup_insert_eq in H1. by injection H1 as <-.
  - rewrite lookup_insert_ne in H1 by done. congruence.
Qed.

(** The collision loop always returns: with no channel and the registry as
    it was, or with a channel at an SSRC that was free. *)
Lemma probe_ssrc_result (n : nat) (ssrc : Z) (s : radiod) :
  0 <= ssrc < UINT32_MOD ->
  (exists r', probe_ssrc n ssrc s = Ret (None, r') s)
  \/ (exists k, 0 <= k < UINT32_MOD /\ Channel_list s !! k = None
        /\ probe_ssrc n ssrc s =
           Ret (Some k, k)
             (set_Channel_list
                (<[k := channel.set_output_rtp_ssrc k channel.zero]> (Channel_list s)) s)).
Proof.
  revert ssrc. induction n as [|n IH]; intros ssrc Hr; simpl.
  - left. eauto.
  - unfold mbind, prog_bind, create_chan. destruct (Channel_list s !! ssrc) eqn:E.
    + apply IH, to_uint32_range.
    + right. exists ssrc. auto.
Qed.

Lemma process_token_grows (w : world) (cfg : dictionary) (sname : string) (t : channel.t)
  (n : Z) (tok : string) (s : radiod) (n' : Z) (s' : radiod) :
  process_token w cfg sname t n tok s = Ret n' s' ->
  registry_grows_by (from_template t (SAP_enable s) (RTCP_enable s)) s s' (n' - n).
Proof.
  unfold process_token. intros H.
  destruct (SF_is_negative (parse_frequency w tok true)) eqn:Hf.
  { rewrite bind_fprintf in H. injection H as <- <-. rewrite Z.sub_diag.
    by apply registry_grows_same. }
  destruct (requested_ssrc w cfg sname tok =? 0) eqn:Hz.
  { injection H as <- <-. rewrite Z.sub_diag. by apply registry_grows_same. }
  apply bind_inv in H as ([chan r'] & s1 & Hp & H).
  destruct (probe_ssrc_result max_collisions (requested_ssrc w cfg sname tok) s
              (requested_ssrc_range w cfg sname tok))
    as [(r0 & Hnone) | (k & Hk & Hfree & Hsome)].
  - rewrite Hnone in Hp. injection Hp as <- <- <-.
    rewrite bind_fprintf in H. injection H as <- <-. rewrite Z.sub_diag.
    by apply registry_grows_same.
  - rewrite Hsome in Hp. injection Hp as <- <- <-.
    unfold set_freq, start_demod, update_chan in H. run_all.
    revert H. run. intros H.
    apply bind_inv in H as (x & sx & Hx & H). apply int_checked_inv in Hx as (-> & -> & _).
    revert H. run. intros H.
    apply bind_inv in H as (y & sy & Hy & H). apply int_checked_inv in Hy as (-> & -> & _).
    revert H. run. intros H.
    assert (from_template t (SAP_enable s) (RTCP_enable s) k
              (started_channel t k (parse_frequency w tok true)
                 (SAP_enable s) (RTCP_enable s))) as Hst
      by (by exists (parse_frequency w tok true)).
    revert Hst. generalize (from_template t (SAP_enable s) (RTCP_enable s)). intros P Hst.
    unfold started_channel in Hst.
    destruct (SAP_enable s); revert H; run; intros H;
      destruct (RTCP_enable s); revert H; run; intros H;
      injection H as <- <-;
      replace (n + 1 - n) with 1 by lia;
      (eapply registry_grows_insert; [exact Hfree | | | exact Hst]); run;
      rewrite ?alter_alter_eq, ?alter_insert_eq; done.
Qed.

Lemma process_token_enables (w : world) (cfg : dictionary) (sname : string) (t : channel.t)
  (n : Z) (tok : string) :
  preserves (fun s => (SAP_enable s, RTCP_enable s)) (process_token w cfg sname t n tok).
Proof. apply process_token_preserves. view. Qed.

Lemma process_tokens_grows (w : world) (cfg : dictionary) (sname : string) (t : channel.t)
  (toks : list string) (n : Z) (s : radiod) (n' : Z) (s' : radiod) :
  process_tokens w cfg sname t n toks s = Ret n' s' ->
  registry_grows_by (from_template t (SAP_enable s) (RTCP_enable s)) s s' (n' - n)
  /\ SAP_enable s' = SAP_enable s /\ RTCP_enable s' = RTCP_enable s.
Proof.
  revert n s. induction toks as [|tok toks IH]; intros n s H; simpl in H.
  - injection H as <- <-. rewrite Z.sub_diag. split; [by apply registry_grows_same | done].
  - apply bind_inv in H as (n1 & s1 & H1 & H).
    pose proof (preserves_Ret _ _ _ _ _ (process_token_enables w cfg sname t n tok) H1) as He.
    injection He as Hsap Hrtcp.
    apply process_token_grows in H1. apply IH in H as (H & Hs & Hr).
    rewrite Hsap, Hrtcp in H. rewrite Hsap in Hs. rewrite Hrtcp in Hr. split; [|done].
    replace (n' - n) with ((n1 - n) + (n' - n1)) by lia.
    by apply (registry_grows_trans _ _ s1).
Qed.

Lemma process_freq_lists_grows (w : world) (cfg : dictionary) (sname : string) (t : channel.t)
  (keys : list string) (n : Z) (s : radiod) (n' : Z) (s' : radiod) :
  process_freq_lists w cfg sname t n keys s = Ret n' s' ->
  registry_grows_by (from_template t (SAP_enable s) (RTCP_enable s)) s s' (n' - n)
  /\ SAP_enable s' = SAP_enable s /\ RTCP_enable s' = RTCP_enable s.
Proof.
  revert n s. induction keys as [|key keys IH]; intros n s H; simpl in H.
  - injection H as <- <-. rewrite Z.sub_diag. split; [by apply registry_grows_same | done].
  - destruct (config_getstring cfg sname key None) as [frequencies|]; [|by apply IH].
    apply bind_inv in H as (n1 & s1 & H1 & H).
    apply process_tokens_grows in H1 as (H1 & Hsap & Hrtcp). apply IH in H as (H & Hs & Hr).
    rewrite Hsap, Hrtcp in H. rewrite Hsap in Hs. rewrite Hrtcp in Hr. split; [|done].
    replace (n' - n) with ((n1 - n) + (n' - n1)) by lia.
    by apply (registry_grows_trans _ _ s1).
Qed.

Lemma channels_view_grows (P : Z -> channel.t -> Prop) (s s' : radiod) :
  channels_view s' = channels_view s -> registry_grows_by P s s' 0.
Proof. unfold channels_view. intros [= Hc Hn]. by apply registry_grows_same. Qed.

Lemma section_template_channels (w : world) (cfg : dictionary) (sname : string) :
  preserves (fun s => (channels_view s, SAP_enable s, RTCP_enable s))
    (section_template w cfg sname).
Proof.
  unfold section_template, build_template, fprintf_stderr, emit, channels_view. frame.
Qed.

(** The registry over a section: the new channels are made from the
    template of the section. *)
Lemma process_section_template (w : world) (cfg : dictionary) (sname : string)
  (s s' : radiod) (u : unit) :
  process_section w cfg sname s = Ret u s' ->
  exists t s1 d,
    section_template w cfg sname s = Ret t s1
    /\ registry_grows_by (from_template t (SAP_enable s) (RTCP_enable s)) s s' d
    /\ last (trace s') = Some (Ev_stderr (Msg_channels_started sname d)).
Proof.
  unfold process_section. intros H.
  apply bind_inv in H as (t & s1 & Ht & H).
  pose proof (preserves_Ret _ _ _ _ _ (section_template_channels w cfg sname) Ht) as Hv.
  injection Hv as Hc HN Hsap Hrtcp.
  apply bind_inv in H as (n & s2 & Hn & H).
  apply process_freq_lists_grows in Hn as (Hn & _ & _).
  rewrite bind_fprintf in H || (unfold fprintf_stderr, emit, modify in H).
  injection H as _ <-.
  exists t, s1, (0 + (n - 0) + 0). split; [done|]. split.
  - apply (registry_grows_trans _ _ s2); [apply (registry_grows_trans _ _ s1)|].
    + by apply registry_grows_same.
    + by rewrite <- Hsap, <- Hrtcp.
    + by apply registry_grows_same.
  - rewrite trace_set_trace, last_snoc. do 3 f_equal. lia.
Qed.

Lemma process_section_grows (w : world) (cfg : dictionary) (sname : string)
  (s s' : radiod) (u : unit) :
  process_section w cfg sname s = Ret u s' -> exists d, registry_grows s s' d.
Proof.
  intros H. apply process_section_template in H as (t & s1 & d & _ & H & _).
  exists d. revert H. apply registry_grows_weaken. apply from_template_started.
Qed.

Lemma for_each_grows {A : Type} (g : A -> prog unit) (l : list A) (s s' : radiod) (u : unit) :
  (forall a s s' u, g a s = Ret u s' -> exists d, registry_grows s s' d) ->
  for_each g l s = Ret u s' -> exists d, registry_grows s s' d.
Proof.
  intros Hg. revert s. induction l as [|a l IH]; intros s H; simpl in H.
  - injection H as _ <-. exists 0. by apply registry_grows_same.
  - apply bind_inv in H as (u1 & s1 & H1 & H).
    apply Hg in H1 as (d1 & H1). apply IH in H as (d2 & H2).
    exists (d1 + d2). by apply (registry_grows_trans _ _ s1).
Qed.

Lemma open_control_channels (w : world) : preserves channels_view (open_control w).
Proof. unfold open_control, fprintf_stderr, emit, channels_view. frame. Qed.

(** The registry over a completed [loadconfig], whatever the schedule of
    the start-up threads. *)
Lemma loadconfig_registry (w : world) (cfg : dictionary) (s s' : radiod) (n : Z) :
  loadconfig w cfg s = Ret n s' ->
  n = Nchans s'
  /\ Channel_list s ⊆ Channel_list s'
  /\ (forall k c, Channel_list s' !! k = Some c -> Channel_list s !! k = None ->
        started_under k c)
  /\ Nchans s <= n
  /\ n - Nchans s <= Z.of_nat (size (Channel_list s')) - Z.of_nat (size (Channel_list s)).
Proof.
  rewrite loadconfig_split. intros H.
  apply bind_inv in H as (u1 & s1 & H1 & H).
  apply (preserves_Ret _ _ _ _ _ (startup_before_check_channels w cfg)) in H1.
  apply bind_inv in H as (u2 & s2 & H2 & H).
  apply (preserves_Ret _ _ _ _ _ (open_control_channels w)) in H2.
  apply bind_inv in H as (u3 & s3 & H3 & H).
  injection H as <- <-.
  pose proof (start_sections_threads w cfg s2) as Ht. rewrite H3 in Ht.
  rewrite H1 in H2. unfold channels_view in H2. injection H2 as Hc HN.
  rewrite Hc, HN in Ht. destruct Ht as (_ & Hsub & Hnew & Hle & Hsz).
  split; [done|]. split; [done|]. split; [done|]. split; [done | lia].
Qed.

(** The same when the threads run one after the other. *)
Lemma loadconfig_grows (w : world) (cfg : dictionary) (s s' : radiod) (n : Z) :
  schedule w = [] ->
  loadconfig w cfg s = Ret n s' -> n = Nchans s' /\ registry_grows s s' (n - Nchans s).
Proof.
  rewrite loadconfig_split. intros Hsched H.
  apply bind_inv in H as (u1 & s1 & H1 & H).
  apply (preserves_Ret _ _ _ _ _ (startup_before_check_channels w cfg)) in H1.
  apply bind_inv in H as (u2 & s2 & H2 & H).
  apply (preserves_Ret _ _ _ _ _ (open_control_channels w)) in H2.
  apply bind_inv in H as (u3 & s3 & H3 & H).
  injection H as <- <-.
  unfold start_sections, section_threads in H3.
  rewrite Hsched, run_threads_in_order in H3.
  apply for_each_grows in H3 as (d & H3);
    [|intros a sa sa' ua; apply process_section_grows].
  split; [done|].
  assert (registry_grows s s3 (0 + (0 + d))) as Hg.
  { apply (registry_grows_trans _ _ s1); [by apply channels_view_grows|].
    apply (registry_grows_trans _ _ s2); [by apply channels_view_grows | done]. }
  destruct Hg as (? & ? & ? & Hn & ?).
  replace (Nchans s3 - Nchans s) with (0 + (0 + d)) by lia.
  done.
Qed.

(** X3.  The value [loadconfig] returns is the count [Nchans].  Over the
    start-up the count does not go down, and it grows by the number of
    channels added to the registry at most; it grows by exactly that
    number when the threads of the sections run one after the other.
    Between the load and the store of [Nchans++] in one thread another
    thread can store, and its increment is then lost: with two sections of
    one channel each the count can be 1. *)
Theorem loadconfig_counts_channels (w : world) (cfg : dictionary) (s s' : radiod) (n : Z) :
  loadconfig w cfg s = Ret n s' ->
  n = Nchans s'
  /\ Nchans s <= n
  /\ n - Nchans s <= Z.of_nat (size (Channel_list s')) - Z.of_nat (size (Channel_list s))
  /\ (schedule w = [] ->
      n - Nchans s = Z.of_nat (size (Channel_list s')) - Z.of_nat (size (Channel_list s))).
Proof.
  intros H. pose proof (loadconfig_registry _ _ _ _ _ H) as (Hn & _ & _ & Hle & Hsz).
  split; [done|]. split; [done|]. split; [done|].
  intros Hsched. apply (loadconfig_grows _ _ _ _ _ Hsched) in H as (_ & _ & _ & Hsize & _ & _).
  lia.
Qed.

Lemma loadconfig_counts_channels_witness :
  let s := radiod_init FFTW_PATIENT 0 in
  loadconfig example_world_race example_config_two s = Ret 1 example_race_final
  /\ Nchans example_race_final = 1
  /\ size (Channel_list example_race_final) = 2%nat
  /\ 1 - Nchans s
     <= Z.of_nat (size (Channel_list example_race_final)) - Z.of_nat (size (Channel_list s)).
Proof.
  intros s.
  assert (loadconfig example_world_race example_config_two s = Ret 1 example_race_final) as H
    by (vm_compute; reflexivity).
  assert (size (Channel_list example_race_final) = 2%nat) as H2 by (vm_compute; reflexivity).
  pose proof (loadconfig_counts_channels _ _ _ _ _ H) as (H1 & _ & H3 & _).
  exact (conj H (conj (eq_sym H1) (conj H2 H3))).
Defined.

(** X4.  [loadconfig] leaves every channel that the registry already holds
    as it is: a collision moves the new channel, never the old one. *)
Theorem loadconfig_keeps_channels (w : world) (cfg : dictionary) (s s' : radiod) (n : Z) :
  loadconfig w cfg s = Ret n s' ->
  forall k c, Channel_list s !! k = Some c -> Channel_list s' !! k = Some c.
Proof.
  intros H k c Hk. apply loadconfig_registry in H as (_ & Hsub & _).
  by apply (lookup_weaken _ _ _ _ Hk).
Qed.

Lemma loadconfig_keeps_channels_witness :
  let c := channel.set_output_rtp_ssrc 7040000 channel.zero in
  loadconfig example_world example_config example_busy = Ret 2 example_busy_final
  /\ Channel_list example_busy !! 7040000 = Some c
  /\ Channel_list example_busy_final !! 7040000 = Some c.
Proof.
  intros c.
  assert (loadconfig example_world example_config example_busy = Ret 2 example_busy_final) as H
    by (vm_compute; reflexivity).
  assert (Channel_list example_busy !! 7040000 = Some c) as Hk by (vm_compute; reflexivity).
  exact (conj H (conj Hk (loadconfig_keeps_channels _ _ _ _ _ H _ _ Hk))).
Defined.

(** X5.  Every channel that [loadconfig] adds to the registry is held under
    its own SSRC, a [uint32_t], has its demodulator running, and is tuned to
    a frequency that [parse_frequency] did not reject. *)
Theorem loadconfig_channels_started (w : world) (cfg : dictionary) (s s' : radiod) (n : Z) :
  loadconfig w cfg s = Ret n s' ->
  forall k c, Channel_list s' !! k = Some c -> Channel_list s !! k = None ->
    channel.output_rtp_ssrc c = k /\ channel.demod_running c = true
    /\ SF_is_negative (channel.tune_freq c) = false /\ 0 <= k < 2 ^ 32.
Proof.
  intros H k c Hk Hnone. apply loadconfig_registry in H as (_ & _ & Hnew & _).
  by apply Hnew.
Qed.

Lemma loadconfig_channels_started_witness :
  exists c,
    loadconfig example_world example_config example_busy = Ret 2 example_busy_final
    /\ Channel_list example_busy_final !! 7040001 = Some c
    /\ Channel_list example_busy !! 7040001 = None
    /\ channel.output_rtp_ssrc c = 7040001 /\ channel.demod_running c = true.
Proof.
  assert (loadconfig example_world example_config example_busy = Ret 2 example_busy_final) as H
    by (vm_compute; reflexivity).
  assert (exists c, Channel_list example_busy_final !! 7040001 = Some c) as [c Hk]
    by (vm_compute; eauto).
  assert (Channel_list example_busy !! 7040001 = None) as Hn by (vm_compute; reflexivity).
  pose proof (loadconfig_channels_started _ _ _ _ _ H _ _ Hk Hn) as (H1 & H2 & _).
  exists c. exact (conj H (conj Hk (conj Hn (conj H1 H2)))).
Defined.

(* ================================================================= *)
(** ** The preset table and the presets that are not in it *)

Lemma load_fft_plan_level_returns (cfg : dictionary) (s : radiod) :
  exists s1, load_fft_plan_level cfg s = Ret tt s1
    /\ trace s1 = trace s /\ channels_view s1 = channels_view s.
Proof.
  unfold load_fft_plan_level.
  repeat match goal with |- context [if ?b then _ else _] => destruct b end;
    eexists; (split; [reflexivity|]); by destruct s.
Qed.

Lemma load_presets_fails (w : world) (cfg : dictionary) (s : radiod) :
  iniparser_load w (presets_path w cfg) = None ->
  exists s2, load_presets w cfg s = Exit EX_UNAVAILABLE s2
    /\ trace s2 = (trace s ++ [Ev_stderr (Msg_loading_presets (presets_path w cfg))]
                  ++ map (fun l => Ev_stderr (Msg_validate l)) (config_validate w None)
                  ++ [Ev_stderr (Msg_cant_load_preset (presets_path w cfg))])%list
    /\ channels_view s2 = channels_view s.
Proof.
  intros Hload. unfold load_presets. fold (presets_path w cfg). rewrite Hload.
  rewrite !bind_modify, bind_fprintf, bind_modify.
  rewrite (bind_Ret _ _ _ _ _ (for_each_fprintf _ _ _)), bind_fprintf.
  eexists. split; [reflexivity|].
  rewrite !trace_set_trace. cbn [trace set_trace set_Preset_table set_Preset_file set_enables].
  rewrite <- !app_assoc. split; [done|]. by destruct s.
Qed.

Lemma load_globals_channels (w : world) (cfg : dictionary) :
  preserves channels_view (load_globals w cfg).
Proof. unfold load_globals, fprintf_stderr, emit, channels_view. frame. Qed.

(** Start-up without a preset table. *)
Lemma loadconfig_no_presets (w : world) (cfg : dictionary) (s s0 : radiod) :
  load_globals w cfg s = Ret tt s0 ->
  iniparser_load w (presets_path w cfg) = None ->
  exists s2, loadconfig w cfg s = Exit EX_UNAVAILABLE s2
    /\ trace s2 = (trace s0 ++ [Ev_stderr (Msg_loading_presets (presets_path w cfg))]
                  ++ map (fun l => Ev_stderr (Msg_validate l)) (config_validate w None)
                  ++ [Ev_stderr (Msg_cant_load_preset (presets_path w cfg))])%list
    /\ Channel_list s2 = Channel_list s /\ Nchans s2 = Nchans s.
Proof.
  intros Hg Hload.
  destruct (load_fft_plan_level_returns cfg s0) as (s1 & Hfft & Ht1 & Hc1).
  destruct (load_presets_fails w cfg s1 Hload) as (s2 & Hp & Ht2 & Hc2).
  exists s2. unfold loadconfig.
  rewrite (bind_Ret _ _ _ _ _ Hg), (bind_Ret _ _ _ _ _ Hfft), (bind_Exit _ _ _ _ _ Hp).
  split; [done|]. rewrite Ht2, Ht1. split; [done|].
  pose proof (preserves_Ret _ _ _ _ _ (load_globals_channels w cfg) Hg) as Hc0.
  rewrite Hc1, Hc0 in Hc2. unfold channels_view in Hc2. by injection Hc2.
Qed.

Lemma loadconfig_no_presets_never_returns (w : world) (cfg : dictionary) (s : radiod) :
  iniparser_load w (presets_path w cfg) = None ->
  forall n s', loadconfig w cfg s <> Ret n s'.
Proof.
  intros Hload n s' H. unfold loadconfig in H.
  apply bind_inv in H as (u0 & s0 & _ & H).
  apply bind_inv in H as (u1 & s1 & _ & H).
  apply bind_inv in H as (u2 & s2 & Hp & _).
  destruct (load_presets_fails w cfg s1 Hload) as (s3 & Hp' & _). congruence.
Qed.

Lemma process_tokens_app (w : world) (cfg : dictionary) (sname : string) (t : channel.t)
  (l1 l2 : list string) (n : Z) (s : radiod) :
  process_tokens w cfg sname t n (l1 ++ l2) s
  = (n1 ← process_tokens w cfg sname t n l1; process_tokens w cfg sname t n1 l2) s.
Proof.
  revert n s. induction l1 as [|tok l1 IH]; intros n s; [done|].
  cbn [app process_tokens]. rewrite bind_assoc. apply bind_ext. intros n1 s1. apply IH.
Qed.

Lemma process_freq_lists_tokens (w : world) (cfg : dictionary) (sname : string)
  (t : channel.t) (keys : list string) (n : Z) (s : radiod) :
  process_freq_lists w cfg sname t n keys s
  = process_tokens w cfg sname t n
      (flat_map (fun fname => match config_getstring cfg sname fname None with
                              | Some frequencies => strtok_all frequencies ""
                              | None => []
                              end) keys) s.
Proof.
  revert n s. induction keys as [|fname keys IH]; intros n s; [done|].
  cbn [process_freq_lists flat_map].
  destruct (config_getstring cfg sname fname None) as [frequencies|]; [|apply IH].
  rewrite process_tokens_app. apply bind_ext. intros n1 s1. apply IH.
Qed.

(** A token is processed to the end when the two counts can grow by one. *)
Lemma process_token_returns (w : world) (cfg : dictionary) (sname : string) (t : channel.t)
  (n : Z) (tok : string) (s : radiod) :
  in_int (n + 1) = true -> in_int (Nchans s + 1) = true ->
  exists n' s', process_token w cfg sname t n tok s = Ret n' s' /\ (n' = n \/ n' = n + 1).
Proof.
  intros Hn HN. unfold process_token.
  destruct (SF_is_negative (parse_frequency w tok true)) eqn:Hf.
  { rewrite bind_fprintf. eauto. }
  destruct (requested_ssrc w cfg sname tok =? 0) eqn:Hz; [by eauto|].
  destruct (probe_ssrc_result max_collisions (requested_ssrc w cfg sname tok) s
              (requested_ssrc_range w cfg sname tok))
    as [(r0 & Hnone) | (k & Hk & Hfree & Hsome)].
  - rewrite (bind_Ret _ _ _ _ _ Hnone), bind_fprintf. eauto.
  - rewrite (bind_Ret _ _ _ _ _ Hsome).
    unfold set_freq, start_demod, update_chan. run.
    rewrite (bind_int_checked _ _ _ Hn). run.
    rewrite (bind_int_checked _ _ _ HN). run.
    destruct (SAP_enable s); run; destruct (RTCP_enable s); run; eauto.
Qed.

Lemma INT_MIN_neg : INT_MIN <= 0.
Proof. by cbv. Qed.

Lemma process_tokens_returns (w : world) (cfg : dictionary) (sname : string) (t : channel.t)
  (toks : list string) (n : Z) (s : radiod) :
  0 <= n -> n + Z.of_nat (length toks) <= INT_MAX ->
  0 <= Nchans s -> Nchans s + Z.of_nat (length toks) <= INT_MAX ->
  exists n' s', process_tokens w cfg sname t n toks s = Ret n' s'.
Proof.
  pose proof INT_MIN_neg as Hmin.
  revert n s. induction toks as [|tok toks IH]; intros n s Hn0 Hn HN0 HN; [by eauto|].
  cbn [process_tokens]. cbn [length] in Hn, HN.
  destruct (process_token_returns w cfg sname t n tok s) as (n1 & s1 & H1 & Hn1);
    [apply in_int_between; lia | apply in_int_between; lia |].
  rewrite (bind_Ret _ _ _ _ _ H1).
  apply process_token_grows in H1 as (Hd & _ & _ & HN1 & _).
  apply IH; lia.
Qed.

(** The tokens of a section only add to what has been written. *)
Lemma process_token_trace (w : world) (cfg : dictionary) (sname : string) (t : channel.t)
  (n : Z) (tok : string) (s : radiod) (n' : Z) (s' : radiod) :
  process_token w cfg sname t n tok s = Ret n' s' -> trace s `prefix_of` trace s'.
Proof.
  unfold process_token. intros H.
  destruct (SF_is_negative _).
  { rewrite bind_fprintf in H. injection H as _ <-. rewrite trace_set_trace.
    by apply prefix_app_r. }
  destruct (_ =? 0); [by injection H as _ <-|].
  apply bind_inv in H as ([chan r'] & s1 & Hp & H).
  apply (preserves_Ret trace) in Hp; [|by apply probe_ssrc_preserves].
  rewrite <- Hp. destruct chan as [c|].
  - match type of H with
    | ?m s1 = _ => assert (preserves trace m) as Hm
    end.
    { unfold set_freq, start_demod.
      repeat first [ apply update_chan_preserves; by intros
                   | apply preserves_modify; by intros []
                   | frame_step ]. }
    by rewrite (preserves_Ret _ _ _ _ _ Hm H).
  - rewrite bind_fprintf in H. injection H as _ <-. rewrite trace_set_trace.
    by apply prefix_app_r.
Qed.

Lemma process_tokens_trace (w : world) (cfg : dictionary) (sname : string) (t : channel.t)
  (toks : list string) (n : Z) (s : radiod) (n' : Z) (s' : radiod) :
  process_tokens w cfg sname t n toks s = Ret n' s' -> trace s `prefix_of` trace s'.
Proof.
  revert n s. induction toks as [|tok toks IH]; intros n s H; cbn [process_tokens] in H.
  - by injection H as _ <-.
  - apply bind_inv in H as (n1 & s1 & H1 & H).
    transitivity (trace s1); [by apply process_token_trace in H1 | by apply IH in H].
Qed.

(** C9.  Without a preset table the start-up is fatal: [loadconfig] never
    returns, and once the scalars of [global] are read it writes that the
    preset file cannot be loaded and exits with EX_UNAVAILABLE, 69, no
    channel created.  A section that names a preset the loaded table does
    not have only gets the warning: its template is built from the
    compiled-in defaults, [global] and the section itself, and the section
    is processed to its end, its channels created from that template like
    those of any section: every channel that the section adds to the
    registry is the template with its SSRC and frequency, and the first
    frequency of the section, when it is accepted and one of the 100 SSRCs
    tried for it is free, is in the registry afterwards. *)
Theorem preset_errors (w : world) (cfg : dictionary) (s : radiod) :
  (iniparser_load w (presets_path w cfg) = None ->
   (forall n s', loadconfig w cfg s <> Ret n s')
   /\ forall s0, load_globals w cfg s = Ret tt s0 ->
        exists s2, loadconfig w cfg s = Exit 69 s2
          /\ trace s2 = (trace s0 ++ [Ev_stderr (Msg_loading_presets (presets_path w cfg))]
                        ++ map (fun l => Ev_stderr (Msg_validate l)) (config_validate w None)
                        ++ [Ev_stderr (Msg_cant_load_preset (presets_path w cfg))])%list
          /\ Channel_list s2 = Channel_list s /\ Nchans s2 = Nchans s)
  /\ (forall sname p d,
        section_preset cfg sname = Some p ->
        Preset_table s = Some d -> find_section d p = None ->
        exists t s1,
          section_template w cfg sname s = Ret t s1
          /\ Ev_stderr (Msg_loadpreset_failed sname (Preset_file s) p) ∈ trace s1
          /\ (forall key, channel.params t !! key =
                match layer w (Some cfg) sname !! key with
                | Some v => Some v
                | None => match layer w (Some cfg) GLOBAL !! key with
                          | Some v => Some v
                          | None => default_params w !! key
                          end
                end)
          /\ (0 <= Nchans s ->
              Nchans s + Z.of_nat (length (section_tokens cfg sname)) <= INT_MAX ->
              exists n s',
                process_section w cfg sname s = Ret tt s'
                /\ Ev_stderr (Msg_loadpreset_failed sname (Preset_file s) p) ∈ trace s'
                /\ last (trace s') = Some (Ev_stderr (Msg_channels_started sname n))
                /\ Channel_list s ⊆ Channel_list s'
                /\ Z.of_nat (size (Channel_list s')) = Z.of_nat (size (Channel_list s)) + n
                /\ Nchans s' = Nchans s + n
                /\ (forall k c, Channel_list s' !! k = Some c -> Channel_list s !! k = None ->
                      exists f, SF_is_negative f = false
                                /\ c = started_channel t k f (SAP_enable s) (RTCP_enable s))
                /\ (forall tok rest (j : nat),
                      section_tokens cfg sname = tok :: rest ->
                      SF_is_negative (parse_frequency w tok true) = false ->
                      requested_ssrc w cfg sname tok <> 0 ->
                      (j < 100)%nat -> first_free s (requested_ssrc w cfg sname tok) j ->
                      let k := to_uint32 (requested_ssrc w cfg sname tok + Z.of_nat j) in
                      1 <= n
                      /\ Channel_list s' !! k
                         = Some (started_channel t k (parse_frequency w tok true)
                                   (SAP_enable s) (RTCP_enable s))))).
Proof.
  split.
  - intros Hload. split; [by apply loadconfig_no_presets_never_returns|].
    intros s0 Hg. by apply loadconfig_no_presets.
  - intros sname p d Hp Htab Hmiss.
    destruct (template_priority w cfg sname p s Hp) as (t & s1 & Hrun & Hpar & _).
    exists t, s1.
    assert (Ev_stderr (Msg_loadpreset_failed sname (Preset_file s) p) ∈ trace s1) as Hwarn.
    { rewrite (section_template_run w cfg sname p s Hp) in Hrun. injection Hrun as _ <-.
      rewrite trace_set_trace. unfold section_messages.
      rewrite Htab, (loadpreset_missing _ _ _ _ Hmiss). cbn [fst negb Z.eqb].
      rewrite !elem_of_app. right. right. right. apply list_elem_of_singleton. done. }
    split; [exact Hrun|]. split; [exact Hwarn|]. split.
    { intros key. rewrite Hpar. unfold strict_priority.
      replace (layer w (Preset_table s) p) with (∅ : gmap string string).
      - by rewrite lookup_empty.
      - unfold layer. by rewrite Htab, Hmiss. }
    intros HN0 HN.
    pose proof (preserves_Ret _ _ _ _ _ (section_template_channels w cfg sname) Hrun) as Hv.
    injection Hv as Hc HNs Hsap Hrtcp.
    assert (exists n s2, process_tokens w cfg sname t 0 (section_tokens cfg sname) s1
                         = Ret n s2) as (n & s2 & Htoks).
    { apply process_tokens_returns; rewrite ?HNs; try done. pose proof INT_MIN_neg. lia. }
    assert (process_section w cfg sname s
            = Ret tt (set_trace (trace s2 ++ [Ev_stderr (Msg_channels_started sname n)]) s2))
      as Hsec.
    { unfold process_section. rewrite (bind_Ret _ _ _ _ _ Hrun).
      erewrite bind_Ret by (rewrite process_freq_lists_tokens; exact Htoks).
      by rewrite bind_fprintf || done. }
    exists n, (set_trace (trace s2 ++ [Ev_stderr (Msg_channels_started sname n)]) s2).
    pose proof (process_tokens_grows _ _ _ _ _ _ _ _ _ Htoks) as (Hg & _ & _).
    rewrite Z.sub_0_r, Hsap, Hrtcp in Hg.
    destruct Hg as (Hn0 & Hsub & Hsz & HNn & Hnew).
    rewrite Hc in Hsub, Hsz, Hnew. rewrite HNs in HNn.
    assert (trace s1 `prefix_of` trace s2) as Hpre.
    { by apply process_tokens_trace in Htoks. }
    split; [exact Hsec|]. rewrite trace_set_trace. split.
    { apply elem_of_app. left. destruct Hpre as [l ->]. apply elem_of_app. by left. }
    split; [by rewrite last_snoc|].
    split; [done|]. split; [done|]. split; [done|]. split.
    { intros k c Hk Hnone. destruct (Hnew k c Hk Hnone) as (f & Hf & _ & ->). eauto. }
    intros tok rest j Hsect Hf Hr Hj Hfree k.
    rewrite Hsect in Htoks, HN. cbn [process_tokens] in Htoks. cbn [length] in HN.
    apply bind_inv in Htoks as (n1 & s3 & H1 & Hrest).
    pose proof (process_token_creates w cfg sname t 0 tok s1 j) as Hcr.
    cbv zeta in Hcr.
    pose proof INT_MIN_neg as Hmin.
    assert (first_free s1 (requested_ssrc w cfg sname tok) j) as Hfree1.
    { destruct Hfree as [Ha Hb]. split; rewrite Hc; done. }
    destruct (Hcr Hf Hr Hj Hfree1 ltac:(apply in_int_between; lia)
                ltac:(apply in_int_between; lia)) as (s3' & H1' & Hc3 & _).
    rewrite H1' in H1. injection H1 as <- <-.
    apply process_tokens_grows in Hrest as ((Hd & Hsub3 & _) & _).
    split; [lia|]. cbn [Channel_list set_trace]. fold k in Hc3.
    rewrite Hsap, Hrtcp in Hc3.
    apply (lookup_weaken (Channel_list s3')); [|done].
    rewrite Hc3. apply lookup_insert_eq.
Qed.

Lemma preset_errors_witness :
  let s := example_missing_preset_state in
  let cfg := example_config_missing_preset in
  section_preset cfg "forty" = Some "xyz"
  /\ Preset_table s = Some example_presets
  /\ find_section example_presets "xyz" = None
  /\ 0 <= Nchans s
  /\ Nchans s + Z.of_nat (length (section_tokens cfg "forty")) <= INT_MAX
  /\ section_tokens cfg "forty" = ["7,040,000"]
  /\ first_free s (requested_ssrc example_world cfg "forty" "7,040,000") 0
  /\ exists t s',
       process_section example_world cfg "forty" s = Ret tt s'
       /\ Ev_stderr (Msg_loadpreset_failed "forty" (Preset_file s) "xyz") ∈ trace s'
       /\ Channel_list s' !! 7040000
          = Some (started_channel t 7040000 (parse_frequency example_world "7,040,000" true)
                    (SAP_enable s) (RTCP_enable s))
       /\ (forall key, channel.params t !! key =
             match layer example_world (Some cfg) "forty" !! key with
             | Some v => Some v
             | None =>
                 match layer example_world (Some cfg) GLOBAL !! key with
                 | Some v => Some v
                 | None => default_params example_world !! key
                 end
             end).
Proof.
  intros s cfg.
  assert (section_preset cfg "forty" = Some "xyz") as H1 by (vm_compute; reflexivity).
  assert (Preset_table s = Some example_presets) as H2 by (vm_compute; reflexivity).
  assert (find_section example_presets "xyz" = None) as H3 by (vm_compute; reflexivity).
  assert (0 <= Nchans s) as H4 by (vm_compute; discriminate).
  assert (Nchans s + Z.of_nat (length (section_tokens cfg "forty")) <= INT_MAX) as H5
    by (vm_compute; discriminate).
  assert (section_tokens cfg "forty" = ["7,040,000"]) as H6 by (vm_compute; reflexivity).
  assert (SF_is_negative (parse_frequency example_world "7,040,000" true) = false) as H7
    by (vm_compute; reflexivity).
  assert (requested_ssrc example_world cfg "forty" "7,040,000" = 7040000) as Er
    by (vm_compute; reflexivity).
  assert (requested_ssrc example_world cfg "forty" "7,040,000" <> 0) as H8
    by (rewrite Er; discriminate).
  assert (first_free s (requested_ssrc example_world cfg "forty" "7,040,000") 0) as H9.
  { split; [vm_compute; reflexivity | intros i Hi; lia]. }
  destruct (proj2 (preset_errors example_world cfg s) "forty" "xyz" example_presets
              H1 H2 H3) as (t & s1 & _ & _ & Hpar & Hrun).
  destruct (Hrun H4 H5) as (n & s' & Hsec & Hwarn & _ & _ & _ & HN & _ & Hfirst).
  destruct (Hfirst "7,040,000" [] 0%nat H6 H7 H8 ltac:(lia) H9) as (Hn & Hk).
  rewrite Er in Hk. change (to_uint32 (7040000 + Z.of_nat 0)) with 7040000 in Hk.
  refine (conj H1 (conj H2 (conj H3 (conj H4 (conj H5 (conj H6 (conj H9 _))))))).
  exists t, s'. exact (conj Hsec (conj Hwarn (conj Hk Hpar))).
Defined.

(** Scenario "missing preset": the channel is there, with the parameters of
    the section, of [global] and of the defaults, and the warning is in the
    trace. *)
Example missing_preset_run :
  match loadconfig example_world example_config_missing_preset (radiod_init FFTW_PATIENT 0) with
  | Ret n s' => Some (n, channel.params <$> Channel_list s' !! 7040000, trace s')
  | _ => None
  end
  = Some (1,
          Some (gm [("squelch-open", "10"); ("samprate", "24000");
                    ("low", "-3000"); ("demod", "linear")]),
          [Ev_stderr (Msg_loading_presets "presets.conf");
           Ev_stderr (Msg_loadpreset_failed "forty" "presets.conf" "xyz");
           Ev_stderr (Msg_channels_started "forty" 1)]).
Proof. vm_compute. reflexivity. Qed.

(** The same start-up when the presets file cannot be loaded. *)
Example no_presets_run :
  match loadconfig example_world_no_presets example_config (radiod_init FFTW_PATIENT 0) with
  | Exit code s' => Some (code, trace s', Channel_list s')
  | _ => None
  end
  = Some (69,
          [Ev_stderr (Msg_loading_presets "presets.conf");
           Ev_stderr (Msg_cant_load_preset "presets.conf")],
          ∅).
Proof. vm_compute. reflexivity. Qed.

(* ================================================================= *)
(** ** Where [loadconfig] can end the program *)

Section NeverExits.

Lemma never_exits_ret {A : Type} (a : A) : never_exits (mret a : prog A).
Proof. by intros s. Qed.

Lemma never_exits_get {A : Type} (g : radiod -> A) : never_exits (get g).
Proof. by intros s. Qed.

Lemma never_exits_modify (g : radiod -> radiod) : never_exits (modify g).
Proof. by intros s. Qed.

Lemma never_exits_undefined {A : Type} : never_exits (@undefined A).
Proof. by intros s. Qed.

Lemma never_exits_bind {A B : Type} (m : prog A) (k : A -> prog B) :
  never_exits m -> (forall a, never_exits (k a)) -> never_exits (m ≫= k).
Proof.
  intros Hm Hk s. unfold mbind, prog_bind. specialize (Hm s).
  destruct (m s) as [a s1| | |]; try done. apply Hk.
Qed.

Lemma never_exits_when (b : bool) (p : prog unit) : never_exits p -> never_exits (when b p).
Proof. intros H. unfold when. destruct b; [done | apply never_exits_ret]. Qed.

Lemma never_exits_int_checked (z : Z) : never_exits (int_checked z).
Proof.
  unfold int_checked. destruct (in_int z); [apply never_exits_ret | apply never_exits_undefined].
Qed.

Lemma never_exits_for_each {A : Type} (g : A -> prog unit) (l : list A) :
  (forall a, never_exits (g a)) -> never_exits (for_each g l).
Proof.
  intros H. induction l as [|a l IH]; [apply never_exits_ret|].
  simpl. apply never_exits_bind; auto.
Qed.

End NeverExits.

Ltac no_exit_step :=
  first
    [ apply never_exits_ret | apply never_exits_get | apply never_exits_modify
    | apply never_exits_undefined | apply never_exits_int_checked
    | apply never_exits_when
    | apply never_exits_for_each; intros ?
    | apply never_exits_bind; [|intros ?]
    | match goal with
      | |- never_exits (if ?b then _ else _) => destruct b
      | |- never_exits (match ?x with _ => _ end) => destruct x
      | |- never_exits (let '(_, _) := ?x in _) => destruct x
      end ].

Lemma probe_ssrc_never_exits (n : nat) (ssrc : Z) : never_exits (probe_ssrc n ssrc).
Proof.
  revert ssrc. induction n as [|n IH]; intros ssrc; simpl.
  - apply never_exits_ret.
  - apply never_exits_bind.
    + intros s. unfold create_chan. by destruct (Channel_list s !! ssrc).
    + intros [c|]; [apply never_exits_ret | apply IH].
Qed.

Lemma process_token_never_exits w cfg sname t n tok :
  never_exits (process_token w cfg sname t n tok).
Proof.
  unfold process_token, fprintf_stderr, emit, set_freq, start_demod, update_chan.
  repeat first [ apply probe_ssrc_never_exits | no_exit_step ].
Qed.

Lemma process_tokens_never_exits w cfg sname t n toks :
  never_exits (process_tokens w cfg sname t n toks).
Proof.
  revert n. induction toks as [|tok toks IH]; intros n; simpl.
  - apply never_exits_ret.
  - apply never_exits_bind; [apply process_token_never_exits | intros; apply IH].
Qed.

Lemma process_freq_lists_never_exits w cfg sname t n keys :
  never_exits (process_freq_lists w cfg sname t n keys).
Proof.
  revert n. induction keys as [|k keys IH]; intros n; simpl.
  - apply never_exits_ret.
  - destruct (config_getstring cfg sname k None); [|apply IH].
    apply never_exits_bind; [apply process_tokens_never_exits | intros; apply IH].
Qed.

Lemma process_section_never_exits w cfg sname : never_exits (process_section w cfg sname).
Proof.
  unfold process_section, section_template, build_template, fprintf_stderr, emit.
  repeat first [ apply process_freq_lists_never_exits | no_exit_step ].
Qed.

Lemma start_sections_never_exits w cfg : never_exits (start_sections w cfg).
Proof.
  intros s. pose proof (start_sections_threads w cfg s) as H.
  by destruct (start_sections w cfg s).
Qed.

Lemma after_check_never_exits w cfg :
  never_exits (open_control w ;; start_sections w cfg ;; get Nchans).
Proof.
  unfold open_control, fprintf_stderr, emit.
  repeat first [ apply start_sections_never_exits | no_exit_step ].
Qed.

(** X6.  Every [exit] and every failed [assert] of [loadconfig] comes before
    the first channel is created: when [loadconfig] ends the program, the
    registry and the count of channels are as they were. *)
Theorem loadconfig_exits_before_channels (w : world) (cfg : dictionary) (s : radiod) :
  (forall code s', loadconfig w cfg s = Exit code s' ->
     Channel_list s' = Channel_list s /\ Nchans s' = Nchans s)
  /\ (forall s', loadconfig w cfg s = Abort s' ->
        Channel_list s' = Channel_list s /\ Nchans s' = Nchans s).
Proof.
  pose proof (startup_before_check_channels w cfg s) as Hpre.
  assert (forall s1, match (open_control w ;; start_sections w cfg ;; get Nchans) s1 with
                     | Exit _ _ | Abort _ => False
                     | _ => True
                     end) as Hpost by apply after_check_never_exits.
  rewrite loadconfig_split.
  destruct ((startup_before_check w cfg ;; check_stream_names) s) as [u s1|c s1|s1|] eqn:E.
  - rewrite (bind_Ret _ _ _ _ _ E). specialize (Hpost s1).
    split; [intros code s' H | intros s' H]; by rewrite H in Hpost.
  - rewrite (bind_Exit _ _ _ _ _ E). split; [|done].
    intros code s' [= <- <-]. unfold channels_view in Hpre. by injection Hpre.
  - rewrite (bind_Abort _ _ _ _ E). split; [done|].
    intros s' [= <-]. unfold channels_view in Hpre. by injection Hpre.
  - by rewrite (bind_Undefined _ _ _ E).
Qed.

Lemma loadconfig_exits_before_channels_witness :
  let s := radiod_init FFTW_PATIENT 0 in
  let s1 := example_same_names_state in
  let s' := set_trace (trace s1 ++ [Ev_stderr (Msg_duplicate_names "hf.local" "hf.local")]) s1 in
  loadconfig example_world example_config_same_names s = Exit 64 s'
  /\ Channel_list s' = Channel_list s /\ Nchans s' = Nchans s.
Proof.
  intros s s1 s'.
  assert (loadconfig example_world example_config_same_names s = Exit 64 s') as H
    by (vm_compute; reflexivity).
  exact (conj H (proj1 (loadconfig_exits_before_channels _ _ s) _ _ H)).
Defined.

(* ================================================================= *)
(** ** The sockets *)

Lemma open_output_sockets_inv (w : world) (s s' : radiod) (u : unit) :
  open_output_sockets w s = Ret u s' ->
  Output_fd s' = output_mcast w (Z.max 1 (channel.output_ttl (Template s)))
  /\ Output_fd0 s' = output_mcast w 0
  /\ 0 <= Output_fd s' /\ 0 <= Output_fd0 s'
  /\ Template s' = Template s.
Proof.
  unfold open_output_sockets. rewrite bind_get, bind_modify.
  assert ((if 1 <? channel.output_ttl (Template s) then channel.output_ttl (Template s) else 1)
          = Z.max 1 (channel.output_ttl (Template s))) as ->.
  { destruct (Z.ltb_spec 1 (channel.output_ttl (Template s))); lia. }
  set (ttl := Z.max 1 _).
  destruct (Z.ltb_spec (output_mcast w ttl) 0) as [|H1]; [by rewrite bind_fprintf|].
  rewrite bind_modify.
  destruct (Z.ltb_spec (output_mcast w 0) 0) as [|H0]; [by rewrite bind_fprintf|].
  intros H. injection H as _ <-. by destruct s.
Qed.

Lemma after_sockets_view (w : world) (cfg : dictionary) :
  preserves sockets_view
    (check_stream_names ;; open_control w ;; start_sections w cfg ;; get Nchans).
Proof.
  unfold check_stream_names, open_control, fprintf_stderr, emit.
  repeat first [ apply start_sections_preserves; unfold sockets_view; view
               | unfold sockets_view; frame_step ].
Qed.

(** X7.  [loadconfig] returns only with both output sockets open: [Output_fd]
    is the socket that [output_mcast] gave for the TTL of the template, or
    for 1 when that TTL is below 1, [Output_fd0] the one it gave for TTL 0,
    and neither descriptor is negative. *)
Theorem loadconfig_output_sockets (w : world) (cfg : dictionary) (s s' : radiod) (n : Z) :
  loadconfig w cfg s = Ret n s' ->
  Output_fd s' = output_mcast w (Z.max 1 (channel.output_ttl (Template s')))
  /\ Output_fd0 s' = output_mcast w 0
  /\ 0 <= Output_fd s' /\ 0 <= Output_fd0 s'.
Proof.
  unfold loadconfig. intros H.
  do 7 (apply bind_inv in H as (? & ? & _ & H)).
  apply bind_inv in H as (u8 & s8 & H8 & H).
  apply open_output_sockets_inv in H8 as (E1 & E2 & E3 & E4 & E5).
  apply (preserves_Ret _ _ _ _ _ (after_sockets_view w cfg)) in H.
  unfold sockets_view in H. injection H as -> -> ->. by rewrite E5.
Qed.

Lemma loadconfig_output_sockets_witness :
  loadconfig example_world example_config (radiod_init FFTW_PATIENT 0) = Ret 1 example_final
  /\ Output_fd example_final = 4 /\ Output_fd0 example_final = 5.
Proof.
  assert (loadconfig example_world example_config (radiod_init FFTW_PATIENT 0)
          = Ret 1 example_final) as H by (vm_compute; reflexivity).
  pose proof (loadconfig_output_sockets _ _ _ _ _ H) as (H1 & H2 & _).
  assert (output_mcast example_world (Z.max 1 (channel.output_ttl (Template example_final))) = 4)
    as E1 by (vm_compute; reflexivity).
  assert (output_mcast example_world 0 = 5) as E2 by (vm_compute; reflexivity).
  exact (conj H (conj (eq_trans H1 E1) (eq_trans H2 E2))).
Defined.

Lemma setup_hardware_control (w : world) (cfg : dictionary) (sname : string) :
  preserves Status_thread (setup_hardware w cfg sname).
Proof. unfold setup_hardware, filter_sizes, fprintf_stderr, emit. frame. Qed.

Lemma before_control_status (w : world) (cfg : dictionary) :
  preserves Status_thread (startup_before_check w cfg ;; check_stream_names).
Proof.
  unfold startup_before_check, load_globals, load_fft_plan_level, load_presets, load_hardware,
    setup_template, open_output_sockets, check_stream_names, fprintf_stderr, emit.
  repeat first [ apply setup_hardware_control | frame_step ].
Qed.

Lemma open_control_inv (w : world) (s s' : radiod) (u : unit) :
  open_control w s = Ret u s' ->
  Ctl_fd s' = listen_mcast w
  /\ Status_thread s' = Status_thread s || (3 <=? listen_mcast w).
Proof.
  unfold open_control. rewrite bind_modify.
  destruct (Z.ltb_spec (listen_mcast w) 0) as [Hneg|Hpos].
  - rewrite bind_get, bind_fprintf || unfold fprintf_stderr, emit, modify, get, mbind, prog_bind.
    intros H. injection H as _ <-. cbn. split; [done|].
    destruct (Z.leb_spec 3 (listen_mcast w)); [lia|]. by rewrite orb_false_r.
  - destruct (Z.leb_spec 3 (listen_mcast w)).
    + rewrite when_true. intros E. injection E as _ <-. cbn. by rewrite orb_true_r.
    + rewrite when_false. intros E. injection E as _ <-. cbn. by rewrite orb_false_r.
Qed.

Lemma after_control_view (w : world) (cfg : dictionary) :
  preserves control_view (start_sections w cfg ;; get Nchans).
Proof.
  repeat first [ apply start_sections_preserves; unfold control_view; view | frame_step ].
Qed.

Lemma open_control_fails (w : world) (s : radiod) :
  listen_mcast w < 0 ->
  open_control w s
  = Ret tt (set_trace (trace s ++ [Ev_stderr (Msg_cant_listen (Metadata_dest_string s))])
              (set_fds (Output_fd s) (Output_fd0 s) (listen_mcast w) (Status_thread s) s)).
Proof.
  intros H. unfold open_control. rewrite bind_modify.
  destruct (Z.ltb_spec (listen_mcast w) 0) as [_|]; [|lia].
  by rewrite bind_get.
Qed.

(** X8.  Failing to open the control socket does not stop [loadconfig]: the
    failure is reported, [Ctl_fd] is left negative, and [loadconfig] goes on
    with the sections and neither exits nor aborts from there.  When
    [loadconfig] returns, [Ctl_fd] is what [listen_mcast] gave, negative or
    not, and the status thread has been started exactly when that descriptor
    is 3 or more. *)
Theorem loadconfig_control (w : world) (cfg : dictionary) (s : radiod) :
  (forall n s', loadconfig w cfg s = Ret n s' ->
     Ctl_fd s' = listen_mcast w
     /\ (Status_thread s = false -> Status_thread s' = (3 <=? listen_mcast w)))
  /\ (forall s1, listen_mcast w < 0 ->
        (startup_before_check w cfg ;; check_stream_names) s = Ret tt s1 ->
        exists s2,
          open_control w s1 = Ret tt s2
          /\ Ctl_fd s2 = listen_mcast w
          /\ Status_thread s2 = Status_thread s1
          /\ trace s2 = (trace s1 ++ [Ev_stderr (Msg_cant_listen (Metadata_dest_string s1))])%list
          /\ loadconfig w cfg s = (start_sections w cfg ;; get Nchans) s2
          /\ match loadconfig w cfg s with
             | Exit _ _ | Abort _ => False
             | Ret n s' => Ctl_fd s' < 0
             | Undefined => True
             end).
Proof.
  split.
  - intros n s'. rewrite loadconfig_split. intros H.
    apply bind_inv in H as (u1 & s1 & H1 & H).
    apply (preserves_Ret _ _ _ _ _ (before_control_status w cfg)) in H1.
    apply bind_inv in H as (u2 & s2 & H2 & H).
    apply open_control_inv in H2 as [E1 E2].
    apply (preserves_Ret _ _ _ _ _ (after_control_view w cfg)) in H.
    unfold control_view in H. injection H as -> ->.
    split; [done|]. intros Hs. by rewrite E2, H1, Hs.
  - intros s1 Hneg H1. eexists. split; [by apply open_control_fails|].
    split; [done|]. split; [done|]. split; [done|].
    assert (loadconfig w cfg s
            = (start_sections w cfg ;; get Nchans)
                (set_trace (trace s1 ++ [Ev_stderr (Msg_cant_listen (Metadata_dest_string s1))])
                   (set_fds (Output_fd s1) (Output_fd0 s1) (listen_mcast w)
                      (Status_thread s1) s1))) as E.
    { rewrite loadconfig_split. rewrite (bind_Ret _ _ _ _ _ H1).
      by rewrite (bind_Ret _ _ _ _ _ (open_control_fails w s1 Hneg)). }
    split; [done|]. rewrite E.
    set (s2 := set_trace _ _).
    pose proof (start_sections_never_exits w cfg s2) as Hx.
    pose proof (after_control_view w cfg s2) as Hv.
    unfold mbind, prog_bind in Hv |- *.
    destruct (start_sections w cfg s2) as [u s3| | |] eqn:E3; try done.
    unfold get. unfold get in Hv. unfold control_view in Hv.
    injection Hv as -> _. done.
Qed.

Lemma loadconfig_control_witness :
  let s := radiod_init FFTW_PATIENT 0 in
  let w := example_world_no_control in
  loadconfig w example_config s = Ret 1 example_no_control_final
  /\ Status_thread s = false
  /\ listen_mcast w < 0
  /\ (startup_before_check w example_config ;; check_stream_names) s
     = Ret tt example_before_control
  /\ Ctl_fd example_no_control_final = -1 /\ Status_thread example_no_control_final = false
  /\ exists s2, open_control w example_before_control = Ret tt s2
                /\ loadconfig w example_config s
                   = (start_sections w example_config ;; get Nchans) s2.
Proof.
  intros s w.
  assert (loadconfig w example_config s = Ret 1 example_no_control_final) as H
    by (vm_compute; reflexivity).
  assert (Status_thread s = false) as Hs by reflexivity.
  assert (listen_mcast w < 0) as Hneg by (cbn; lia).
  assert ((startup_before_check w example_config ;; check_stream_names) s
          = Ret tt example_before_control) as Hb by (vm_compute; reflexivity).
  pose proof (proj1 (loadconfig_control w example_config s) _ _ H) as (H1 & H2).
  pose proof (proj2 (loadconfig_control w example_config s) _ Hneg Hb)
    as (s2 & Ho & _ & _ & _ & Hl & _).
  refine (conj H (conj Hs (conj Hneg (conj Hb (conj H1 (conj (H2 Hs) _)))))).
  exists s2. exact (conj Ho Hl).
Defined.

(* ================================================================= *)
(** ** The hardware section *)

Lemma load_hardware_error (w : world) (cfg : dictionary) (m : message) (s : radiod) :
  hardware_error cfg = Some m ->
  load_hardware w cfg s = Exit EX_USAGE (set_trace (trace s ++ [Ev_stderr m]) s).
Proof.
  unfold hardware_error, load_hardware.
  destruct (config_getstring cfg GLOBAL "hardware" None) as [hardware|].
  - destruct (find_hardware (map fst cfg) hardware); [discriminate|].
    intros [= <-]. by rewrite bind_fprintf.
  - intros [= <-]. by rewrite bind_fprintf.
Qed.

Lemma loadconfig_split_hardware (w : world) (cfg : dictionary) (s : radiod) :
  loadconfig w cfg s =
  (startup_before_hardware w cfg ;;
   load_hardware w cfg ;;
   modify (set_Data (data_name w cfg)) ;;
   setup_template w cfg ;;
   open_output_sockets w ;;
   check_stream_names ;;
   open_control w ;;
   start_sections w cfg ;;
   get Nchans) s.
Proof.
  unfold loadconfig, startup_before_hardware. symmetry.
  do 3 (rewrite bind_assoc; apply bind_ext; intros ? ?).
  reflexivity.
Qed.

Lemma before_hardware_frontend (w : world) (cfg : dictionary) :
  preserves Frontend (startup_before_hardware w cfg).
Proof.
  unfold startup_before_hardware, load_globals, load_fft_plan_level, load_presets,
    fprintf_stderr, emit.
  frame.
Qed.

(** X9.  When the [global] section has no [hardware] entry, or the entry
    names no section of the file (the names compared without regard to
    case), [loadconfig] does not return: once the steps before the search
    have returned it reports the missing entry or section and exits with
    EX_USAGE, 64, and no driver has touched [Frontend]. *)
Theorem hardware_section_required (w : world) (cfg : dictionary) (m : message) (s : radiod) :
  hardware_error cfg = Some m ->
  (forall s1, startup_before_hardware w cfg s = Ret tt s1 ->
     loadconfig w cfg s = Exit 64 (set_trace (trace s1 ++ [Ev_stderr m]) s1)
     /\ Frontend s1 = Frontend s)
  /\ (forall n s', loadconfig w cfg s <> Ret n s').
Proof.
  intros Hm. split.
  - intros s1 H1. split.
    + rewrite loadconfig_split_hardware, (bind_Ret _ _ _ _ _ H1).
      apply bind_Exit. by apply load_hardware_error.
    + apply (preserves_Ret _ _ _ _ _ (before_hardware_frontend w cfg) H1).
  - intros n s'. rewrite loadconfig_split_hardware. intros H.
    apply bind_inv in H as (u1 & s1 & _ & H).
    apply bind_inv in H as (u2 & s2 & H2 & _).
    by rewrite (load_hardware_error w cfg m s1 Hm) in H2.
Qed.

Lemma hardware_section_required_witness :
  let s := radiod_init FFTW_PATIENT 0 in
  let s1 := example_no_hardware_state in
  hardware_error example_config_no_hardware = Some (Msg_no_hardware_section "rx888")
  /\ startup_before_hardware example_world example_config_no_hardware s = Ret tt s1
  /\ loadconfig example_world example_config_no_hardware s
     = Exit 64 (set_trace (trace s1 ++ [Ev_stderr (Msg_no_hardware_section "rx888")]) s1)
  /\ Frontend s1 = Frontend s.
Proof.
  intros s s1.
  assert (hardware_error example_config_no_hardware = Some (Msg_no_hardware_section "rx888"))
    as Hm by (vm_compute; reflexivity).
  assert (startup_before_hardware example_world example_config_no_hardware s = Ret tt s1) as H1
    by (vm_compute; reflexivity).
  exact (conj Hm (conj H1
           (proj1 (hardware_section_required example_world _ _ s Hm) s1 H1))).
Defined.

Lemma build_notches_length (w : world) (N M samprate : Z) (spurs : list spec_float)
  (idx : nat) (notches n : list notch_state.t) :
  build_notches w N M samprate spurs idx notches = Some n -> length n = length notches.
Proof.
  revert idx notches. induction spurs as [|f rest IH]; intros idx notches H; simpl in H.
  - by injection H as <-.
  - destruct (compute_tuning w N M samprate f) as [[r shift] rem].
    destruct (negb (r =? 0)); [by injection H as <-|].
    destruct (shift =? INT_MIN); [discriminate|].
    destruct (length notches <=? idx)%nat; [discriminate|].
    destruct (shift =? 0).
    + injection H as <-. by rewrite length_insert.
    + apply IH in H. by rewrite H, length_insert.
Qed.

(** When [setup_hardware] returns 0: the driver was found, its setup
    returned 0, its start routine exists and returned 0, and the filter
    input has its sizes and its array of notches. *)
Lemma setup_hardware_zero (w : world) (cfg : dictionary) (sname : string) (s s' : radiod) :
  setup_hardware w cfg sname s = Ret 0 s' ->
  exists drv,
    find_driver w cfg (default sname (config_getstring cfg sname "device" (Some sname)))
    = Some drv
    /\ sr_status (drv_setup drv cfg sname) = 0
    /\ drv_start drv = Some 0
    /\ frontend.started (Frontend s') = true
    /\ frontend.samprate (Frontend s') <> 0
    /\ frontend.L (Frontend s') <> 0 /\ frontend.M (Frontend s') <> 0
    /\ length (frontend.notches (Frontend s')) = NOTCH_SLOTS
    /\ Overlap s <> 1.
Proof.
  intros H. pose proof H as H'. unfold setup_hardware in H.
  destruct (find_driver w cfg _) as [drv|] eqn:Hdrv;
    [|by rewrite bind_fprintf in H].
  exists drv. split; [done|].
  rewrite bind_modify in H.
  destruct (Z.eqb_spec (sr_status (drv_setup drv cfg sname)) 0) as [Hst|Hst].
  2:{ cbn [negb] in H. rewrite bind_fprintf in H. by injection H as E _. }
  split; [done|]. cbn [negb] in H.
  rewrite !bind_get in H.
  apply bind_inv in H as ([[vL vM] vN] & s1 & Hfs & H).
  pose proof (filter_sizes_inv _ _ _ _ _ _ _ _ Hfs)
    as (l & _ & _ & Hs0 & Hov & HL0 & HM0 & _ & _ & HL & HM & Hn).
  assert (frontend.samprate (Frontend s1) = sr_samprate (drv_setup drv cfg sname)) as Hsr.
  { assert (preserves (fun s => frontend.samprate (Frontend s))
              (filter_sizes (sr_samprate (drv_setup drv cfg sname))
                 (Blocktime s) (Overlap s))) as Hp.
    { unfold filter_sizes, fprintf_stderr, emit. frame. }
    cbn [Frontend set_Frontend frontend.samprate frontend.set_setup Blocktime Overlap] in Hfs.
    by apply (preserves_Ret _ _ _ _ _ Hp) in Hfs. }
  cbn [Frontend set_Frontend frontend.samprate frontend.set_setup] in Hs0.
  cbn [Overlap set_Frontend] in Hov.
  rewrite bind_get in H.
  destruct (build_notches w _ _ _ _ 0 _) as [nn|] eqn:Hb; [|discriminate].
  apply build_notches_length in Hb. rewrite Hn, length_replicate in Hb.
  rewrite bind_modify in H.
  destruct (drv_start drv) as [r0|]; [|rewrite bind_fprintf in H; discriminate].
  rewrite bind_modify in H. apply bind_inv in H as (u & s2 & Hw & H).
  injection H as -> <-.
  split; [done|].
  assert (Frontend s2 = frontend.set_started true (frontend.set_notches nn (Frontend s1)))
    as ->.
  { apply when_inv in Hw as [[_ Hw] | [_ ->]]; [by injection Hw as _ <- | done]. }
  destruct (Frontend s1). cbn in *. repeat split; congruence.
Qed.

Lemma after_hardware_frontend (w : world) (cfg : dictionary) :
  preserves Frontend
    (modify (set_Data (data_name w cfg)) ;; setup_template w cfg ;; open_output_sockets w ;;
     check_stream_names ;; open_control w ;; start_sections w cfg ;; get Nchans).
Proof.
  unfold setup_template, open_output_sockets, check_stream_names, open_control,
    fprintf_stderr, emit.
  repeat first [ apply start_sections_preserves; view | frame_step ].
Qed.

(** X10.  [loadconfig] returns only when the front end has been set up and
    started: the [hardware] entry names a section, a driver was found for
    it, the driver's setup and its start routine both returned 0, and
    [Frontend] holds a nonzero sample rate, nonzero sizes L and M and an
    array of 100 notches. *)
Theorem loadconfig_frontend_started (w : world) (cfg : dictionary) (s s' : radiod) (n : Z) :
  loadconfig w cfg s = Ret n s' ->
  exists hardware sname drv,
    config_lookup cfg GLOBAL "hardware" = Some hardware
    /\ find_hardware (map fst cfg) hardware = Some sname
    /\ find_driver w cfg (default sname (config_getstring cfg sname "device" (Some sname)))
       = Some drv
    /\ sr_status (drv_setup drv cfg sname) = 0
    /\ drv_start drv = Some 0
    /\ frontend.started (Frontend s') = true
    /\ frontend.samprate (Frontend s') <> 0
    /\ frontend.L (Frontend s') <> 0 /\ frontend.M (Frontend s') <> 0
    /\ length (frontend.notches (Frontend s')) = 100%nat.
Proof.
  rewrite loadconfig_split_hardware. intros H.
  apply bind_inv in H as (u1 & s1 & _ & H).
  apply bind_inv in H as (u2 & s2 & H2 & H).
  apply (preserves_Ret _ _ _ _ _ (after_hardware_frontend w cfg)) in H. rewrite H.
  unfold load_hardware, config_getstring in H2.
  destruct (config_lookup cfg GLOBAL "hardware") as [hardware|];
    [|by rewrite bind_fprintf in H2].
  destruct (find_hardware (map fst cfg) hardware) as [sname|] eqn:Hf;
    [|by rewrite bind_fprintf in H2].
  apply bind_inv in H2 as (r & s3 & Hr & H2).
  destruct (Z.eqb_spec r 0) as [->|Hne]; [|discriminate].
  cbn [negb] in H2.
  apply setup_hardware_zero in Hr as (drv & Hd & Hst & Hstart & F1 & F2 & F3 & F4 & F5 & _).
  exists hardware, sname, drv. repeat split; try done.
  all: injection H2 as _ <-;
    destruct (String.length (frontend.description (Frontend s3)) =? 0)%nat; try done;
    by destruct (Frontend s3).
Qed.

Lemma loadconfig_frontend_started_witness :
  loadconfig example_world example_config (radiod_init FFTW_PATIENT 0) = Ret 1 example_final
  /\ frontend.started (Frontend example_final) = true
  /\ length (frontend.notches (Frontend example_final)) = 100%nat.
Proof.
  assert (loadconfig example_world example_config (radiod_init FFTW_PATIENT 0)
          = Ret 1 example_final) as H by (vm_compute; reflexivity).
  pose proof (loadconfig_frontend_started _ _ _ _ _ H)
    as (h & sn & d & _ & _ & _ & _ & _ & H1 & _ & _ & _ & H2).
  exact (conj H (conj H1 H2)).
Defined.

(* ================================================================= *)
(** ** Which preset is named *)

Lemma section_preset_first_set (cfg : dictionary) (sname : string) :
  section_preset cfg sname =
  first_set [config_lookup cfg sname "preset"; config_lookup cfg GLOBAL "preset";
             config_lookup cfg sname "mode"; config_lookup cfg GLOBAL "mode"].
Proof.
  unfold section_preset, config2_getstring, config_getstring. cbn [first_set].
  destruct (config_lookup cfg sname "preset"); [done|].
  destruct (config_lookup cfg GLOBAL "preset"); [done|].
  destruct (config_lookup cfg sname "mode"); [done|].
  by destruct (config_lookup cfg GLOBAL "mode").
Qed.

Lemma setup_template_preset (w : world) (cfg : dictionary) (s s' : radiod) (u : unit) :
  setup_template w cfg s = Ret u s' ->
  channel.preset (Template s') =
  default "am" (first_set [config_lookup cfg GLOBAL "mode"; config_lookup cfg GLOBAL "preset"]).
Proof.
  unfold setup_template. intros H.
  rewrite !bind_get in H. apply bind_inv in H as (life & s1 & Hl & H).
  apply int_of_floating_inv in Hl as (_ & -> & _).
  rewrite bind_get, bind_modify in H.
  assert (config_getstring cfg GLOBAL "mode" (config_getstring cfg GLOBAL "preset" (Some "am"))
          = Some (default "am" (first_set [config_lookup cfg GLOBAL "mode";
                                           config_lookup cfg GLOBAL "preset"]))) as E.
  { unfold config_getstring. cbn [first_set].
    destruct (config_lookup cfg GLOBAL "mode"); [done|].
    by destruct (config_lookup cfg GLOBAL "preset"). }
  rewrite E in H. rewrite !bind_get in H.
  destruct (loadpreset w _ _ _) as [r t2] eqn:Ep.
  apply bind_inv in H as (u1 & s2 & _ & H).
  pose proof (loadpreset_preset w
                (channel.set_preset
                   (default "am" (first_set [config_lookup cfg GLOBAL "mode";
                                             config_lookup cfg GLOBAL "preset"])) t2)
                (Some cfg) GLOBAL) as HL.
  injection H as _ <-. exact HL.
Qed.

Lemma after_template_template (w : world) (cfg : dictionary) :
  preserves Template
    (open_output_sockets w ;; check_stream_names ;; open_control w ;;
     start_sections w cfg ;; get Nchans).
Proof.
  unfold open_output_sockets, check_stream_names, open_control, fprintf_stderr, emit.
  repeat first [ apply start_sections_preserves; view | frame_step ].
Qed.

(** X11.  Which preset is used when the old keyword [mode] and the new one,
    [preset], are both present.  For the channels of a section the first
    that is set of: the section's [preset], the [preset] of [global], the
    section's [mode], the [mode] of [global].  For the template of the
    dynamic channels, which [loadconfig] builds from [global] alone, the
    order of the keywords is the other way round: [mode], then [preset],
    then "am".  So with both set in [global] and neither in the section,
    the section uses the [preset] entry and the template the [mode]
    entry. *)
Theorem preset_keyword_precedence (w : world) (cfg : dictionary) (sname : string)
  (s s' : radiod) (n : Z) :
  loadconfig w cfg s = Ret n s' ->
  section_preset cfg sname =
    first_set [config_lookup cfg sname "preset"; config_lookup cfg GLOBAL "preset";
               config_lookup cfg sname "mode"; config_lookup cfg GLOBAL "mode"]
  /\ channel.preset (Template s') =
     default "am" (first_set [config_lookup cfg GLOBAL "mode"; config_lookup cfg GLOBAL "preset"])
  /\ (forall m p,
        config_lookup cfg GLOBAL "mode" = Some m -> config_lookup cfg GLOBAL "preset" = Some p ->
        config_lookup cfg sname "mode" = None -> config_lookup cfg sname "preset" = None ->
        section_preset cfg sname = Some p /\ channel.preset (Template s') = m).
Proof.
  intros H.
  assert (channel.preset (Template s') =
          default "am" (first_set [config_lookup cfg GLOBAL "mode";
                                   config_lookup cfg GLOBAL "preset"])) as Ht.
  { unfold loadconfig in H.
    do 6 (apply bind_inv in H as (? & ? & _ & H)).
    apply bind_inv in H as (u7 & s7 & H7 & H).
    apply setup_template_preset in H7.
    apply (preserves_Ret _ _ _ _ _ (after_template_template w cfg)) in H. by rewrite H. }
  split; [apply section_preset_first_set|]. split; [done|].
  intros m p Hm Hp Hsm Hsp. rewrite Ht, section_preset_first_set, Hm, Hp, Hsm, Hsp. done.
Qed.

Lemma preset_keyword_precedence_witness :
  let cfg := example_config_mode_preset in
  loadconfig example_world cfg (radiod_init FFTW_PATIENT 0) = Ret 1 example_mode_preset_final
  /\ config_lookup cfg GLOBAL "mode" = Some "usb"
  /\ config_lookup cfg GLOBAL "preset" = Some "am"
  /\ config_lookup cfg "forty" "mode" = None
  /\ config_lookup cfg "forty" "preset" = None
  /\ section_preset cfg "forty" = Some "am"
  /\ channel.preset (Template example_mode_preset_final) = "usb".
Proof.
  intros cfg.
  assert (loadconfig example_world cfg (radiod_init FFTW_PATIENT 0)
          = Ret 1 example_mode_preset_final) as H by (vm_compute; reflexivity).
  assert (config_lookup cfg GLOBAL "mode" = Some "usb") as H1 by (vm_compute; reflexivity).
  assert (config_lookup cfg GLOBAL "preset" = Some "am") as H2 by (vm_compute; reflexivity).
  assert (config_lookup cfg "forty" "mode" = None) as H3 by (vm_compute; reflexivity).
  assert (config_lookup cfg "forty" "preset" = None) as H4 by (vm_compute; reflexivity).
  pose proof (proj2 (proj2 (preset_keyword_precedence _ _ "forty" _ _ _ H)) _ _ H1 H2 H3 H4)
    as HT.
  exact (conj H (conj H1 (conj H2 (conj H3 (conj H4 HT))))).
Defined.

(* ================================================================= *)
(** ** The names of the streams when [loadconfig] returns *)

Lemma string_rev_aux_app (a b acc : string) :
  string_rev_aux (String.append a b) acc = string_rev_aux b (string_rev_aux a acc).
Proof. revert acc. induction a as [|c a IH]; intros acc; simpl; [done | apply IH]. Qed.

Lemma string_rev_aux_acc (s acc : string) :
  string_rev_aux s acc = String.append (string_rev_aux s "") acc.
Proof.
  revert acc. induction s as [|c s IH]; intros acc; simpl; [done|].
  rewrite (IH (String c acc)), (IH (String c "")).
  generalize (string_rev_aux s ""). intros r.
  induction r as [|d r IHr]; [done|].
  change (String d (String.append r (String c acc))
          = String d (String.append (String.append r (String c "")) acc)).
  by rewrite IHr.
Qed.

Lemma prefix_append (a b : string) : String.prefix a (String.append a b) = true.
Proof.
  induction a as [|c a IH]; simpl; [by destruct b|].
  destruct (ascii_dec c c); [apply IH | done].
Qed.

Lemma ensure_suffix_has_suffix (str suffix : string) :
  has_suffix (ensure_suffix str suffix) suffix = true.
Proof.
  unfold ensure_suffix. destruct (has_suffix str suffix) eqn:E; [done|].
  unfold has_suffix.
  rewrite string_rev_aux_app, (string_rev_aux_acc suffix (string_rev_aux str "")).
  apply prefix_append.
Qed.

Lemma after_check_names (w : world) (cfg : dictionary) :
  preserves (fun s => (Metadata_dest_string s, Data s))
    (open_control w ;; start_sections w cfg ;; get Nchans).
Proof.
  unfold open_control, fprintf_stderr, emit.
  repeat first [ apply start_sections_preserves; view | frame_step ].
Qed.

(** X12.  When [loadconfig] returns, the data stream is named by the [data]
    entry of [global], or by the instance name followed by "-pcm.local",
    and the status stream by the [status] entry, or by the host name up to
    its first dot, a hyphen, the instance name and ".local"; both names end
    in ".local", which is added to an entry that lacks it, and the two
    names differ. *)
Theorem stream_names_resolved (w : world) (cfg : dictionary) (s s' : radiod) (n : Z) :
  loadconfig w cfg s = Ret n s' ->
  Data s' = data_name w cfg
  /\ Metadata_dest_string s' = status_name w cfg
  /\ has_suffix (Data s') ".local" = true
  /\ has_suffix (Metadata_dest_string s') ".local" = true
  /\ Data s' <> Metadata_dest_string s'.
Proof.
  rewrite loadconfig_split. intros H.
  apply bind_inv in H as (u1 & s1 & H1 & H).
  apply (preserves_Ret _ _ _ _ _ (after_check_names w cfg)) in H.
  injection H as -> ->.
  apply bind_inv in H1 as (u0 & s0 & H0 & H1).
  apply startup_before_check_names in H0 as [Em Ed].
  unfold check_stream_names in H1. rewrite !bind_get in H1.
  destruct (streq (Metadata_dest_string s0) (Data s0)) eqn:Eq;
    [by rewrite bind_fprintf in H1|].
  injection H1 as _ <-. rewrite Em, Ed in *.
  split; [done|]. split; [done|].
  split; [apply ensure_suffix_has_suffix|]. split; [apply ensure_suffix_has_suffix|].
  intros E. rewrite E in Eq. unfold streq in Eq. by rewrite String.eqb_refl in Eq.
Qed.

Lemma stream_names_resolved_witness :
  loadconfig example_world example_config (radiod_init FFTW_PATIENT 0) = Ret 1 example_final
  /\ Data example_final = "hf-pcm.local"
  /\ Metadata_dest_string example_final = "hf-status.local".
Proof.
  assert (loadconfig example_world example_config (radiod_init FFTW_PATIENT 0)
          = Ret 1 example_final) as H by (vm_compute; reflexivity).
  pose proof (stream_names_resolved _ _ _ _ _ H) as (H1 & H2 & _).
  assert (data_name example_world example_config = "hf-pcm.local") as E1
    by (vm_compute; reflexivity).
  assert (status_name example_world example_config = "hf-status.local") as E2
    by (vm_compute; reflexivity).
  exact (conj H (conj (eq_trans H1 E1) (eq_trans H2 E2))).
Defined.

(* ================================================================= *)
(** ** The tokens of a frequency list *)

Lemma delimiter_free_rev (a b : string) :
  delimiter_free (string_rev_aux a b) = delimiter_free a && delimiter_free b.
Proof.
  revert b. induction a as [|c a IH]; intros b; [done|].
  cbn [string_rev_aux]. rewrite IH. unfold delimiter_free. cbn [list_ascii_of_string forallb].
  destruct (negb (is_delim c)); [done|]. cbn. by rewrite andb_false_r.
Qed.

Lemma string_rev_aux_nonempty (a b : string) : b <> "" -> string_rev_aux a b <> "".
Proof. revert b. induction a as [|c a IH]; intros b Hb; [done|]. by apply IH. Qed.

Lemma string_rev_aux_twice (a b c : string) :
  string_rev_aux (string_rev_aux a b) c = string_rev_aux b (String.append a c).
Proof.
  revert b c. induction a as [|x a IH]; intros b c; [done|].
  cbn [string_rev_aux]. by rewrite IH.
Qed.

Lemma append_empty_r (s : string) : String.append s "" = s.
Proof.
  induction s as [|x s IH]; [done|].
  change (String x (String.append s "") = String x s). by rewrite IH.
Qed.

Lemma streq_empty (s : string) : streq s "" = false <-> s <> "".
Proof. unfold streq. by rewrite String.eqb_neq. Qed.

Lemma strtok_all_tokens (s cur : string) :
  delimiter_free cur = true -> Forall (fun tok => is_token tok = true) (strtok_all s cur).
Proof.
  assert (forall cur, delimiter_free cur = true -> streq cur "" = false ->
                      is_token (string_rev_aux cur "") = true) as Htok.
  { intros c Hc Hne. unfold is_token. rewrite delimiter_free_rev, Hc. cbn.
    rewrite andb_true_r. apply negb_true_iff, streq_empty.
    apply streq_empty in Hne. destruct c as [|x c]; [done|].
    cbn [string_rev_aux]. by apply string_rev_aux_nonempty. }
  revert cur. induction s as [|c s IH]; intros cur Hcur; cbn [strtok_all].
  - destruct (streq cur "") eqn:E; [constructor|]. constructor; [by apply Htok | constructor].
  - destruct (is_delim c) eqn:Hd.
    + destruct (streq cur "") eqn:E; [by apply IH|].
      constructor; [by apply Htok | by apply IH].
    + apply IH. unfold delimiter_free in *. cbn [list_ascii_of_string forallb]. by rewrite Hd.
Qed.

Lemma strtok_all_token (tok rest cur : string) :
  delimiter_free tok = true ->
  strtok_all (String.append tok rest) cur = strtok_all rest (string_rev_aux tok cur).
Proof.
  revert cur. induction tok as [|c tok IH]; intros cur H; [done|].
  unfold delimiter_free in H. cbn [list_ascii_of_string forallb] in H.
  apply andb_true_iff in H as [Hc H]. apply negb_true_iff in Hc.
  change (String.append (String c tok) rest) with (String c (String.append tok rest)).
  cbn [strtok_all string_rev_aux]. rewrite Hc. by apply IH.
Qed.

Lemma strtok_all_join (toks : list string) :
  Forall (fun tok => is_token tok = true) toks ->
  strtok_all (String.concat " " toks) "" = toks.
Proof.
  assert (forall tok, is_token tok = true ->
            delimiter_free tok = true
            /\ streq (string_rev_aux tok "") "" = false
            /\ string_rev_aux (string_rev_aux tok "") "" = tok) as Htok.
  { intros tok H. unfold is_token in H. apply andb_true_iff in H as [Hne Hd].
    apply negb_true_iff, streq_empty in Hne.
    split; [done|]. split.
    - apply streq_empty. destruct tok as [|x tok]; [done|].
      cbn [string_rev_aux]. by apply string_rev_aux_nonempty.
    - rewrite string_rev_aux_twice. cbn [string_rev_aux]. apply append_empty_r. }
  induction toks as [|tok toks IH]; intros H; [done|].
  inversion H as [|? ? Ht Hrest]; subst.
  destruct (Htok tok Ht) as (Hd & Hne & Hrev).
  destruct toks as [|tok2 toks].
  - cbn [String.concat].
    rewrite <- (append_empty_r tok) at 1.
    rewrite strtok_all_token by done. cbn [strtok_all]. by rewrite Hne, Hrev.
  - change (String.concat " " (tok :: tok2 :: toks))
      with (String.append tok (String " " (String.concat " " (tok2 :: toks)))).
    rewrite strtok_all_token by done.
    generalize dependent (String.concat " " (tok2 :: toks)). intros rest IH.
    cbn [strtok_all]. change (is_delim " ") with true. cbn iota.
    rewrite Hne, Hrev. f_equal. by apply IH.
Qed.

(** X13.  The tokens that the loop over a frequency list sees: none is
    empty and none holds a space or a tab, however the list is spaced; and
    a list written as tokens with single spaces between them is split into
    exactly those tokens, in order. *)
Theorem frequency_list_tokens (frequencies : string) (toks : list string) :
  Forall (fun tok => is_token tok = true) (strtok_all frequencies "")
  /\ (Forall (fun tok => is_token tok = true) toks ->
      strtok_all (String.concat " " toks) "" = toks).
Proof. split; [by apply strtok_all_tokens | apply strtok_all_join]. Qed.

Lemma frequency_list_tokens_witness :
  Forall (fun tok => is_token tok = true) ["7040k"; "14m074"; "146.52m"]
  /\ strtok_all (String.concat " " ["7040k"; "14m074"; "146.52m"]) ""
     = ["7040k"; "14m074"; "146.52m"].
Proof.
  assert (Forall (fun tok => is_token tok = true) ["7040k"; "14m074"; "146.52m"]) as H
    by (repeat constructor).
  exact (conj H (proj2 (frequency_list_tokens "" _) H)).
Defined.

(* ================================================================= *)
(** ** The filter sizes: bounds and edge cases *)

(** X14.  What [Overlap] means for the sizes: with [Overlap] at least 2 and
    a positive block length L, the length M of the impulse response is
    between 1 and L + 1, M - 1 is L divided by [Overlap] - 1 rounded down,
    the size N of the transform is between L and 2 L, and when
    [Overlap] - 1 divides L, N is [Overlap] times M - 1. *)
Theorem filter_sizes_overlap (samprate : Z) (bt : spec_float) (ov : Z) (s s' : radiod)
  (vL vM vN : Z) :
  filter_sizes samprate bt ov s = Ret (vL, vM, vN) s' ->
  2 <= ov -> 0 < vL ->
  0 < vM <= vL + 1
  /\ (ov - 1) * (vM - 1) <= vL < (ov - 1) * vM
  /\ vL <= vN <= 2 * vL
  /\ ((ov - 1 | vL) -> vN = ov * (vM - 1)).
Proof.
  intros H Hov HL.
  apply filter_sizes_inv in H as (l & _ & _ & _ & _ & _ & _ & HM & HN & _).
  pose proof (Z.quot_rem' vL (ov - 1)) as Hqr.
  pose proof (Z.rem_bound_pos vL (ov - 1) ltac:(lia) ltac:(lia)) as Hr.
  assert (0 <= Z.quot vL (ov - 1)) as Hq by (apply Z.quot_pos; lia).
  subst vM vN. split; [nia|]. split; [nia|]. split; [nia|].
  intros [k Hk]. assert (Z.rem vL (ov - 1) = 0) as Hz.
  { rewrite Hk. apply Z.rem_mul. lia. }
  nia.
Qed.

Lemma filter_sizes_overlap_witness :
  let s := radiod_init FFTW_PATIENT 0 in
  let s' := set_Frontend
              (frontend.set_notches (replicate NOTCH_SLOTS notch_state.zero)
                 (frontend.set_M 6001 (frontend.set_L 24000 (Frontend s)))) s in
  filter_sizes 1200000 DEFAULT_BLOCKTIME 5 s = Ret (24000, 6001, 30000) s'
  /\ 2 <= 5 /\ 0 < 24000 /\ (5 - 1 | 24000)
  /\ 30000 = 5 * (6001 - 1).
Proof.
  intros s s'.
  assert (filter_sizes 1200000 DEFAULT_BLOCKTIME 5 s = Ret (24000, 6001, 30000) s') as H
    by (vm_compute; reflexivity).
  assert (2 <= 5) as H1 by lia.
  assert (0 < 24000) as H2 by lia.
  assert (5 - 1 | 24000) as H3 by (exists 6000; lia).
  pose proof (filter_sizes_overlap _ _ _ _ _ _ _ _ H H1 H2) as (_ & _ & _ & HT).
  exact (conj H (conj H1 (conj H2 (conj H3 (HT H3))))).
Defined.

(** X15.  The two inputs on which the computation of the sizes has no
    result: a driver that reports a sample rate of 0 fails the first
    [assert], with nothing written and [Frontend] as it was; and an
    [Overlap] of 1 makes the divisor of L / (Overlap - 1) zero, which is
    undefined, whatever the sample rate and the block time are. *)
Theorem filter_sizes_no_result (samprate : Z) (bt : spec_float) (ov : Z) (s : radiod) :
  filter_sizes 0 bt ov s = Abort s
  /\ (samprate <> 0 -> filter_sizes samprate bt 1 s = Undefined).
Proof.
  split; [done|]. intros Hs. unfold filter_sizes.
  apply Z.eqb_neq in Hs. unfold assert. rewrite Hs. cbn [negb]. rewrite bind_mret.
  destruct (lround (eL_of samprate bt)) as [l|]; [|done].
  rewrite bind_modify.
  unfold mbind at 1. unfold prog_bind at 1.
  destruct (when _ _ _) as [u s1| | |] eqn:E.
  - done.
  - apply (f_equal (fun r => match r with Exit _ _ => true | _ => false end)) in E.
    unfold when in E. by destruct (negb _).
  - apply (f_equal (fun r => match r with Abort _ => true | _ => false end)) in E.
    unfold when in E. by destruct (negb _).
  - done.
Qed.

Lemma filter_sizes_no_result_witness :
  1200000 <> 0
  /\ filter_sizes 1200000 DEFAULT_BLOCKTIME 1 (radiod_init FFTW_PATIENT 0) = Undefined.
Proof.
  assert (1200000 <> 0) as H by lia.
  exact (conj H (proj2 (filter_sizes_no_result 1200000 DEFAULT_BLOCKTIME 1
                          (radiod_init FFTW_PATIENT 0)) H)).
Defined.

(* ================================================================= *)
(** ** The block time and the overlap when [loadconfig] returns *)

Lemma float_of_double_abs_not_negative (x : spec_float) :
  SF_is_negative (float_of_double (SFabs x)) = false.
Proof.
  destruct x as [sx|sx| |sx m e]; try done.
  unfold SFabs, float_of_double, binary_round.
  destruct (shl_align _ _ _) as [mz ez]. unfold binary_round_aux.
  destruct (shr_fexp 24 128 (Z.pos mz) ez loc_Exact) as [mrs' e'].
  destruct (shr_fexp 24 128 _ e' loc_Exact) as [mrs'' e''].
  destruct (shr_m mrs''); [done | | done].
  by destruct (e'' <=? 128 - 24).
Qed.

Lemma load_globals_block (w : world) (cfg : dictionary) (s s' : radiod) (u : unit) :
  load_globals w cfg s = Ret u s' ->
  Blocktime s' = float_of_double
                   (SFabs (config_getdouble w cfg GLOBAL "blocktime"
                             (double_of_float (Blocktime s))))
  /\ Overlap s' = Z.abs (config_getint w cfg GLOBAL "overlap" (Overlap s)).
Proof.
  unfold load_globals. intros H.
  apply bind_inv in H as (u0 & s0 & H0 & H).
  rewrite for_each_fprintf in H0. injection H0 as _ <-.
  rewrite bind_get, bind_modify, bind_get, bind_modify in H.
  apply bind_inv in H as (idle & s1 & Hi & H).
  apply int_of_floating_inv in Hi as (_ & -> & _).
  rewrite bind_modify, bind_get in H.
  apply bind_inv in H as (u2 & s2 & Hw & H).
  apply when_inv in Hw as [[_ Hw] | [_ ->]]; [discriminate|].
  rewrite bind_modify in H. injection H as _ <-.
  done.
Qed.

Lemma setup_hardware_block (w : world) (cfg : dictionary) (sname : string) :
  preserves block_view (setup_hardware w cfg sname).
Proof. unfold setup_hardware, filter_sizes, fprintf_stderr, emit, block_view. frame. Qed.

Lemma before_hardware_block (w : world) (cfg : dictionary) :
  preserves block_view
    (load_fft_plan_level cfg ;; load_presets w cfg ;;
     modify (set_Metadata_dest_string (status_name w cfg))).
Proof.
  unfold load_fft_plan_level, load_presets, fprintf_stderr, emit, block_view. frame.
Qed.

Lemma after_hardware_block (w : world) (cfg : dictionary) :
  preserves block_view
    (modify (set_Data (data_name w cfg)) ;; setup_template w cfg ;; open_output_sockets w ;;
     check_stream_names ;; open_control w ;; start_sections w cfg ;; get Nchans).
Proof.
  unfold setup_template, open_output_sockets, check_stream_names, open_control,
    fprintf_stderr, emit.
  repeat first [ apply start_sections_preserves; unfold block_view; view
               | unfold block_view; frame_step ].
Qed.

Lemma load_hardware_overlap (w : world) (cfg : dictionary) (s s' : radiod) (u : unit) :
  load_hardware w cfg s = Ret u s' -> Overlap s <> 1 /\ block_view s' = block_view s.
Proof.
  unfold load_hardware. intros H.
  destruct (config_getstring cfg GLOBAL "hardware" None) as [hardware|];
    [|by rewrite bind_fprintf in H].
  destruct (find_hardware (map fst cfg) hardware) as [sname|];
    [|by rewrite bind_fprintf in H].
  apply bind_inv in H as (r & s1 & Hr & H).
  destruct (Z.eqb_spec r 0) as [->|Hne]; [|discriminate].
  cbn [negb] in H.
  pose proof (preserves_Ret _ _ _ _ _ (setup_hardware_block w cfg sname) Hr) as Hb.
  apply setup_hardware_zero in Hr as (drv & _ & _ & _ & _ & _ & _ & _ & _ & Hov).
  split; [done|]. injection H as _ <-. rewrite <- Hb.
  destruct (String.length _ =? 0)%nat; [|done]. by destruct s1.
Qed.

(** X16.  The block time and the overlap factor that a returned
    [loadconfig] leaves: [Blocktime] is the absolute value of the
    [blocktime] entry, as a [float], and is not negative; [Overlap] is the
    absolute value of the [overlap] entry, and it is not 1: with an overlap
    of 1 or -1 in the file [loadconfig] does not return. *)
Theorem loadconfig_block_parameters (w : world) (cfg : dictionary) (s s' : radiod) (n : Z) :
  loadconfig w cfg s = Ret n s' ->
  Blocktime s' = float_of_double
                   (SFabs (config_getdouble w cfg GLOBAL "blocktime"
                             (double_of_float (Blocktime s))))
  /\ SF_is_negative (Blocktime s') = false
  /\ Overlap s' = Z.abs (config_getint w cfg GLOBAL "overlap" (Overlap s))
  /\ 0 <= Overlap s' /\ Overlap s' <> 1.
Proof.
  unfold loadconfig. intros H.
  apply bind_inv in H as (u1 & s1 & H1 & H).
  apply load_globals_block in H1 as [Eb Eo].
  assert (exists s4 u4, (load_fft_plan_level cfg ;; load_presets w cfg ;;
                         modify (set_Metadata_dest_string (status_name w cfg))) s1 = Ret u4 s4
                        /\ (load_hardware w cfg ;;
                            modify (set_Data (data_name w cfg)) ;; setup_template w cfg ;;
                            open_output_sockets w ;; check_stream_names ;; open_control w ;;
                            start_sections w cfg ;; get Nchans) s4 = Ret n s')
    as (s4 & u4 & Hpre & Hrest).
  { apply bind_inv in H as (u2 & s2 & H2 & H).
    apply bind_inv in H as (u3 & s3 & H3 & H).
    apply bind_inv in H as (u4 & s4 & H4 & H).
    exists s4, u4. split; [|done].
    by rewrite (bind_Ret _ _ _ _ _ H2), (bind_Ret _ _ _ _ _ H3). }
  apply (preserves_Ret _ _ _ _ _ (before_hardware_block w cfg)) in Hpre.
  apply bind_inv in Hrest as (u5 & s5 & H5 & Hrest).
  apply load_hardware_overlap in H5 as [Hov H5].
  apply (preserves_Ret _ _ _ _ _ (after_hardware_block w cfg)) in Hrest.
  rewrite H5, Hpre in Hrest. unfold block_view in Hrest, Hpre.
  injection Hrest as -> ->. injection Hpre as _ Ho4.
  rewrite Ho4 in Hov.
  split; [done|]. split; [rewrite Eb; apply float_of_double_abs_not_negative|].
  split; [done|]. split; [rewrite Eo; lia | done].
Qed.

Lemma loadconfig_block_parameters_witness :
  let s := radiod_init FFTW_PATIENT 0 in
  loadconfig example_world example_config s = Ret 1 example_final
  /\ Blocktime example_final = DEFAULT_BLOCKTIME
  /\ Overlap example_final = 5.
Proof.
  intros s.
  assert (loadconfig example_world example_config s = Ret 1 example_final) as H
    by (vm_compute; reflexivity).
  pose proof (loadconfig_block_parameters _ _ _ _ _ H) as (H1 & _ & H2 & _).
  assert (float_of_double
            (SFabs (config_getdouble example_world example_config GLOBAL "blocktime"
                      (double_of_float (Blocktime s)))) = DEFAULT_BLOCKTIME) as E1
    by (vm_compute; reflexivity).
  assert (Z.abs (config_getint example_world example_config GLOBAL "overlap" (Overlap s)) = 5)
    as E2 by (vm_compute; reflexivity).
  exact (conj H (conj (eq_trans H1 E1) (eq_trans H2 E2))).
Defined.

(* ================================================================= *)
(** ** The channels of one section *)

(** X17.  The channels that a section starts are all made from the one
    template of the section: each is the template with its own SSRC and
    frequency, so all of them have the parameters, the TTL, the preset and
    the destination of the template; and the number in the message
    "channels started", the last thing the section writes, is the number of
    channels it has added to the registry. *)
Theorem section_channels_from_template (w : world) (cfg : dictionary) (sname : string)
  (s s' : radiod) :
  process_section w cfg sname s = Ret tt s' ->
  exists t s1 d,
    section_template w cfg sname s = Ret t s1
    /\ last (trace s') = Some (Ev_stderr (Msg_channels_started sname d))
    /\ Z.of_nat (size (Channel_list s')) = Z.of_nat (size (Channel_list s)) + d
    /\ forall k c, Channel_list s' !! k = Some c -> Channel_list s !! k = None ->
         (exists f, c = started_channel t k f (SAP_enable s) (RTCP_enable s))
         /\ channel.params c = channel.params t
         /\ channel.output_ttl c = channel.output_ttl t
         /\ channel.preset c = channel.preset t
         /\ channel.output_dest_string c = channel.output_dest_string t.
Proof.
  intros H. apply process_section_template in H as (t & s1 & d & Ht & Hg & Hl).
  exists t, s1, d. destruct Hg as (_ & _ & Hsz & _ & Hnew).
  split; [done|]. split; [done|]. split; [done|].
  intros k c Hk Hnone. destruct (Hnew k c Hk Hnone) as (f & _ & _ & ->).
  split; [by exists f|]. unfold started_channel.
  by destruct (SAP_enable s), (RTCP_enable s), t.
Qed.

Lemma section_channels_from_template_witness :
  exists t c,
    process_section example_world example_config "forty" example_before_sections
    = Ret tt example_after_section
    /\ Channel_list example_after_section !! 7040000 = Some c
    /\ Channel_list example_before_sections !! 7040000 = None
    /\ channel.params c = channel.params t
    /\ channel.output_dest_string c = channel.output_dest_string t.
Proof.
  assert (process_section example_world example_config "forty" example_before_sections
          = Ret tt example_after_section) as H by (vm_compute; reflexivity).
  assert (exists c, Channel_list example_after_section !! 7040000 = Some c) as [c Hk]
    by (vm_compute; eauto).
  assert (Channel_list example_before_sections !! 7040000 = None) as Hn
    by (vm_compute; reflexivity).
  pose proof (section_channels_from_template _ _ _ _ _ H) as (t & s1 & d & _ & _ & _ & HT).
  destruct (HT _ _ Hk Hn) as (_ & H1 & _ & _ & H2).
  exists t, c. exact (conj H (conj Hk (conj Hn (conj H1 H2)))).
Defined.

Lemma process_section_no_preset (w : world) (cfg : dictionary) (sname : string) (s : radiod) :
  section_preset cfg sname = None -> process_section w cfg sname s = Undefined.
Proof.
  intros Hp. unfold process_section, section_template. rewrite Hp.
  rewrite !bind_assoc. unfold mbind at 1. unfold prog_bind at 1.
  rewrite for_each_fprintf. rewrite when_true.
  run_all. unfold build_template. run_all. done.
Qed.

Lemma for_each_returns {A : Type} (g : A -> prog unit) (l : list A) (s s' : radiod) (u : unit) :
  for_each g l s = Ret u s' ->
  forall a, a ∈ l -> exists sa sa', g a sa = Ret tt sa'.
Proof.
  revert s. induction l as [|x l IH]; intros s H a Ha; [by apply elem_of_nil in Ha|].
  simpl in H. apply bind_inv in H as ([] & s1 & H1 & H).
  apply elem_of_cons in Ha as [->|Ha]; [eauto | by apply (IH s1)].
Qed.

(** X18.  A channel section for which neither the section nor [global] has
    a [preset] or a [mode] entry: the warning is written, but then the
    missing name is copied with [strlcpy] from a null pointer, so the
    processing of the section has no defined result, and [loadconfig] does
    not return on a file that has such a section. *)
Theorem section_without_preset (w : world) (cfg : dictionary) (sname : string) (s : radiod) :
  section_preset cfg sname = None ->
  process_section w cfg sname s = Undefined
  /\ (sname ∈ map fst cfg ->
      is_channel_section cfg
        (default "" (config_getstring cfg GLOBAL "hardware" None)) sname = true ->
      forall n s', loadconfig w cfg s <> Ret n s').
Proof.
  intros Hp. split; [by apply process_section_no_preset|].
  intros Hin Hch n s'. rewrite loadconfig_split. intros H.
  apply bind_inv in H as (u1 & s1 & _ & H).
  apply bind_inv in H as (u2 & s2 & _ & H).
  apply bind_inv in H as (u3 & s3 & H3 & _).
  revert H3. apply run_threads_never_returns.
  apply Exists_exists. exists (process_section_thread w cfg sname).
  split; [|by apply process_section_thread_no_preset].
  unfold section_threads. apply list_elem_of_fmap. exists sname. split; [done|].
  apply list_elem_of_filter. by split.
Qed.

Lemma section_without_preset_witness :
  let s := radiod_init FFTW_PATIENT 0 in
  section_preset example_config_no_preset "forty" = None
  /\ "forty" ∈ map fst example_config_no_preset
  /\ is_channel_section example_config_no_preset
       (default "" (config_getstring example_config_no_preset GLOBAL "hardware" None)) "forty"
     = true
  /\ process_section example_world example_config_no_preset "forty" s = Undefined
  /\ loadconfig example_world example_config_no_preset s <> Ret 1 s.
Proof.
  intros s.
  assert (section_preset example_config_no_preset "forty" = None) as H
    by (vm_compute; reflexivity).
  assert ("forty" ∈ map fst example_config_no_preset) as Hin
    by (do 2 apply list_elem_of_further; apply list_elem_of_here).
  assert (is_channel_section example_config_no_preset
            (default "" (config_getstring example_config_no_preset GLOBAL "hardware" None))
            "forty" = true) as Hch by (vm_compute; reflexivity).
  pose proof (section_without_preset example_world example_config_no_preset "forty" s H)
    as [H1 H2].
  exact (conj H (conj Hin (conj Hch (conj H1 (H2 Hin Hch 1 s))))).
Defined.

(* ================================================================= *)
(** ** The configuration directory *)

Lemma fprintf_text_run (text : string) (s : radiod) :
  fprintf_text text s = Ret tt (set_trace (trace s ++ [Ev_write 2 text]) s).
Proof. done. Qed.

Lemma bind_fprintf_text {B : Type} (text : string) (k : unit -> prog B) (s : radiod) :
  (fprintf_text text ≫= k) s = k tt (set_trace (trace s ++ [Ev_write 2 text]) s).
Proof. done. Qed.

Lemma collect_subfiles_take (fs : filesystem) (dir : string) (entries subfiles : list string) :
  (length subfiles <= n_subfiles)%nat ->
  collect_subfiles fs dir entries subfiles =
  (subfiles ++ take (n_subfiles - length subfiles)
                 (filter (fun name => is_conf_file fs dir name = true) entries))%list.
Proof.
  revert subfiles. induction entries as [|name rest IH]; intros subfiles Hlen.
  - cbn [collect_subfiles]. by rewrite filter_nil, take_nil, app_nil_r.
  - cbn [collect_subfiles]. destruct (Nat.ltb_spec (length subfiles) n_subfiles) as [Hlt|Hge].
    + rewrite filter_cons. destruct (is_conf_file fs dir name) eqn:E.
      * rewrite decide_True by done. rewrite IH by (rewrite length_app; cbn; lia).
        rewrite <- app_assoc, length_app. cbn [length app].
        replace (n_subfiles - length subfiles)%nat
          with (S (n_subfiles - (length subfiles + 1)))%nat by lia.
        done.
      * rewrite decide_False by congruence. by apply IH.
    + replace (n_subfiles - length subfiles)%nat with 0%nat by lia.
      by rewrite take_0, app_nil_r.
Qed.

Lemma collect_subfiles_all (fs : filesystem) (dir : string) (entries : list string) :
  (length (filter (fun name => is_conf_file fs dir name = true) entries) <= 100)%nat ->
  collect_subfiles fs dir entries []
  = filter (fun name => is_conf_file fs dir name = true) entries.
Proof.
  intros H. rewrite collect_subfiles_take by (cbn; unfold n_subfiles; lia).
  by apply take_ge.
Qed.

(** X19.  The components of a configuration directory: the loop over
    [readdir] keeps the first 100 names, in the order of the directory,
    that end in ".conf" and are regular files, and no more; with 100 such
    files or fewer it keeps them all. *)
Theorem directory_components (fs : filesystem) (dir : string) (entries : list string) :
  let conf := filter (fun name => is_conf_file fs dir name = true) entries in
  collect_subfiles fs dir entries [] = take 100 conf
  /\ (length (collect_subfiles fs dir entries []) <= 100)%nat
  /\ ((length conf <= 100)%nat -> collect_subfiles fs dir entries [] = conf).
Proof.
  intros conf.
  assert (collect_subfiles fs dir entries [] = take 100 conf) as E.
  { rewrite collect_subfiles_take by (cbn; unfold n_subfiles; lia). done. }
  rewrite E. split; [done|]. split; [rewrite length_take; lia|].
  intros H. by apply take_ge.
Qed.

Lemma directory_components_witness :
  let entries := ["."; "20-channels.conf"; "README"; ".."; "10-global.conf"] in
  (length (filter (fun name => is_conf_file example_fs example_dir name = true) entries)
   <= 100)%nat
  /\ collect_subfiles example_fs example_dir entries [] = ["20-channels.conf"; "10-global.conf"].
Proof.
  intros entries.
  assert (filter (fun name => is_conf_file example_fs example_dir name = true) entries
          = ["20-channels.conf"; "10-global.conf"]) as E by (vm_compute; reflexivity).
  assert (length (filter (fun name => is_conf_file example_fs example_dir name = true) entries)
          <= 100)%nat as H by (rewrite E; cbn; lia).
  pose proof (proj2 (proj2 (directory_components example_fs example_dir entries)) H) as HT.
  exact (conj H (eq_trans HT E)).
Defined.

(** The order of [strcmp] on the bytes of the pointers. *)
Lemma bytes_le_trans (a b c : list Z) :
  bytes_le a b = true -> bytes_le b c = true -> bytes_le a c = true.
Proof.
  revert b c. induction a as [|x a IH]; intros [|y b] [|z c]; cbn; try done.
  intros Hab Hbc.
  apply orb_true_iff in Hab as [Hab|[Hxy Hab]%andb_true_iff];
    apply orb_true_iff in Hbc as [Hbc|[Hyz Hbc]%andb_true_iff];
    apply orb_true_iff.
  - left. lia.
  - left. lia.
  - left. lia.
  - right. apply andb_true_iff. split; [lia|]. by apply (IH b).
Qed.

Lemma bytes_le_total (a b : list Z) : bytes_le a b = true \/ bytes_le b a = true.
Proof.
  revert b. induction a as [|x a IH]; intros [|y b]; cbn; try (by left); try (by right).
  destruct (Z.ltb_spec x y); [by left|]. destruct (Z.ltb_spec y x); [by right|].
  assert (x = y) as -> by lia. rewrite Z.eqb_refl. cbn. apply IH.
Qed.

#[global] Instance pointer_le_trans : Transitive pointer_le.
Proof. intros p q r. apply bytes_le_trans. Qed.

#[global] Instance pointer_le_total : Total pointer_le.
Proof. intros p q. apply bytes_le_total. Qed.

Lemma subfile_pointers_names (fs : filesystem) (subfiles : list string) :
  map snd (subfile_pointers fs subfiles) = subfiles.
Proof.
  unfold subfile_pointers.
  assert (forall f : nat -> string -> Z,
            map snd (imap (fun i name => (f i name, name)) subfiles) = subfiles) as H.
  { induction subfiles as [|name rest IH]; intros f; [done|].
    cbn. f_equal. apply (IH (fun i name => f (S i) name)). }
  apply H.
Qed.

Lemma append_assoc (a b c : string) : (a +:+ b) +:+ c = a +:+ (b +:+ c).
Proof.
  induction a as [|x a IH]; [done|].
  change (String x ((a +:+ b) +:+ c) = String x (a +:+ (b +:+ c))). by rewrite IH.
Qed.

Lemma copy_lines_reliable (fs : filesystem) (tempfilename : string) (lines : list string)
  (content : string) (s : radiod) :
  reliable_temp fs ->
  copy_lines fs tempfilename lines content s = Ret (content +:+ String.concat "" lines) s.
Proof.
  intros Hrel. revert content. induction lines as [|linep rest IH]; intros content.
  - cbn [copy_lines]. unfold String.concat. by rewrite append_empty_r.
  - cbn [copy_lines]. rewrite Hrel, IH, append_assoc. do 2 f_equal.
    destruct rest; [by rewrite append_empty_r | done].
Qed.

Lemma concat_cons (x : string) (l : list string) :
  String.concat "" (x :: l) = x +:+ String.concat "" l.
Proof. destruct l; [by rewrite append_empty_r | done]. Qed.

Lemma copy_components_reliable (fs : filesystem) (dir tempfilename : string)
  (names : list string) (content : string) (s : radiod) :
  reliable_temp fs -> readable fs dir names ->
  copy_components fs dir tempfilename names content s
  = Ret (content +:+ merged_text fs dir names) s.
Proof.
  intros Hrel Hread. revert content.
  induction Hread as [|name rest [lines Hname] Hrest IH]; intros content.
  - cbn. by rewrite append_empty_r.
  - cbn [copy_components]. unfold copy_component. rewrite Hname.
    erewrite bind_Ret by (by apply copy_lines_reliable).
    rewrite IH, Hrel. cbn [snd]. f_equal.
    unfold merged_text. rewrite map_cons, concat_cons. unfold component_text at 2.
    rewrite Hname. by rewrite !append_assoc.
Qed.

(** X21.  A configuration directory whose components can all be read, with
    writes to the temporary file that succeed: the text handed to iniparser
    is, for each component, a comment line with the name followed by the
    lines of the component; nothing else is written, and nothing is
    reported.  The components come in the order in which [qsort] with
    [strcmp] leaves the array, which is the order of the bytes of the
    pointers to the names and not that of the names. *)
Theorem directory_merged (fs : filesystem) (file dname dir tempfilename : string)
  (entries : list string) (s : radiod) :
  let subfiles := collect_subfiles fs dir entries [] in
  let sorted := qsort_strcmp (subfile_pointers fs subfiles) in
  reliable_temp fs -> readable fs dir (map snd sorted) ->
  subfiles <> [] ->
  mkstemp fs = inl tempfilename -> fdopen_temp fs = None ->
  load_directory fs file dname dir entries s
  = Ret (iniparser_load_temp fs (merged_text fs dir (map snd sorted))) s
  /\ StronglySorted pointer_le sorted
  /\ sorted ≡ₚ subfile_pointers fs subfiles
  /\ map snd sorted ≡ₚ subfiles.
Proof.
  intros subfiles sorted Hrel Hread Hne Htmp Hfd. split; [|split; [|split]].
  - unfold load_directory. rewrite Htmp, Hfd. fold subfiles.
    destruct subfiles as [|n0 l] eqn:E; [done|].
    cbn [length Nat.eqb].
    fold sorted. erewrite bind_Ret by (by apply copy_components_reliable). done.
  - apply StronglySorted_merge_sort; apply _.
  - apply merge_sort_Permutation.
  - transitivity (map snd (subfile_pointers fs subfiles)).
    + apply Permutation_map, merge_sort_Permutation.
    + by rewrite subfile_pointers_names.
Qed.

Lemma directory_merged_witness :
  let entries := ["."; "20-channels.conf"; "README"; ".."; "10-global.conf"] in
  let s := radiod_init FFTW_PATIENT 0 in
  let sorted := qsort_strcmp (subfile_pointers example_fs
                                (collect_subfiles example_fs example_dir entries [])) in
  reliable_temp example_fs
  /\ readable example_fs example_dir (map snd sorted)
  /\ collect_subfiles example_fs example_dir entries [] <> []
  /\ map snd sorted = ["20-channels.conf"; "10-global.conf"]
  /\ load_directory example_fs "/etc/radio/radiod@hf.conf" example_dir example_dir entries s
     = Ret (Some example_config_merged) s.
Proof.
  intros entries s sorted.
  assert (reliable_temp example_fs) as H1 by (intros c t; reflexivity).
  assert (map snd sorted = ["20-channels.conf"; "10-global.conf"]) as E
    by (vm_compute; reflexivity).
  assert (readable example_fs example_dir (map snd sorted)) as H2.
  { rewrite E. repeat constructor; eexists; vm_compute; reflexivity. }
  assert (collect_subfiles example_fs example_dir entries [] <> []) as H3
    by (vm_compute; discriminate).
  pose proof (proj1 (directory_merged example_fs "/etc/radio/radiod@hf.conf" example_dir
                       example_dir "/tmp/radiod-configAb3dE9xQ" entries s
                       H1 H2 H3 eq_refl eq_refl)) as HT.
  assert (iniparser_load_temp example_fs (merged_text example_fs example_dir (map snd sorted))
          = Some example_config_merged) as E2 by (vm_compute; reflexivity).
  fold sorted in HT. rewrite E2 in HT.
  exact (conj H1 (conj H2 (conj H3 (conj E HT)))).
Defined.

(* ================================================================= *)
(** ** What reading the configuration leaves alone *)

Lemma only_writes_ret {A : Type} (a : A) : only_writes (mret a : prog A).
Proof. intros s. exists a, s. by rewrite set_trace_same. Qed.

Lemma only_writes_fprintf_text (text : string) : only_writes (fprintf_text text).
Proof. intros s. eexists tt, _. split; [apply fprintf_text_run | done]. Qed.

Lemma only_writes_bind {A B : Type} (m : prog A) (k : A -> prog B) :
  only_writes m -> (forall a, only_writes (k a)) -> only_writes (m ≫= k).
Proof.
  intros Hm Hk s. destruct (Hm s) as (a & s1 & E1 & H1).
  destruct (Hk a s1) as (b & s2 & E2 & H2).
  exists b, s2. rewrite (bind_Ret _ _ _ _ _ E1). split; [done|].
  rewrite H2, H1. by rewrite set_trace_twice, trace_set_trace.
Qed.

Ltac only_writes_step :=
  first
    [ apply only_writes_ret | apply only_writes_fprintf_text
    | apply only_writes_bind; [|intros ?]
    | match goal with
      | |- only_writes (if ?b then _ else _) => destruct b
      | |- only_writes (match ?x with _ => _ end) => destruct x
      end ].

Lemma copy_lines_only_writes (fs : filesystem) (tempfilename : string) (lines : list string)
  (content : string) : only_writes (copy_lines fs tempfilename lines content).
Proof.
  revert content. induction lines as [|linep rest IH]; intros content; cbn [copy_lines].
  - apply only_writes_ret.
  - destruct (temp_write fs content linep) as [[error|] content'];
      [repeat only_writes_step | apply IH].
Qed.

Lemma copy_components_only_writes (fs : filesystem) (dir tempfilename : string)
  (names : list string) (content : string) :
  only_writes (copy_components fs dir tempfilename names content).
Proof.
  revert content. induction names as [|name rest IH]; intros content; cbn [copy_components].
  - apply only_writes_ret.
  - apply only_writes_bind; [|intros; apply IH].
    unfold copy_component.
    destruct (open_component fs dir name);
      [repeat only_writes_step | repeat only_writes_step | apply copy_lines_only_writes].
Qed.

Lemma load_directory_only_writes (fs : filesystem) (file dname dir : string)
  (entries : list string) : only_writes (load_directory fs file dname dir entries).
Proof.
  unfold load_directory.
  repeat first [ apply copy_components_only_writes | only_writes_step ].
Qed.

Lemma read_config_only_writes (w : world) (fs : filesystem) (file : string) :
  only_writes (read_config w fs file).
Proof.
  unfold read_config.
  repeat first [ apply load_directory_only_writes | only_writes_step ].
Qed.

Lemma loadconfig_nonnegative (w : world) (cfg : dictionary) (s s' : radiod) (n : Z) :
  0 <= Nchans s -> loadconfig w cfg s = Ret n s' -> 0 <= n.
Proof.
  intros H0 H. apply loadconfig_registry in H as (_ & _ & _ & Hn & _). lia.
Qed.

(** A return that is not negative comes from a table that was read. *)
Lemma loadconfig_file_loaded (w : world) (fs : filesystem) (file : string)
  (s s' : radiod) (n : Z) :
  0 <= n ->
  loadconfig_file w fs file s = Ret n s' ->
  exists cfg s1, read_config w fs file s = Ret (Some cfg) s1
                 /\ s1 = set_trace (trace s1) s
                 /\ loadconfig w cfg s1 = Ret n s'.
Proof.
  intros Hn H.
  destruct (read_config_only_writes w fs file s) as (t & s1 & Hr & Hs1).
  unfold loadconfig_file in H.
  destruct (String.length file =? 0)%nat; [injection H as <- <-; lia|].
  rewrite (bind_Ret _ _ _ _ _ Hr) in H.
  destruct t as [cfg|]; [|injection H as <- <-; lia].
  exists cfg, s1. done.
Qed.

(** X22.  [loadconfig] on the name of a file: reading the file or the
    directory always comes to an end and changes no global, whatever the
    file system holds; [loadconfig] returns -1 exactly when the name is
    empty or no table could be read, and then nothing but messages has
    happened; otherwise it returns what the start-up on the table that was
    read returns, which is not negative. *)
Theorem loadconfig_file_result (w : world) (fs : filesystem) (file : string)
  (s s' : radiod) (n : Z) :
  0 <= Nchans s ->
  loadconfig_file w fs file s = Ret n s' ->
  (exists t s1, read_config w fs file s = Ret t s1 /\ s1 = set_trace (trace s1) s)
  /\ (n < 0 ->
      n = -1 /\ s' = set_trace (trace s') s
      /\ (file = "" \/ exists s1, read_config w fs file s = Ret None s1))
  /\ (0 <= n ->
      exists cfg s1, file <> "" /\ read_config w fs file s = Ret (Some cfg) s1
                     /\ loadconfig w cfg s1 = Ret n s').
Proof.
  intros H0 H.
  destruct (read_config_only_writes w fs file s) as (t & s1 & Hr & Hs1).
  split; [eauto|].
  unfold loadconfig_file in H.
  destruct file as [|c file].
  { injection H as <- <-. split; [|lia]. intros _. by rewrite set_trace_same; auto. }
  cbn [String.length Nat.eqb] in H. rewrite (bind_Ret _ _ _ _ _ Hr) in H.
  destruct t as [cfg|].
  - assert (0 <= n) as Hn.
    { apply (loadconfig_nonnegative w cfg s1 s'); [|done]. rewrite Hs1. by destruct s. }
    split; [lia|]. intros _. exists cfg, s1. done.
  - injection H as <- <-. split; [|lia]. intros _. split; [done|]. split; [done|].
    right. eauto.
Qed.

Lemma loadconfig_file_result_witness :
  let s := radiod_init FFTW_PATIENT 0 in
  0 <= Nchans s
  /\ loadconfig_file example_world example_fs "" s = Ret (-1) s
  /\ -1 < 0
  /\ loadconfig_file example_world example_fs example_file s = Ret 1 example_file_final
  /\ 0 <= 1
  /\ s = set_trace (trace s) s
  /\ exists cfg s1, read_config example_world example_fs example_file s = Ret (Some cfg) s1
                    /\ loadconfig example_world cfg s1 = Ret 1 example_file_final.
Proof.
  intros s.
  assert (0 <= Nchans s) as H0 by (cbv [s radiod_init Nchans]; lia).
  assert (loadconfig_file example_world example_fs "" s = Ret (-1) s) as H1 by reflexivity.
  assert (-1 < 0) as H2 by lia.
  assert (loadconfig_file example_world example_fs example_file s = Ret 1 example_file_final)
    as H3 by (vm_compute; reflexivity).
  assert (0 <= 1) as H4 by lia.
  pose proof (proj1 (proj2 (loadconfig_file_result _ _ _ _ _ _ H0 H1)) H2) as (_ & Ha & _).
  pose proof (proj2 (proj2 (loadconfig_file_result _ _ _ _ _ _ H0 H3)) H4)
    as (cfg & s1 & _ & Hb & Hc).
  refine (conj H0 (conj H1 (conj H2 (conj H3 (conj H4 (conj Ha _)))))).
  exists cfg, s1. exact (conj Hb Hc).
Defined.

(* ================================================================= *)
(** ** The command line *)

Lemma count_v_cons (opt : ascii * string) (opts : list (ascii * string)) :
  count_v (opt :: opts) = (if Ascii.eqb opt.1 "v" then 1 else 0) + count_v opts.
Proof.
  unfold count_v. rewrite filter_cons.
  destruct (Ascii.eqb opt.1 "v") eqn:E.
  - rewrite decide_True by done. cbn [length]. lia.
  - rewrite decide_False by congruence. lia.
Qed.

Lemma count_v_nonneg (opts : list (ascii * string)) : 0 <= count_v opts.
Proof. unfold count_v. lia. Qed.

(** The loop over the options while they are plain ones. *)
Lemma getopt_loop_plain (w : world) (argv0 : string) (opts : list (ascii * string))
  (o : options) (s : radiod) :
  forallb plain_option opts = true ->
  INT_MIN <= Verbose s -> Verbose s + count_v opts <= INT_MAX ->
  getopt_loop w argv0 opts o s
  = Ret (fold_left (apply_option w) opts o) (set_Verbose (Verbose s + count_v opts) s).
Proof.
  revert o s. induction opts as [|[c optarg] opts IH]; intros o s Hp Hlo Hhi.
  - cbn. unfold count_v. cbn. by rewrite Z.add_0_r, set_Verbose_same.
  - change (plain_option (c, optarg) && forallb plain_option opts = true) in Hp.
    apply andb_true_iff in Hp as [Hc Hp].
    rewrite count_v_cons in Hhi |- *. pose proof (count_v_nonneg opts) as Hnn.
    unfold plain_option in Hc. cbn [fst] in Hc, Hhi |- *.
    cbn [getopt_loop fold_left]. unfold apply_option at 2. cbn [fst snd].
    destruct (Ascii.eqb c "V") eqn:EV.
    { apply Ascii.eqb_eq in EV as ->. done. }
    destruct (Ascii.eqb c "p") eqn:Ep.
    { assert (Ascii.eqb c "v" = false) as Ex
        by (apply Ascii.eqb_eq in Ep as ->; done).
      rewrite Ex in *.
      rewrite IH by (done || lia). by rewrite Z.add_0_l. }
    destruct (Ascii.eqb c "v") eqn:Ev.
    { rewrite bind_get, bind_int_checked by (apply in_int_between; lia).
      rewrite bind_modify, IH; rewrite ?Verbose_set_Verbose; try done; try lia.
      rewrite set_Verbose_twice.
      assert (Ascii.eqb c "N" = false) as Ex
        by (apply Ascii.eqb_eq in Ev as ->; done).
      rewrite Ex in *.
      do 2 f_equal. lia. }
    cbn in Hc. rewrite Hc. rewrite IH by (done || lia). by rewrite Z.add_0_l.
Qed.

(** The loop at the first option that is not a plain one. *)
Lemma getopt_loop_stop (w : world) (argv0 : string) (pre rest : list (ascii * string))
  (c : ascii) (optarg : string) (o : options) (s : radiod) :
  forallb plain_option pre = true -> plain_option (c, optarg) = false ->
  INT_MIN <= Verbose s -> Verbose s + count_v pre <= INT_MAX ->
  getopt_loop w argv0 (pre ++ (c, optarg) :: rest) o s
  = if Ascii.eqb c "V" then Exit EX_OK (set_Verbose (Verbose s + count_v pre) s)
    else Exit EX_USAGE
           (set_trace
              (trace s ++ [Ev_write 2 ("Unknown command line option " +:+ String c ""
                                       +:+ newline);
                           Ev_write 2 (usage argv0)])
              (set_Verbose (Verbose s + count_v pre) s)).
Proof.
  revert o s. induction pre as [|[c0 optarg0] pre IH]; intros o s Hp Hc Hlo Hhi.
  - cbn [app getopt_loop]. unfold count_v. cbn [filter length Z.of_nat].
    rewrite Z.add_0_r, set_Verbose_same.
    unfold plain_option in Hc. cbn [fst] in Hc.
    apply orb_false_iff in Hc as [Hc HN]. apply orb_false_iff in Hc as [Hp' Hv].
    destruct (Ascii.eqb c "V"); [done|]. rewrite Hp', Hv, HN.
    rewrite !bind_fprintf_text. unfold exit. rewrite set_trace_twice, trace_set_trace.
    by rewrite <- app_assoc.
  - change (plain_option (c0, optarg0) && forallb plain_option pre = true) in Hp.
    apply andb_true_iff in Hp as [Hc0 Hp].
    rewrite count_v_cons in Hhi |- *. pose proof (count_v_nonneg pre) as Hnn.
    unfold plain_option in Hc0. cbn [fst] in Hc0, Hhi |- *.
    cbn [app getopt_loop].
    destruct (Ascii.eqb c0 "V") eqn:EV.
    { apply Ascii.eqb_eq in EV as ->. done. }
    destruct (Ascii.eqb c0 "p") eqn:Ep.
    { assert (Ascii.eqb c0 "v" = false) as Ex
        by (apply Ascii.eqb_eq in Ep as ->; done).
      rewrite Ex in *.
      rewrite IH by (done || lia). by rewrite Z.add_0_l. }
    destruct (Ascii.eqb c0 "v") eqn:Ev.
    { rewrite bind_get, bind_int_checked by (apply in_int_between; lia).
      rewrite bind_modify, IH; rewrite ?Verbose_set_Verbose; try done; try lia.
      rewrite set_Verbose_twice.
      replace (Verbose s + 1 + count_v pre) with (Verbose s + (1 + count_v pre)) by lia.
      done. }
    cbn in Hc0. rewrite Hc0. rewrite IH by (done || lia). by rewrite Z.add_0_l.
Qed.

Lemma main_startup_options (w : world) (fs : filesystem) (argv0 : string)
  (opts : list (ascii * string)) (operands : list string) (s : radiod) :
  main_startup w fs argv0 opts operands s
  = (getopt_loop w argv0 opts (mk_options None None) ≫= fun o =>
       match operands with
       | [] => fprintf_text ("Configtable file missing" +:+ newline) ;; exit EX_NOINPUT
       | Config_file :: _ =>
           n ← loadconfig_file (set_Name (default Config_file (opt_Name o)) w) fs Config_file;
           if n <? 0 then
             fprintf_text ("Can't load config file " +:+ Config_file +:+ newline) ;;
             exit EX_NOINPUT
           else
             fprintf_text (pretty n +:+ " total demodulators started" +:+ newline) ;;
             ctl ← get Ctl_fd;
             when ((ctl =? -1) && (n =? 0))
               (fprintf_text
                  ("Warning: no control channel and no static demodulators, radiod won't do anything"
                   +:+ newline)) ;;
             mret n
       end)
      (set_trace (trace s ++ [Ev_write 2 ("Assertion checking enabled, execution will be slower"
                                          +:+ newline)]) s).
Proof. unfold main_startup. by rewrite bind_fprintf_text. Qed.

(** X23.  The options of the command line are handled from left to right,
    and at the first that is not [-p], [-v] or [-N] the program ends: with
    status 0 for [-V], and otherwise, that is for [-h] and for what
    [getopt] returns for an option it does not know, with the two lines
    about the unknown option and the usage and status EX_USAGE, 64.  What
    follows on the command line is not looked at and the configuration is
    not read: only [Verbose], counted up by the [-v] before, and the
    messages differ from the first state. *)
Theorem main_stops_at_option (w : world) (fs : filesystem) (argv0 : string)
  (pre rest : list (ascii * string)) (c : ascii) (optarg : string)
  (operands : list string) (s : radiod) :
  forallb plain_option pre = true -> plain_option (c, optarg) = false ->
  INT_MIN <= Verbose s -> Verbose s + count_v pre <= INT_MAX ->
  main_startup w fs argv0 (pre ++ (c, optarg) :: rest) operands s
  = if Ascii.eqb c "V" then Exit 0 (after_options pre s)
    else Exit 64
           (set_trace
              (trace (after_options pre s)
               ++ [Ev_write 2 ("Unknown command line option " +:+ String c "" +:+ newline);
                   Ev_write 2 (usage argv0)])
              (after_options pre s)).
Proof.
  intros Hp Hc Hlo Hhi. rewrite main_startup_options.
  set (s0 := set_trace _ s).
  assert (Verbose s0 = Verbose s) as Hv by done.
  pose proof (getopt_loop_stop w argv0 pre rest c optarg (mk_options None None) s0 Hp Hc
                ltac:(by rewrite Hv) ltac:(by rewrite Hv)) as Hrun.
  rewrite Hv in Hrun. unfold after_options. fold s0.
  destruct (Ascii.eqb c "V"); by rewrite (bind_Exit _ _ _ _ _ Hrun).
Qed.

Lemma main_stops_at_option_witness :
  let s := radiod_init FFTW_PATIENT 0 in
  forallb plain_option [("v"%char, "")] = true
  /\ plain_option ("V"%char, "") = false
  /\ INT_MIN <= Verbose s /\ Verbose s + count_v [("v"%char, "")] <= INT_MAX
  /\ main_startup example_world example_fs "radiod"
       [("v"%char, ""); ("V"%char, ""); ("N"%char, "x")] [example_file] s
     = Exit 0 (after_options [("v"%char, "")] s).
Proof.
  intros s.
  assert (forallb plain_option [("v"%char, "")] = true) as H1 by reflexivity.
  assert (plain_option ("V"%char, "") = false) as H2 by reflexivity.
  assert (INT_MIN <= Verbose s) as H3 by (cbv [s radiod_init Verbose INT_MIN]; lia).
  assert (Verbose s + count_v [("v"%char, "")] <= INT_MAX) as H4
    by (vm_compute; discriminate).
  exact (conj H1 (conj H2 (conj H3 (conj H4
           (main_stops_at_option example_world example_fs "radiod" [("v"%char, "")]
              [("N"%char, "x")] "V" "" [example_file] s H1 H2 H3 H4))))).
Defined.

(** X24.  With options that let it go on, [main] ends with EX_NOINPUT, 66,
    in two cases: when no operand names the configuration, which it says,
    and when [loadconfig] returns a negative value for the operand, of
    which it says that it cannot load the file.  The instance name that
    [loadconfig] works with is the argument of the last [-N], or else the
    operand itself. *)
Theorem main_no_input (w : world) (fs : filesystem) (argv0 : string)
  (opts : list (ascii * string)) (s : radiod) :
  forallb plain_option opts = true ->
  INT_MIN <= Verbose s -> Verbose s + count_v opts <= INT_MAX ->
  main_startup w fs argv0 opts [] s
  = Exit 66 (set_trace (trace (after_options opts s)
                        ++ [Ev_write 2 ("Configtable file missing" +:+ newline)])
               (after_options opts s))
  /\ (forall file more n s',
        let name := default file
                      (opt_Name (fold_left (apply_option w) opts (mk_options None None))) in
        loadconfig_file (set_Name name w) fs file (after_options opts s) = Ret n s' ->
        n < 0 ->
        main_startup w fs argv0 opts (file :: more) s
        = Exit 66 (set_trace (trace s' ++ [Ev_write 2 ("Can't load config file " +:+ file
                                                       +:+ newline)]) s')).
Proof.
  intros Hp Hlo Hhi.
  assert (forall operands,
            main_startup w fs argv0 opts operands s
            = match operands with
              | [] => (fprintf_text ("Configtable file missing" +:+ newline) ;; exit EX_NOINPUT)
                        (after_options opts s)
              | file :: _ =>
                  (n ← loadconfig_file
                         (set_Name (default file
                                      (opt_Name (fold_left (apply_option w) opts
                                                   (mk_options None None)))) w) fs file;
                   if n <? 0 then
                     fprintf_text ("Can't load config file " +:+ file +:+ newline) ;;
                     exit EX_NOINPUT
                   else
                     fprintf_text (pretty n +:+ " total demodulators started" +:+ newline) ;;
                     ctl ← get Ctl_fd;
                     when ((ctl =? -1) && (n =? 0))
                       (fprintf_text
                          ("Warning: no control channel and no static demodulators, radiod won't do anything"
                           +:+ newline)) ;;
                     mret n) (after_options opts s)
              end) as Hmain.
  { intros operands. rewrite main_startup_options.
    set (s0 := set_trace _ s).
    assert (Verbose s0 = Verbose s) as Hv by done.
    pose proof (getopt_loop_plain w argv0 opts (mk_options None None) s0 Hp
                  ltac:(by rewrite Hv) ltac:(by rewrite Hv)) as Hrun.
    rewrite Hv in Hrun. rewrite (bind_Ret _ _ _ _ _ Hrun).
    unfold after_options. fold s0. by destruct operands. }
  split.
  - rewrite Hmain. by rewrite bind_fprintf_text.
  - intros file more n s' name Hrun Hn. rewrite Hmain.
    rewrite (bind_Ret _ _ _ _ _ Hrun).
    destruct (Z.ltb_spec n 0); [|lia]. by rewrite bind_fprintf_text.
Qed.

Lemma main_no_input_witness :
  let s := radiod_init FFTW_PATIENT 0 in
  forallb plain_option example_opts = true
  /\ INT_MIN <= Verbose s /\ Verbose s + count_v example_opts <= INT_MAX
  /\ main_startup example_world example_fs "radiod" example_opts [] s
     = Exit 66 (set_trace (trace (after_options example_opts s)
                           ++ [Ev_write 2 ("Configtable file missing" +:+ newline)])
                  (after_options example_opts s))
  /\ loadconfig_file (set_Name "hf" example_world) example_fs "" (after_options example_opts s)
     = Ret (-1) (after_options example_opts s)
  /\ -1 < 0
  /\ main_startup example_world example_fs "radiod" example_opts [""] s
     = Exit 66 (set_trace (trace (after_options example_opts s)
                           ++ [Ev_write 2 ("Can't load config file " +:+ "" +:+ newline)])
                  (after_options example_opts s)).
Proof.
  intros s.
  assert (forallb plain_option example_opts = true) as H1 by reflexivity.
  assert (INT_MIN <= Verbose s) as H2 by (cbv [s radiod_init Verbose INT_MIN]; lia).
  assert (Verbose s + count_v example_opts <= INT_MAX) as H3 by (vm_compute; discriminate).
  assert (loadconfig_file (set_Name "hf" example_world) example_fs ""
            (after_options example_opts s) = Ret (-1) (after_options example_opts s)) as H4
    by reflexivity.
  assert (-1 < 0) as H5 by lia.
  pose proof (main_no_input example_world example_fs "radiod" example_opts s H1 H2 H3)
    as [Ha Hb].
  exact (conj H1 (conj H2 (conj H3 (conj Ha (conj H4 (conj H5 (Hb "" [] _ _ H4 H5))))))).
Defined.

Lemma setup_hardware_verbose (w : world) (cfg : dictionary) (sname : string) :
  preserves Verbose (setup_hardware w cfg sname).
Proof. unfold setup_hardware, filter_sizes, fprintf_stderr, emit. frame. Qed.

Lemma after_globals_verbose (w : world) (cfg : dictionary) :
  preserves Verbose
    (load_fft_plan_level cfg ;; load_presets w cfg ;;
     modify (set_Metadata_dest_string (status_name w cfg)) ;;
     load_hardware w cfg ;; modify (set_Data (data_name w cfg)) ;;
     setup_template w cfg ;; open_output_sockets w ;; check_stream_names ;;
     open_control w ;; start_sections w cfg ;; get Nchans).
Proof.
  unfold load_fft_plan_level, load_presets, load_hardware, setup_template,
    open_output_sockets, check_stream_names, open_control, fprintf_stderr, emit.
  repeat first [ apply setup_hardware_verbose
               | apply start_sections_preserves; view
               | frame_step ].
Qed.

Lemma load_globals_verbose (w : world) (cfg : dictionary) (s s' : radiod) (u : unit) :
  load_globals w cfg s = Ret u s' ->
  Verbose s' = config_getint w cfg GLOBAL "verbose" (Verbose s).
Proof.
  unfold load_globals. intros H.
  apply bind_inv in H as (u0 & s0 & H0 & H).
  rewrite for_each_fprintf in H0. injection H0 as _ <-.
  rewrite bind_get, bind_modify, bind_get, bind_modify in H.
  apply bind_inv in H as (idle & s1 & Hi & H).
  apply int_of_floating_inv in Hi as (_ & -> & _).
  rewrite bind_modify, bind_get in H.
  apply bind_inv in H as (u2 & s2 & Hw & H).
  apply when_inv in Hw as [[_ Hw] | [_ ->]]; [discriminate|].
  rewrite bind_modify in H. injection H as _ <-. done.
Qed.

Lemma loadconfig_verbose (w : world) (cfg : dictionary) (s s' : radiod) (n : Z) :
  loadconfig w cfg s = Ret n s' ->
  Verbose s' = config_getint w cfg GLOBAL "verbose" (Verbose s).
Proof.
  unfold loadconfig. intros H.
  apply bind_inv in H as (u1 & s1 & H1 & H).
  apply load_globals_verbose in H1.
  apply (preserves_Ret _ _ _ _ _ (after_globals_verbose w cfg)) in H. congruence.
Qed.

(** X25.  A start-up that succeeds.  When [main] gets as far as its last
    loop, a table has been read for the first operand, the other operands
    ignored, and [loadconfig] has returned on it with the instance name of
    the last [-N], or the operand; the number of demodulators that [main]
    reports is the count of channels and is not negative; [Verbose] is the
    [verbose] entry of the table if it has one, and only otherwise the
    number of [-v] options; and the warning that nothing will happen is
    written exactly when no channel was started and [Ctl_fd] is -1. *)
Theorem main_started (w : world) (fs : filesystem) (argv0 : string)
  (opts : list (ascii * string)) (file : string) (more : list string)
  (s s' : radiod) (n : Z) :
  forallb plain_option opts = true ->
  INT_MIN <= Verbose s -> Verbose s + count_v opts <= INT_MAX -> 0 <= Nchans s ->
  main_startup w fs argv0 opts (file :: more) s = Ret n s' ->
  let name := default file
                (opt_Name (fold_left (apply_option w) opts (mk_options None None))) in
  exists cfg s1 s2,
    read_config (set_Name name w) fs file (after_options opts s) = Ret (Some cfg) s1
    /\ loadconfig (set_Name name w) cfg s1 = Ret n s2
    /\ 0 <= n /\ n = Nchans s'
    /\ Verbose s' = config_getint w cfg GLOBAL "verbose" (Verbose s + count_v opts)
    /\ s' = set_trace (trace s') s2
    /\ trace s' =
       (trace s2
        ++ [Ev_write 2 (pretty n +:+ " total demodulators started" +:+ newline)]
        ++ (if (Ctl_fd s2 =? -1) && (n =? 0)
            then [Ev_write 2 ("Warning: no control channel and no static demodulators, radiod won't do anything" +:+ newline)]
            else []))%list.
Proof.
  intros Hp Hlo Hhi HN H name.
  rewrite main_startup_options in H.
  set (s0 := set_trace _ s) in H.
  assert (Verbose s0 = Verbose s) as Hv by done.
  pose proof (getopt_loop_plain w argv0 opts (mk_options None None) s0 Hp
                ltac:(by rewrite Hv) ltac:(by rewrite Hv)) as Hrun.
  rewrite Hv in Hrun. rewrite (bind_Ret _ _ _ _ _ Hrun) in H.
  change (set_Verbose (Verbose s + count_v opts) s0) with (after_options opts s) in H.
  fold name in H.
  apply bind_inv in H as (n0 & s2 & Hload & H).
  destruct (Z.ltb_spec n0 0) as [Hlt|Hge]; [by rewrite bind_fprintf_text in H|].
  destruct (loadconfig_file_loaded _ _ _ _ _ _ Hge Hload) as (cfg & s1 & Hread & Hs1 & Hcfg).
  rewrite bind_fprintf_text, bind_get in H.
  exists cfg, s1, s2.
  pose proof (loadconfig_verbose _ _ _ _ _ Hcfg) as HV.
  assert (Verbose s1 = Verbose s + count_v opts) as HV1 by (by rewrite Hs1).
  rewrite HV1 in HV.
  apply loadconfig_registry in Hcfg as Hg. destruct Hg as (Hn2 & _).
  cbn [Ctl_fd set_trace] in H.
  destruct ((Ctl_fd s2 =? -1) && (n0 =? 0)) eqn:Ew.
  - rewrite when_true, bind_fprintf_text in H. injection H as <- <-.
    rewrite Ew, trace_set_trace, set_trace_twice, <- app_assoc.
    split; [done|]. split; [done|]. split; [done|].
    split; [by destruct s2|]. split; [exact HV|]. done.
  - rewrite when_false, bind_mret in H. injection H as <- <-.
    rewrite Ew, trace_set_trace, app_nil_r.
    split; [done|]. split; [done|]. split; [done|].
    split; [by destruct s2|]. split; [exact HV|]. done.
Qed.

Lemma main_started_witness :
  let s := radiod_init FFTW_PATIENT 0 in
  forallb plain_option example_opts = true
  /\ INT_MIN <= Verbose s /\ Verbose s + count_v example_opts <= INT_MAX /\ 0 <= Nchans s
  /\ main_startup example_world example_fs "radiod" example_opts [example_file] s
     = Ret 1 example_main_final
  /\ 1 = Nchans example_main_final
  /\ Verbose example_main_final = 2.
Proof.
  intros s.
  assert (forallb plain_option example_opts = true) as H1 by reflexivity.
  assert (INT_MIN <= Verbose s) as H2 by (cbv [s radiod_init Verbose INT_MIN]; lia).
  assert (Verbose s + count_v example_opts <= INT_MAX) as H3 by (vm_compute; discriminate).
  assert (0 <= Nchans s) as H4 by (cbv [s radiod_init Nchans]; lia).
  assert (main_startup example_world example_fs "radiod" example_opts [example_file] s
          = Ret 1 example_main_final) as H5 by (vm_compute; reflexivity).
  assert (Verbose example_main_final = 2) as H6 by (vm_compute; reflexivity).
  pose proof (main_started _ _ _ _ _ _ _ _ _ H1 H2 H3 H4 H5)
    as (cfg & s1 & s2 & _ & _ & _ & Hn & _).
  exact (conj H1 (conj H2 (conj H3 (conj H4 (conj H5 (conj Hn H6)))))).
Defined.

(* ================================================================= *)
(** ** The last loop of [main] *)

Lemma set_trace_chain (s s1 s' : radiod) :
  s' = set_trace (trace s') s1 -> s1 = set_trace (trace s1) s -> s' = set_trace (trace s') s.
Proof.
  intros H1 H2. rewrite H1, trace_set_trace, H2. by rewrite set_trace_twice.
Qed.

Lemma long_checked_quiet (z : Z) (s : radiod) :
  long_checked z s = Ret z s \/ long_checked z s = Undefined.
Proof. unfold long_checked. destruct (in_long z); auto. Qed.

Lemma elapsed_quiet (a b : timespec) (s : radiod) :
  (exists x, elapsed a b s = Ret x s) \/ elapsed a b s = Undefined.
Proof.
  unfold elapsed.
  destruct (long_checked_quiet (tv_sec a - tv_sec b) s) as [E|E];
    [rewrite (bind_Ret _ _ _ _ _ E) | right; by apply bind_Undefined].
  destruct (long_checked_quiet (tv_nsec a - tv_nsec b) s) as [E2|E2];
    [rewrite (bind_Ret _ _ _ _ _ E2) | right; by apply bind_Undefined].
  left. eauto.
Qed.

Lemma cpu_usage_quiet (format : spec_float -> string) (start : timespec)
  (last : timespec * timespec) (now : reading) (s : radiod) :
  (exists text, cpu_usage format start last now s
                = Ret (realtime now, cputime now)
                    (set_trace (trace s ++ [Ev_write 2 text]) s))
  \/ cpu_usage format start last now s = Undefined.
Proof.
  unfold cpu_usage.
  destruct (elapsed_quiet (realtime now) start s) as [[x E]|E];
    [rewrite (bind_Ret _ _ _ _ _ E) | right; by apply bind_Undefined].
  destruct (elapsed_quiet (realtime now) last.1 s) as [[y E2]|E2];
    [rewrite (bind_Ret _ _ _ _ _ E2) | right; by apply bind_Undefined].
  destruct (elapsed_quiet (cputime now) last.2 s) as [[z E3]|E3];
    [rewrite (bind_Ret _ _ _ _ _ E3) | right; by apply bind_Undefined].
  left. rewrite bind_fprintf_text. eauto.
Qed.

(** X26.  The last loop of [main] never ends the program and changes no
    global: after any number of turns it has only slept and, when [Verbose]
    is not 0, written its reports, one a turn; with [Verbose] at 0 it
    writes nothing.  So once the start-up is over, only a signal ends
    [radiod]. *)
Theorem main_loop_only_reports (format : spec_float -> string) (start : timespec)
  (readings : list reading) (last : timespec * timespec) (s : radiod) :
  match main_loop format start last readings s with
  | Ret _ s' =>
      s' = set_trace (trace s') s
      /\ exists written,
           trace s' = (trace s ++ written)%list
           /\ Forall (fun e => match e with
                               | Ev_sleep 60 _ => True
                               | Ev_write 2 _ => Verbose s <> 0
                               | _ => False
                               end) written
           /\ length (filter (fun e => match e with Ev_sleep _ _ => true | _ => false end
                                       = true) written) = length readings
  | Exit _ _ | Abort _ => False
  | Undefined => True
  end.
Proof.
  revert last s. induction readings as [|now rest IH]; intros last s.
  - cbn. split; [by rewrite set_trace_same|]. exists []. by rewrite app_nil_r.
  - cbn [main_loop]. rewrite bind_get. unfold emit at 1. rewrite bind_modify, bind_get.
    set (s1 := set_trace (trace s ++ [Ev_sleep 60 (Stop_transfers s)]) s).
    assert (Verbose s1 = Verbose s) as Hv by done. rewrite Hv.
    destruct (Z.eqb_spec (Verbose s) 0) as [Hz|Hnz]; cbn [negb].
    + specialize (IH last s1).
      destruct (main_loop format start last rest s1) as [u s'| | |]; try done.
      destruct IH as (Hs' & written & Htr & Hall & Hlen).
      split; [by apply (set_trace_chain s s1)|].
      exists (Ev_sleep 60 (Stop_transfers s) :: written).
      split; [rewrite Htr; unfold s1; by rewrite trace_set_trace, <- app_assoc|]. split.
      * constructor; [done|]. by rewrite Hv in Hall.
      * rewrite filter_cons, decide_True by done. cbn [length]. by rewrite Hlen.
    + destruct (cpu_usage_quiet format start last now s1) as [[text E]|E];
        [rewrite (bind_Ret _ _ _ _ _ E) | by rewrite (bind_Undefined _ _ _ E)].
      set (s2 := set_trace (trace s1 ++ [Ev_write 2 text]) s1).
      specialize (IH (realtime now, cputime now) s2).
      destruct (main_loop format start _ rest s2) as [u s'| | |]; try done.
      destruct IH as (Hs' & written & Htr & Hall & Hlen).
      split; [apply (set_trace_chain s s2); [done|]; by apply (set_trace_chain s s1)|].
      exists (Ev_sleep 60 (Stop_transfers s) :: Ev_write 2 text :: written).
      split; [rewrite Htr; unfold s2, s1; by rewrite !trace_set_trace, <- !app_assoc|]. split.
      * constructor; [done|]. constructor; [done|]. done.
      * rewrite filter_cons, decide_True by done.
        rewrite filter_cons, decide_False by done. cbn [length]. by rewrite Hlen.
Qed.

(* ================================================================= *)
(** ** A section with an [ssrc] entry *)

Lemma probe_key_inj (r : Z) (i j : nat) :
  (i < 100)%nat -> (j < 100)%nat -> probe_key r i = probe_key r j -> i = j.
Proof.
  unfold probe_key, to_uint32, UINT32_MOD. intros Hi Hj E.
  pose proof (Z.div_mod (r + Z.of_nat i) 4294967296 ltac:(lia)) as Di.
  pose proof (Z.div_mod (r + Z.of_nat j) 4294967296 ltac:(lia)) as Dj.
  rewrite E in Di.
  assert (Z.of_nat i - Z.of_nat j
          = 4294967296 * ((r + Z.of_nat i) / 4294967296 - (r + Z.of_nat j) / 4294967296))
    as Hd by lia.
  nia.
Qed.

(** Tokens that all ask for the SSRC [r], when the first [j] of the 100
    SSRCs from [r] are taken and the others free. *)
Lemma same_ssrc_tokens (w : world) (cfg : dictionary) (sname : string) (t : channel.t)
  (r : Z) (toks : list string) :
  r <> 0 ->
  Forall (fun tok => requested_ssrc w cfg sname tok = r
                     /\ SF_is_negative (parse_frequency w tok true) = false) toks ->
  forall (j : nat) (n : Z) (s : radiod),
    (j <= 100)%nat ->
    (forall i : nat, (i < j)%nat -> is_Some (Channel_list s !! probe_key r i)) ->
    (forall i : nat, (j <= i < 100)%nat -> Channel_list s !! probe_key r i = None) ->
    0 <= n -> n + Z.of_nat (length toks) <= INT_MAX ->
    0 <= Nchans s -> Nchans s + Z.of_nat (length toks) <= INT_MAX ->
    exists s',
      process_tokens w cfg sname t n toks s
      = Ret (n + Z.of_nat (length toks `min` (100 - j))) s'
      /\ Nchans s' = Nchans s + Z.of_nat (length toks `min` (100 - j))
      /\ (forall i : nat, (i < j)%nat ->
            Channel_list s' !! probe_key r i = Channel_list s !! probe_key r i)
      /\ (forall (i : nat) tok, (j + i < 100)%nat -> toks !! i = Some tok ->
            Channel_list s' !! probe_key r (j + i)
            = Some (started_channel t (probe_key r (j + i)) (parse_frequency w tok true)
                      (SAP_enable s) (RTCP_enable s)))
      /\ trace s' = (trace s
                     ++ replicate (length toks - (100 - j))
                          (Ev_stderr (Msg_cant_allocate_ssrc r (to_uint32 (r + 100)))))%list.
Proof.
  intros Hr Htoks. induction Htoks as [|tok toks [Hreq Hf] Hrest IH];
    intros j n s Hj Htaken Hfree Hn0 Hn HN0 HN.
  - exists s. cbn. rewrite Z.add_0_r, app_nil_r.
    split; [done|]. split; [lia|]. split; [done|]. split; [|done].
    intros i tok' _ H. by rewrite lookup_nil in H.
  - cbn [process_tokens length] in *.
    assert (forall z, 0 <= z <= INT_MAX -> in_int z = true) as Hin.
    { intros z Hz. apply in_int_between. unfold INT_MIN. lia. }
    destruct (decide (j = 100%nat)) as [->|Hlt].
    + (* every SSRC is taken: the token is refused *)
      assert (process_token w cfg sname t n tok s
              = Ret n (set_trace
                         (trace s ++ [Ev_stderr (Msg_cant_allocate_ssrc r (to_uint32 (r + 100)))])
                         s)) as Hrun.
      { pose proof (process_token_exhausted w cfg sname t n tok s) as Hex.
        cbv zeta in Hex. rewrite Hreq in Hex. apply Hex; [done | done |].
        intros i Hi. apply Htaken. unfold max_collisions in Hi. lia. }
      set (s1 := set_trace _ s) in Hrun.
      destruct (IH 100%nat n s1 ltac:(lia) Htaken Hfree ltac:(lia) ltac:(lia) HN0
                  ltac:(change (Nchans s1) with (Nchans s); lia))
        as (s' & Hrun' & HN' & Hkeep & _ & Htr).
      exists s'. rewrite (bind_Ret _ _ _ _ _ Hrun), Hrun'.
      replace (S (length toks) `min` (100 - 100))%nat with 0%nat by lia.
      replace (length toks `min` (100 - 100))%nat with 0%nat in * by lia.
      split; [done|]. split; [done|]. split; [done|]. split; [intros; lia|].
      rewrite Htr. unfold s1. rewrite trace_set_trace, <- app_assoc.
      replace (S (length toks) - (100 - 100))%nat with (S (length toks - (100 - 100)))%nat
        by lia.
      done.
    + (* the first free SSRC is the j-th *)
      assert (first_free s r j) as Hff.
      { split; [apply Hfree; lia | intros i Hi; by apply Htaken]. }
      pose proof (process_token_creates w cfg sname t n tok s j) as Hcr.
      cbv zeta in Hcr. rewrite Hreq in Hcr.
      destruct (Hcr Hf Hr ltac:(unfold max_collisions; lia) Hff
                  ltac:(apply Hin; lia) ltac:(apply Hin; lia))
        as (s1 & Hrun & Hc1 & HN1 & Htr1).
      pose proof (preserves_Ret _ _ _ _ _ (process_token_enables w cfg sname t n tok) Hrun)
        as He. injection He as Hsap Hrtcp.
      fold (probe_key r j) in Hc1.
      assert (forall i : nat, (i < S j)%nat -> is_Some (Channel_list s1 !! probe_key r i))
        as Htaken1.
      { intros i Hi. rewrite Hc1.
        destruct (decide (i = j)) as [->|Hne]; [rewrite lookup_insert_eq; eauto|].
        rewrite lookup_insert_ne by (intros E; apply probe_key_inj in E; lia).
        apply Htaken. lia. }
      assert (forall i : nat, (S j <= i < 100)%nat -> Channel_list s1 !! probe_key r i = None)
        as Hfree1.
      { intros i Hi. rewrite Hc1.
        rewrite lookup_insert_ne by (intros E; apply probe_key_inj in E; lia).
        apply Hfree. lia. }
      destruct (IH (S j) (n + 1) s1 ltac:(lia) Htaken1 Hfree1 ltac:(lia) ltac:(lia)
                  ltac:(lia) ltac:(lia))
        as (s' & Hrun' & HN' & Hkeep & Hnew & Htr).
      exists s'. rewrite (bind_Ret _ _ _ _ _ Hrun), Hrun'.
      replace (S (length toks) `min` (100 - j))%nat
        with (S (length toks `min` (100 - S j)))%nat by lia.
      split; [f_equal; lia|]. split; [lia|]. split; [|split].
      * intros i Hi. rewrite Hkeep by lia. rewrite Hc1.
        by rewrite lookup_insert_ne by (intros E; apply probe_key_inj in E; lia).
      * intros i tok' Hi Hl. destruct i as [|i].
        -- injection Hl as <-. rewrite Nat.add_0_r, Hkeep by lia.
           by rewrite Hc1, lookup_insert_eq.
        -- cbn in Hl. replace (j + S i)%nat with (S j + i)%nat by lia.
           rewrite (Hnew i tok') by (done || lia). by rewrite Hsap, Hrtcp.
      * rewrite Htr, Htr1. f_equal. f_equal. lia.
Qed.

(** X27.  A section with an [ssrc] entry [r] (not 0) and a list of
    frequencies: every frequency asks for the same SSRC, so with the 100
    SSRCs from [r] free the channels are registered at r, r+1, r+2, ... in
    the order of the list, and such a section starts at most 100 channels:
    each frequency after the 100th is refused with the message about the
    range. *)
Theorem explicit_ssrc_section (w : world) (cfg : dictionary) (sname v : string)
  (t : channel.t) (toks : list string) (n : Z) (s : radiod) :
  let r := to_uint32 (strtol w v) in
  config_lookup cfg sname "ssrc" = Some v -> r <> 0 ->
  Forall (fun tok => SF_is_negative (parse_frequency w tok true) = false) toks ->
  (forall i : nat, (i < 100)%nat -> Channel_list s !! to_uint32 (r + Z.of_nat i) = None) ->
  0 <= n -> n + Z.of_nat (length toks) <= INT_MAX ->
  0 <= Nchans s -> Nchans s + Z.of_nat (length toks) <= INT_MAX ->
  exists s',
    process_tokens w cfg sname t n toks s = Ret (n + Z.of_nat (length toks `min` 100)) s'
    /\ Nchans s' = Nchans s + Z.of_nat (length toks `min` 100)
    /\ (forall (i : nat) tok, (i < 100)%nat -> toks !! i = Some tok ->
          Channel_list s' !! to_uint32 (r + Z.of_nat i)
          = Some (started_channel t (to_uint32 (r + Z.of_nat i)) (parse_frequency w tok true)
                    (SAP_enable s) (RTCP_enable s)))
    /\ trace s' = (trace s
                   ++ replicate (length toks - 100)
                        (Ev_stderr (Msg_cant_allocate_ssrc r (to_uint32 (r + 100)))))%list.
Proof.
  intros r Hv Hr Hf Hfree Hn0 Hn HN0 HN.
  assert (Forall (fun tok => requested_ssrc w cfg sname tok = r
                             /\ SF_is_negative (parse_frequency w tok true) = false) toks)
    as Htoks.
  { eapply Forall_impl; [exact Hf|]. intros tok Ht. split; [|done].
    by apply requested_ssrc_explicit. }
  destruct (same_ssrc_tokens w cfg sname t r toks Hr Htoks 0 n s) as
    (s' & Hrun & HN' & _ & Hnew & Htr); try done; try lia.
  { intros i Hi. apply Hfree. lia. }
  exists s'. rewrite Nat.sub_0_r in *.
  split; [done|]. split; [done|]. split; [|done].
  intros i tok Hi Hl. by apply (Hnew i tok).
Qed.

Lemma explicit_ssrc_section_witness :
  let s := radiod_init FFTW_PATIENT 0 in
  let toks := ["7038600"; "10138700"; "14095600"] in
  let f := fun tok => parse_frequency example_world tok true in
  config_lookup example_config_ssrc "wspr" "ssrc" = Some "500"
  /\ to_uint32 (strtol example_world "500") = 500
  /\ Forall (fun tok => SF_is_negative (f tok) = false) toks
  /\ exists s',
       process_tokens example_world example_config_ssrc "wspr" channel.zero 0 toks s
       = Ret 3 s'
       /\ Nchans s' = 3
       /\ Channel_list s' !! 500 = Some (started_channel channel.zero 500 (f "7038600")
                                           false false)
       /\ Channel_list s' !! 501 = Some (started_channel channel.zero 501 (f "10138700")
                                           false false)
       /\ Channel_list s' !! 502 = Some (started_channel channel.zero 502 (f "14095600")
                                           false false).
Proof.
  intros s toks f.
  assert (config_lookup example_config_ssrc "wspr" "ssrc" = Some "500") as H1
    by (vm_compute; reflexivity).
  assert (to_uint32 (strtol example_world "500") = 500) as Er by (vm_compute; reflexivity).
  assert (to_uint32 (strtol example_world "500") <> 0) as H2 by (rewrite Er; lia).
  assert (Forall (fun tok => SF_is_negative (f tok) = false) toks) as H3
    by (repeat constructor).
  assert (forall i : nat, (i < 100)%nat ->
            Channel_list s !! to_uint32 (to_uint32 (strtol example_world "500") + Z.of_nat i)
            = None) as H4 by (intros i _; apply lookup_empty).
  destruct (explicit_ssrc_section example_world example_config_ssrc "wspr" "500"
              channel.zero toks 0 s H1 H2 H3 H4 ltac:(lia)
              ltac:(cbv [toks length INT_MAX Z.of_nat]; lia)
              ltac:(cbv [s radiod_init Nchans]; lia)
              ltac:(cbv [s radiod_init Nchans toks length INT_MAX Z.of_nat]; lia))
    as (s' & Hrun & HN & Hnew & _).
  rewrite Er in Hnew.
  refine (conj H1 (conj Er (conj H3 _))). exists s'.
  refine (conj Hrun (conj HN (conj _ (conj _ _)))).
  - exact (Hnew 0%nat "7038600" ltac:(lia) eq_refl).
  - exact (Hnew 1%nat "10138700" ltac:(lia) eq_refl).
  - exact (Hnew 2%nat "14095600" ltac:(lia) eq_refl).
Defined.

(* ================================================================= *)
(** ** A file without channel sections *)

(** X28.  The sections that start no channel are [global], the hardware
    section, every section with a [device] entry and every section whose
    [disable] entry is true.  On a file that has no other section
    [loadconfig], when it returns, returns the count of channels that it
    found and leaves the registry as it was: [radiod] then runs with the
    channels that are created over the control socket only. *)
Theorem no_channel_sections (w : world) (cfg : dictionary) (s s' : radiod) (n : Z) :
  let hardware := default "" (config_getstring cfg GLOBAL "hardware" None) in
  (forall sname, sname ∈ map fst cfg ->
     strcasecmp sname GLOBAL = 0 \/ strcasecmp sname hardware = 0
     \/ is_Some (config_lookup cfg sname "device")
     \/ config_getboolean cfg sname "disable" false = true) ->
  loadconfig w cfg s = Ret n s' ->
  n = Nchans s /\ Nchans s' = Nchans s /\ Channel_list s' = Channel_list s.
Proof.
  intros hardware Hall H.
  assert (filter (fun sname => is_channel_section cfg hardware sname = true) (map fst cfg) = [])
    as Hnone.
  { assert (forall l : list string, (forall x, x ∈ l -> x ∈ map fst cfg) ->
              filter (fun sname => is_channel_section cfg hardware sname = true) l = [])
      as Hl.
    { induction l as [|x l IH]; intros Hsub; [reflexivity|].
      rewrite filter_cons, IH by (intros y Hy; apply Hsub; by apply list_elem_of_further).
      rewrite decide_False; [reflexivity|].
      unfold is_channel_section, config_getstring.
      destruct (Hall x (Hsub x ltac:(apply list_elem_of_here))) as [E | [E | [E | E]]].
      - rewrite E. cbn. congruence.
      - rewrite E. cbn. rewrite andb_false_r. cbn. congruence.
      - destruct E as [d E]. rewrite E. rewrite bool_decide_eq_true_2 by eauto.
        cbn. rewrite andb_false_r. cbn. congruence.
      - rewrite E. cbn. rewrite andb_false_r. congruence. }
    apply Hl. auto. }
  rewrite loadconfig_split in H.
  apply bind_inv in H as (u1 & s1 & H1 & H).
  apply (preserves_Ret _ _ _ _ _ (startup_before_check_channels w cfg)) in H1.
  apply bind_inv in H as (u2 & s2 & H2 & H).
  apply (preserves_Ret _ _ _ _ _ (open_control_channels w)) in H2.
  unfold start_sections, section_threads in H. fold hardware in H. rewrite Hnone in H.
  cbn [map] in H. rewrite (bind_Ret _ _ _ _ _ (run_threads_nil _ _)) in H. unfold get in H.
  unfold channels_view in H1, H2. injection H1 as Hc1 Hn1. injection H2 as Hc2 Hn2.
  injection H as <- <-. split; [congruence|]. split; congruence.
Qed.

Lemma no_channel_sections_witness :
  let cfg := example_config_silent in
  let s := radiod_init FFTW_PATIENT 0 in
  (forall sname, sname ∈ map fst cfg ->
     strcasecmp sname GLOBAL = 0
     \/ strcasecmp sname (default "" (config_getstring cfg GLOBAL "hardware" None)) = 0
     \/ is_Some (config_lookup cfg sname "device")
     \/ config_getboolean cfg sname "disable" false = true)
  /\ loadconfig example_world cfg s = Ret 0 example_silent_final
  /\ 0 = Nchans s /\ Channel_list example_silent_final = Channel_list s.
Proof.
  intros cfg s.
  assert (forall sname, sname ∈ map fst cfg ->
            strcasecmp sname GLOBAL = 0
            \/ strcasecmp sname (default "" (config_getstring cfg GLOBAL "hardware" None)) = 0
            \/ is_Some (config_lookup cfg sname "device")
            \/ config_getboolean cfg sname "disable" false = true) as H1.
  { intros sname Hin. cbn in Hin.
    repeat (apply elem_of_cons in Hin as [-> | Hin]).
    - left. reflexivity.
    - right. left. reflexivity.
    - right. right. left. vm_compute. eauto.
    - right. right. right. vm_compute. reflexivity.
    - by apply elem_of_nil in Hin. }
  assert (loadconfig example_world cfg s = Ret 0 example_silent_final) as H2
    by (vm_compute; reflexivity).
  pose proof (no_channel_sections example_world cfg s example_silent_final 0 H1 H2)
    as (Ha & _ & Hb).
  exact (conj H1 (conj H2 (conj Ha Hb))).
Defined.
